(* ===== verification/_CoqProject ===== *)
-Q . S2P
Prelude.v
Ctype.v
Libc.v
Encoding.v
Containers.v
Config.v
ConfigFacts.v
LibcFacts.v
ConfigText.v
Names.v
IpcSpec.v
Showconf.v
Samples.v
ConfigCmdFacts.v
ConfigTheorems.v
ShowconfFacts.v
IpcUapi.v
IpcUapiFacts.v
Setconf.v
SetconfFacts.v
Ipc.v
Netlink.v
IpcLinux.v
NetlinkFacts.v
IpcLinuxFacts.v
IpcLinuxRead.v
IpcLinuxTheorems.v
IpcLinuxSafe.v
Packed.v
IpcOpenbsd.v
IpcOpenbsdFacts.v
IpcWindows.v
IpcWindowsFacts.v
IpcFreebsd.v
IpcFreebsdFacts.v
Terminal.v
Show.v
ShowFacts.v
Wg.v
WgFacts.v
Prime25519.v
X25519.v
FieldRep.v
Hacl64.v
Hacl64Facts.v
Hacl64Correct.v
Fiat32.v
Fiat32Facts.v
Fiat32Bytes.v
Fiat32Correct.v
Curve25519.v
Embed.v
EmbedField.v
EmbedKeys.v
EmbedNet.v
EmbedNetFacts.v
Highlighter.v
HighlighterFacts.v
Regex.v
RegexFacts.v
WgQuick.v
WgQuickSamples.v
WgQuickFacts.v
WgQuickConfig.v
WgQuickNet.v
WgQuickUsers.v
WgQuickShell.v
WgQuickLive.v
Elf.v
ElfFacts.v
