(* ===== verification/Prelude.v ===== *)
(** * WireGuard tools: a verification development

    The repository is an Android application around two programs: the Go
    implementation of WireGuard, which is a submodule, and the C tools [wg] and
    [wg-quick] under src/tunnel/tools/wireguard-tools. This development models
    the C tools. File names below are relative to
    src/tunnel/tools/wireguard-tools/src unless they start with contrib; elf-cleaner
    is src/tunnel/tools/elf-cleaner, a program the build runs on its libraries.

    ** The program

    [wg] (wg.c) dispatches to a subcommand. A subcommand reads a configuration
    (config.c: a file for setconf, addconf and syncconf, the command line for
    set) or prints one (showconf.c, show.c), and talks to an interface through
    ipc.h. ipc.c sends each operation to a userspace implementation when the
    interface has a socket (ipc-uapi.h, a text protocol) and to the kernel
    otherwise (ipc-linux.h over netlink.h, binary messages). All of them share
    the records of containers.h and the key codecs of encoding.c. genkey, genpsk
    and pubkey (genkey.c, pubkey.c) work on keys only, pubkey with one of the two
    implementations of Curve25519 (curve25519-hacl64.h, curve25519-fiat32.h). [wg-quick]
    (wg-quick/android.c) brings an interface up or down by running [wg], [ip],
    [ndc] and others on a configuration file. contrib/highlighter is
    the scanner the editors of the application use to colour configurations.

    ** Files, in order, and what they model

    - Prelude: machine integers, characters, bytes, loops; the [Platform] class
      (signedness of char, width of unsigned long), over which everything is
      quantified.
    - Ctype: ctype.h. Libc: the C library functions the tools call, written out,
      and the class [World] of what is not computation (name resolution, files,
      the environment). Encoding: encoding.c. Containers: containers.h.
    - Config: config.c, one definition per function, the line automaton with its
      pointers into the lists. ConfigFacts, LibcFacts, ConfigText,
      ConfigCmdFacts and ConfigTheorems: their lemmas and theorems.
    - Names: the laws of numeric address names, and a resolver that satisfies
      them. IpcSpec: ipc.h as a class, and what its clients rely on. Samples: a
      concrete device for the witnesses.
    - Showconf: showconf.c; ShowconfFacts: its text is read back by Config.
    - IpcUapi: ipc-uapi.h and ipc-uapi-unix.h; IpcUapiFacts: its theorems.
    - Setconf: setconf.c and set.c; SetconfFacts: what syncconf computes.
    - Ipc: ipc.c, an instance of the class of IpcSpec.
    - Netlink: netlink.h, messages as bytes, sockets as the class [NlKernel];
      IpcLinux: ipc-linux.h and the constants of
      uapi/linux/linux/wireguard.h. NetlinkFacts: what is written and what a
      walk over it sees; IpcLinuxFacts, IpcLinuxRead and IpcLinuxTheorems: a
      device is sent and arrives whole; IpcLinuxSafe: reading arbitrary bytes.
    - Terminal: terminal.c. Show: show.c; ShowFacts: its theorems. Wg: wg.c,
      genkey.c, pubkey.c and the clamping of curve25519.h; WgFacts: [wg] returns.
    - Highlighter: contrib/highlighter/highlighter.c and highlight.c;
      HighlighterFacts: its theorems.
    - Packed: structures laid out one after another in a buffer, with checked
      accesses; the loops over peers and allowed IPs that OpenBSD and Windows share,
      and the class [PackedLaws] under which they are inverse to each other.
      IpcOpenbsd, IpcWindows, IpcFreebsd: ipc-openbsd.h, ipc-windows.h and
      ipc-freebsd.h; IpcOpenbsdFacts, IpcWindowsFacts and IpcFreebsdFacts: their
      theorems.
    - Prime25519: 2^255 - 19 is prime (Pocklington). X25519: the function of RFC
      7748, the specification. FieldRep: what the inversion chain needs of an
      implementation, as a class. Hacl64: curve25519-hacl64.h; Hacl64Facts and
      Hacl64Correct: it computes X25519. Fiat32: curve25519-fiat32.h; Fiat32Facts,
      Fiat32Bytes and Fiat32Correct: it computes X25519. Curve25519: curve25519.c,
      which chooses one of them, and what genkey and pubkey print.
    - Embed, EmbedField, EmbedKeys: the keys of contrib/embeddable-wg-library, with
      a field of 16 signed limbs. EmbedNet, EmbedNetFacts: its devices over
      netlink, and how they relate to ipc-linux.h.
    - Regex: POSIX extended regular expressions, [regcomp] and [regexec] with
      leftmost-longest matches, as wg-quick uses them; RegexFacts: the language of
      a pattern and what a match says about the text.
    - WgQuick: wg-quick/android.c, the whole program. The programs it runs, binder
      and the bytes after a string are the class [Shell]; the model is a state
      monad that records the commands in order, with [exit] and the function
      registered with [atexit]. WgQuickSamples: a sample device. WgQuickFacts,
      WgQuickConfig, WgQuickNet, WgQuickUsers, WgQuickShell, WgQuickLive: its
      theorems.
    - Elf: elf-cleaner, which the build runs on its libraries: process_elf over the
      bytes of the file for both classes, parse_file, argmatch and main. ElfFacts:
      the table views of a file, the invariant of the loop over dynamic entries,
      and the theorem on the command of the build.


    State corresponds as follows. A linked list is the list of its nodes; a
    pointer into it is a position, [NULL] is [None]. A function that stores
    through an out parameter returns the value stored. [outcome] (Libc) has the
    results [Ret], [Exit], [NullDeref] for following a null pointer, and
    [NoFuel]. Buffers with a capacity that matters (the list of names in ipc.c,
    netlink messages) are lists with that capacity checked as the code does.
    Integers are Z with the wrap-around of their width written out.

    ** What the theorems show

    - Round trips: showconf then setconf; the userspace protocol set then get;
      the netlink messages of a device of any size; base64 and hex keys; the
      table of show dump.
    - Agreement with a specification: syncconf with setconf, the value parsers
      with their grammars, the host-bits check with arithmetic, sorting of peers,
      the colour filter, the printing of times, constant-time comparisons.
    - Safety and invariants on any input: reading a configuration file, a command
      line, a userspace reply or a netlink message follows no null pointer, stays
      in its buffer and builds values of the right shape.
    - Termination: [wg] returns whatever its arguments and input; endpoint
      resolution is retried a bounded number of times; a device is sent in a
      bounded number of messages.
    - Highlighting: the spans tile the text in order, and what is coloured as
      valid is accepted by the parser it stands for.
    - The ELF cleaner: on a file whose parts are inside it and apart, no access is
      outside, no unsupported entry is left and nothing else is lost or changed.
    - The kernels of OpenBSD, Windows and FreeBSD: the buffer is large enough for
      what is written, and what is set is what is got, IPv6 endpoints on OpenBSD
      excepted.
    - Curve25519: no word of either implementation overflows, their field
      operations are those modulo 2^255 - 19, and each computes X25519 on every
      secret and point; so [wg pubkey] prints the public key whichever is compiled.
    - The embeddable library: its public keys are those of the tools, a device it
      sets is the one the tools set and reads back, it gets the device the tools
      get unless a dump is interrupted.
    - wg-quick: a failure half-way removes the link; success of the programs is
      success of the command; the configuration is split as documented; the users
      of a tunnel are exactly those selected; addresses stay inside quotes; the
      buffers for name servers are large enough.
    - Faults: the places where the code does less than it seems are theorems too
      (show_follows_null, uapi_cidr_wraps, hostname_adjacent_dots,
      parse_peers_loses_error, coalesce_empty_fragment, mtu_ignores_endpoints,
      uid_list_reads_past, search_domain_unquoted, long_line_null,
      iface_name_is_pattern, conf_name_cut, freebsd_positive_error, dry_run_writes,
      empty_dynamic_reads_outside, api_level_null).

    ** Bounds and fuel

    Loops over a finite structure are Fixpoints on it. The other loops take fuel:
    walking attributes and messages is given the number of bytes left, since a
    turn consumes at least four; the loop over netlink messages is shown to end
    within [device_work] messages and one; endpoint resolution is shown to end
    within the retry count; loops that wait on an external party (datagrams from
    the kernel, retries without a bound) can run out of fuel only if that party
    keeps answering, and the theorems on them say so; drawing a network id takes as
    many turns as [random] gives ids that are too small. The message buffer has the
    size of a page up to 8192 bytes; 280 bytes are enough for progress, which a
    page of 4096 bytes exceeds.

    ** Assumptions

    The host is little-endian, as on every Android ABI. Allocation succeeds.
    Code that is not in the repository is a parameter with its documented laws:
    the resolver and [inet_pton] (classes [WorldOk], [NumericNames]), [qsort],
    the kernel behind a netlink socket ([NlKernel], [NlAcks]) or behind the ioctls of
    other systems ([WgIoctl], [WgDevice], [FbsdIoctl]), libnv ([Nvlist]), the server behind
    a userspace socket, the programs wg-quick runs ([Shell]). What a program
    prints is fixed when it is started. Each class of laws has an instance, so that every theorem
    has a witness.

    ** Not modelled

    Text written to stderr. The socket system calls behind netlink.h. The Setup
    API of Windows (listing interfaces and opening one in ipc-windows.h) and its
    named pipes (ipc-uapi-windows.h). Fuzzers, stand-alone examples and platform shims; the JNI bridge and
    the Java and Kotlin code of the application. Of wg-quick: text on the
    terminal, [fstat], failures of allocation and of [getline], and the loading
    of libbinder (its result is a parameter). *)

From Stdlib Require Export ZArith Lia Ascii String.
From stdpp Require Export base option numbers decidable strings list.

#[global] Open Scope Z_scope.

(** ** Platform

    The two implementation-defined facts of the C compiler the sources depend
    on: whether plain [char] is signed (x86: yes, ARM Android: no) and the
    width of [unsigned long] (32 on 32-bit Android ABIs, 64 otherwise). Every
    theorem is stated for an arbitrary platform unless it says otherwise. *)
Class Platform := {
  char_signed : bool;
  ulong_bits : Z;
  ulong_bits_cases : ulong_bits = 32 \/ ulong_bits = 64
}.

(** The two platforms the Android build ships for, used by witnesses. *)
Definition arm32 : Platform :=
  {| char_signed := false; ulong_bits := 32; ulong_bits_cases := or_introl eq_refl |}.
Definition arm64 : Platform :=
  {| char_signed := false; ulong_bits := 64; ulong_bits_cases := or_intror eq_refl |}.
Definition x86_64 : Platform :=
  {| char_signed := true; ulong_bits := 64; ulong_bits_cases := or_intror eq_refl |}.

(** ** Machine integers: values of Z with the wrap-around written out *)
Definition u8 (z : Z) : Z := z mod 2 ^ 8.
Definition u16 (z : Z) : Z := z mod 2 ^ 16.
Definition u32 (z : Z) : Z := z mod 2 ^ 32.
Definition u64 (z : Z) : Z := z mod 2 ^ 64.
Definition s32 (z : Z) : Z := (z + 2 ^ 31) mod 2 ^ 32 - 2 ^ 31.
Definition s64 (z : Z) : Z := (z + 2 ^ 63) mod 2 ^ 64 - 2 ^ 63.

Definition is_byte (z : Z) : Prop := 0 <= z < 256.
Definition INT_MAX : Z := 2 ^ 31 - 1.
Definition INT_MIN : Z := - 2 ^ 31.
Definition UINT32_MAX : Z := 2 ^ 32 - 1.

Lemma u8_small z : 0 <= z < 256 -> u8 z = z.
Proof. intros. apply Z.mod_small. lia. Qed.
Lemma u8_range z : is_byte (u8 z).
Proof. apply Z.mod_pos_bound. lia. Qed.
Lemma u16_small z : 0 <= z < 2 ^ 16 -> u16 z = z.
Proof. intros. apply Z.mod_small. lia. Qed.
Lemma u32_small z : 0 <= z < 2 ^ 32 -> u32 z = z.
Proof. intros. apply Z.mod_small. lia. Qed.
Lemma u64_small z : 0 <= z < 2 ^ 64 -> u64 z = z.
Proof. intros. apply Z.mod_small. lia. Qed.
Lemma s32_small z : - 2 ^ 31 <= z < 2 ^ 31 -> s32 z = z.
Proof. intros. unfold s32. rewrite Z.mod_small; lia. Qed.
Lemma s64_small z : - 2 ^ 63 <= z < 2 ^ 63 -> s64 z = z.
Proof. intros. unfold s64. rewrite Z.mod_small; lia. Qed.

Create HintDb cint.
Create Rewrite HintDb cint_rw.
#[export] Hint Resolve u8_range : cint.
#[export] Hint Rewrite u8_small u16_small u32_small u64_small s32_small s64_small
  using lia : cint_rw.

(** ** Characters and C strings

    A C string is the list of its characters before the terminating NUL; a
    character is one of the 256 values of a byte. *)
Abbreviation cstring := (list ascii).
Definition str (s : string) : cstring := list_ascii_of_string s.
Definition NUL : ascii := ascii_of_nat 0.

(** The value of a character as an [unsigned char], and as a [char]
    promoted to [int] on the platform. *)
Definition uchar (c : ascii) : Z := Z.of_N (N_of_ascii c).
Definition char_int `{Platform} (c : ascii) : Z :=
  if char_signed && (128 <=? uchar c) then uchar c - 256 else uchar c.
(** Storing an integer in a [char]. *)
Definition to_char (z : Z) : ascii := ascii_of_N (Z.to_N (u8 z)).
(** Reading [s[i]]: the terminating NUL is read at the end of the string. *)
Definition cget (s : cstring) (i : nat) : ascii := nth i s NUL.
Definition strlen (s : cstring) : Z := Z.of_nat (length s).

Definition all_chars : list ascii := map ascii_of_nat (seq 0 256).

Lemma all_chars_complete c : In c all_chars.
Proof.
  unfold all_chars. apply in_map_iff. exists (nat_of_ascii c). split.
  - apply ascii_nat_embedding.
  - apply in_seq. pose proof (nat_ascii_bounded c). lia.
Qed.

(** Exhaustive case analysis over the 256 characters, by computation. *)
Lemma char_forall (P : ascii -> bool) :
  forallb P all_chars = true -> forall c, P c = true.
Proof. intros HP c. rewrite forallb_forall in HP. apply HP, all_chars_complete. Qed.

Definition all_bytes : list Z := map Z.of_nat (seq 0 256).

Lemma byte_forall (P : Z -> bool) :
  forallb P all_bytes = true -> forall z, is_byte z -> P z = true.
Proof.
  intros HP z Hz. rewrite forallb_forall in HP. apply HP.
  unfold all_bytes. apply in_map_iff. exists (Z.to_nat z). unfold is_byte in Hz.
  split; [lia|]. apply in_seq. lia.
Qed.

Lemma uchar_range c : is_byte (uchar c).
Proof.
  unfold is_byte, uchar. pose proof (N_ascii_bounded c). lia.
Qed.

Lemma to_char_uchar c : to_char (uchar c) = c.
Proof.
  unfold to_char. rewrite u8_small by apply uchar_range.
  unfold uchar. rewrite N2Z.id. apply ascii_N_embedding.
Qed.

Lemma uchar_to_char z : is_byte z -> uchar (to_char z) = z.
Proof.
  unfold is_byte. intros. unfold uchar, to_char. rewrite u8_small by lia.
  rewrite N_ascii_embedding by lia. lia.
Qed.

Lemma uchar_inj c d : uchar c = uchar d -> c = d.
Proof. intros E. rewrite <- (to_char_uchar c), <- (to_char_uchar d). by rewrite E. Qed.
#[export] Instance uchar_Inj : Inj (=) (=) uchar.
Proof. intros c d. apply uchar_inj. Qed.

(** The promoted value determines the character, on either platform. *)
Lemma to_char_char_int `{Platform} c : to_char (char_int c) = c.
Proof.
  rewrite <- (to_char_uchar c) at 2. unfold char_int.
  destruct (char_signed && (128 <=? uchar c)); [|done].
  unfold to_char. do 2 f_equal. unfold u8.
  replace (uchar c - 256) with (uchar c + (-1) * 2 ^ 8) by lia.
  by rewrite Z_mod_plus_full.
Qed.

#[export] Hint Resolve uchar_range : cint.
#[export] Hint Rewrite to_char_uchar @to_char_char_int : cint_rw.

(** ** Bit operations *)

(** Joining disjoint bit fields is addition. *)
Lemma lor_shiftl_add a b k :
  0 <= k -> 0 <= b < 2 ^ k -> Z.lor (Z.shiftl a k) b = a * 2 ^ k + b.
Proof.
  intros Hk Hb. rewrite <- Z.shiftl_mul_pow2 by lia.
  symmetry. rewrite Z.add_nocarry_lxor.
  - apply Z.bits_inj'. intros n Hn. rewrite Z.lxor_spec, Z.lor_spec.
    destruct (Z.lt_ge_cases n k).
    + rewrite Z.shiftl_spec_low by lia. by destruct (Z.testbit b n).
    + replace (Z.testbit b n) with false; [by destruct (Z.testbit _ n)|].
      rewrite <- (Z.mod_small b (2 ^ k)) by lia.
      by rewrite Z.mod_pow2_bits_high by lia.
  - apply Z.bits_inj'. intros n Hn. rewrite Z.land_spec, Z.bits_0.
    destruct (Z.lt_ge_cases n k).
    + by rewrite Z.shiftl_spec_low by lia.
    + replace (Z.testbit b n) with false; [by destruct (Z.testbit _ n)|].
      rewrite <- (Z.mod_small b (2 ^ k)) by lia.
      by rewrite Z.mod_pow2_bits_high by lia.
Qed.

(** Masking with 2^k - 1 is a remainder. *)
Lemma land_mask a m k : 0 <= k -> m = 2 ^ k - 1 -> Z.land a m = a mod 2 ^ k.
Proof. intros Hk ->. rewrite Z.sub_1_r, <- Z.ones_equiv. by apply Z.land_ones. Qed.

(** A k-bit two's complement value is one whose arithmetic shift by k is 0 or -1,
    which bitwise conjunction and disjunction preserve. *)
Lemma shiftr_signed x k :
  0 <= k -> - 2 ^ k <= x < 2 ^ k <-> Z.shiftr x k = 0 \/ Z.shiftr x k = -1.
Proof.
  intros Hk. rewrite Z.shiftr_div_pow2 by done.
  pose proof (Z.div_mod x (2 ^ k) ltac:(lia)).
  pose proof (Z.mod_pos_bound x (2 ^ k) ltac:(lia)). split; nia.
Qed.

Lemma land_range a b k :
  0 <= k -> - 2 ^ k <= a < 2 ^ k -> - 2 ^ k <= b < 2 ^ k -> - 2 ^ k <= Z.land a b < 2 ^ k.
Proof.
  intros Hk. rewrite !(shiftr_signed _ k) by done. rewrite Z.shiftr_land.
  intros [-> | ->] [-> | ->]; simpl; auto.
Qed.

Lemma lor_range a b k :
  0 <= k -> - 2 ^ k <= a < 2 ^ k -> - 2 ^ k <= b < 2 ^ k -> - 2 ^ k <= Z.lor a b < 2 ^ k.
Proof.
  intros Hk. rewrite !(shiftr_signed _ k) by done. rewrite Z.shiftr_lor.
  intros [-> | ->] [-> | ->]; simpl; auto.
Qed.

Lemma lor_eq_0 a b : Z.lor a b = 0 <-> a = 0 /\ b = 0.
Proof. split; [apply Z.lor_eq_0_iff|]. by intros [-> ->]. Qed.

(** Bytes are closed under disjunction. *)
Lemma byte_lor a b : is_byte a -> is_byte b -> is_byte (Z.lor a b).
Proof.
  unfold is_byte. intros. pose proof (lor_range a b 8).
  assert (0 <= Z.lor a b) by (apply Z.lor_nonneg; lia). lia.
Qed.

(** [has_flag] tests the bits a C condition [x & m] tests. *)
Definition has_flag (flags m : Z) : bool := negb (Z.land flags m =? 0).

(** ** Lists *)
Lemma filter_Permutation {A} (f : A -> bool) l l' :
  Permutation l l' -> Permutation (List.filter f l) (List.filter f l').
Proof.
  induction 1 as [|x l l' _ IH|x y l|l1 l2 l3 _ IH1 _ IH2]; simpl.
  - done.
  - destruct (f x); [by constructor|done].
  - destruct (f x), (f y); try done. constructor.
  - by etransitivity.
Qed.

(** ** Counted loops: [for (i = 0; i < n; ++i) body] *)
Fixpoint for_from {S : Type} (i n : nat) (body : nat -> S -> S) (s : S) : S :=
  match n with
  | O => s
  | Datatypes.S n' => for_from (Datatypes.S i) n' body (body i s)
  end.
Definition for_upto {S : Type} (n : nat) (body : nat -> S -> S) (s : S) : S :=
  for_from 0 n body s.

(** A property the body preserves holds after the loop. *)
Lemma for_upto_ind {S : Type} (Inv : nat -> S -> Prop) n body s :
  Inv 0%nat s -> (forall i s, (i < n)%nat -> Inv i s -> Inv (Datatypes.S i) (body i s)) ->
  Inv n (for_upto n body s).
Proof.
  intros H0 Hstep. unfold for_upto.
  assert (H : forall k i s, (i + k = n)%nat -> Inv i s -> Inv n (for_from i k body s)).
  { induction k as [|k IH]; intros i s' Hi Hs; simpl.
    - by replace n with i by lia.
    - apply IH; [lia|]. apply Hstep; [lia|done]. }
  apply H; [lia|done].
Qed.

(** ** Little-endian numbers *)

(** The number a list of bytes stands for, its first byte the lowest. *)
Fixpoint le_number (l : list Z) : Z :=
  match l with [] => 0 | b :: l => b + 256 * le_number l end.

Lemma le_number_app a b : le_number (a ++ b) = le_number a + 256 ^ Z.of_nat (length a) * le_number b.
Proof.
  induction a as [|x a IH]; cbn [app le_number length].
  - change (Z.of_nat 0) with 0. rewrite Z.pow_0_r. lia.
  - rewrite IH, Nat2Z.inj_succ, Z.pow_succ_r by lia. ring.
Qed.

Lemma le_number_range l : Forall is_byte l -> 0 <= le_number l < 256 ^ Z.of_nat (length l).
Proof.
  induction 1 as [|b l Hb _ IH]; cbn [le_number length]; [change (Z.of_nat 0) with 0; lia|].
  unfold is_byte in Hb. rewrite Nat2Z.inj_succ, Z.pow_succ_r by lia. lia.
Qed.

(** The lowest [n] bytes of a number. *)
Fixpoint le_bytes (n : nat) (z : Z) : list Z :=
  match n with O => [] | S n => z mod 256 :: le_bytes n (z / 256) end.

Lemma le_bytes_length n z : length (le_bytes n z) = n.
Proof. revert z. induction n; intros z; simpl; [done|]. by rewrite IHn. Qed.

Lemma le_bytes_range n z : Forall is_byte (le_bytes n z).
Proof.
  revert z. induction n; intros z; simpl; constructor; [|done]. apply Z.mod_pos_bound. lia.
Qed.

Lemma le_number_bytes n z : le_number (le_bytes n z) = z mod 256 ^ Z.of_nat n.
Proof.
  revert z. induction n as [|n IH]; intros z; cbn [le_bytes le_number].
  - change (256 ^ Z.of_nat 0) with 1. by rewrite Z.mod_1_r.
  - rewrite IH, Nat2Z.inj_succ, Z.pow_succ_r, Z.rem_mul_r by lia. lia.
Qed.
