(* ===== verification/Ctype.v ===== *)
(** * Character classes (src/ctype.h)

    The branch-free re-implementations of [isspace], [isdigit] and [isalpha],
    transcribed with C's integer conversions, and the proof that they decide
    the classes of the C locale. *)
From S2P Require Import Prelude.

Module Ctype.

(** [unsigned char d = c - 9; return (0x80001FU >> (d & 31)) & (1U >> (d >> 5));] *)
Definition char_is_space (c : Z) : bool :=
  let d := u8 (c - 9) in
  negb (Z.land (Z.shiftr 0x80001F (Z.land d 31)) (Z.shiftr 1 (Z.shiftr d 5)) =? 0).

(** [(unsigned int)(('0' - 1 - c) & (c - ('9' + 1))) >> 31] *)
Definition char_is_digit (c : Z) : bool :=
  negb (Z.shiftr (u32 (Z.land (48 - 1 - c) (c - (57 + 1)))) 31 =? 0).

(** [(unsigned int)(('a' - 1 - (c | 32)) & ((c | 32) - ('z' + 1))) >> 31] *)
Definition char_is_alpha (c : Z) : bool :=
  negb (Z.shiftr (u32 (Z.land (97 - 1 - Z.lor c 32) (Z.lor c 32 - (122 + 1)))) 31 =? 0).

(** The classes, as sets of character codes. *)
Definition space_spec (c : Z) : bool := ((9 <=? c) && (c <=? 13)) || (c =? 32).
Definition digit_spec (c : Z) : bool := (48 <=? c) && (c <=? 57).
Definition alpha_spec (c : Z) : bool :=
  ((65 <=? c) && (c <=? 90)) || ((97 <=? c) && (c <=? 122)).

(** The sign bit of a 32-bit integer. *)
Lemma sign_bit z :
  - 2 ^ 31 <= z < 2 ^ 31 -> negb (Z.shiftr (u32 z) 31 =? 0) = (z <? 0).
Proof.
  intros Hz. rewrite Z.shiftr_div_pow2 by lia. unfold u32.
  destruct (Z.ltb_spec z 0).
  - replace (z mod 2 ^ 32) with (z + 2 ^ 32)
      by (rewrite <- (Z_mod_plus_full z 1), Z.mod_small; lia).
    replace ((z + 2 ^ 32) / 2 ^ 31) with 1; [done|].
    apply Z.div_unique with (z + 2 ^ 31); lia.
  - rewrite Z.mod_small by lia. by rewrite Z.div_small by lia.
Qed.

(** Both operands negative is what [a & b] having its sign bit set means. *)
Lemma land_sign a b :
  - 2 ^ 31 <= a < 2 ^ 31 -> - 2 ^ 31 <= b < 2 ^ 31 ->
  negb (Z.shiftr (u32 (Z.land a b)) 31 =? 0) = (a <? 0) && (b <? 0).
Proof.
  intros Ha Hb. rewrite sign_bit by (apply land_range; lia).
  pose proof (Z.land_neg a b). lia.
Qed.

Lemma char_is_digit_int c :
  - 2 ^ 31 + 64 <= c < 2 ^ 31 - 64 -> char_is_digit c = digit_spec c.
Proof. intros Hc. unfold char_is_digit, digit_spec. rewrite land_sign; lia. Qed.

Section Chars.
Context `{P : Platform}.

(** The three predicates on a [char] passed as [int], on either platform. *)
Lemma char_is_space_char c : char_is_space (char_int c) = space_spec (uchar c).
Proof.
  apply Bool.eqb_prop. unfold char_int. destruct char_signed; simpl andb; revert c;
    apply char_forall; vm_compute; reflexivity.
Qed.

Lemma char_is_digit_char c : char_is_digit (char_int c) = digit_spec (uchar c).
Proof.
  apply Bool.eqb_prop. unfold char_int. destruct char_signed; simpl andb; revert c;
    apply char_forall; vm_compute; reflexivity.
Qed.

Lemma char_is_alpha_char c : char_is_alpha (char_int c) = alpha_spec (uchar c).
Proof.
  apply Bool.eqb_prop. unfold char_int. destruct char_signed; simpl andb; revert c;
    apply char_forall; vm_compute; reflexivity.
Qed.

(** Whether plain [char] is signed or not, the branch-free predicates decide the
    white space, the digits and the letters of the C locale. *)
Theorem ctype_correct c :
  char_is_space (char_int c) = space_spec (uchar c) /\
  char_is_digit (char_int c) = digit_spec (uchar c) /\
  char_is_alpha (char_int c) = alpha_spec (uchar c).
Proof.
  split; [apply char_is_space_char|]. split; [apply char_is_digit_char|apply char_is_alpha_char].
Qed.

End Chars.

#[export] Hint Rewrite @char_is_space_char @char_is_digit_char @char_is_alpha_char : cint_rw.

End Ctype.
