(* ===== verification/Libc.v ===== *)
(** * The C library the tools rely on

    String and number functions of the C standard library as the sources use
    them (strtoul, strchr, strsep, strcasecmp, ...), written out, and the
    services that are not part of it (name resolution, address presentation,
    the file system, the environment) as the fields of a class, so that every
    definition that uses them takes them as a parameter. *)
From S2P Require Import Prelude.

(** ** Outcomes: a call returns, terminates the process, dereferences a null
    pointer, or is cut off by the fuel given to a retry loop. *)
Inductive outcome (A : Type) : Type :=
| Ret (a : A)
| Exit (code : Z)
| NullDeref
| NoFuel.
Arguments Ret {A} a.
Arguments Exit {A} code.
Arguments NullDeref {A}.
Arguments NoFuel {A}.

#[export] Instance outcome_ret : MRet outcome := fun A a => Ret a.
#[export] Instance outcome_bind : MBind outcome := fun A B f o =>
  match o with Ret a => f a | Exit c => Exit c | NullDeref => NullDeref | NoFuel => NoFuel end.

Module Libc.

(** ** Characters of the C locale *)
Definition isspace (c : ascii) : bool :=
  ((9 <=? uchar c) && (uchar c <=? 13)) || (uchar c =? 32).
Definition tolower (c : ascii) : ascii :=
  if (65 <=? uchar c) && (uchar c <=? 90) then to_char (uchar c + 32) else c.

(** [!strcmp(a, b)] and [!strcasecmp(a, b)]. *)
Definition str_eq (a b : cstring) : bool := bool_decide (a = b).
Definition strcase_eq (a b : cstring) : bool := bool_decide (map tolower a = map tolower b).
(** [!strncmp] and [!strncasecmp] of the first [n] characters. *)
Definition strncase_eq (a b : cstring) (n : nat) : bool :=
  bool_decide (map tolower (take n a) = map tolower (take n b)).

(** [strchr]: the suffix that starts with the first occurrence. *)
Fixpoint strchr (s : cstring) (c : ascii) : option cstring :=
  match s with
  | [] => None
  | x :: r => if Ascii.eqb x c then Some s else strchr r c
  end.

(** Splitting at the first occurrence: what is before it, and what is after it
    ([None] when it does not occur), which is what [strsep] with a one
    character delimiter leaves in its two pointers. *)
Fixpoint strsep (s : cstring) (c : ascii) : cstring * option cstring :=
  match s with
  | [] => ([], None)
  | x :: r => if Ascii.eqb x c then ([], Some r)
              else let '(a, b) := strsep r c in (x :: a, b)
  end.

(** The tokens a [while ((tok = strsep(&s, ",")))] loop visits. *)
Fixpoint tokens (s : cstring) (c : ascii) : list cstring :=
  match s with
  | [] => [[]]
  | x :: r => if Ascii.eqb x c then [] :: tokens r c
              else match tokens r c with
                   | t :: ts => (x :: t) :: ts
                   | [] => [[x]]
                   end
  end.

(** Splitting at the last occurrence, as [strrchr] followed by storing a NUL
    there does: the text before and the text after. *)
Fixpoint split_last (s : cstring) (c : ascii) : option (cstring * cstring) :=
  match s with
  | [] => None
  | x :: r =>
      match split_last r c with
      | Some (a, b) => Some (x :: a, b)
      | None => if Ascii.eqb x c then Some ([], r) else None
      end
  end.

(** The C string a character buffer holds: what precedes the first NUL. *)
Fixpoint cut_nul (s : list ascii) : cstring :=
  match s with
  | [] => []
  | x :: r => if Ascii.eqb x NUL then [] else x :: cut_nul r
  end.

(** The lines [getline] returns one after the other: each up to and including
    its newline, the last one possibly without. *)
Definition NL : ascii := ascii_of_nat 10.
Fixpoint getlines (s : list ascii) : list (list ascii) :=
  match s with
  | [] => []
  | c :: r => if Ascii.eqb c NL then [c] :: getlines r
              else match getlines r with
                   | [] => [[c]]
                   | l :: ls => (c :: l) :: ls
                   end
  end.

(** ** Number conversion *)

Definition digit_value (c : ascii) : option Z :=
  let z := uchar c in
  if (48 <=? z) && (z <=? 57) then Some (z - 48)
  else if (97 <=? z) && (z <=? 122) then Some (z - 87)
  else if (65 <=? z) && (z <=? 90) then Some (z - 55)
  else None.
Definition digit_in (base : Z) (c : ascii) : option Z :=
  match digit_value c with
  | Some d => if d <? base then Some d else None
  | None => None
  end.

(** The longest run of digits: the number it denotes and what follows. *)
Fixpoint scan_digits (base : Z) (acc : Z) (s : cstring) : Z * cstring :=
  match s with
  | [] => (acc, [])
  | c :: r => match digit_in base c with
              | Some d => scan_digits base (acc * base + d) r
              | None => (acc, s)
              end
  end.

Fixpoint skip_space (s : cstring) : cstring :=
  match s with
  | [] => []
  | c :: r => if isspace c then skip_space r else s
  end.

(** The subject sequence of [strtoul] and relatives: sign, magnitude and the
    rest; [None] when no conversion is performed. *)
Definition strto_subject (s : cstring) (base : Z) : option (bool * Z * cstring) :=
  let s := skip_space s in
  let '(neg, s) :=
    match s with
    | c :: r => if Ascii.eqb c "-" then (true, r) else if Ascii.eqb c "+" then (false, r) else (false, s)
    | [] => (false, s)
    end in
  let s :=
    match s with
    | z :: x :: d :: _ =>
        if (base =? 16) && Ascii.eqb z "0" && (Ascii.eqb x "x" || Ascii.eqb x "X")
           && bool_decide (is_Some (digit_in 16 d))
        then drop 2 s else s
    | _ => s
    end in
  match s with
  | c :: _ => match digit_in base c with
              | Some _ => let '(v, rest) := scan_digits base 0 s in Some (neg, v, rest)
              | None => None
              end
  | [] => None
  end.

(** An unsigned conversion of [bits] bits: the value (saturated on overflow,
    negated modulo 2^bits after a minus sign) and what [*end] points to. *)
Definition strtou (bits : Z) (s : cstring) (base : Z) : Z * cstring :=
  match strto_subject s base with
  | Some (neg, v, rest) =>
      (if 2 ^ bits <=? v then 2 ^ bits - 1
       else if neg then (- v) mod 2 ^ bits else v, rest)
  | None => (0, s)
  end.
Definition strtoul `{Platform} (s : cstring) (base : Z) : Z * cstring := strtou ulong_bits s base.
Definition strtoull (s : cstring) (base : Z) : Z * cstring := strtou 64 s base.
Definition strtoll (s : cstring) (base : Z) : Z * cstring :=
  match strto_subject s base with
  | Some (neg, v, rest) =>
      let z := if neg then - v else v in
      (Z.max (- 2 ^ 63) (Z.min (2 ^ 63 - 1) z), rest)
  | None => (0, s)
  end.

(** ** Printing numbers: [%u], [%d] of a non-negative value, [%x] *)
Definition digit_char (d : Z) : ascii := if d <? 10 then to_char (48 + d) else to_char (87 + d).

Fixpoint print_digits (fuel : nat) (base n : Z) (acc : cstring) : cstring :=
  match fuel with
  | O => acc
  | S fuel =>
      let acc := digit_char (n mod base) :: acc in
      if n / base =? 0 then acc else print_digits fuel base (n / base) acc
  end.
(** 64 digits are enough for any value below 2^64 in base 2 or more. *)
Definition print_u (n : Z) : cstring := print_digits 64 10 n [].
Definition print_x (n : Z) : cstring := print_digits 64 16 n [].

End Libc.

(** ** Services outside the program *)

Definition AF_UNSPEC : Z := 0.
Definition AF_INET : Z := 2.
Definition AF_INET6 : Z := 10.

(** A socket address: the family, the port in host order, and the address
    bytes (4 or 16) with the IPv6 flow label and scope. *)
Record sockaddr := {
  sa_family : Z;
  sa_port : Z;
  sa_addr : list Z;
  sa_flowinfo : Z;
  sa_scope_id : Z
}.
Definition zero_sockaddr : sockaddr :=
  {| sa_family := 0; sa_port := 0; sa_addr := replicate 16 0; sa_flowinfo := 0; sa_scope_id := 0 |}.

Definition sizeof_sockaddr_in : Z := 16.
Definition sizeof_sockaddr_in6 : Z := 28.

(** The part of a [struct addrinfo] the sources read. *)
Record addrinfo := { ai_family : Z; ai_addrlen : Z; ai_addr : sockaddr }.

(** The result of [getaddrinfo]: the error codes the sources tell apart. *)
Inductive gai_error := EAI_NONAME | EAI_FAIL | EAI_NODATA | EAI_OTHER.
#[export] Instance gai_error_eq_dec : EqDecision gai_error.
Proof. solve_decision. Defined.

Inductive gai_result :=
| GaiOk (resolved : addrinfo)
| GaiErr (e : gai_error).

(** A readable file: its bytes, and whether reading past them reports an error
    instead of end of file. *)
Record file := { f_bytes : list ascii; f_error : bool }.

Class World := {
  (** [inet_pton(family, text, dst) == 1] with the bytes written. *)
  inet_pton : Z -> cstring -> option (list Z);
  (** [inet_ntop]. *)
  inet_ntop : Z -> list Z -> option cstring;
  (** [getaddrinfo(node, service, hints)]; the number is the attempt, since a
      resolver may answer differently each time it is asked. *)
  getaddrinfo : nat -> option cstring -> cstring -> gai_result;
  (** [getnameinfo(addr, NI_DGRAM | NI_NUMERICSERV | NI_NUMERICHOST)]: host
      and service text. *)
  getnameinfo : sockaddr -> option (cstring * cstring);
  (** [getenv]. *)
  getenv : cstring -> option cstring;
  (** [fopen(path, "r")] and the contents. *)
  fopen : cstring -> option file
}.
