(* ===== verification/Encoding.v ===== *)
(** * Key encodings (src/encoding.c, src/encoding.h)

    The constant-time base64 and hex codecs for 32-byte keys, transcribed
    expression by expression with C's promotions, shifts and conversions. *)
From S2P Require Import Prelude.

Definition WG_KEY_LEN : nat := 32.
Definition WG_KEY_LEN_BASE64 : nat := ((WG_KEY_LEN + 2) / 3) * 4 + 1.
Definition WG_KEY_LEN_HEX : nat := WG_KEY_LEN * 2 + 1.

(** A key is an array of [WG_KEY_LEN] bytes. *)
Definition wf_key (k : list Z) : Prop := length k = WG_KEY_LEN /\ Forall is_byte k.
Definition zero_key : list Z := replicate WG_KEY_LEN 0.

Module Encoding.

Section Codec.
Context `{P : Platform}.

(** One sextet to one character. *)
Definition encode_sextet (x : Z) : ascii :=
  to_char (x + 65
           + Z.land (Z.shiftr (25 - x) 8) 6
           - Z.land (Z.shiftr (51 - x) 8) 75
           - Z.land (Z.shiftr (61 - x) 8) 15
           + Z.land (Z.shiftr (62 - x) 8) 3).

(** [encode_base64]: three source bytes to four characters. *)
Definition encode_base64 (src0 src1 src2 : Z) : list ascii :=
  let input :=
    [u8 (Z.land (Z.shiftr src0 2) 63);
     u8 (Z.land (Z.lor (Z.shiftl src0 4) (Z.shiftr src1 4)) 63);
     u8 (Z.land (Z.lor (Z.shiftl src1 2) (Z.shiftr src2 6)) 63);
     u8 (Z.land src2 63)] in
  map encode_sextet input.

Definition byte_at (key : list Z) (i : nat) : Z := nth i key 0.

(** [key_to_base64]: the contents written to the buffer, terminating NUL
    included. *)
Definition key_to_base64_buf (base64 : list ascii) (key : list Z) : list ascii :=
  let b := for_upto (WG_KEY_LEN / 3)
    (fun i b => list_inserts (i * 4)
      (encode_base64 (byte_at key (i * 3)) (byte_at key (i * 3 + 1)) (byte_at key (i * 3 + 2))) b)
    base64 in
  let i := (WG_KEY_LEN / 3)%nat in
  let b := list_inserts (i * 4)
    (encode_base64 (byte_at key (i * 3 + 0)) (byte_at key (i * 3 + 1)) 0) b in
  let b := <[(WG_KEY_LEN_BASE64 - 2)%nat := "="%char]> b in
  <[(WG_KEY_LEN_BASE64 - 1)%nat := NUL]> b.

(** The C string a freshly declared buffer holds after the call. *)
Definition key_to_base64 (key : list Z) : cstring :=
  take (WG_KEY_LEN_BASE64 - 1) (key_to_base64_buf (replicate WG_KEY_LEN_BASE64 NUL) key).

(** The sum of [decode_base64]'s masks for one character: -1 when the
    character is not in the alphabet. *)
Definition decode_sextet (c : ascii) : Z :=
  let s := char_int c in
  -1
  + Z.land (Z.shiftr (Z.land ((65 - 1) - s) (s - (90 + 1))) 8) (s - 64)
  + Z.land (Z.shiftr (Z.land ((97 - 1) - s) (s - (122 + 1))) 8) (s - 70)
  + Z.land (Z.shiftr (Z.land ((48 - 1) - s) (s - (57 + 1))) 8) (s + 5)
  + Z.land (Z.shiftr (Z.land ((43 - 1) - s) (s - (43 + 1))) 8) 63
  + Z.land (Z.shiftr (Z.land ((47 - 1) - s) (s - (47 + 1))) 8) 64.

Definition decode_base64 (src : list ascii) : Z :=
  for_upto 4 (fun i val =>
    Z.lor val (Z.shiftl (decode_sextet (cget src i)) (18 - 6 * Z.of_nat i))) 0.

(** [key_from_base64]: the returned flag and the key buffer afterwards, which
    is written also when the flag is false. *)
Definition key_from_base64 (key : list Z) (base64 : cstring) : bool * list Z :=
  if negb (strlen base64 =? Z.of_nat (WG_KEY_LEN_BASE64 - 1))
     || negb (Ascii.eqb (cget base64 (WG_KEY_LEN_BASE64 - 2)) "="%char)
  then (false, key)
  else
    let '(ret, key) := for_upto (WG_KEY_LEN / 3)
      (fun i '(ret, key) =>
        let val := decode_base64 (drop (i * 4) base64) in
        (u8 (Z.lor ret (Z.shiftr (u32 val) 31)),
         <[(i * 3 + 2)%nat := Z.land val 0xff]>
         (<[(i * 3 + 1)%nat := Z.land (Z.shiftr val 8) 0xff]>
         (<[(i * 3 + 0)%nat := Z.land (Z.shiftr val 16) 0xff]> key))))
      (0, key) in
    let i := (WG_KEY_LEN / 3)%nat in
    let val := decode_base64
      [cget base64 (i * 4 + 0); cget base64 (i * 4 + 1); cget base64 (i * 4 + 2); "A"%char] in
    let ret := u8 (Z.lor ret (Z.lor (Z.shiftr (u32 val) 31) (Z.land val 0xff))) in
    (negb (Z.land 1 (Z.shiftr (ret - 1) 8) =? 0),
     <[(i * 3 + 1)%nat := Z.land (Z.shiftr val 8) 0xff]>
     (<[(i * 3 + 0)%nat := Z.land (Z.shiftr val 16) 0xff]> key)).

(** [87U + n + (((n - 10U) >> 8) & ~38U)] in unsigned arithmetic. *)
Definition hex_digit (n : Z) : ascii :=
  to_char (u32 (u32 (87 + n) + Z.land (Z.shiftr (u32 (n - 10)) 8) (u32 (Z.lnot 38)))).

Definition key_to_hex_buf (hex : list ascii) (key : list Z) : list ascii :=
  let b := for_upto WG_KEY_LEN (fun i b =>
    <[(i * 2 + 1)%nat := hex_digit (Z.land (byte_at key i) 0xf)]>
    (<[(i * 2)%nat := hex_digit (Z.shiftr (byte_at key i) 4)]> b)) hex in
  <[(WG_KEY_LEN * 2)%nat := NUL]> b.

Definition key_to_hex (key : list Z) : cstring :=
  take (WG_KEY_LEN_HEX - 1) (key_to_hex_buf (replicate WG_KEY_LEN_HEX NUL) key).

(** One hex character: the value of [c_val] and the error bits added to
    [ret]. *)
Definition unhex_digit (c : ascii) : Z * Z :=
  let c := uchar c in
  let c_num := u8 (Z.lxor c 48) in
  let c_num0 := u8 (Z.shiftr (u32 (c_num - 10)) 8) in
  let c_alpha := u8 (u32 (Z.land c (u32 (Z.lnot 32)) - 55)) in
  let c_alpha0 := u8 (Z.shiftr (Z.lxor (u32 (c_alpha - 10)) (u32 (c_alpha - 16))) 8) in
  (u8 (Z.lor (Z.land c_num0 c_num) (Z.land c_alpha0 c_alpha)),
   Z.shiftr (Z.lor c_num0 c_alpha0 - 1) 8).

Definition key_from_hex (key : list Z) (hex : cstring) : bool * list Z :=
  if negb (strlen hex =? Z.of_nat (WG_KEY_LEN_HEX - 1)) then (false, key)
  else
    let '(ret, key) := for_upto WG_KEY_LEN
      (fun i '(ret, key) =>
        let '(c_val, err) := unhex_digit (cget hex (i * 2)) in
        let ret := u8 (Z.lor ret err) in
        let c_acc := u8 (c_val * 16) in
        let '(c_val, err) := unhex_digit (cget hex (i * 2 + 1)) in
        let ret := u8 (Z.lor ret err) in
        (ret, <[i := u8 (Z.lor c_acc c_val)]> key))
      (0, key) in
    (negb (Z.land 1 (Z.shiftr (ret - 1) 8) =? 0), key).

Definition key_is_zero (key : list Z) : bool :=
  let acc := for_upto WG_KEY_LEN (fun i acc => u8 (Z.lor acc (byte_at key i))) 0 in
  negb (Z.land 1 (Z.shiftr (acc - 1) 8) =? 0).

(** ** Reference definitions: RFC 4648 *)

Definition b64_alphabet : cstring :=
  str "ABCDEFGHIJKLMNOPQRSTUVWXYZabcdefghijklmnopqrstuvwxyz0123456789+/".
Definition b64_char (x : Z) : ascii := nth (Z.to_nat x) b64_alphabet NUL.

(** The 24-bit group of three bytes, cut into four sextets; a final group of
    one or two bytes is padded. *)
Fixpoint base64_ref (l : list Z) : cstring :=
  match l with
  | a :: b :: c :: rest =>
      let n := a * 65536 + b * 256 + c in
      b64_char (n / 2 ^ 18) :: b64_char (n / 2 ^ 12 mod 64)
        :: b64_char (n / 2 ^ 6 mod 64) :: b64_char (n mod 64) :: base64_ref rest
  | [a; b] =>
      let n := a * 65536 + b * 256 in
      [b64_char (n / 2 ^ 18); b64_char (n / 2 ^ 12 mod 64); b64_char (n / 2 ^ 6 mod 64); "="%char]
  | [a] =>
      let n := a * 65536 in
      [b64_char (n / 2 ^ 18); b64_char (n / 2 ^ 12 mod 64); "="%char; "="%char]
  | [] => []
  end.

Definition hex_alphabet : cstring := str "0123456789abcdef".
Definition hex_char (x : Z) : ascii := nth (Z.to_nat x) hex_alphabet NUL.
Definition hex_ref (l : list Z) : cstring :=
  flat_map (fun b => [hex_char (b / 16); hex_char (b mod 16)]) l.

(** ** Sextets *)

Definition all_sextets : list Z := map Z.of_nat (seq 0 64).
Lemma sextet_forall (Q : Z -> bool) :
  forallb Q all_sextets = true -> forall x, 0 <= x < 64 -> Q x = true.
Proof.
  intros HQ x Hx. rewrite forallb_forall in HQ. apply HQ.
  apply in_map_iff. exists (Z.to_nat x). split; [lia|]. apply in_seq. lia.
Qed.

Lemma encode_sextet_alphabet x : 0 <= x < 64 -> encode_sextet x = b64_char x.
Proof.
  intros Hx. apply Ascii.eqb_eq. revert x Hx.
  apply sextet_forall. vm_compute. reflexivity.
Qed.

(** [decode_sextet] inverts the alphabet and is -1 outside of it. *)
Lemma decode_encode_sextet x : 0 <= x < 64 -> decode_sextet (encode_sextet x) = x.
Proof.
  intros Hx. apply Z.eqb_eq. revert x Hx. unfold decode_sextet, char_int.
  destruct char_signed; simpl andb; apply sextet_forall; vm_compute; reflexivity.
Qed.

Lemma decode_sextet_range c : decode_sextet c = -1 \/ 0 <= decode_sextet c < 64.
Proof.
  assert (H : ((decode_sextet c =? -1)
     || ((0 <=? decode_sextet c) && (decode_sextet c <? 64))) = true); [|lia].
  revert c. unfold decode_sextet, char_int.
  destruct char_signed; simpl andb; apply char_forall; vm_compute; reflexivity.
Qed.

Lemma encode_decode_sextet c : 0 <= decode_sextet c -> encode_sextet (decode_sextet c) = c.
Proof.
  assert (H : ((decode_sextet c <? 0) || Ascii.eqb (encode_sextet (decode_sextet c)) c) = true).
  { revert c. unfold decode_sextet, char_int.
    destruct char_signed; simpl andb; apply char_forall; vm_compute; reflexivity. }
  intros Hc. apply orb_true_iff in H as [H|H]; [lia|]. by apply Ascii.eqb_eq.
Qed.

Lemma decode_sextet_A : decode_sextet "A"%char = 0.
Proof. unfold decode_sextet, char_int. destruct char_signed; reflexivity. Qed.

(** ** Groups of four characters *)

Lemma decode_base64_quad a b c d r :
  decode_base64 (a :: b :: c :: d :: r) =
  Z.lor (Z.lor (Z.lor (Z.shiftl (decode_sextet a) 18) (Z.shiftl (decode_sextet b) 12))
    (Z.shiftl (decode_sextet c) 6)) (decode_sextet d).
Proof. unfold decode_base64, for_upto, cget. simpl. by rewrite Z.lor_0_l, Z.shiftl_0_r. Qed.

Definition valid_quad (q : list ascii) : Prop :=
  0 <= decode_sextet (cget q 0) /\ 0 <= decode_sextet (cget q 1) /\
  0 <= decode_sextet (cget q 2) /\ 0 <= decode_sextet (cget q 3).

Lemma decode_base64_sum a b c d r :
  valid_quad (a :: b :: c :: d :: r) ->
  decode_base64 (a :: b :: c :: d :: r) =
  decode_sextet a * 2 ^ 18 + decode_sextet b * 2 ^ 12 + decode_sextet c * 2 ^ 6 + decode_sextet d.
Proof.
  intros (Ha & Hb & Hc & Hd). unfold cget in *; simpl in *.
  destruct (decode_sextet_range a), (decode_sextet_range b), (decode_sextet_range c),
    (decode_sextet_range d); try lia.
  rewrite decode_base64_quad, <- !Z.lor_assoc.
  rewrite (lor_shiftl_add (decode_sextet c)) by lia.
  rewrite (lor_shiftl_add (decode_sextet b)) by lia.
  rewrite (lor_shiftl_add (decode_sextet a)) by lia. lia.
Qed.

Lemma shiftl_sign x k : 0 <= k -> (Z.shiftl x k < 0 <-> x < 0).
Proof. intros. rewrite Z.shiftl_mul_pow2 by done. nia. Qed.

(** The sign of the decoded group reports an invalid character. *)
Lemma decode_base64_nonneg a b c d r :
  0 <= decode_base64 (a :: b :: c :: d :: r) <-> valid_quad (a :: b :: c :: d :: r).
Proof.
  unfold valid_quad, cget; simpl. rewrite decode_base64_quad, !Z.lor_nonneg.
  pose proof (shiftl_sign (decode_sextet a) 18). pose proof (shiftl_sign (decode_sextet b) 12).
  pose proof (shiftl_sign (decode_sextet c) 6). lia.
Qed.

Lemma decode_base64_range a b c d r :
  - 2 ^ 24 <= decode_base64 (a :: b :: c :: d :: r) < 2 ^ 24.
Proof.
  rewrite decode_base64_quad.
  pose proof (decode_sextet_range a). pose proof (decode_sextet_range b).
  pose proof (decode_sextet_range c). pose proof (decode_sextet_range d).
  repeat apply lor_range; rewrite ?Z.shiftl_mul_pow2 by lia; lia.
Qed.

(** Equality of explicit lists [[f x1; ...; f xn]] by the arguments. *)
Ltac map_eq := repeat (apply (f_equal2 cons); [apply f_equal|]); try reflexivity.

(** The flag bit extracted from a decoded group. *)
Lemma quad_flag a b c d r :
  Z.shiftr (u32 (decode_base64 (a :: b :: c :: d :: r))) 31 =
  if decode_base64 (a :: b :: c :: d :: r) <? 0 then 1 else 0.
Proof.
  pose proof (decode_base64_range a b c d r) as Hr.
  generalize dependent (decode_base64 (a :: b :: c :: d :: r)). intros v Hv.
  rewrite Z.shiftr_div_pow2 by lia. unfold u32. destruct (Z.ltb_spec v 0).
  - rewrite <- (Z_mod_plus_full v 1), (Z.mod_small (v + 1 * 2 ^ 32)) by lia.
    symmetry. apply Z.div_unique with (v + 2 ^ 31); lia.
  - rewrite Z.mod_small by lia. by rewrite Z.div_small by lia.
Qed.

Lemma u8_lor_eq_0 a b : is_byte a -> is_byte b -> u8 (Z.lor a b) = 0 <-> a = 0 /\ b = 0.
Proof. intros. rewrite u8_small by (by apply byte_lor). apply lor_eq_0. Qed.

(** [1 & ((ret - 1) >> 8)] is set exactly when the byte [ret] is zero. *)
Lemma is_zero_mask r : is_byte r -> negb (Z.land 1 (Z.shiftr (r - 1) 8) =? 0) = (r =? 0).
Proof.
  intros Hr. apply Bool.eqb_prop. revert r Hr. apply byte_forall. vm_compute. reflexivity.
Qed.

(** Sextets of a 24-bit group. *)
Lemma encode_base64_sextets a b c :
  is_byte a -> is_byte b -> is_byte c ->
  let n := a * 65536 + b * 256 + c in
  encode_base64 a b c =
  [encode_sextet (n / 2 ^ 18); encode_sextet (n / 2 ^ 12 mod 64);
   encode_sextet (n / 2 ^ 6 mod 64); encode_sextet (n mod 64)].
Proof.
  intros Ha Hb Hc n. unfold is_byte in *. unfold encode_base64; simpl map.
  rewrite !(land_mask _ 63 6) by done.
  rewrite !Z.shiftr_div_pow2 by lia.
  rewrite !lor_shiftl_add by (Z.div_mod_to_equations; lia).
  rewrite !u8_small by (Z.div_mod_to_equations; lia).
  subst n. map_eq; Z.div_mod_to_equations; lia.
Qed.

(** Decoding an encoded group, and encoding a decoded valid group. *)
Lemma decode_encode_base64 a b c r :
  is_byte a -> is_byte b -> is_byte c ->
  valid_quad (encode_base64 a b c ++ r) /\
  decode_base64 (encode_base64 a b c ++ r) = a * 65536 + b * 256 + c.
Proof.
  unfold is_byte. intros Ha Hb Hc. rewrite encode_base64_sextets by done. simpl app.
  assert (Hv : valid_quad
    ([encode_sextet ((a * 65536 + b * 256 + c) / 2 ^ 18);
      encode_sextet ((a * 65536 + b * 256 + c) / 2 ^ 12 mod 64);
      encode_sextet ((a * 65536 + b * 256 + c) / 2 ^ 6 mod 64);
      encode_sextet ((a * 65536 + b * 256 + c) mod 64)] ++ r)).
  { unfold valid_quad, cget; simpl app; simpl nth.
    rewrite !decode_encode_sextet by (Z.div_mod_to_equations; lia).
    Z.div_mod_to_equations; lia. }
  split; [exact Hv|]. rewrite decode_base64_sum by exact Hv.
  rewrite !decode_encode_sextet by (Z.div_mod_to_equations; lia).
  Z.div_mod_to_equations; lia.
Qed.

Lemma encode_decode_base64 a b c d r :
  valid_quad (a :: b :: c :: d :: r) ->
  let v := decode_base64 (a :: b :: c :: d :: r) in
  encode_base64 (Z.land (Z.shiftr v 16) 0xff) (Z.land (Z.shiftr v 8) 0xff) (Z.land v 0xff)
  = [a; b; c; d].
Proof.
  intros Hv v. subst v. rewrite decode_base64_sum by done.
  destruct Hv as (Ha & Hb & Hc & Hd). unfold cget in *; simpl in Ha, Hb, Hc, Hd.
  rewrite !(land_mask _ 0xff 8) by done. rewrite !Z.shiftr_div_pow2 by lia.
  rewrite encode_base64_sextets by (unfold is_byte; Z.div_mod_to_equations; lia).
  transitivity (map encode_sextet (map decode_sextet [a; b; c; d]));
    [simpl map | by simpl map; rewrite !encode_decode_sextet].
  destruct (decode_sextet_range a), (decode_sextet_range b), (decode_sextet_range c),
    (decode_sextet_range d); try lia.
  map_eq; Z.div_mod_to_equations; lia.
Qed.

(** ** Whole keys

    A key of known length is taken apart into its bytes, and the loops are
    run on it. *)
Ltac explode l H :=
  lazymatch type of H with
  | length l = 0%nat => destruct l; [clear H|discriminate H]
  | length l = _ => let x := fresh "x" in destruct l as [|x l]; [discriminate H|];
     apply (f_equal pred) in H; simpl in H; explode l H
  end.
Ltac explode_bytes H :=
  repeat match type of H with
  | Forall _ (_ :: _) => let Hb := fresh "Hb" in apply Forall_cons_1 in H as [Hb H]
  end.

Lemma byte_0 : is_byte 0.
Proof. unfold is_byte. lia. Qed.

Lemma byte_land_ff z : is_byte (Z.land z 0xff).
Proof. rewrite (land_mask _ _ 8) by done. apply Z.mod_pos_bound. lia. Qed.

Lemma flag_byte a b c d r : is_byte (Z.shiftr (u32 (decode_base64 (a :: b :: c :: d :: r))) 31).
Proof. rewrite quad_flag. unfold is_byte. case_match; lia. Qed.

Lemma flag_zero a b c d r :
  Z.shiftr (u32 (decode_base64 (a :: b :: c :: d :: r))) 31 = 0 <->
  valid_quad (a :: b :: c :: d :: r).
Proof.
  rewrite quad_flag, <- decode_base64_nonneg. destruct (Z.ltb_spec
    (decode_base64 (a :: b :: c :: d :: r)) 0); lia.
Qed.

#[local] Hint Resolve byte_0 u8_range byte_land_ff flag_byte byte_lor : cint.

Lemma encode_group a b c :
  is_byte a -> is_byte b -> is_byte c ->
  exists p q r t, encode_base64 a b c = [p; q; r; t] /\ (c = 0 -> t = "A"%char) /\
    forall rest, valid_quad (p :: q :: r :: t :: rest) /\
      decode_base64 (p :: q :: r :: t :: rest) = a * 65536 + b * 256 + c.
Proof.
  intros Ha Hb Hc. pose proof (fun r => decode_encode_base64 a b c r Ha Hb Hc) as H.
  rewrite encode_base64_sextets in * by done. simpl app in H.
  do 4 eexists. split; [reflexivity|]. split; [|exact H].
  intros ->. replace ((a * 65536 + b * 256 + 0) mod 64) with 0; [reflexivity|].
  Z.div_mod_to_equations; lia.
Qed.

Lemma group_bytes a b c v : is_byte a -> is_byte b -> is_byte c ->
  v = a * 65536 + b * 256 + c ->
  Z.land (Z.shiftr v 16) 0xff = a /\ Z.land (Z.shiftr v 8) 0xff = b /\ Z.land v 0xff = c.
Proof.
  unfold is_byte. intros Ha Hb Hc ->. rewrite !(land_mask _ 0xff 8) by done.
  rewrite !Z.shiftr_div_pow2 by lia. Z.div_mod_to_equations; lia.
Qed.

(** The loop of [key_to_base64] unrolled: the groups of three bytes in order,
    the last one padded. *)
Fixpoint encode_groups (l : list Z) : cstring :=
  match l with
  | a :: b :: c :: rest => encode_base64 a b c ++ encode_groups rest
  | [a; b] => take 3 (encode_base64 a b 0) ++ ["="%char]
  | _ => []
  end.

Lemma key_to_base64_groups k : length k = WG_KEY_LEN -> key_to_base64 k = encode_groups k.
Proof. intros Hl. unfold WG_KEY_LEN in Hl. explode k Hl. reflexivity. Qed.

Lemma key_to_base64_ref k : wf_key k -> key_to_base64 k = base64_ref k.
Proof.
  intros [Hl Hb]. rewrite key_to_base64_groups by done.
  unfold WG_KEY_LEN in Hl. explode k Hl. explode_bytes Hb. cbn [encode_groups].
  rewrite !encode_base64_sextets by (auto; unfold is_byte; lia).
  unfold is_byte in *. rewrite !encode_sextet_alphabet by (Z.div_mod_to_equations; lia).
  cbn -[b64_char Z.div Z.modulo Z.pow Z.mul Z.add]. by rewrite Z.add_0_r.
Qed.

(** The loop of [key_from_base64] in closed form: the bytes it writes and the
    groups it has validated. *)
Fixpoint decode_groups (n : nat) (s : cstring) : list Z :=
  match n with
  | O => []
  | S n =>
      let v := decode_base64 s in
      [Z.land (Z.shiftr v 16) 0xff; Z.land (Z.shiftr v 8) 0xff; Z.land v 0xff]
        ++ decode_groups n (drop 4 s)
  end.
Fixpoint valid_groups (n : nat) (s : cstring) : Prop :=
  match n with
  | O => True
  | S n => valid_quad s /\ valid_groups n (drop 4 s)
  end.

Definition from_base64_body (base64 : cstring) (i : nat) (st : Z * list Z) : Z * list Z :=
  let '(ret, key) := st in
  let val := decode_base64 (drop (i * 4) base64) in
  (u8 (Z.lor ret (Z.shiftr (u32 val) 31)),
   <[(i * 3 + 2)%nat := Z.land val 0xff]>
   (<[(i * 3 + 1)%nat := Z.land (Z.shiftr val 8) 0xff]>
   (<[(i * 3 + 0)%nat := Z.land (Z.shiftr val 16) 0xff]> key))).

Lemma insert_middle {A} (pre : list A) x y suf i :
  i = length pre -> <[i := y]> (pre ++ x :: suf) = pre ++ y :: suf.
Proof. intros ->. rewrite insert_app_r_alt, Nat.sub_diag by done. done. Qed.

Lemma insert_triple (i : nat) (pre suf : list Z) a b c x y z :
  length pre = (i * 3)%nat ->
  <[(i * 3 + 2)%nat := z]> (<[(i * 3 + 1)%nat := y]> (<[(i * 3 + 0)%nat := x]>
    (pre ++ a :: b :: c :: suf))) = (pre ++ [x; y; z]) ++ suf.
Proof.
  intros Hp. rewrite (insert_middle pre) by lia.
  replace (pre ++ x :: b :: c :: suf) with ((pre ++ [x]) ++ b :: c :: suf)
    by (by rewrite <- app_assoc).
  rewrite insert_middle by (rewrite length_app; simpl; lia).
  replace ((pre ++ [x]) ++ y :: c :: suf) with ((pre ++ [x; y]) ++ c :: suf)
    by (by rewrite <- !app_assoc).
  rewrite insert_middle by (rewrite length_app; simpl; lia).
  by rewrite <- !app_assoc.
Qed.

Lemma from_base64_loop base64 n : forall i ret pre suf,
  is_byte ret -> length pre = (i * 3)%nat -> (n * 3 <= length suf)%nat ->
  ((i + n) * 4 <= length base64)%nat ->
  exists ret', is_byte ret' /\
    (ret' = 0 <-> ret = 0 /\ valid_groups n (drop (i * 4) base64)) /\
    for_from i n (from_base64_body base64) (ret, pre ++ suf)
      = (ret', pre ++ decode_groups n (drop (i * 4) base64) ++ drop (n * 3) suf).
Proof.
  induction n as [|n IH]; intros i ret pre suf Hr Hp Hs Hb.
  { exists ret. simpl. rewrite drop_0. tauto. }
  destruct suf as [|a [|b [|c suf]]]; simpl in Hs; try lia.
  cbn [for_from from_base64_body]. rewrite insert_triple by done.
  set (v := decode_base64 (drop (i * 4) base64)).
  assert (exists p q r t s, drop (i * 4) base64 = p :: q :: r :: t :: s) as (p & q & r & t & s & E).
  { assert (4 <= length (drop (i * 4) base64))%nat as Hd by (rewrite length_drop; lia).
    destruct (drop (i * 4) base64) as [|p [|q [|r [|t s]]]]; simpl in Hd; try lia. by do 5 eexists. }
  destruct (IH (S i) (u8 (Z.lor ret (Z.shiftr (u32 v) 31)))
    (pre ++ [Z.land (Z.shiftr v 16) 0xff; Z.land (Z.shiftr v 8) 0xff; Z.land v 0xff]) suf)
    as (ret' & Hr' & Hiff & ->).
  { apply u8_range. } { rewrite length_app; simpl; lia. } { lia. } { lia. }
  exists ret'. split; [done|]. split.
  - rewrite Hiff. cbn [valid_groups]. rewrite drop_drop.
    replace (S i * 4)%nat with (i * 4 + 4)%nat by lia.
    subst v. rewrite E, u8_lor_eq_0, flag_zero by auto with cint. tauto.
  - f_equal. cbn [decode_groups]. rewrite drop_drop. fold v.
    replace (S i * 4)%nat with (i * 4 + 4)%nat by lia. by rewrite <- !app_assoc.
Qed.

Lemma decode_groups_length n s : length (decode_groups n s) = (n * 3)%nat.
Proof. revert s. induction n; intros; simpl; [done|]. by rewrite IHn. Qed.

Lemma decode_groups_bytes n s : Forall is_byte (decode_groups n s).
Proof.
  revert s. induction n; intros; simpl; [by constructor|].
  repeat (apply Forall_cons_2; [apply byte_land_ff|]). done.
Qed.

(** Re-encoding decoded valid groups, and decoding encoded ones. *)
Lemma encode_decode_groups n : forall s rest,
  valid_groups n s -> (n * 4 <= length s)%nat ->
  encode_groups (decode_groups n s ++ rest) = take (n * 4) s ++ encode_groups rest.
Proof.
  induction n as [|n IH]; intros s rest Hv Hl; [done|].
  destruct s as [|p [|q [|r [|t s]]]]; simpl in Hl; try lia.
  destruct Hv as [Hq Hv]. cbn [decode_groups app encode_groups].
  rewrite encode_decode_base64 by done. cbn -[encode_groups decode_groups].
  simpl drop in Hv. rewrite drop_0 in *. rewrite IH by (done || lia). done.
Qed.

Lemma decode_encode_groups n : forall l rest,
  length l = (n * 3)%nat -> Forall is_byte l ->
  exists s, encode_groups (l ++ rest) = s ++ encode_groups rest /\ length s = (n * 4)%nat /\
    forall tl, valid_groups n (s ++ tl) /\ decode_groups n (s ++ tl) = l.
Proof.
  induction n as [|n IH]; intros l rest Hl Hb.
  { destruct l; [|done]. by exists []. }
  destruct l as [|a [|b [|c l]]]; simpl in Hl; try lia. explode_bytes Hb.
  destruct (IH l rest) as (s & E & Hs & Ht); [lia|done|].
  destruct (encode_group a b c) as (p & q & r & t & Eg & _ & Hg); [done..|].
  exists (p :: q :: r :: t :: s). cbn [app encode_groups]. rewrite Eg, E.
  split; [done|]. split; [simpl; lia|]. intros tl. cbn [app valid_groups decode_groups].
  destruct (Hg (s ++ tl)) as [Hv Hd]. simpl drop. rewrite drop_0.
  destruct (Ht tl) as [Hvt Hdt]. rewrite Hd, Hdt.
  destruct (group_bytes a b c _ Hb0 Hb1 Hb2 eq_refl) as (-> & -> & ->). done.
Qed.

(** What [key_from_base64] computes on a string of the right shape. *)
Lemma key_from_base64_shape key g p q r :
  length key = WG_KEY_LEN -> length g = 40%nat ->
  let s := g ++ [p; q; r; "="%char] in
  let v := decode_base64 [p; q; r; "A"%char] in
  exists ok, key_from_base64 key s =
    (ok, decode_groups 10 s ++ [Z.land (Z.shiftr v 16) 0xff; Z.land (Z.shiftr v 8) 0xff]) /\
    (ok = true <-> valid_groups 10 s /\ valid_quad [p; q; r; "A"%char] /\ Z.land v 0xff = 0).
Proof.
  intros Hk Hg s v. assert (Hs : length s = 44%nat) by (subst s; rewrite length_app, Hg; done).
  assert (Hget : forall j, cget s (40 + j) = cget [p; q; r; "="%char] j).
  { intros j. subst s. unfold cget. rewrite app_nth2 by lia. f_equal. lia. }
  destruct (from_base64_loop s 10 0 0 [] key) as (ret & Hr & Hiff & Hloop).
  { apply byte_0. } { done. } { rewrite Hk. unfold WG_KEY_LEN. lia. } { lia. }
  unfold key_from_base64, strlen. rewrite Hs.
  change (WG_KEY_LEN_BASE64 - 2)%nat with (40 + 3)%nat. rewrite Hget. cbn [cget nth].
  change (negb (Z.of_nat 44 =? Z.of_nat (WG_KEY_LEN_BASE64 - 1)) || negb (("=" =? "=")%char))
    with false. cbv iota.
  change (WG_KEY_LEN / 3)%nat with 10%nat.
  match goal with |- context [for_upto 10 ?f _] =>
    change (for_upto 10 f (0, key)) with (for_from 0 10 (from_base64_body s) (0, [] ++ key)) end.
  rewrite Hloop. cbv iota zeta.
  change (10 * 4 + 0)%nat with (40 + 0)%nat. change (10 * 4 + 1)%nat with (40 + 1)%nat.
  change (10 * 4 + 2)%nat with (40 + 2)%nat. rewrite !Hget. cbn [cget nth]. fold v.
  eexists. split; [f_equal|].
  - change (drop (0 * 4) s) with (drop 0 s). rewrite drop_0. cbn [app].
    destruct (drop (10 * 3) key) as [|x [|y [|]]] eqn:E;
      apply (f_equal length) in E; rewrite length_drop, Hk in E; unfold WG_KEY_LEN in E; simpl in E; try lia.
    rewrite (insert_middle (decode_groups 10 s)) by (by rewrite decode_groups_length).
    change (10 * 3 + 1)%nat with (30 + 1)%nat.
    rewrite insert_app_r_alt by (rewrite decode_groups_length; lia).
    by rewrite decode_groups_length.
  - rewrite is_zero_mask by auto with cint. rewrite Z.eqb_eq.
    rewrite u8_lor_eq_0, lor_eq_0 by (subst v; auto with cint).
    subst v. rewrite flag_zero, Hiff. change (drop (0 * 4) s) with (drop 0 s). rewrite drop_0. tauto.
Qed.

Lemma key_from_base64_cases key s :
  key_from_base64 key s = (false, key) \/
  exists g p q r, length g = 40%nat /\ s = g ++ [p; q; r; "="%char].
Proof.
  unfold key_from_base64, strlen. change (WG_KEY_LEN_BASE64 - 1)%nat with 44%nat.
  change (WG_KEY_LEN_BASE64 - 2)%nat with 43%nat.
  destruct (Z.eqb_spec (Z.of_nat (length s)) (Z.of_nat 44)) as [Hs|]; [|by left].
  destruct (Ascii.eqb_spec (cget s 43) "="%char) as [He|]; [|by left]. right.
  assert (Ht : length (take 40 s) = 40%nat) by (rewrite length_take; lia).
  assert (Hd : length (drop 40 s) = 4%nat) by (rewrite length_drop; lia).
  exists (take 40 s). rewrite <- (take_drop 40 s) in He. unfold cget in He.
  rewrite app_nth2, Ht in He by lia.
  destruct (drop 40 s) as [|p [|q [|r [|t [|]]]]] eqn:E; simpl in Hd; try lia.
  simpl in He. subst t. exists p, q, r. by rewrite <- E, take_drop.
Qed.

(** The decoder accepts [s] with result [k] exactly when [s] is the encoding
    of the key [k]. *)
Lemma key_from_base64_sound key s k :
  length key = WG_KEY_LEN -> key_from_base64 key s = (true, k) ->
  wf_key k /\ s = key_to_base64 k.
Proof.
  intros Hk Heq.
  destruct (key_from_base64_cases key s) as [H|(g & p & q & r & Hg & ->)]; [congruence|].
  destruct (key_from_base64_shape key g p q r Hk Hg) as (ok & E & Hok).
  rewrite E in Heq. simplify_eq. destruct (proj1 Hok eq_refl) as (Hv & Hq & Hz).
  assert (Hwf : length (decode_groups 10 (g ++ [p; q; r; "="%char])) = 30%nat)
    by apply decode_groups_length.
  split.
  { split; [by rewrite length_app, Hwf|]. apply Forall_app_2; [apply decode_groups_bytes|].
    repeat (apply Forall_cons_2; [apply byte_land_ff|]). by constructor. }
  rewrite key_to_base64_groups by (by rewrite length_app, Hwf).
  rewrite encode_decode_groups by (done || (rewrite length_app, Hg; simpl; lia)).
  rewrite take_app_length' by done. f_equal. cbn [encode_groups].
  rewrite <- Hz. by rewrite encode_decode_base64.
Qed.

Lemma key_from_base64_complete key k :
  length key = WG_KEY_LEN -> wf_key k -> key_from_base64 key (key_to_base64 k) = (true, k).
Proof.
  intros Hk [Hl Hb]. rewrite key_to_base64_groups by done.
  rewrite <- (take_drop 30 k) in Hb |- *.
  assert (Ht : length (take 30 k) = 30%nat) by (rewrite length_take, Hl; done).
  assert (Hd : length (drop 30 k) = 2%nat) by (rewrite length_drop, Hl; done).
  destruct (drop 30 k) as [|a [|b [|]]]; simpl in Hd; try lia.
  apply Forall_app in Hb as [Hb Hab]. explode_bytes Hab.
  destruct (decode_encode_groups 10 (take 30 k) [a; b] Ht Hb) as (g & E & Hg & Hdec).
  destruct (encode_group a b 0 Hb0 Hb1 byte_0) as (p & q & r & t & Eg & Et & Hq).
  specialize (Et eq_refl). subst t. destruct (Hq []) as [Hv Hval].
  rewrite E. cbn [encode_groups]. rewrite Eg. cbn [take app].
  destruct (key_from_base64_shape key g p q r Hk Hg) as (ok & -> & Hok).
  destruct (Hdec [p; q; r; "="%char]) as [Hvg ->].
  destruct (group_bytes a b 0 _ Hb0 Hb1 byte_0 Hval) as (E1 & E2 & E3). rewrite E1, E2.
  f_equal. by apply Hok.
Qed.

(** ** Hexadecimal *)

Definition hex_value (c : ascii) : option Z :=
  let z := uchar c in
  if (48 <=? z) && (z <=? 57) then Some (z - 48)
  else if (97 <=? z) && (z <=? 102) then Some (z - 87)
  else if (65 <=? z) && (z <=? 70) then Some (z - 55)
  else None.

Fixpoint unhex_ref (s : cstring) : option (list Z) :=
  match s with
  | [] => Some []
  | [_] => None
  | a :: b :: rest =>
      match hex_value a, hex_value b, unhex_ref rest with
      | Some x, Some y, Some l => Some (x * 16 + y :: l)
      | _, _, _ => None
      end
  end.

Lemma hex_digit_char n : 0 <= n < 16 -> hex_digit n = hex_char n.
Proof.
  intros Hn. assert (H : (negb (n <? 16) || Ascii.eqb (hex_digit n) (hex_char n)) = true).
  { assert (Hb : is_byte n) by (unfold is_byte; lia). revert n Hb Hn.
    intros n Hb _. revert n Hb. apply byte_forall. vm_compute. reflexivity. }
  apply orb_true_iff in H as [H|H]; [lia|]. by apply Ascii.eqb_eq.
Qed.

Lemma hex_value_char n : 0 <= n < 16 -> hex_value (hex_char n) = Some n.
Proof.
  intros Hn.
  assert (H : (negb (n <? 16) || bool_decide (hex_value (hex_char n) = Some n)) = true).
  { assert (Hb : is_byte n) by (unfold is_byte; lia). clear Hn. revert n Hb.
    apply byte_forall. vm_compute. reflexivity. }
  apply orb_true_iff in H as [H|H]; [lia|]. by apply bool_decide_eq_true in H.
Qed.

(** The branch-free digit decoder: the value and no error bits on a hex digit
    of either case, all error bits on any other character. *)
Lemma unhex_digit_spec c :
  match hex_value c with
  | Some v => unhex_digit c = (v, 0) /\ 0 <= v < 16
  | None => is_byte (fst (unhex_digit c)) /\ snd (unhex_digit c) = -1
  end.
Proof.
  assert (H : match hex_value c with
    | Some v => (fst (unhex_digit c) =? v) && (snd (unhex_digit c) =? 0) && (0 <=? v) && (v <? 16)
    | None => (0 <=? fst (unhex_digit c)) && (fst (unhex_digit c) <? 256)
              && (snd (unhex_digit c) =? -1) end = true).
  { revert c. apply char_forall. vm_compute. reflexivity. }
  unfold is_byte. destruct (hex_value c), (unhex_digit c); simpl in *; split;
    try f_equal; lia.
Qed.

Definition from_hex_body (hex : cstring) (i : nat) (st : Z * list Z) : Z * list Z :=
  let '(ret, key) := st in
  let '(c_val, err) := unhex_digit (cget hex (i * 2)) in
  let ret := u8 (Z.lor ret err) in
  let c_acc := u8 (c_val * 16) in
  let '(c_val, err) := unhex_digit (cget hex (i * 2 + 1)) in
  let ret := u8 (Z.lor ret err) in
  (ret, <[i := u8 (Z.lor c_acc c_val)]> key).

Lemma u8_lor_m1 r : u8 (Z.lor r (-1)) = 255.
Proof. by rewrite Z.lor_m1_r. Qed.

Lemma u8_lor_0 r : is_byte r -> u8 (Z.lor r 0) = r.
Proof. intros. rewrite Z.lor_0_r. by apply u8_small. Qed.

Lemma nibbles x y : 0 <= x < 16 -> 0 <= y < 16 -> u8 (Z.lor (u8 (x * 16)) y) = x * 16 + y.
Proof.
  intros. rewrite (u8_small (x * 16)) by lia.
  replace (x * 16) with (Z.shiftl x 4) at 1 by (rewrite Z.shiftl_mul_pow2; lia).
  rewrite lor_shiftl_add by lia. apply u8_small. lia.
Qed.

(** One iteration: the byte of the two digits and the flag unchanged, or the
    flag raised. *)
Lemma from_hex_step hex i ret key a b :
  is_byte ret -> cget hex (i * 2) = a -> cget hex (i * 2 + 1) = b ->
  exists ret' x, is_byte ret' /\ from_hex_body hex i (ret, key) = (ret', <[i := x]> key) /\
    match hex_value a, hex_value b with
    | Some u, Some v => ret' = ret /\ x = u * 16 + v
    | _, _ => ret' <> 0
    end.
Proof.
  intros Hr Ha Hb. unfold from_hex_body. rewrite Ha, Hb.
  pose proof (unhex_digit_spec a) as Sa. pose proof (unhex_digit_spec b) as Sb.
  destruct (unhex_digit a) as [va ea], (unhex_digit b) as [vb eb]; simpl in *.
  do 2 eexists. split; [apply u8_range|]. split; [reflexivity|].
  destruct (hex_value a) as [u|], (hex_value b) as [v|];
    destruct Sa as [Sa Ha'], Sb as [Sb Hb']; simplify_eq; rewrite ?u8_lor_m1 by done; try lia.
  - by rewrite !u8_lor_0, nibbles by auto with cint.
  - by rewrite u8_lor_0 by (unfold is_byte; lia).
Qed.

Lemma from_hex_loop hex n : forall i ret pre suf,
  is_byte ret -> length pre = i -> (n <= length suf)%nat ->
  length hex = ((i + n) * 2)%nat ->
  exists ret' bytes, is_byte ret' /\
    for_from i n (from_hex_body hex) (ret, pre ++ suf) = (ret', pre ++ bytes ++ drop n suf) /\
    match unhex_ref (drop (i * 2) hex) with
    | Some l => ret' = ret /\ bytes = l
    | None => ret' <> 0
    end.
Proof.
  induction n as [|n IH]; intros i ret pre suf Hr Hp Hs Hh.
  { exists ret, []. rewrite (drop_ge hex) by lia. simpl. by rewrite drop_0. }
  destruct suf as [|o suf]; simpl in Hs; [lia|]. cbn [for_from].
  assert (exists a b s, drop (i * 2) hex = a :: b :: s) as (a & b & s & E).
  { assert (Hd : (2 <= length (drop (i * 2) hex))%nat) by (rewrite length_drop; lia).
    destruct (drop (i * 2) hex) as [|a [|b s]]; simpl in Hd; try lia. by do 3 eexists. }
  assert (Hhex : hex = take (i * 2) hex ++ a :: b :: s) by (by rewrite <- E, take_drop).
  assert (Ht : length (take (i * 2) hex) = (i * 2)%nat) by (rewrite length_take; lia).
  destruct (from_hex_step hex i ret (pre ++ o :: suf) a b) as (r1 & x & Hr1 & -> & Hz1).
  { done. } { rewrite Hhex. unfold cget. rewrite app_nth2, Ht by lia. by rewrite Nat.sub_diag. }
  { rewrite Hhex. unfold cget. rewrite app_nth2, Ht by lia.
    by replace (i * 2 + 1 - i * 2)%nat with 1%nat by lia. }
  rewrite (insert_middle pre) by done. rewrite (cons_middle x), app_assoc.
  destruct (IH (S i) r1 (pre ++ [x]) suf) as (r2 & bs & Hr2 & -> & Hz2);
    [done|rewrite length_app; simpl; lia|lia|lia|].
  exists r2, (x :: bs). split; [done|]. split; [by rewrite <- !app_assoc|].
  rewrite E. replace (drop (S i * 2) hex) with s in Hz2.
  - cbn [unhex_ref]. destruct (hex_value a), (hex_value b), (unhex_ref s); naive_solver congruence.
  - replace (S i * 2)%nat with (i * 2 + 2)%nat by lia. by rewrite <- drop_drop, E.
Qed.

(** The decoder accepts exactly the strings of 64 hex digits. *)
Lemma key_from_hex_accepts key s k :
  length key = WG_KEY_LEN ->
  key_from_hex key s = (true, k) <-> length s = 64%nat /\ unhex_ref s = Some k.
Proof.
  intros Hk. unfold key_from_hex, strlen. change (WG_KEY_LEN_HEX - 1)%nat with 64%nat.
  destruct (Z.eqb_spec (Z.of_nat (length s)) (Z.of_nat 64)) as [Hs|Hs]; simpl negb; cbv iota;
    [|split; [congruence|lia]].
  change WG_KEY_LEN with 32%nat in *.
  destruct (from_hex_loop s 32 0 0 [] key byte_0 eq_refl) as (ret & bs & Hr & Hloop & Hz);
    [lia|lia|].
  match goal with |- context [for_upto 32 ?f _] =>
    change (for_upto 32 f (0, key)) with (for_from 0 32 (from_hex_body s) (0, [] ++ key)) end.
  rewrite Hloop. rewrite is_zero_mask by done. change (0 * 2)%nat with 0%nat in Hz.
  rewrite drop_0 in Hz. rewrite (drop_ge key), app_nil_r by lia. cbn [app].
  destruct (unhex_ref s) as [l|].
  - destruct Hz as [-> ->]. change (0 =? 0) with true.
    split; [intros [= ->]; split; [lia|done]|by intros [_ [= ->]]].
  - apply Z.eqb_neq in Hz. rewrite Hz. split; [congruence|by intros []].
Qed.

Lemma unhex_ref_hex l : Forall is_byte l -> unhex_ref (hex_ref l) = Some l.
Proof.
  induction 1 as [|b l Hb _ IH]; [done|]. unfold is_byte in Hb.
  cbn [hex_ref flat_map app]. fold (hex_ref l). cbn [unhex_ref].
  rewrite !hex_value_char, IH by (Z.div_mod_to_equations; lia).
  do 2 f_equal. Z.div_mod_to_equations; lia.
Qed.

Lemma hex_ref_length l : length (hex_ref l) = (2 * length l)%nat.
Proof. induction l; simpl; lia. Qed.

Lemma unhex_ref_wf s l : unhex_ref s = Some l -> length s = (2 * length l)%nat /\ Forall is_byte l.
Proof.
  remember (length s) as n eqn:En. revert s l En.
  induction (lt_wf n) as [n _ IH]. intros s l -> Hs.
  destruct s as [|a [|b s]]; simpl in Hs; simplify_eq; [by split; [|constructor]|].
  pose proof (unhex_digit_spec a) as Sa. pose proof (unhex_digit_spec b) as Sb.
  destruct (hex_value a) as [x|], (hex_value b) as [y|], (unhex_ref s) as [l'|] eqn:E;
    simplify_eq. destruct Sa as [_ Sa], Sb as [_ Sb].
  destruct (IH (length s) ltac:(simpl; lia) s l' eq_refl E) as [Hl Hf].
  split; [simpl; lia|]. constructor; [unfold is_byte; lia|done].
Qed.

Lemma key_to_hex_ref k : wf_key k -> key_to_hex k = hex_ref k.
Proof.
  intros [Hl Hb]. assert (E : key_to_hex k = flat_map (fun b =>
    [hex_digit (Z.shiftr b 4); hex_digit (Z.land b 0xf)]) k).
  { unfold WG_KEY_LEN in Hl. explode k Hl. reflexivity. }
  rewrite E. clear E Hl. induction Hb as [|b l Hb _ IH]; [done|]. unfold is_byte in Hb.
  cbn [flat_map hex_ref app]. fold (hex_ref l). rewrite IH.
  rewrite (land_mask _ 0xf 4), Z.shiftr_div_pow2 by lia.
  rewrite !hex_digit_char by (Z.div_mod_to_equations; lia). done.
Qed.

(** ** The zero test *)

Lemma key_is_zero_iff k : wf_key k -> key_is_zero k = true <-> k = zero_key.
Proof.
  intros [Hl Hb]. unfold key_is_zero.
  assert (H : forall n i acc, (i + n)%nat = length k -> is_byte acc ->
    let r := for_from i n (fun i acc => u8 (Z.lor acc (byte_at k i))) acc in
    is_byte r /\ (r = 0 <-> acc = 0 /\ Forall (eq 0) (drop i k))).
  { induction n as [|n IH]; intros i acc Hi Ha r.
    - subst r. simpl. rewrite (drop_ge k) by lia. split; [done|]. split; [by repeat constructor|tauto].
    - destruct (lookup_lt_is_Some_2 k i) as [x Hx]; [lia|].
      assert (Hxb : is_byte x) by (by eapply (Forall_lookup_1 _ k)).
      subst r. cbn [for_from].
      assert (E : byte_at k i = x) by (unfold byte_at; by apply nth_lookup_Some).
      rewrite E. destruct (IH (S i) (u8 (Z.lor acc x))) as [IH1 IH2]; [lia|apply u8_range|].
      split; [done|]. rewrite IH2, u8_lor_eq_0 by done.
      rewrite (drop_S k x i) by done. rewrite Forall_cons_iff. naive_solver. }
  destruct (H 32%nat 0%nat 0) as [Hr Hz]; [by rewrite Hl|apply byte_0|].
  change WG_KEY_LEN with 32%nat. unfold for_upto. rewrite is_zero_mask by done.
  rewrite Z.eqb_eq, Hz, drop_0. unfold zero_key. split.
  - intros [_ Hf]. symmetry. apply replicate_as_elem_of. split; [done|].
    intros y Hy. symmetry. exact (proj1 (Forall_forall _ _) Hf y Hy).
  - intros ->. split; [done|]. by apply Forall_replicate.
Qed.

(** [key_from_base64] and [key_to_base64] are inverse to each other: a string is
    accepted exactly when it is the RFC 4648 encoding of a 32-byte key, and the
    key it encodes is the one written to the buffer. (C20) *)
Theorem base64_key_codec key s k :
  length key = WG_KEY_LEN ->
  (key_from_base64 key s = (true, k) <-> wf_key k /\ s = key_to_base64 k)
  /\ (wf_key k -> key_to_base64 k = base64_ref k).
Proof.
  intros Hk. split; [split|].
  - by apply key_from_base64_sound.
  - intros [Hwf ->]. by apply key_from_base64_complete.
  - apply key_to_base64_ref.
Qed.

(** [key_from_hex] accepts exactly the strings of 64 hex digits, of either case,
    with the bytes they denote, and reads back what [key_to_hex] writes, which is
    the lower-case encoding. *)
Theorem hex_key_codec key s k :
  length key = WG_KEY_LEN ->
  (key_from_hex key s = (true, k) <-> length s = 64%nat /\ unhex_ref s = Some k)
  /\ (wf_key k -> key_to_hex k = hex_ref k /\ key_from_hex key (key_to_hex k) = (true, k)).
Proof.
  intros Hk. split; [by apply key_from_hex_accepts|].
  intros Hwf. rewrite key_to_hex_ref by done. split; [done|].
  apply key_from_hex_accepts; [done|]. destruct Hwf as [Hl Hb].
  rewrite hex_ref_length, Hl. split; [done|by apply unhex_ref_hex].
Qed.

(** [key_is_zero] decides whether all 32 bytes are zero. *)
Theorem key_is_zero_correct k : wf_key k -> key_is_zero k = true <-> k = zero_key.
Proof. apply key_is_zero_iff. Qed.

End Codec.

(** A concrete key, used by the witnesses. *)
Definition sample_key : list Z := map (fun i => (Z.of_nat i * 37 + 200) mod 256) (seq 0 32).

Lemma sample_key_wf : wf_key sample_key.
Proof.
  split; [reflexivity|]. apply List.Forall_forall. intros x Hx. apply in_map_iff in Hx as (i & <- & _).
  apply Z.mod_pos_bound. lia.
Qed.

Lemma zero_key_wf : wf_key zero_key.
Proof. split; [reflexivity|]. apply Forall_replicate. apply byte_0. Qed.

Lemma base64_key_codec_witness :
  key_from_base64 (P := arm64) zero_key (str "yO0SN1yBpsvwFTpfhKnO8xg9Yoes0fYbQGWKr9T5HkM=")
  = (true, sample_key).
Proof.
  apply (proj1 (base64_key_codec (P := arm64) zero_key _ sample_key eq_refl)).
  split; [apply sample_key_wf|]. vm_compute. reflexivity.
Defined.

Lemma hex_key_codec_witness :
  key_from_hex zero_key
    (str "C8ed12375c81a6cbf0153a5f84a9cef3183d6287acd1f61b40658aafd4f91e43") = (true, sample_key)
  /\ key_from_hex zero_key (key_to_hex sample_key) = (true, sample_key).
Proof.
  split.
  - apply (proj1 (hex_key_codec zero_key _ sample_key eq_refl)).
    split; [reflexivity|]. vm_compute. reflexivity.
  - apply (proj2 (hex_key_codec zero_key [] sample_key eq_refl)). apply sample_key_wf.
Defined.

Lemma key_is_zero_correct_witness :
  key_is_zero zero_key = true /\ key_is_zero sample_key = false.
Proof.
  split; [by apply (key_is_zero_correct zero_key zero_key_wf)|reflexivity].
Defined.

End Encoding.
