(* ===== verification/Containers.v ===== *)
(** * The configuration data model (src/containers.h)

    Devices, peers and allowed IPs. The singly linked lists are modelled by the
    lists of their nodes in link order; a pointer into such a list is the
    position of the node, and [NULL] is [None]. Storing a fresh node in the
    [next] field of the node at position [i] makes the list end right after
    [i], which is what [link_next] says; that the tools only ever do so at the
    last node is an invariant proved for each of them. *)
From S2P Require Import Prelude Libc Encoding.

Definition IFNAMSIZ : nat := 16.

Record timespec64 := { tv_sec : Z; tv_nsec : Z }.

Definition WGALLOWEDIP_REMOVE_ME : Z := Z.shiftl 1 0.

Record wgallowedip := {
  aip_family : Z;
  aip_ip : list Z;     (** the union of [ip4] and [ip6]: 16 bytes *)
  aip_cidr : Z;
  aip_flags : Z
}.

Definition WGPEER_REMOVE_ME : Z := Z.shiftl 1 0.
Definition WGPEER_REPLACE_ALLOWEDIPS : Z := Z.shiftl 1 1.
Definition WGPEER_HAS_PUBLIC_KEY : Z := Z.shiftl 1 2.
Definition WGPEER_HAS_PRESHARED_KEY : Z := Z.shiftl 1 3.
Definition WGPEER_HAS_PERSISTENT_KEEPALIVE_INTERVAL : Z := Z.shiftl 1 4.

Record wgpeer := {
  peer_flags : Z;
  peer_public_key : list Z;
  peer_preshared_key : list Z;
  peer_endpoint : sockaddr;
  peer_last_handshake_time : timespec64;
  peer_rx_bytes : Z;
  peer_tx_bytes : Z;
  peer_persistent_keepalive_interval : Z;
  peer_allowedips : list wgallowedip   (** from [first_allowedip] on *)
}.

Definition WGDEVICE_REPLACE_PEERS : Z := Z.shiftl 1 0.
Definition WGDEVICE_HAS_PRIVATE_KEY : Z := Z.shiftl 1 1.
Definition WGDEVICE_HAS_PUBLIC_KEY : Z := Z.shiftl 1 2.
Definition WGDEVICE_HAS_LISTEN_PORT : Z := Z.shiftl 1 3.
Definition WGDEVICE_HAS_FWMARK : Z := Z.shiftl 1 4.

Record wgdevice := {
  dev_name : cstring;
  dev_ifindex : Z;
  dev_flags : Z;
  dev_public_key : list Z;
  dev_private_key : list Z;
  dev_fwmark : Z;
  dev_listen_port : Z;
  dev_peers : list wgpeer              (** from [first_peer] on *)
}.

(** What [calloc(1, sizeof(...))] returns. *)
Definition zero_allowedip : wgallowedip :=
  {| aip_family := 0; aip_ip := replicate 16 0; aip_cidr := 0; aip_flags := 0 |}.
Definition zero_peer : wgpeer :=
  {| peer_flags := 0; peer_public_key := zero_key; peer_preshared_key := zero_key;
     peer_endpoint := zero_sockaddr; peer_last_handshake_time := {| tv_sec := 0; tv_nsec := 0 |};
     peer_rx_bytes := 0; peer_tx_bytes := 0; peer_persistent_keepalive_interval := 0;
     peer_allowedips := [] |}.
Definition zero_device : wgdevice :=
  {| dev_name := []; dev_ifindex := 0; dev_flags := 0; dev_public_key := zero_key;
     dev_private_key := zero_key; dev_fwmark := 0; dev_listen_port := 0; dev_peers := [] |}.

(** Field updates. *)
Definition with_peer_flags (f : Z -> Z) (p : wgpeer) : wgpeer :=
  {| peer_flags := f (peer_flags p); peer_public_key := peer_public_key p;
     peer_preshared_key := peer_preshared_key p; peer_endpoint := peer_endpoint p;
     peer_last_handshake_time := peer_last_handshake_time p;
     peer_rx_bytes := peer_rx_bytes p; peer_tx_bytes := peer_tx_bytes p;
     peer_persistent_keepalive_interval := peer_persistent_keepalive_interval p;
     peer_allowedips := peer_allowedips p |}.
Definition with_public_key (k : list Z) (p : wgpeer) : wgpeer :=
  {| peer_flags := peer_flags p; peer_public_key := k;
     peer_preshared_key := peer_preshared_key p; peer_endpoint := peer_endpoint p;
     peer_last_handshake_time := peer_last_handshake_time p;
     peer_rx_bytes := peer_rx_bytes p; peer_tx_bytes := peer_tx_bytes p;
     peer_persistent_keepalive_interval := peer_persistent_keepalive_interval p;
     peer_allowedips := peer_allowedips p |}.
Definition with_preshared_key (k : list Z) (p : wgpeer) : wgpeer :=
  {| peer_flags := peer_flags p; peer_public_key := peer_public_key p;
     peer_preshared_key := k; peer_endpoint := peer_endpoint p;
     peer_last_handshake_time := peer_last_handshake_time p;
     peer_rx_bytes := peer_rx_bytes p; peer_tx_bytes := peer_tx_bytes p;
     peer_persistent_keepalive_interval := peer_persistent_keepalive_interval p;
     peer_allowedips := peer_allowedips p |}.
Definition with_endpoint (e : sockaddr) (p : wgpeer) : wgpeer :=
  {| peer_flags := peer_flags p; peer_public_key := peer_public_key p;
     peer_preshared_key := peer_preshared_key p; peer_endpoint := e;
     peer_last_handshake_time := peer_last_handshake_time p;
     peer_rx_bytes := peer_rx_bytes p; peer_tx_bytes := peer_tx_bytes p;
     peer_persistent_keepalive_interval := peer_persistent_keepalive_interval p;
     peer_allowedips := peer_allowedips p |}.
Definition with_handshake (t : timespec64) (p : wgpeer) : wgpeer :=
  {| peer_flags := peer_flags p; peer_public_key := peer_public_key p;
     peer_preshared_key := peer_preshared_key p; peer_endpoint := peer_endpoint p;
     peer_last_handshake_time := t;
     peer_rx_bytes := peer_rx_bytes p; peer_tx_bytes := peer_tx_bytes p;
     peer_persistent_keepalive_interval := peer_persistent_keepalive_interval p;
     peer_allowedips := peer_allowedips p |}.
Definition with_transfer (rx tx : Z) (p : wgpeer) : wgpeer :=
  {| peer_flags := peer_flags p; peer_public_key := peer_public_key p;
     peer_preshared_key := peer_preshared_key p; peer_endpoint := peer_endpoint p;
     peer_last_handshake_time := peer_last_handshake_time p;
     peer_rx_bytes := rx; peer_tx_bytes := tx;
     peer_persistent_keepalive_interval := peer_persistent_keepalive_interval p;
     peer_allowedips := peer_allowedips p |}.
Definition with_keepalive (n : Z) (p : wgpeer) : wgpeer :=
  {| peer_flags := peer_flags p; peer_public_key := peer_public_key p;
     peer_preshared_key := peer_preshared_key p; peer_endpoint := peer_endpoint p;
     peer_last_handshake_time := peer_last_handshake_time p;
     peer_rx_bytes := peer_rx_bytes p; peer_tx_bytes := peer_tx_bytes p;
     peer_persistent_keepalive_interval := n;
     peer_allowedips := peer_allowedips p |}.
Definition with_allowedips (l : list wgallowedip) (p : wgpeer) : wgpeer :=
  {| peer_flags := peer_flags p; peer_public_key := peer_public_key p;
     peer_preshared_key := peer_preshared_key p; peer_endpoint := peer_endpoint p;
     peer_last_handshake_time := peer_last_handshake_time p;
     peer_rx_bytes := peer_rx_bytes p; peer_tx_bytes := peer_tx_bytes p;
     peer_persistent_keepalive_interval := peer_persistent_keepalive_interval p;
     peer_allowedips := l |}.

Definition with_dev_name (n : cstring) (d : wgdevice) : wgdevice :=
  {| dev_name := n; dev_ifindex := dev_ifindex d; dev_flags := dev_flags d;
     dev_public_key := dev_public_key d; dev_private_key := dev_private_key d;
     dev_fwmark := dev_fwmark d; dev_listen_port := dev_listen_port d; dev_peers := dev_peers d |}.
Definition with_ifindex (i : Z) (d : wgdevice) : wgdevice :=
  {| dev_name := dev_name d; dev_ifindex := i; dev_flags := dev_flags d;
     dev_public_key := dev_public_key d; dev_private_key := dev_private_key d;
     dev_fwmark := dev_fwmark d; dev_listen_port := dev_listen_port d; dev_peers := dev_peers d |}.
Definition with_dev_flags (f : Z -> Z) (d : wgdevice) : wgdevice :=
  {| dev_name := dev_name d; dev_ifindex := dev_ifindex d; dev_flags := f (dev_flags d);
     dev_public_key := dev_public_key d; dev_private_key := dev_private_key d;
     dev_fwmark := dev_fwmark d; dev_listen_port := dev_listen_port d; dev_peers := dev_peers d |}.
Definition with_dev_public_key (k : list Z) (d : wgdevice) : wgdevice :=
  {| dev_name := dev_name d; dev_ifindex := dev_ifindex d; dev_flags := dev_flags d;
     dev_public_key := k; dev_private_key := dev_private_key d;
     dev_fwmark := dev_fwmark d; dev_listen_port := dev_listen_port d; dev_peers := dev_peers d |}.
Definition with_private_key (k : list Z) (d : wgdevice) : wgdevice :=
  {| dev_name := dev_name d; dev_ifindex := dev_ifindex d; dev_flags := dev_flags d;
     dev_public_key := dev_public_key d; dev_private_key := k;
     dev_fwmark := dev_fwmark d; dev_listen_port := dev_listen_port d; dev_peers := dev_peers d |}.
Definition with_fwmark (m : Z) (d : wgdevice) : wgdevice :=
  {| dev_name := dev_name d; dev_ifindex := dev_ifindex d; dev_flags := dev_flags d;
     dev_public_key := dev_public_key d; dev_private_key := dev_private_key d;
     dev_fwmark := m; dev_listen_port := dev_listen_port d; dev_peers := dev_peers d |}.
Definition with_listen_port (p : Z) (d : wgdevice) : wgdevice :=
  {| dev_name := dev_name d; dev_ifindex := dev_ifindex d; dev_flags := dev_flags d;
     dev_public_key := dev_public_key d; dev_private_key := dev_private_key d;
     dev_fwmark := dev_fwmark d; dev_listen_port := p; dev_peers := dev_peers d |}.
Definition with_peers (l : list wgpeer) (d : wgdevice) : wgdevice :=
  {| dev_name := dev_name d; dev_ifindex := dev_ifindex d; dev_flags := dev_flags d;
     dev_public_key := dev_public_key d; dev_private_key := dev_private_key d;
     dev_fwmark := dev_fwmark d; dev_listen_port := dev_listen_port d; dev_peers := l |}.

(** [flags |= m] and [flags &= ~m] on a 32-bit field. *)
Definition set_flag (m : Z) (flags : Z) : Z := Z.lor flags m.
Definition clear_flag (m : Z) (flags : Z) : Z := Z.land flags (u32 (Z.lnot m)).

(** [if (last) last->next = x; else first = x;] for a fresh node [x]. *)
Definition link_next {A} (last : option nat) (l : list A) (x : A) : list A :=
  match last with
  | Some i => take (S i) l ++ [x]
  | None => [x]
  end.
(** The position of the node just linked. *)
Definition linked_pos (last : option nat) : nat :=
  match last with Some i => S i | None => O end.

(** The pointer to the last node of a list. *)
Definition last_ptr {A} (l : list A) : option nat :=
  match length l with O => None | S n => Some n end.

Lemma link_next_last {A} (l : list A) x : link_next (last_ptr l) l x = l ++ [x].
Proof.
  unfold link_next, last_ptr. destruct (length l) as [|n] eqn:E.
  - by apply nil_length_inv in E as ->.
  - by rewrite <- E, firstn_all.
Qed.

Lemma last_ptr_app {A} (l : list A) x : last_ptr (l ++ [x]) = Some (linked_pos (last_ptr l)).
Proof.
  unfold last_ptr, linked_pos. rewrite length_app. simpl.
  destruct (length l); simpl; [done|]. by rewrite Nat.add_1_r.
Qed.

Lemma last_ptr_Some {A} (l : list A) i : last_ptr l = Some i -> S i = length l.
Proof. unfold last_ptr. destruct (length l); congruence. Qed.

#[export] Instance wgallowedip_eq_dec : EqDecision wgallowedip.
Proof. solve_decision. Defined.
#[export] Instance sockaddr_eq_dec : EqDecision sockaddr.
Proof. solve_decision. Defined.
#[export] Instance timespec64_eq_dec : EqDecision timespec64.
Proof. solve_decision. Defined.
#[export] Instance wgpeer_eq_dec : EqDecision wgpeer.
Proof. solve_decision. Defined.
#[export] Instance wgdevice_eq_dec : EqDecision wgdevice.
Proof. solve_decision. Defined.

(** ** Well-formed values: what the C types guarantee, plus the ranges the
    parsers establish. *)
Definition wf_allowedip (a : wgallowedip) : Prop :=
  length (aip_ip a) = 16%nat /\ Forall is_byte (aip_ip a) /\
  ((aip_family a = AF_INET /\ 0 <= aip_cidr a <= 32) \/
   (aip_family a = AF_INET6 /\ 0 <= aip_cidr a <= 128)) /\
  (aip_flags a = 0 \/ aip_flags a = WGALLOWEDIP_REMOVE_ME).
Definition wf_peer (p : wgpeer) : Prop :=
  0 <= peer_flags p < 32 /\
  wf_key (peer_public_key p) /\ wf_key (peer_preshared_key p) /\
  0 <= peer_persistent_keepalive_interval p < 2 ^ 16 /\
  Forall wf_allowedip (peer_allowedips p).
Definition wf_device (d : wgdevice) : Prop :=
  0 <= dev_flags d < 32 /\
  wf_key (dev_public_key d) /\ wf_key (dev_private_key d) /\
  0 <= dev_fwmark d < 2 ^ 32 /\ 0 <= dev_listen_port d < 2 ^ 16 /\
  Forall wf_peer (dev_peers d).
