(* ===== verification/Config.v ===== *)
(** * Configuration parsing (src/config.c, src/config.h)

    The parsers of single values, the line parser with its section state, the
    whole-file protocol init / line / finish, and the command-line parser of
    [wg set]. Diagnostics written to stderr are not modelled; [calloc] and
    [strdup] are taken to succeed. *)
From S2P Require Import Prelude Ctype Libc Encoding Containers.
Import Ctype Libc Encoding.

Module Config.

Section Parsers.
Context `{P : Platform} `{W : World}.

Definition COMMENT_CHAR : ascii := "#".

(** [get_value]: the text after [key] when the line starts with it. *)
Definition get_value (line key : cstring) : option cstring :=
  if strlen line <=? strlen key then None
  else if negb (strncase_eq line key (length key)) then None
  else Some (drop (length key) line).

(** Results of the value parsers: the returned flag, then the objects written
    through pointers. *)
Definition parse_port (port flags : Z) (value : cstring) : bool * Z * Z :=
  if strlen value =? 0 then (false, port, flags)
  else match getaddrinfo 0 None value with
       | GaiErr _ => (false, port, flags)
       | GaiOk resolved =>
           if (ai_family resolved =? AF_INET) && (ai_addrlen resolved =? sizeof_sockaddr_in)
           then (true, sa_port (ai_addr resolved), set_flag WGDEVICE_HAS_LISTEN_PORT flags)
           else if (ai_family resolved =? AF_INET6) && (ai_addrlen resolved =? sizeof_sockaddr_in6)
           then (true, sa_port (ai_addr resolved), set_flag WGDEVICE_HAS_LISTEN_PORT flags)
           else (false, port, flags)
       end.

Definition parse_fwmark (fwmark flags : Z) (value : cstring) : bool * Z * Z :=
  if strcase_eq value (str "off") then (true, 0, set_flag WGDEVICE_HAS_FWMARK flags)
  else if negb (char_is_digit (char_int (cget value 0))) then (false, fwmark, flags)
  else
    let base :=
      if (2 <? strlen value) && Ascii.eqb (cget value 0) "0" && Ascii.eqb (cget value 1) "x"
      then 16 else 10 in
    let '(ret, rest) := strtoul value base in
    if negb (Ascii.eqb (cget rest 0) NUL) || (UINT32_MAX <? ret) then (false, fwmark, flags)
    else (true, u32 ret, set_flag WGDEVICE_HAS_FWMARK flags).

Definition parse_key (key : list Z) (value : cstring) : bool * list Z :=
  let '(ok, key) := key_from_base64 key value in
  if negb ok then (false, zero_key) else (true, key).

(** [parse_keyfile]: an empty file is the zero key; otherwise the first 44
    bytes are a key and only white space may follow. *)
Definition parse_keyfile (key : list Z) (path : cstring) : bool * list Z :=
  match fopen path with
  | None => (false, key)
  | Some f =>
      if (length (f_bytes f) <? WG_KEY_LEN_BASE64 - 1)%nat then
        if negb (f_error f) && (length (f_bytes f) =? 0)%nat then (true, zero_key)
        else (false, key)
      else
        let dst := take (WG_KEY_LEN_BASE64 - 1) (f_bytes f) in
        let trailing := drop (WG_KEY_LEN_BASE64 - 1) (f_bytes f) in
        if negb (forallb (fun c => char_is_space (uchar c)) trailing) then (false, key)
        else if f_error f then (false, key)
        else parse_key key (cut_nul dst)
  end.

(** Writing an address at the start of the [ip4]/[ip6] union. *)
Definition store_ip (ip addr : list Z) : list Z := list_inserts 0 addr ip.

Definition parse_ip (allowedip : wgallowedip) (value : cstring) : bool * wgallowedip :=
  let family := if bool_decide (is_Some (strchr value ":")) then AF_INET6 else AF_INET in
  match inet_pton family value with
  | Some addr =>
      (true, {| aip_family := family; aip_ip := store_ip (aip_ip allowedip) addr;
                aip_cidr := aip_cidr allowedip; aip_flags := aip_flags allowedip |})
  | None =>
      (false, {| aip_family := AF_UNSPEC; aip_ip := aip_ip allowedip;
                 aip_cidr := aip_cidr allowedip; aip_flags := aip_flags allowedip |})
  end.

Definition parse_dns_retries : outcome Z :=
  match getenv (str "WG_ENDPOINT_RESOLUTION_RETRIES") with
  | None => Ret 15
  | Some retries =>
      if str_eq retries (str "infinity") then Ret (-1)
      else
        let '(ret, rest) := strtoul retries 10 in
        if negb (Ascii.eqb (cget rest 0) NUL) || (INT_MAX <? ret) then Exit 1
        else Ret (s32 ret)
  end.

(** Host and port of an endpoint: [[host]:port] or [host:port]. *)
Definition split_endpoint (value : cstring) : option (cstring * cstring) :=
  if Ascii.eqb (cget value 0) "[" then
    match strsep (drop 1 value) "]" with
    | (_, None) => None
    | (host, Some rest) =>
        if negb (Ascii.eqb (cget rest 0) ":") || Ascii.eqb (cget rest 1) NUL then None
        else Some (host, drop 1 rest)
    end
  else
    match split_last value ":" with
    | None => None
    | Some (host, port) => if Ascii.eqb (cget port 0) NUL then None else Some (host, port)
    end.

Definition next_timeout (timeout : Z) : Z := Z.min 20000000 (u32 (timeout * 6) / 5).

(** The resolution loop: the resolved address, if any, and the delays slept. *)
Fixpoint resolve_endpoint (fuel attempt : nat) (retries timeout : Z) (host port : cstring)
  : outcome (option addrinfo * list Z) :=
  match fuel with
  | O => NoFuel
  | S fuel =>
      match getaddrinfo attempt (Some host) port with
      | GaiOk resolved => Ret (Some resolved, [])
      | GaiErr e =>
          if bool_decide (e = EAI_NONAME) || bool_decide (e = EAI_FAIL)
             || bool_decide (e = EAI_NODATA) || ((0 <=? retries) && (retries =? 0))
          then Ret (None, [])
          else
            let retries := if 0 <=? retries then retries - 1 else retries in
            '(r, sleeps) ← resolve_endpoint fuel (S attempt) retries (next_timeout timeout) host port;
            Ret (r, timeout :: sleeps)
      end
  end.

Definition parse_endpoint (fuel : nat) (endpoint : sockaddr) (value : cstring)
  : outcome (bool * sockaddr) :=
  retries ← parse_dns_retries;
  if strlen value =? 0 then Ret (false, endpoint)
  else match split_endpoint value with
       | None => Ret (false, endpoint)
       | Some (host, port) =>
           '(r, _) ← resolve_endpoint fuel 0 retries 1000000 host port;
           match r with
           | None => Ret (false, endpoint)
           | Some resolved =>
               if ((ai_family resolved =? AF_INET) && (ai_addrlen resolved =? sizeof_sockaddr_in))
                  || ((ai_family resolved =? AF_INET6) && (ai_addrlen resolved =? sizeof_sockaddr_in6))
               then Ret (true, ai_addr resolved)
               else Ret (false, endpoint)
           end
       end.

Definition parse_persistent_keepalive (interval flags : Z) (value : cstring) : bool * Z * Z :=
  if strcase_eq value (str "off")
  then (true, 0, set_flag WGPEER_HAS_PERSISTENT_KEEPALIVE_INTERVAL flags)
  else if negb (char_is_digit (char_int (cget value 0))) then (false, interval, flags)
  else
    let '(ret, rest) := strtoul value 10 in
    if negb (Ascii.eqb (cget rest 0) NUL) || (65535 <? ret) then (false, interval, flags)
    else (true, u16 ret, set_flag WGPEER_HAS_PERSISTENT_KEEPALIVE_INTERVAL flags).

(** [ntohl(ip[i])]: the i-th 32-bit word of the address, big endian. *)
Definition ip_word (ip : list Z) (i : nat) : Z :=
  nth (4 * i) ip 0 * 2 ^ 24 + nth (4 * i + 1) ip 0 * 2 ^ 16
  + nth (4 * i + 2) ip 0 * 2 ^ 8 + nth (4 * i + 3) ip 0.

(** [for (int i = last; i >= 0; --i)] over the words of the address. *)
Fixpoint netmask_loop (n : nat) (ip : list Z) (cidr : Z) : bool :=
  match n with
  | O => true
  | S i =>
      if 32 * (Z.of_nat i + 1) <=? cidr then true
      else
        let mask := 2 ^ 32 - 1 in
        let mask := if 32 * Z.of_nat i <? cidr then Z.shiftr mask (cidr - 32 * Z.of_nat i) else mask in
        if negb (Z.land (ip_word ip i) mask =? 0) then false else netmask_loop i ip cidr
  end.

Definition validate_netmask (allowedip : wgallowedip) : bool :=
  if aip_family allowedip =? AF_INET then netmask_loop 1 (aip_ip allowedip) (aip_cidr allowedip)
  else if aip_family allowedip =? AF_INET6 then netmask_loop 4 (aip_ip allowedip) (aip_cidr allowedip)
  else true.

Definition parse_ip_prefix (peer : wgpeer) (flags : Z) (mask : cstring) : wgpeer * Z * cstring :=
  if Ascii.eqb (cget mask 0) "-" then
    (with_peer_flags (clear_flag WGPEER_REPLACE_ALLOWEDIPS) peer,
     set_flag WGALLOWEDIP_REMOVE_ME flags, drop 1 mask)
  else if Ascii.eqb (cget mask 0) "+" then
    (with_peer_flags (clear_flag WGPEER_REPLACE_ALLOWEDIPS) peer, flags, drop 1 mask)
  else (peer, flags, mask).

(** The prefix length of one entry; [None] is [goto err]. *)
Definition parse_cidr (family : Z) (mask : option cstring) : option Z :=
  match mask with
  | Some mask =>
      if negb (char_is_digit (char_int (cget mask 0))) then None
      else
        let '(cidr, rest) := strtoul mask 10 in
        if negb (Ascii.eqb (cget rest 0) NUL)
           || ((32 <? cidr) && (family =? AF_INET)) || ((128 <? cidr) && (family =? AF_INET6))
        then None else Some cidr
  | None => if family =? AF_INET then Some 32 else if family =? AF_INET6 then Some 128 else None
  end.

(** The loop over the comma-separated entries, with the position of the last
    node linked. *)
Fixpoint allowedips_loop (entries : list cstring) (peer : wgpeer) (allowedip : option nat)
  : bool * wgpeer * option nat :=
  match entries with
  | [] => (true, peer, allowedip)
  | entry :: entries =>
      let '(peer, flags, mask) := parse_ip_prefix peer 0 entry in
      let '(ip, mask) := strsep mask "/" in
      let '(ok, new_allowedip) := parse_ip zero_allowedip ip in
      if negb ok then (false, peer, allowedip)
      else match parse_cidr (aip_family new_allowedip) mask with
           | None => (false, peer, allowedip)
           | Some cidr =>
               let new_allowedip :=
                 {| aip_family := aip_family new_allowedip; aip_ip := aip_ip new_allowedip;
                    aip_cidr := u8 cidr; aip_flags := flags |} in
               allowedips_loop entries
                 (with_allowedips (link_next allowedip (peer_allowedips peer) new_allowedip) peer)
                 (Some (linked_pos allowedip))
           end
  end.

(** [*last_allowedip] is written only on success. *)
Definition parse_allowedips (peer : wgpeer) (last_allowedip : option nat) (value : cstring)
  : bool * wgpeer * option nat :=
  let peer := with_peer_flags (set_flag WGPEER_REPLACE_ALLOWEDIPS) peer in
  if strlen value =? 0 then (true, peer, last_allowedip)
  else
    let '(ok, peer, last) := allowedips_loop (tokens value ",") peer last_allowedip in
    (ok, peer, if ok then last else last_allowedip).

(** ** Lines *)

Record config_ctx := {
  ctx_device : wgdevice;
  ctx_last_peer : option nat;
  ctx_last_allowedip : option nat;
  is_peer_section : bool;
  is_device_section : bool
}.

Definition with_ctx_device (d : wgdevice) (ctx : config_ctx) : config_ctx :=
  {| ctx_device := d; ctx_last_peer := ctx_last_peer ctx;
     ctx_last_allowedip := ctx_last_allowedip ctx;
     is_peer_section := is_peer_section ctx; is_device_section := is_device_section ctx |}.
Definition with_ctx_last_allowedip (l : option nat) (ctx : config_ctx) : config_ctx :=
  {| ctx_device := ctx_device ctx; ctx_last_peer := ctx_last_peer ctx;
     ctx_last_allowedip := l;
     is_peer_section := is_peer_section ctx; is_device_section := is_device_section ctx |}.

(** [*peer = ...] for the peer at position [i]. *)
Definition store_peer (i : nat) (p : wgpeer) (d : wgdevice) : wgdevice :=
  with_peers (<[i := p]> (dev_peers d)) d.

(** The branch of [process_line] for a line of an [Interface] section. *)
Definition device_line (ctx : config_ctx) (line : cstring) : bool * config_ctx :=
  let d := ctx_device ctx in
  match get_value line (str "ListenPort=") with
  | Some value =>
      let '(ret, port, flags) := parse_port (dev_listen_port d) (dev_flags d) value in
      (ret, with_ctx_device (with_dev_flags (fun _ => flags) (with_listen_port port d)) ctx)
  | None =>
  match get_value line (str "FwMark=") with
  | Some value =>
      let '(ret, fwmark, flags) := parse_fwmark (dev_fwmark d) (dev_flags d) value in
      (ret, with_ctx_device (with_dev_flags (fun _ => flags) (with_fwmark fwmark d)) ctx)
  | None =>
  match get_value line (str "PrivateKey=") with
  | Some value =>
      let '(ret, key) := parse_key (dev_private_key d) value in
      let d := with_private_key key d in
      (ret, with_ctx_device
        (if ret then with_dev_flags (set_flag WGDEVICE_HAS_PRIVATE_KEY) d else d) ctx)
  | None => (false, ctx)
  end end end.

(** The branch for a line of a [Peer] section, [peer] being [*ctx->last_peer]:
    the flag, the peer and [ctx->last_allowedip] afterwards. *)
Definition peer_line (fuel : nat) (peer : wgpeer) (last_allowedip : option nat) (line : cstring)
  : outcome (bool * wgpeer * option nat) :=
  match get_value line (str "Endpoint=") with
  | Some value =>
      '(ret, endpoint) ← parse_endpoint fuel (peer_endpoint peer) value;
      Ret (ret, with_endpoint endpoint peer, last_allowedip)
  | None =>
  match get_value line (str "PublicKey=") with
  | Some value =>
      let '(ret, key) := parse_key (peer_public_key peer) value in
      let peer := with_public_key key peer in
      Ret (ret, if ret then with_peer_flags (set_flag WGPEER_HAS_PUBLIC_KEY) peer else peer,
           last_allowedip)
  | None =>
  match get_value line (str "AllowedIPs=") with
  | Some value => Ret (parse_allowedips peer last_allowedip value)
  | None =>
  match get_value line (str "PersistentKeepalive=") with
  | Some value =>
      let '(ret, interval, flags) :=
        parse_persistent_keepalive (peer_persistent_keepalive_interval peer) (peer_flags peer) value in
      Ret (ret, with_peer_flags (fun _ => flags) (with_keepalive interval peer), last_allowedip)
  | None =>
  match get_value line (str "PresharedKey=") with
  | Some value =>
      let '(ret, key) := parse_key (peer_preshared_key peer) value in
      let peer := with_preshared_key key peer in
      Ret (ret, if ret then with_peer_flags (set_flag WGPEER_HAS_PRESHARED_KEY) peer else peer,
           last_allowedip)
  | None => Ret (false, peer, last_allowedip)
  end end end end end.

Definition process_line (fuel : nat) (ctx : config_ctx) (line : cstring)
  : outcome (bool * config_ctx) :=
  if strcase_eq line (str "[Interface]") then
    Ret (true, {| ctx_device := ctx_device ctx; ctx_last_peer := ctx_last_peer ctx;
                  ctx_last_allowedip := ctx_last_allowedip ctx;
                  is_peer_section := false; is_device_section := true |})
  else if strcase_eq line (str "[Peer]") then
    let new_peer := with_peer_flags (set_flag WGPEER_REPLACE_ALLOWEDIPS) zero_peer in
    let d := ctx_device ctx in
    Ret (true, {| ctx_device := with_peers (link_next (ctx_last_peer ctx) (dev_peers d) new_peer) d;
                  ctx_last_peer := Some (linked_pos (ctx_last_peer ctx));
                  ctx_last_allowedip := None;
                  is_peer_section := true; is_device_section := false |})
  else if is_device_section ctx then Ret (device_line ctx line)
  else if is_peer_section ctx then
    match ctx_last_peer ctx with
    | None => NullDeref
    | Some i =>
        match dev_peers (ctx_device ctx) !! i with
        | None => NullDeref
        | Some peer =>
            '(ret, peer, last) ← peer_line fuel peer (ctx_last_allowedip ctx) line;
            Ret (ret, with_ctx_last_allowedip last
                        (with_ctx_device (store_peer i peer (ctx_device ctx)) ctx))
        end
    end
  else Ret (false, ctx).

(** The line with its comment and all white space removed. *)
Definition clean_line (input : cstring) : cstring :=
  let len := match strchr input COMMENT_CHAR with
             | Some comment => (length input - length comment)%nat
             | None => length input
             end in
  List.filter (fun c => negb (char_is_space (char_int c))) (take len input).

(** [config_read_line]: [None] when the line is refused, the device having
    been freed. *)
Definition config_read_line (fuel : nat) (ctx : config_ctx) (input : cstring)
  : outcome (option config_ctx) :=
  let line := clean_line input in
  if (length line =? 0)%nat then Ret (Some ctx)
  else
    '(ret, ctx) ← process_line fuel ctx line;
    Ret (if (ret : bool) then Some ctx else None).

Definition config_read_init (append : bool) : config_ctx :=
  {| ctx_device :=
       if append then zero_device
       else with_dev_flags (set_flag
              (Z.lor (Z.lor (Z.lor WGDEVICE_REPLACE_PEERS WGDEVICE_HAS_PRIVATE_KEY)
                 WGDEVICE_HAS_FWMARK) WGDEVICE_HAS_LISTEN_PORT)) zero_device;
     ctx_last_peer := None; ctx_last_allowedip := None;
     is_peer_section := false; is_device_section := false |}.

Definition config_read_finish (ctx : config_ctx) : option wgdevice :=
  if forallb (fun peer => has_flag (peer_flags peer) WGPEER_HAS_PUBLIC_KEY)
       (dev_peers (ctx_device ctx))
  then Some (ctx_device ctx) else None.

(** The loop of [setconf_main] over the lines of the file, then
    [config_read_finish]. *)
Fixpoint config_read_lines (fuel : nat) (ctx : config_ctx) (lines : list cstring)
  : outcome (option config_ctx) :=
  match lines with
  | [] => Ret (Some ctx)
  | line :: lines =>
      r ← config_read_line fuel ctx line;
      match r with
      | None => Ret None
      | Some ctx => config_read_lines fuel ctx lines
      end
  end.
(** The strings the loop sees of a file: each line up to its first NUL. *)
Definition config_lines (text : list ascii) : list cstring := map cut_nul (getlines text).
Definition config_read_file (fuel : nat) (append : bool) (lines : list cstring)
  : outcome (option wgdevice) :=
  r ← config_read_lines fuel (config_read_init append) lines;
  Ret (match r with None => None | Some ctx => config_read_finish ctx end).

(** ** Command line of [wg set] *)

Definition strip_spaces (s : cstring) : cstring :=
  List.filter (fun c => negb (char_is_space (char_int c))) s.

Record cmd_state := {
  cmd_device : wgdevice;
  cmd_peer : option nat;
  cmd_allowedip : option nat
}.

(** One turn of the [while] loop with [argv[0]] and, when [argc >= 2],
    [argv[1]]: [None] is [goto error]; the flag says whether two arguments were
    consumed. *)
Definition cmd_step (fuel : nat) (st : cmd_state) (arg0 : cstring) (arg1 : option cstring)
  : outcome (option (cmd_state * bool)) :=
  let d := cmd_device st in
  let no_peer := negb (bool_decide (is_Some (cmd_peer st))) in
  let continue1 d := Ret (Some ({| cmd_device := d; cmd_peer := cmd_peer st;
                                   cmd_allowedip := cmd_allowedip st |}, true)) in
  let with_peer (f : nat -> wgpeer -> outcome (option (cmd_state * bool))) :=
    match cmd_peer st with
    | None => NullDeref
    | Some i => match dev_peers d !! i with None => NullDeref | Some p => f i p end
    end in
  let arg_is s := str_eq arg0 (str s) in
  match arg1 with
  | Some value =>
      if arg_is "listen-port" && no_peer then
        let '(ok, port, flags) := parse_port (dev_listen_port d) (dev_flags d) value in
        if negb ok then Ret None
        else continue1 (with_dev_flags (fun _ => flags) (with_listen_port port d))
      else if arg_is "fwmark" && no_peer then
        let '(ok, mark, flags) := parse_fwmark (dev_fwmark d) (dev_flags d) value in
        if negb ok then Ret None
        else continue1 (with_dev_flags (fun _ => flags) (with_fwmark mark d))
      else if arg_is "private-key" && no_peer then
        let '(ok, key) := parse_keyfile (dev_private_key d) value in
        if negb ok then Ret None
        else continue1 (with_dev_flags (set_flag WGDEVICE_HAS_PRIVATE_KEY) (with_private_key key d))
      else if arg_is "peer" then
        let '(ok, key) := parse_key (peer_public_key zero_peer) value in
        if negb ok then Ret None
        else
          let new_peer := with_peer_flags (set_flag WGPEER_HAS_PUBLIC_KEY)
                            (with_public_key key zero_peer) in
          Ret (Some ({| cmd_device := with_peers (link_next (cmd_peer st) (dev_peers d) new_peer) d;
                        cmd_peer := Some (linked_pos (cmd_peer st)); cmd_allowedip := None |}, true))
      else if arg_is "remove" && negb no_peer then
        with_peer (fun i p =>
          Ret (Some ({| cmd_device := store_peer i (with_peer_flags (set_flag WGPEER_REMOVE_ME) p) d;
                        cmd_peer := cmd_peer st; cmd_allowedip := cmd_allowedip st |}, false)))
      else if arg_is "endpoint" && negb no_peer then
        with_peer (fun i p =>
          '(ok, e) ← parse_endpoint fuel (peer_endpoint p) value;
          if negb ok then Ret None else continue1 (store_peer i (with_endpoint e p) d))
      else if arg_is "allowed-ips" && negb no_peer then
        with_peer (fun i p =>
          let '(ok, p, last) := parse_allowedips p (cmd_allowedip st) (strip_spaces value) in
          if negb ok then Ret None
          else Ret (Some ({| cmd_device := store_peer i p d; cmd_peer := cmd_peer st;
                             cmd_allowedip := last |}, true)))
      else if arg_is "persistent-keepalive" && negb no_peer then
        with_peer (fun i p =>
          let '(ok, interval, flags) :=
            parse_persistent_keepalive (peer_persistent_keepalive_interval p) (peer_flags p) value in
          if negb ok then Ret None
          else continue1 (store_peer i (with_peer_flags (fun _ => flags) (with_keepalive interval p)) d))
      else if arg_is "preshared-key" && negb no_peer then
        with_peer (fun i p =>
          let '(ok, key) := parse_keyfile (peer_preshared_key p) value in
          if negb ok then Ret None
          else continue1 (store_peer i
            (with_peer_flags (set_flag WGPEER_HAS_PRESHARED_KEY) (with_preshared_key key p)) d))
      else Ret None
  | None =>
      if arg_is "remove" && negb no_peer then
        with_peer (fun i p =>
          Ret (Some ({| cmd_device := store_peer i (with_peer_flags (set_flag WGPEER_REMOVE_ME) p) d;
                        cmd_peer := cmd_peer st; cmd_allowedip := cmd_allowedip st |}, false)))
      else Ret None
  end.

Fixpoint cmd_loop (fuel : nat) (st : cmd_state) (argv : list cstring) : outcome (option wgdevice) :=
  match argv with
  | [] => Ret (Some (cmd_device st))
  | arg0 :: rest =>
      r ← cmd_step fuel st arg0 (head rest);
      match r with
      | None => Ret None
      | Some (st, two) =>
          match rest with
          | _ :: rest' => if (two : bool) then cmd_loop fuel st rest' else cmd_loop fuel st rest
          | [] => Ret (Some (cmd_device st))
          end
      end
  end.

Definition config_read_cmd (fuel : nat) (argv : list cstring) : outcome (option wgdevice) :=
  cmd_loop fuel {| cmd_device := zero_device; cmd_peer := None; cmd_allowedip := None |} argv.

End Parsers.
End Config.
