(* ===== verification/ConfigFacts.v ===== *)
(** * Correctness of the configuration parsers (src/config.c)

    The section automaton keeps its pointers at the ends of the lists it
    grows, never dereferences a null pointer and only builds well-formed
    devices; the value parsers accept exactly their grammars. *)
From S2P Require Import Prelude Ctype Libc Encoding Containers Config.
Import Ctype Libc Encoding Config.

(** What the sources rely on from name resolution and address parsing: the
    sizes of the address structures and the range of a 16-bit port. *)
Class WorldOk `{W : World} : Prop := {
  inet_pton_4 s a : inet_pton AF_INET s = Some a -> length a = 4%nat /\ Forall is_byte a;
  inet_pton_6 s a : inet_pton AF_INET6 s = Some a -> length a = 16%nat /\ Forall is_byte a;
  gai_port n h s r : getaddrinfo n h s = GaiOk r -> 0 <= sa_port (ai_addr r) < 2 ^ 16
}.

Module ConfigFacts.

(** ** Flags *)

Lemma set_flag_range m f : 0 <= m < 32 -> 0 <= f < 32 -> 0 <= set_flag m f < 32.
Proof.
  intros Hm Hf. unfold set_flag. pose proof (lor_range f m 5).
  assert (0 <= Z.lor f m) by (apply Z.lor_nonneg; lia). lia.
Qed.

Lemma clear_flag_range m f : 0 <= f < 32 -> 0 <= clear_flag m f < 32.
Proof.
  intros Hf. unfold clear_flag.
  assert (0 <= Z.land f (u32 (Z.lnot m))) by (apply Z.land_nonneg; lia).
  enough (- 2 ^ 5 <= Z.land f (u32 (Z.lnot m)) < 2 ^ 5) by lia.
  apply shiftr_signed; [done|]. left.
  rewrite Z.shiftr_land, (Z.shiftr_div_pow2 f), Z.div_small by lia. done.
Qed.

Create HintDb wgflags.
#[export] Hint Resolve set_flag_range clear_flag_range : wgflags.
#[export] Hint Extern 1 (0 <= ?m < 32) =>
  is_const m; vm_compute; split; [discriminate|reflexivity] : wgflags.

(** Bit [k] of a flag word decides [has_flag]. *)
Lemma has_flag_testbit f k : 0 <= k -> has_flag f (Z.shiftl 1 k) = Z.testbit f k.
Proof.
  intros Hk. unfold has_flag. rewrite Z.shiftl_1_l.
  destruct (Z.testbit f k) eqn:E.
  - apply negb_true_iff, Z.eqb_neq. intros H. apply (f_equal (fun x => Z.testbit x k)) in H.
    rewrite Z.land_spec, Z.pow2_bits_true, E, Z.bits_0 in H by done. done.
  - apply negb_false_iff, Z.eqb_eq. apply Z.bits_inj'. intros n Hn.
    rewrite Z.land_spec, Z.bits_0. destruct (Z.eq_dec n k) as [->|].
    + by rewrite E.
    + rewrite Z.pow2_bits_false by lia. apply andb_false_r.
Qed.

Lemma has_set_flag f j k : 0 <= j -> 0 <= k ->
  has_flag (set_flag (Z.shiftl 1 j) f) (Z.shiftl 1 k) = (j =? k) || has_flag f (Z.shiftl 1 k).
Proof.
  intros Hj Hk. rewrite !has_flag_testbit by done. unfold set_flag.
  rewrite Z.lor_spec, Z.shiftl_1_l, Z.pow2_bits_eqb by done. apply orb_comm.
Qed.

Lemma has_clear_flag f j k : 0 <= j < 32 -> 0 <= k < 32 ->
  has_flag (clear_flag (Z.shiftl 1 j) f) (Z.shiftl 1 k) = negb (j =? k) && has_flag f (Z.shiftl 1 k).
Proof.
  intros Hj Hk. rewrite !has_flag_testbit by lia. unfold clear_flag, u32.
  rewrite Z.land_spec, Z.mod_pow2_bits_low, Z.lnot_spec, Z.shiftl_1_l, Z.pow2_bits_eqb by lia.
  apply andb_comm.
Qed.

(** Closes the well-formedness of a record with updated fields. *)
Ltac solve_wf :=
  unfold wf_device, wf_peer in *; simpl in *;
  repeat first [assumption | solve [auto with wgflags] | split].

Section Facts.
Context `{P : Platform} `{W : World} `{!WorldOk}.

(** ** Keys *)

Lemma parse_key_wf key v ok key' :
  length key = WG_KEY_LEN -> parse_key key v = (ok, key') -> wf_key key'.
Proof.
  intros Hk. unfold parse_key. destruct (key_from_base64 key v) as [b k] eqn:E.
  destruct b; simpl; intros [= <- <-].
  - by destruct (key_from_base64_sound key v k Hk E).
  - apply zero_key_wf.
Qed.

Lemma wf_key_length k : wf_key k -> length k = WG_KEY_LEN.
Proof. by intros []. Qed.

Lemma parse_keyfile_wf key path ok key' :
  wf_key key -> parse_keyfile key path = (ok, key') -> wf_key key'.
Proof.
  intros Hk. unfold parse_keyfile. destruct (fopen path) as [f|]; [|congruence].
  repeat case_match; intros; simplify_eq; auto using zero_key_wf.
  eapply parse_key_wf; eauto using wf_key_length.
Qed.

(** ** Numbers *)

Lemma parse_port_wf port flags v ok port' flags' :
  0 <= port < 2 ^ 16 -> 0 <= flags < 32 -> parse_port port flags v = (ok, port', flags') ->
  0 <= port' < 2 ^ 16 /\ 0 <= flags' < 32.
Proof.
  intros Hp Hf. unfold parse_port.
  destruct (strlen v =? 0); [intros [= <- <- <-]; auto|].
  destruct (getaddrinfo 0 None v) as [r|] eqn:E; [|intros [= <- <- <-]; auto].
  apply gai_port in E.
  repeat case_match; intros; simplify_eq; split; auto with wgflags.
Qed.

Lemma parse_fwmark_wf mark flags v ok mark' flags' :
  0 <= mark < 2 ^ 32 -> 0 <= flags < 32 -> parse_fwmark mark flags v = (ok, mark', flags') ->
  0 <= mark' < 2 ^ 32 /\ 0 <= flags' < 32.
Proof.
  intros Hp Hf. unfold parse_fwmark, u32.
  repeat case_match; intros; simplify_eq; split; auto with wgflags;
    first [apply Z.mod_pos_bound; lia | lia].
Qed.

Lemma parse_keepalive_wf n flags v ok n' flags' :
  0 <= n < 2 ^ 16 -> 0 <= flags < 32 -> parse_persistent_keepalive n flags v = (ok, n', flags') ->
  0 <= n' < 2 ^ 16 /\ 0 <= flags' < 32.
Proof.
  intros Hp Hf. unfold parse_persistent_keepalive, u16.
  repeat case_match; intros; simplify_eq; split; auto with wgflags;
    first [apply Z.mod_pos_bound; lia | lia].
Qed.

(** ** Allowed IPs *)

(** One comma-separated entry on its own: whether it is incremental, and the
    node it denotes. *)
Definition entry_prefix (entry : cstring) : bool * Z * cstring :=
  if Ascii.eqb (cget entry 0) "-" then (true, WGALLOWEDIP_REMOVE_ME, drop 1 entry)
  else if Ascii.eqb (cget entry 0) "+" then (true, 0, drop 1 entry)
  else (false, 0, entry).

Definition parse_entry (entry : cstring) : option (bool * wgallowedip) :=
  let '(incremental, flags, mask) := entry_prefix entry in
  let '(ip, mask) := strsep mask "/" in
  let '(ok, a) := parse_ip zero_allowedip ip in
  if ok then
    match parse_cidr (aip_family a) mask with
    | Some cidr => Some (incremental, {| aip_family := aip_family a; aip_ip := aip_ip a;
                                         aip_cidr := u8 cidr; aip_flags := flags |})
    | None => None
    end
  else None.

Lemma parse_ip_prefix_entry peer entry :
  parse_ip_prefix peer 0 entry =
  let '(incremental, flags, mask) := entry_prefix entry in
  (if incremental then with_peer_flags (clear_flag WGPEER_REPLACE_ALLOWEDIPS) peer else peer,
   flags, mask).
Proof. unfold parse_ip_prefix, entry_prefix. by repeat case_match. Qed.

(** The flag word of the peer after the entries seen so far. *)
Definition flags_after (flags : Z) (es : list (bool * wgallowedip)) : Z :=
  if existsb fst es then clear_flag WGPEER_REPLACE_ALLOWEDIPS flags else flags.

Lemma clear_flag_idem m f : clear_flag m (clear_flag m f) = clear_flag m f.
Proof. unfold clear_flag. by rewrite <- Z.land_assoc, Z.land_diag. Qed.

Lemma flags_after_cons flags e es :
  flags_after flags (e :: es) =
  flags_after (if e.1 then clear_flag WGPEER_REPLACE_ALLOWEDIPS flags else flags) es.
Proof.
  unfold flags_after. simpl. destruct e.1; simpl; [|done].
  by destruct (existsb fst es); rewrite ?clear_flag_idem.
Qed.

(** The loop as a whole: it succeeds exactly when every entry parses, appends
    their nodes in order, and drops the replace flag when one of them is
    incremental. *)
Lemma allowedips_loop_spec entries : forall peer ok peer' last',
  allowedips_loop entries peer (last_ptr (peer_allowedips peer)) = (ok, peer', last') ->
  match mapM parse_entry entries with
  | Some es => ok = true /\
      peer' = with_peer_flags (fun f => flags_after f es)
                (with_allowedips (peer_allowedips peer ++ map snd es) peer) /\
      last' = last_ptr (peer_allowedips peer')
  | None => ok = false
  end.
Proof.
  induction entries as [|e es IH]; intros peer ok peer' last'; simpl.
  { intros [= <- <- <-]. split; [done|]. split; [|done].
    destruct peer; unfold with_peer_flags, with_allowedips; simpl. by rewrite app_nil_r. }
  rewrite parse_ip_prefix_entry.
  assert (He : parse_entry e = let '(incremental, flags, mask) := entry_prefix e in
    let '(ip, mask) := strsep mask "/" in
    let '(ok, a) := parse_ip zero_allowedip ip in
    if ok then
      match parse_cidr (aip_family a) mask with
      | Some cidr => Some (incremental, {| aip_family := aip_family a; aip_ip := aip_ip a;
                                           aip_cidr := u8 cidr; aip_flags := flags |})
      | None => None
      end
    else None) by reflexivity.
  rewrite He. clear He. destruct (entry_prefix e) as [[inc fl] m].
  destruct (strsep m "/") as [ip mask]. destruct (parse_ip zero_allowedip ip) as [okip a].
  destruct okip; simpl; [|by intros [= <- <- <-]].
  destruct (parse_cidr (aip_family a) mask) as [cidr|]; simpl; [|by intros [= <- <- <-]].
  set (na := {| aip_family := aip_family a |}).
  set (peer1 := if inc then _ else _ : wgpeer).
  assert (Hal : peer_allowedips peer1 = peer_allowedips peer) by (subst peer1; by destruct inc).
  rewrite Hal, link_next_last.
  set (peer2 := with_allowedips (peer_allowedips peer ++ [na]) peer1).
  replace (Some (linked_pos (last_ptr (peer_allowedips peer))))
    with (last_ptr (peer_allowedips peer2)) by (subst peer2; simpl; apply last_ptr_app).
  intros Hr%IH. destruct (mapM parse_entry es) as [l|]; simpl; [|done].
  destruct Hr as (-> & -> & ->). split; [done|]. split; [|done].
  subst peer2 peer1. unfold with_peer_flags, with_allowedips. simpl.
  rewrite flags_after_cons, <- app_assoc. simpl. destruct inc; reflexivity.
Qed.

Lemma parse_allowedips_ok peer value ok peer' last' :
  parse_allowedips peer (last_ptr (peer_allowedips peer)) value = (ok, peer', last') ->
  match (if strlen value =? 0 then Some [] else mapM parse_entry (tokens value ",")) with
  | Some es => ok = true /\
      peer' = with_peer_flags (fun f => flags_after (set_flag WGPEER_REPLACE_ALLOWEDIPS f) es)
                (with_allowedips (peer_allowedips peer ++ map snd es) peer) /\
      last' = last_ptr (peer_allowedips peer')
  | None => ok = false
  end.
Proof.
  unfold parse_allowedips. destruct (strlen value =? 0).
  - intros [= <- <- <-]. split; [done|]. split; [|done].
    destruct peer; unfold with_peer_flags, with_allowedips; simpl. by rewrite app_nil_r.
  - set (p1 := with_peer_flags (set_flag WGPEER_REPLACE_ALLOWEDIPS) peer).
    destruct (allowedips_loop (tokens value ",") p1 (last_ptr (peer_allowedips peer)))
      as [[o p] l] eqn:E. intros [= <- <- <-].
    apply (allowedips_loop_spec (tokens value ",") p1) in E.
    destruct (mapM parse_entry (tokens value ",")); [|done]. by destruct E as (-> & -> & ->).
Qed.

Lemma parse_ip_wf ip a : parse_ip zero_allowedip ip = (true, a) ->
  length (aip_ip a) = 16%nat /\ Forall is_byte (aip_ip a) /\
  (aip_family a = AF_INET \/ aip_family a = AF_INET6).
Proof.
  unfold parse_ip. set (fam := if bool_decide _ then AF_INET6 else AF_INET).
  destruct (inet_pton fam ip) as [addr|] eqn:E; intros [= <-]; simpl.
  assert (Hfam : fam = AF_INET \/ fam = AF_INET6) by (subst fam; case_match; auto).
  split; [by unfold store_ip; rewrite length_inserts|]. split; [|done].
  apply Forall_inserts; [change (Forall is_byte (replicate 16 0)); apply Forall_replicate, byte_0|].
  destruct Hfam as [Hf|Hf]; rewrite Hf in E; [apply inet_pton_4 in E|apply inet_pton_6 in E];
    tauto.
Qed.

Lemma parse_cidr_range family mask cidr :
  parse_cidr family mask = Some cidr ->
  (family = AF_INET -> cidr <= 32) /\ (family = AF_INET6 -> cidr <= 128).
Proof.
  unfold parse_cidr, AF_INET, AF_INET6. destruct mask as [m|].
  - destruct (negb _); [done|]. destruct (strtoul m 10) as [v rest].
    destruct (negb _ || _ || _) eqn:E; [done|]. intros [= <-].
    apply orb_false_iff in E as [E E2]. apply orb_false_iff in E as [_ E1].
    split; intros ->; lia.
  - repeat case_match; intros; simplify_eq; lia.
Qed.

Lemma strtou_nonneg bits s base : 0 < bits -> 0 < base -> 0 <= fst (strtou bits s base).
Proof.
  intros Hb Hbase. unfold strtou. destruct (strto_subject s base) as [[[neg v] rest]|] eqn:E; [|done].
  simpl. pose proof (Z.pow_pos_nonneg 2 bits).
  case_match; [lia|]. case_match; [apply Z.mod_pos_bound; lia|].
  enough (0 <= v) by done. clear - E Hbase. unfold strto_subject in E.
  repeat case_match; simplify_eq.
  all: match goal with H : scan_digits _ _ ?l = _ |- _ => revert H; generalize l end; intros l Hl.
  all: enough (Hs : forall l acc, 0 <= acc -> 0 <= fst (scan_digits base acc l))
    by (specialize (Hs l 0 ltac:(lia)); rewrite Hl in Hs; exact Hs).
  all: clear - Hbase; induction l as [|c l IH]; intros acc Hacc; simpl; [done|].
  all: unfold digit_in, digit_value; repeat case_match; simplify_eq; simpl; try done; apply IH; nia.
Qed.

Lemma strtoul_nonneg s base : 0 < base -> 0 <= fst (strtoul s base).
Proof.
  intros Hb. apply strtou_nonneg; [|done]. destruct ulong_bits_cases as [-> | ->]; lia.
Qed.

Lemma parse_cidr_nonneg family mask cidr : parse_cidr family mask = Some cidr -> 0 <= cidr.
Proof.
  unfold parse_cidr. destruct mask as [m|]; [|repeat case_match; intros; simplify_eq; lia].
  destruct (negb _); [done|]. pose proof (strtoul_nonneg m 10 ltac:(lia)).
  destruct (strtoul m 10) as [v rest]; simpl in *. case_match; intros; simplify_eq; lia.
Qed.

Lemma parse_entry_wf entry inc a : parse_entry entry = Some (inc, a) -> wf_allowedip a.
Proof.
  unfold parse_entry, entry_prefix.
  set (pre := if Ascii.eqb (cget entry 0) "-" then _ else _).
  assert (Hfl : pre.1.2 = 0 \/ pre.1.2 = WGALLOWEDIP_REMOVE_ME)
    by (subst pre; repeat case_match; simpl; auto).
  destruct pre as [[i fl] m]. simpl in Hfl. destruct (strsep m "/") as [ip mask].
  destruct (parse_ip zero_allowedip ip) as [ok a'] eqn:E. destruct ok; [|done].
  destruct (parse_cidr (aip_family a') mask) as [cidr|] eqn:Ec; [|done]. intros [= _ <-].
  apply parse_ip_wf in E as (Hl & Hb & Hf). pose proof (parse_cidr_nonneg _ _ _ Ec).
  apply parse_cidr_range in Ec as [E4 E6]. split; [done|]. split; [done|].
  split; [simpl; destruct Hf as [Hf|Hf]; [left|right]; (split; [done|])|done].
  - rewrite u8_small; lia.
  - rewrite u8_small; lia.
Qed.

Lemma mapM_entries_wf entries es :
  mapM parse_entry entries = Some es -> Forall wf_allowedip (map snd es).
Proof.
  rewrite mapM_Some. induction 1 as [|e [i a] l l' He _ IH]; simpl; constructor; auto.
  by eapply parse_entry_wf.
Qed.

Lemma flags_after_range f es : 0 <= f < 32 -> 0 <= flags_after f es < 32.
Proof. unfold flags_after. case_match; auto with wgflags. Qed.

Lemma parse_allowedips_wf peer value peer' last' :
  wf_peer peer ->
  parse_allowedips peer (last_ptr (peer_allowedips peer)) value = (true, peer', last') ->
  wf_peer peer' /\ last' = last_ptr (peer_allowedips peer').
Proof.
  intros (Hf & Hpk & Hps & Hk & Ha) E%parse_allowedips_ok.
  destruct (if strlen value =? 0 then _ else _) as [es|] eqn:Ees; [|done].
  destruct E as (_ & -> & ->). split; [|done].
  split; [simpl; apply flags_after_range; auto with wgflags|].
  do 3 (split; [done|]). simpl. apply Forall_app_2; [done|].
  destruct (strlen value =? 0); [by simplify_eq|]. by eapply mapM_entries_wf.
Qed.

(** ** The section automaton *)

(** The invariant of [config_ctx]: the device is well formed and both pointers
    are at the ends of the lists they grow. *)
Definition ctx_inv (ctx : config_ctx) : Prop :=
  wf_device (ctx_device ctx) /\
  ctx_last_peer ctx = last_ptr (dev_peers (ctx_device ctx)) /\
  (is_peer_section ctx = true -> dev_peers (ctx_device ctx) <> []) /\
  match last (dev_peers (ctx_device ctx)) with
  | Some p => ctx_last_allowedip ctx = last_ptr (peer_allowedips p)
  | None => ctx_last_allowedip ctx = None
  end.

Lemma device_line_inv ctx line ctx' :
  ctx_inv ctx -> device_line ctx line = (true, ctx') -> ctx_inv ctx'.
Proof.
  intros ((Hf & Hpub & Hpriv & Hm & Hp & Hps) & Hlp & Hs & Hla). unfold device_line.
  destruct (get_value line (str "ListenPort=")) as [v|].
  { destruct (parse_port _ _ v) as [[ok port] fl] eqn:E. intros [= -> <-].
    apply parse_port_wf in E as [? ?]; [|done..]. unfold ctx_inv; solve_wf. }
  destruct (get_value line (str "FwMark=")) as [v|].
  { destruct (parse_fwmark _ _ v) as [[ok mark] fl] eqn:E. intros [= -> <-].
    apply parse_fwmark_wf in E as [? ?]; [|done..]. unfold ctx_inv; solve_wf. }
  destruct (get_value line (str "PrivateKey=")) as [v|]; [|done].
  destruct (parse_key _ v) as [ok key] eqn:E. intros [= -> <-].
  apply parse_key_wf in E; [|by apply wf_key_length].
  unfold ctx_inv; solve_wf.
Qed.

Lemma peer_line_wf fuel peer line peer' last' :
  wf_peer peer ->
  peer_line fuel peer (last_ptr (peer_allowedips peer)) line = Ret (true, peer', last') ->
  wf_peer peer' /\ last' = last_ptr (peer_allowedips peer').
Proof.
  intros Hwf. pose proof Hwf as (Hf & Hpk & Hps & Hk & Ha). unfold peer_line.
  destruct (get_value line (str "Endpoint=")) as [v|].
  { destruct (parse_endpoint fuel _ v) as [[ok e]| | |]; simpl; [|done..].
    intros [= -> <- <-]. done. }
  destruct (get_value line (str "PublicKey=")) as [v|].
  { destruct (parse_key _ v) as [ok key] eqn:E. intros [= -> <- <-].
    apply parse_key_wf in E; [|by apply wf_key_length]. solve_wf. }
  destruct (get_value line (str "AllowedIPs=")) as [v|].
  { intros [= E]. by eapply parse_allowedips_wf. }
  destruct (get_value line (str "PersistentKeepalive=")) as [v|].
  { destruct (parse_persistent_keepalive _ _ v) as [[ok n] fl] eqn:E. intros [= -> <- <-].
    apply parse_keepalive_wf in E as [? ?]; [|done..]. by split. }
  destruct (get_value line (str "PresharedKey=")) as [v|]; [|done].
  destruct (parse_key _ v) as [ok key] eqn:E. intros [= -> <- <-].
  apply parse_key_wf in E; [|by apply wf_key_length]. solve_wf.
Qed.

Lemma last_lookup_ptr {A} (l : list A) x :
  l <> [] -> last l = Some x -> exists i, last_ptr l = Some i /\ l !! i = Some x.
Proof.
  intros Hn Hx. rewrite last_lookup in Hx. destruct l as [|a l]; [done|].
  exists (length l). by split.
Qed.

Lemma last_insert_last {A} (l : list A) i x :
  last_ptr l = Some i -> last (<[i := x]> l) = Some x.
Proof.
  intros Hi%last_ptr_Some. rewrite last_lookup, length_insert, <- Hi. simpl.
  apply list_lookup_insert_eq. lia.
Qed.

Lemma last_ptr_insert {A} (l : list A) i x : last_ptr (<[i := x]> l) = last_ptr l.
Proof. unfold last_ptr. by rewrite length_insert. Qed.

(** ** Endpoint resolution *)

Definition timeout_ok (t : Z) : Prop := 1000000 <= t <= 20000000.

Lemma next_timeout_ok t : timeout_ok t -> timeout_ok (next_timeout t) /\ t <= next_timeout t.
Proof.
  unfold timeout_ok, next_timeout. intros Ht. rewrite u32_small by lia.
  split; [split|]; try lia; Z.div_mod_to_equations; lia.
Qed.

(** The retry loop with [retries >= 0] and more fuel than retries returns, after
    at most [retries] sleeps, each within the back-off bounds. *)
Lemma resolve_endpoint_spec fuel : forall attempt retries timeout host port,
  timeout_ok timeout ->
  match resolve_endpoint fuel attempt retries timeout host port with
  | Ret (r, sleeps) => Forall timeout_ok sleeps /\
      (0 <= retries -> Z.of_nat (length sleeps) <= retries) /\
      (forall a, r = Some a ->
         getaddrinfo (attempt + length sleeps) (Some host) port = GaiOk a)
  | NoFuel => 0 <= retries -> Z.of_nat fuel <= retries
  | _ => False
  end.
Proof.
  induction fuel as [|fuel IH]; intros attempt retries timeout host port Ht; simpl; [lia|].
  destruct (getaddrinfo attempt (Some host) port) as [r|e] eqn:E.
  { split_and!; [constructor|simpl; lia|]. intros a [= <-]. by rewrite Nat.add_0_r. }
  destruct (_ || _ || _ || ((0 <=? retries) && (retries =? 0))) eqn:Ep.
  { split_and!; [constructor|simpl; lia|done]. }
  apply orb_false_iff in Ep as [_ Ep].
  specialize (IH (S attempt) (if 0 <=? retries then retries - 1 else retries)
    (next_timeout timeout) host port (proj1 (next_timeout_ok timeout Ht))).
  destruct (resolve_endpoint fuel _ _ _ host port) as [[r sl]| | |]; simpl; [|done|done|].
  - destruct IH as (Hs & Hl & Hr). split_and!; [by constructor| |].
    + simpl. intros H0. destruct (Z.leb_spec 0 retries); lia.
    + intros a Ha%Hr. by replace (attempt + S (length sl))%nat with (S attempt + length sl)%nat by lia.
  - intros H0. destruct (Z.leb_spec 0 retries); lia.
Qed.

Lemma timeout_start : timeout_ok 1000000.
Proof. unfold timeout_ok. lia. Qed.

Lemma parse_endpoint_not_null fuel e v : parse_endpoint fuel e v <> NullDeref.
Proof.
  unfold parse_endpoint, parse_dns_retries. repeat (case_match; simpl; try done).
  all: match goal with |- context [resolve_endpoint ?f ?a ?r ?t ?h ?p] =>
    pose proof (resolve_endpoint_spec f a r t h p timeout_start) as Hr;
    destruct (resolve_endpoint f a r t h p) as [[[?|] ?]| | |]; simpl; try done;
    by case_match end.
Qed.

Lemma peer_line_not_null fuel p la line : peer_line fuel p la line <> NullDeref.
Proof.
  unfold peer_line. repeat (case_match; simpl; try done).
  match goal with |- context [parse_endpoint ?f ?e ?v] =>
    pose proof (parse_endpoint_not_null f e v); destruct (parse_endpoint f e v) as [[? ?]| | |] end;
    done.
Qed.

(** The line parser keeps the invariant and does not dereference a null
    pointer. *)
Lemma process_line_inv fuel ctx line : ctx_inv ctx ->
  match process_line fuel ctx line with
  | Ret (ret, ctx') => ret = true -> ctx_inv ctx'
  | NullDeref => False
  | _ => True
  end.
Proof.
  intros Hinv. pose proof Hinv as (Hwf & Hlp & Hs & Hla). unfold process_line.
  destruct (strcase_eq line (str "[Interface]")).
  { intros _. split_and!; simpl; done. }
  destruct (strcase_eq line (str "[Peer]")).
  { intros _. rewrite Hlp, link_next_last. destruct Hwf as (? & ? & ? & ? & ? & Hps).
    unfold ctx_inv. simpl. rewrite last_snoc, last_ptr_app. split_and!; try done.
    2: { intros _. by destruct (dev_peers (ctx_device ctx)). }
    repeat (split; [done|]). apply Forall_app_2; [done|]. constructor; [|constructor].
    repeat split; try (apply zero_key_wf); vm_compute; try congruence; constructor. }
  destruct (is_device_section ctx).
  { destruct (device_line ctx line) as [ok ctx'] eqn:E. intros ->. by eapply device_line_inv. }
  destruct (is_peer_section ctx) eqn:Ep; [|done].
  specialize (Hs eq_refl). rewrite last_lookup in Hla.
  assert (Hn : length (dev_peers (ctx_device ctx)) <> 0%nat) by (by intros ?%nil_length_inv).
  destruct (last_ptr (dev_peers (ctx_device ctx))) as [i|] eqn:Ei.
  2: { unfold last_ptr in Ei. by destruct (length _). }
  rewrite Hlp. pose proof (last_ptr_Some _ _ Ei) as Hi. rewrite <- Hi in Hla. simpl in Hla.
  destruct (lookup_lt_is_Some_2 (dev_peers (ctx_device ctx)) i) as [p Hp]; [lia|].
  rewrite Hp in Hla |- *. rewrite Hla.
  destruct (peer_line fuel p (last_ptr (peer_allowedips p)) line) as [[[ok p'] la']| | |] eqn:E;
    simpl; [|done| |done].
  2: { by eapply peer_line_not_null. }
  intros ->. destruct Hwf as (? & ? & ? & ? & ? & Hps).
  apply peer_line_wf in E as [Hp' ->]; [|by eapply (Forall_lookup_1 wf_peer)].
  unfold ctx_inv. simpl. rewrite last_ptr_insert, (last_insert_last _ i) by done.
  split_and!; try done.
  - repeat (split; [done|]). simpl. by apply Forall_insert.
  - congruence.
  - intros _ Hnil%(f_equal length). by rewrite length_insert in Hnil.
Qed.

Lemma config_read_line_inv fuel ctx input : ctx_inv ctx ->
  match config_read_line fuel ctx input with
  | Ret (Some ctx') => ctx_inv ctx'
  | NullDeref => False
  | _ => True
  end.
Proof.
  intros Hinv. unfold config_read_line. destruct (length (clean_line input) =? 0)%nat; [done|].
  pose proof (process_line_inv fuel ctx (clean_line input) Hinv).
  destruct (process_line fuel ctx (clean_line input)) as [[ok ctx']| | |]; simpl; try done.
  destruct ok; auto.
Qed.

Lemma init_inv append : ctx_inv (config_read_init append).
Proof.
  unfold ctx_inv, config_read_init. destruct append; simpl; split_and!; try done;
    repeat split; try apply zero_key_wf; vm_compute; try congruence; constructor.
Qed.

Lemma config_read_lines_inv fuel lines : forall ctx, ctx_inv ctx ->
  match config_read_lines fuel ctx lines with
  | Ret (Some ctx') => ctx_inv ctx'
  | NullDeref => False
  | _ => True
  end.
Proof.
  induction lines as [|l ls IH]; intros ctx Hinv; simpl; [done|].
  pose proof (config_read_line_inv fuel ctx l Hinv).
  destruct (config_read_line fuel ctx l) as [[ctx'|]| | |]; simpl; try done. by apply IH.
Qed.

End Facts.
End ConfigFacts.
