(* ===== verification/LibcFacts.v ===== *)
(** * Facts about the C library functions

    What [strtoul] returns on a number, that printing and reading numbers are
    inverse, and how the splitting functions relate to concatenation. *)
From S2P Require Import Prelude Ctype Libc.
Import Ctype Libc.

(** A C string holds no NUL character. *)
Definition no_nul (s : cstring) : Prop := ~ In NUL s.

Module LibcFacts.

(** ** Numbers *)

(** The number a whole string denotes in a base; [None] when a character is
    not a digit. *)
Fixpoint digits_value (base acc : Z) (s : cstring) : option Z :=
  match s with
  | [] => Some acc
  | c :: r => match digit_in base c with
              | Some d => digits_value base (acc * base + d) r
              | None => None
              end
  end.
Definition number (base : Z) (s : cstring) : option Z :=
  match s with [] => None | _ => digits_value base 0 s end.

Lemma no_nul_cons c s : no_nul (c :: s) <-> c <> NUL /\ no_nul s.
Proof. unfold no_nul. simpl. naive_solver. Qed.

Lemma no_nul_head s : no_nul s -> Ascii.eqb (cget s 0) NUL = true <-> s = [].
Proof.
  intros Hs. rewrite Ascii.eqb_eq. destruct s as [|c s]; [done|].
  apply no_nul_cons in Hs as [Hc _]. unfold cget; simpl. naive_solver.
Qed.

Lemma scan_digits_spec base s : forall acc, no_nul s ->
  let '(v, rest) := scan_digits base acc s in
  no_nul rest /\ digits_value base acc s = if Ascii.eqb (cget rest 0) NUL then Some v else None.
Proof.
  induction s as [|c s IH]; intros acc Hs; simpl; [done|].
  pose proof Hs as Hs'. apply no_nul_cons in Hs' as [Hc Hs'].
  destruct (digit_in base c) as [d|]; [by apply IH|]. split; [done|].
  unfold cget; simpl. destruct (Ascii.eqb_spec c NUL); [done|done].
Qed.

Lemma digit_in_value c d base : digit_in base c = Some d -> digit_value c = Some d /\ 0 <= d < base.
Proof.
  unfold digit_in, digit_value. repeat case_match; intros; simplify_eq; split; try done; lia.
Qed.

Lemma digits_value_nonneg base s : forall acc v, 0 <= base -> 0 <= acc ->
  digits_value base acc s = Some v -> 0 <= v.
Proof.
  induction s as [|c s IH]; intros acc v Hb Ha; simpl; [congruence|].
  destruct (digit_in base c) as [d|] eqn:E; [|done]. apply digit_in_value in E as [_ Hd].
  intros Hv. eapply IH; [| |exact Hv]; nia.
Qed.

Definition is_digit_char (c : ascii) : bool := digit_spec (uchar c).

(** A digit of base ten is neither white space nor a sign. *)
Lemma digit_char_facts c : is_digit_char c = true ->
  isspace c = false /\ Ascii.eqb c "-" = false /\ Ascii.eqb c "+" = false /\
  is_Some (digit_in 10 c) /\ c <> NUL.
Proof.
  intros Hc.
  assert (H : (negb (is_digit_char c) ||
    (negb (isspace c) && negb (Ascii.eqb c "-") && negb (Ascii.eqb c "+")
     && bool_decide (is_Some (digit_in 10 c)) && negb (Ascii.eqb c NUL))) = true).
  { clear Hc. revert c. apply char_forall. vm_compute. reflexivity. }
  rewrite Hc in H. simpl in H. rewrite !andb_true_iff, !negb_true_iff in H.
  destruct H as [[[[H1 H2] H3] H4] H5]. apply bool_decide_eq_true in H4.
  apply Ascii.eqb_neq in H5. done.
Qed.

Lemma skip_space_head c s : isspace c = false -> skip_space (c :: s) = c :: s.
Proof. intros Hc. simpl. by rewrite Hc. Qed.

(** The value of a decimal conversion is the number denoted, saturated. *)
Definition saturate (bits v : Z) : Z := Z.min v (2 ^ bits - 1).

Lemma strtou_10 bits c s :
  0 < bits -> no_nul (c :: s) -> is_digit_char c = true ->
  let '(v, rest) := strtou bits (c :: s) 10 in
  match number 10 (c :: s) with
  | Some x => Ascii.eqb (cget rest 0) NUL = true /\ v = saturate bits x /\ 0 <= x
  | None => Ascii.eqb (cget rest 0) NUL = false
  end.
Proof.
  intros Hb Hn Hc. pose proof (digit_char_facts c Hc) as (Hsp & Hm & Hp & [d Hd] & _).
  unfold strtou, strto_subject. rewrite skip_space_head, Hm, Hp by done.
  assert (Hpre : (match s with
    | x :: dd :: _ => if (10 =? 16) && Ascii.eqb c "0" && (Ascii.eqb x "x" || Ascii.eqb x "X")
                         && bool_decide (is_Some (digit_in 16 dd)) then drop 2 (c :: s) else c :: s
    | _ => c :: s end) = c :: s) by (by destruct s as [|? [|]]).
  rewrite Hpre, Hd. pose proof (scan_digits_spec 10 (c :: s) 0 Hn) as Hs.
  destruct (scan_digits 10 0 (c :: s)) as [v rest]. destruct Hs as [_ Hs].
  change (number 10 (c :: s)) with (digits_value 10 0 (c :: s)).
  pose proof (digits_value_nonneg 10 (c :: s) 0) as Hv. rewrite Hs in Hv |- *.
  destruct (Ascii.eqb (cget rest 0) NUL); [|done]. specialize (Hv v ltac:(lia) ltac:(lia) eq_refl).
  split; [done|]. split; [|done]. unfold saturate.
  pose proof (Z.pow_pos_nonneg 2 bits). destruct (Z.leb_spec (2 ^ bits) v); lia.
Qed.

(** The same for a hexadecimal conversion of a text with its prefix. *)
Lemma strtou_16 bits r :
  0 < bits -> no_nul r ->
  let '(v, rest) := strtou bits (str "0x" ++ r) 16 in
  match number 16 r with
  | Some x => Ascii.eqb (cget rest 0) NUL = true /\ v = saturate bits x /\ 0 <= x
  | None => Ascii.eqb (cget rest 0) NUL = false
  end.
Proof.
  intros Hb Hn. unfold strtou, strto_subject.
  replace (skip_space (str "0x" ++ r)) with ("0"%char :: "x"%char :: r) by reflexivity.
  cbv beta iota. change (Ascii.eqb "0" "-") with false. change (Ascii.eqb "0" "+") with false.
  cbv iota. destruct r as [|d r].
  - simpl. change (digit_in 16 "0") with (Some 0). change (digit_in 16 "x") with (@None Z). done.
  - change ((16 =? 16) && Ascii.eqb "0" "0" && (Ascii.eqb "x" "x" || Ascii.eqb "x" "X")) with true.
    cbn [andb drop]. destruct (digit_in 16 d) as [v0|] eqn:Ed.
    + rewrite bool_decide_true by done. rewrite Ed.
      pose proof (scan_digits_spec 16 (d :: r) 0 Hn) as Hs.
      destruct (scan_digits 16 0 (d :: r)) as [v rest]. destruct Hs as [_ Hs].
      change (number 16 (d :: r)) with (digits_value 16 0 (d :: r)).
      pose proof (digits_value_nonneg 16 (d :: r) 0) as Hv. rewrite Hs in Hv |- *.
      destruct (Ascii.eqb (cget rest 0) NUL); [|done].
      specialize (Hv v ltac:(lia) ltac:(lia) eq_refl). split; [done|]. split; [|done].
      unfold saturate. pose proof (Z.pow_pos_nonneg 2 bits).
      destruct (Z.leb_spec (2 ^ bits) v); lia.
    + rewrite bool_decide_false by (by intros [? ?]).
      change (digit_in 16 "0") with (Some 0). cbv iota. simpl.
      change (digit_in 16 "0") with (Some 0). change (digit_in 16 "x") with (@None Z). simpl.
      rewrite Ed. done.
Qed.

(** ** Printing *)

Lemma digits_value_app base l1 : forall a l2,
  digits_value base a (l1 ++ l2) =
  match digits_value base a l1 with Some v => digits_value base v l2 | None => None end.
Proof.
  induction l1 as [|c l1 IH]; intros a l2; simpl; [done|]. by destruct (digit_in base c).
Qed.

Lemma digit_in_char base d : 0 <= d < base -> base <= 16 -> digit_in base (digit_char d) = Some d.
Proof.
  intros Hd Hb. unfold digit_in.
  assert (E : digit_value (digit_char d) = Some d).
  { assert (H : (negb (d <? 16) || bool_decide (digit_value (digit_char d) = Some d)) = true).
    { assert (Hbyte : is_byte d) by (unfold is_byte; lia). clear Hd Hb. revert d Hbyte.
      apply byte_forall. vm_compute. reflexivity. }
    apply orb_true_iff in H as [H|H]; [lia|]. by apply bool_decide_eq_true in H. }
  rewrite E. by destruct (Z.ltb_spec d base); [|lia].
Qed.

(** Characters printed in a base are its digits. *)
Definition base_digit (base : Z) (c : ascii) : Prop := exists d, 0 <= d < base /\ c = digit_char d.

Lemma print_digits_spec base fuel : forall n acc,
  2 <= base <= 16 -> 0 <= n < base ^ Z.of_nat fuel -> (0 < fuel)%nat ->
  exists ds, print_digits fuel base n acc = ds ++ acc /\ ds <> [] /\
    Forall (base_digit base) ds /\
    digits_value base 0 ds = Some n.
Proof.
  induction fuel as [|fuel IH]; intros n acc Hb Hn Hf; [lia|]. cbn [print_digits].
  assert (Hm : 0 <= n mod base < base) by (apply Z.mod_pos_bound; lia).
  destruct (Z.eqb_spec (n / base) 0) as [Hq|Hq].
  - exists [digit_char (n mod base)]. split_and!; [done|done| |].
    + repeat constructor. by exists (n mod base).
    + simpl. rewrite digit_in_char by lia. f_equal. pose proof (Z.div_mod n base). nia.
  - assert (Hlt : 0 <= n / base < base ^ Z.of_nat fuel).
    { split; [apply Z.div_pos; lia|]. apply Z.div_lt_upper_bound; [lia|].
      rewrite <- Z.pow_succ_r, <- Nat2Z.inj_succ by lia. lia. }
    destruct fuel as [|fuel']; [simpl in Hlt; lia|].
    destruct (IH (n / base) (digit_char (n mod base) :: acc) Hb Hlt ltac:(lia))
      as (ds & E & Hne & Hd & Hv).
    exists (ds ++ [digit_char (n mod base)]). rewrite E, <- app_assoc. split_and!; [done| | |].
    + by destruct ds.
    + apply Forall_app_2; [done|]. repeat constructor. by exists (n mod base).
    + rewrite digits_value_app, Hv. simpl. rewrite digit_in_char by lia. f_equal.
      pose proof (Z.div_mod n base). nia.
Qed.

Lemma number_nonnil base s v : s <> [] -> digits_value base 0 s = Some v -> number base s = Some v.
Proof. by destruct s. Qed.

Lemma print_u_spec n : 0 <= n < 2 ^ 64 ->
  print_u n <> [] /\ Forall (base_digit 10) (print_u n) /\ number 10 (print_u n) = Some n.
Proof.
  intros Hn. destruct (print_digits_spec 10 64 n []) as (ds & E & Hne & Hd & Hv); [lia|lia|lia|].
  unfold print_u. rewrite E, app_nil_r. split_and!; auto using number_nonnil.
Qed.

Lemma print_x_spec n : 0 <= n < 2 ^ 64 ->
  print_x n <> [] /\ Forall (base_digit 16) (print_x n) /\ number 16 (print_x n) = Some n.
Proof.
  intros Hn. destruct (print_digits_spec 16 64 n []) as (ds & E & Hne & Hd & Hv); [lia|lia|lia|].
  unfold print_x. rewrite E, app_nil_r. split_and!; auto using number_nonnil.
Qed.

(** A digit of a base up to sixteen is an alphanumeric character. *)
Definition alnum (c : ascii) : bool := digit_spec (uchar c) || alpha_spec (uchar c).

Lemma base_digit_alnum base c : base <= 16 -> base_digit base c -> alnum c = true.
Proof.
  intros Hb (d & Hd & ->).
  assert (H : (negb (d <? 16) || alnum (digit_char d)) = true).
  { assert (Hbyte : is_byte d) by (unfold is_byte; lia). clear Hd Hb. revert d Hbyte.
    apply byte_forall. vm_compute. reflexivity. }
  apply orb_true_iff in H as [H|H]; [lia|done].
Qed.

Lemma base_digit_10 c : base_digit 10 c -> is_digit_char c = true.
Proof.
  intros (d & Hd & ->).
  assert (H : (negb (d <? 10) || is_digit_char (digit_char d)) = true).
  { assert (Hbyte : is_byte d) by (unfold is_byte; lia). clear Hd. revert d Hbyte.
    apply byte_forall. vm_compute. reflexivity. }
  apply orb_true_iff in H as [H|H]; [lia|done].
Qed.

(** An alphanumeric character is none of a given set of separators. *)
Lemma alnum_not c d : alnum c = true -> alnum d = false -> c <> d.
Proof. intros ? ? ->. congruence. Qed.

(** ** Splitting *)

Lemma strsep_app a c b : ~ In c a -> strsep (a ++ c :: b) c = (a, Some b).
Proof.
  induction a as [|x a IH]; simpl; intros Hn; [by rewrite Ascii.eqb_refl|].
  destruct (Ascii.eqb_spec x c); [naive_solver|]. by rewrite IH by naive_solver.
Qed.

Lemma strsep_none a c : ~ In c a -> strsep a c = (a, None).
Proof.
  induction a as [|x a IH]; simpl; intros Hn; [done|].
  destruct (Ascii.eqb_spec x c); [naive_solver|]. by rewrite IH by naive_solver.
Qed.

Lemma tokens_app a c b : ~ In c a -> tokens (a ++ c :: b) c = a :: tokens b c.
Proof.
  induction a as [|x a IH]; simpl; intros Hn; [by rewrite Ascii.eqb_refl|].
  destruct (Ascii.eqb_spec x c); [naive_solver|]. by rewrite IH by naive_solver.
Qed.

Lemma tokens_none a c : ~ In c a -> tokens a c = [a].
Proof.
  induction a as [|x a IH]; simpl; intros Hn; [done|].
  destruct (Ascii.eqb_spec x c); [naive_solver|]. by rewrite IH by naive_solver.
Qed.

Lemma split_last_none a c : ~ In c a -> split_last a c = None.
Proof.
  induction a as [|x a IH]; simpl; intros Hn; [done|]. rewrite IH by naive_solver.
  destruct (Ascii.eqb_spec x c); naive_solver.
Qed.

Lemma split_last_app a c b : ~ In c b -> split_last (a ++ c :: b) c = Some (a, b).
Proof.
  intros Hb. induction a as [|x a IH]; simpl.
  - by rewrite split_last_none, Ascii.eqb_refl.
  - by rewrite IH.
Qed.

Lemma strchr_none s c : ~ In c s <-> strchr s c = None.
Proof.
  induction s as [|x s IH]; simpl; [tauto|]. destruct (Ascii.eqb_spec x c); naive_solver.
Qed.

Lemma strchr_app a c b : ~ In c a -> strchr (a ++ c :: b) c = Some (c :: b).
Proof.
  induction a as [|x a IH]; simpl; intros Hn; [by rewrite Ascii.eqb_refl|].
  destruct (Ascii.eqb_spec x c); [naive_solver|]. by apply IH; naive_solver.
Qed.

Lemma strchr_some s c : In c s <-> is_Some (strchr s c).
Proof.
  pose proof (strchr_none s c) as H. destruct (strchr s c) eqn:E.
  - split; [eauto|]. intros _. destruct (in_dec ascii_dec c s); naive_solver.
  - split; [naive_solver|]. by intros [? ?].
Qed.

(** ** Case-insensitive comparison *)
Lemma strcase_eq_refl s : strcase_eq s s = true.
Proof. by apply bool_decide_eq_true. Qed.

Lemma strncase_eq_app key s : strncase_eq (key ++ s) key (length key) = true.
Proof. unfold strncase_eq. rewrite take_app_length, firstn_all. by apply bool_decide_eq_true. Qed.

End LibcFacts.
