(* ===== verification/ConfigText.v ===== *)
(** * The text of a configuration file (src/config.c)

    The numeric values of a configuration against their grammars, the
    host-bits check of an allowed IP against its arithmetic meaning, and what
    the line parser sees of a line: its keyword and its value, whatever the
    white space and the comment. *)
From S2P Require Import Prelude Ctype Libc Encoding Containers Config LibcFacts ConfigFacts.
Import Ctype Libc Encoding Config LibcFacts ConfigFacts.

Module ConfigText.

(** ** Grammars of the numeric values *)

(** A decimal number up to a maximum. *)
Definition decimal_upto (max : Z) (v : cstring) : option Z :=
  match number 10 v with Some x => if x <=? max then Some x else None | None => None end.

Definition keepalive_value (v : cstring) : option Z :=
  if strcase_eq v (str "off") then Some 0 else decimal_upto 65535 v.

(** A firewall mark in decimal, or in hexadecimal after 0x. *)
Definition fwmark_number (v : cstring) : option Z :=
  match v with
  | "0"%char :: "x"%char :: d :: r => number 16 (d :: r)
  | _ => number 10 v
  end.

Section Numbers.
Context `{P : Platform}.

Lemma ulong_ge_32 : 2 ^ 32 <= 2 ^ ulong_bits.
Proof. destruct ulong_bits_cases as [-> | ->]; lia. Qed.

Lemma ulong_pos : 0 < ulong_bits.
Proof. destruct ulong_bits_cases as [-> | ->]; lia. Qed.

(** A text that does not start with a digit denotes no decimal number. *)
Lemma number_10_head v : char_is_digit (char_int (cget v 0)) = false -> number 10 v = None.
Proof.
  destruct v as [|c v]; [done|]. unfold cget; simpl. rewrite char_is_digit_char. intros Hc.
  enough (digit_in 10 c = None) as -> by done.
  unfold digit_in, digit_value. unfold digit_spec in Hc. rewrite Hc.
  repeat case_match; simplify_eq; try done; lia.
Qed.

(** What the guarded [strtoul] of the sources computes: the number the whole
    text denotes, when it does not exceed a bound below 2^32. *)
Lemma strtoul_upto max v : no_nul v -> 0 <= max < 2 ^ 32 - 1 ->
  (if negb (char_is_digit (char_int (cget v 0))) then None
   else let '(ret, rest) := strtoul v 10 in
        if negb (Ascii.eqb (cget rest 0) NUL) || (max <? ret) then None else Some ret)
  = decimal_upto max v.
Proof.
  intros Hn Hmax. unfold decimal_upto.
  destruct (char_is_digit (char_int (cget v 0))) eqn:Ed; simpl.
  - destruct v as [|c v].
    { unfold cget in Ed; simpl in Ed. rewrite char_is_digit_char in Ed. done. }
    unfold cget in Ed; simpl in Ed. rewrite char_is_digit_char in Ed.
    pose proof (strtou_10 ulong_bits c v ulong_pos Hn Ed) as Hs. unfold strtoul.
    destruct (strtou ulong_bits (c :: v) 10) as [ret rest].
    destruct (number 10 (c :: v)) as [x|]; [destruct Hs as (-> & -> & Hx)|by rewrite Hs].
    simpl. unfold saturate. pose proof ulong_ge_32.
    destruct (Z.leb_spec x max), (Z.ltb_spec max (Z.min x (2 ^ ulong_bits - 1))); try lia; f_equal; lia.
  - by rewrite number_10_head.
Qed.

(** The keep-alive interval: "off", or a decimal number of at most 16 bits;
    anything else leaves the peer as it was. *)
Lemma parse_keepalive_ok n flags v : no_nul v ->
  parse_persistent_keepalive n flags v =
  match keepalive_value v with
  | Some k => (true, k, set_flag WGPEER_HAS_PERSISTENT_KEEPALIVE_INTERVAL flags)
  | None => (false, n, flags)
  end.
Proof.
  intros Hn. unfold parse_persistent_keepalive, keepalive_value.
  destruct (strcase_eq v (str "off")); [done|].
  pose proof (strtoul_upto 65535 v Hn ltac:(lia)) as Hs.
  assert (Hr : forall x, decimal_upto 65535 v = Some x -> 0 <= x <= 65535).
  { unfold decimal_upto. intros x. destruct (number 10 v) as [y|] eqn:E; [|done].
    destruct (Z.leb_spec y 65535); [|done]. intros [= <-]. split; [|done].
    destruct v; [done|]. eapply digits_value_nonneg; [| |exact E]; lia. }
  destruct (negb (char_is_digit _)); [by rewrite <- Hs|].
  destruct (strtoul v 10) as [ret rest].
  destruct (negb (Ascii.eqb (cget rest 0) NUL) || (65535 <? ret)); rewrite <- Hs; [done|].
  rewrite u16_small; [done|]. specialize (Hr ret (eq_sym Hs)). lia.
Qed.

(** The firewall mark: "off", or a decimal or 0x-prefixed hexadecimal number.
    With a 64-bit [unsigned long] values above 32 bits are refused. With a
    32-bit one [strtoul] saturates before the check, which then never fires. *)
Lemma parse_fwmark_ok m flags v : no_nul v ->
  parse_fwmark m flags v =
  match (if strcase_eq v (str "off") then Some 0 else fwmark_number v) with
  | Some x =>
      if (ulong_bits =? 64) && (UINT32_MAX <? x) then (false, m, flags)
      else (true, Z.min x UINT32_MAX, set_flag WGDEVICE_HAS_FWMARK flags)
  | None => (false, m, flags)
  end.
Proof.
  intros Hn. unfold parse_fwmark.
  destruct (strcase_eq v (str "off")).
  { change (UINT32_MAX <? 0) with false. by rewrite andb_false_r. }
  assert (Hfin : forall x ret rest, Ascii.eqb (cget rest 0) NUL = true ->
    ret = saturate ulong_bits x -> 0 <= x ->
    (if negb (Ascii.eqb (cget rest 0) NUL) || (UINT32_MAX <? ret) then (false, m, flags)
     else (true, u32 ret, set_flag WGDEVICE_HAS_FWMARK flags)) =
    (if (ulong_bits =? 64) && (UINT32_MAX <? x) then (false, m, flags)
     else (true, Z.min x UINT32_MAX, set_flag WGDEVICE_HAS_FWMARK flags))).
  { clear. intros x ret rest -> -> Hx. simpl. unfold saturate, UINT32_MAX.
    destruct ulong_bits_cases as [-> | ->]; simpl (_ =? _); cbn [andb];
      destruct (Z.ltb_spec (2 ^ 32 - 1) x); cbv iota.
    - replace (2 ^ 32 - 1 <? Z.min x (2 ^ 32 - 1)) with false by lia. rewrite u32_small by lia. done.
    - replace (2 ^ 32 - 1 <? Z.min x (2 ^ 32 - 1)) with false by lia. rewrite u32_small by lia. done.
    - replace (2 ^ 32 - 1 <? Z.min x (2 ^ 64 - 1)) with true by lia. done.
    - replace (2 ^ 32 - 1 <? Z.min x (2 ^ 64 - 1)) with false by lia.
      rewrite u32_small by lia. do 2 f_equal. lia. }
  destruct (char_is_digit (char_int (cget v 0))) eqn:Ed; simpl negb; cbv iota.
  2: { replace (fwmark_number v) with (@None Z); [done|]. unfold fwmark_number.
       pose proof (number_10_head v Ed) as Hv.
       destruct v as [|c v]; [done|].
       unfold cget in Ed; simpl in Ed. rewrite char_is_digit_char in Ed.
       assert (Hc0 : c <> "0"%char) by (intros ->; done).
       repeat case_match; subst; done. }
  destruct v as [|c v].
  { unfold cget in Ed; simpl in Ed. rewrite char_is_digit_char in Ed. done. }
  assert (Ed' : is_digit_char c = true) by (unfold is_digit_char; rewrite <- char_is_digit_char; exact Ed).
  destruct ((2 <? strlen (c :: v)) && Ascii.eqb (cget (c :: v) 0) "0"
            && Ascii.eqb (cget (c :: v) 1) "x") eqn:Eb.
  - apply andb_true_iff in Eb as [Eb Ex]. apply andb_true_iff in Eb as [El E0].
    unfold cget in *; simpl in E0. apply Ascii.eqb_eq in E0 as ->.
    destruct v as [|c v]; [done|]. simpl in Ex. apply Ascii.eqb_eq in Ex as ->.
    destruct v as [|d v]; [done|]. unfold fwmark_number.
    assert (Hn' : no_nul (d :: v)).
    { apply no_nul_cons in Hn as [_ Hn]. by apply no_nul_cons in Hn as [_ Hn]. }
    pose proof (strtou_16 ulong_bits (d :: v) ulong_pos Hn') as Hs. unfold strtoul.
    change (str "0x" ++ d :: v) with ("0"%char :: "x"%char :: d :: v) in Hs.
    destruct (strtou ulong_bits _ 16) as [ret rest].
    destruct (number 16 (d :: v)) as [x|].
    + destruct Hs as (H1 & H2 & H3). by apply Hfin.
    + unfold cget in Hs. by rewrite Hs.
  - assert (Hfw : fwmark_number (c :: v) = number 10 (c :: v)).
    { unfold fwmark_number. destruct v as [|x [|d v]]; [by repeat case_match..|].
      destruct (ascii_dec c "0"), (ascii_dec x "x"); subst; [|by repeat case_match..].
      exfalso. replace (2 <? strlen _) with true in Eb; [done|].
      symmetry. apply Z.ltb_lt. unfold strlen. cbn [length]. lia. }
    rewrite Hfw. pose proof (strtou_10 ulong_bits c v ulong_pos Hn Ed') as Hs. unfold strtoul.
    destruct (strtou ulong_bits _ 10) as [ret rest].
    destruct (number 10 (c :: v)) as [x|].
    + destruct Hs as (H1 & H2 & H3). by apply Hfin.
    + by rewrite Hs.
Qed.

(** The prefix length of an allowed IP. *)
Lemma parse_cidr_number family v : no_nul v -> family = AF_INET \/ family = AF_INET6 ->
  parse_cidr family (Some v) = decimal_upto (if family =? AF_INET then 32 else 128) v.
Proof.
  intros Hn Hf. rewrite <- strtoul_upto by (try done; case_match; lia).
  unfold parse_cidr. destruct (negb _); [done|]. destruct (strtoul v 10) as [ret rest].
  destruct Hf as [-> | ->]; cbn -[cget]; destruct (negb (Ascii.eqb (cget rest 0) NUL)); simpl; try done.
  - rewrite andb_true_r, andb_false_r, orb_false_r. done.
  - rewrite andb_true_r, andb_false_r. done.
Qed.

End Numbers.

(** ** Host bits *)

(** The address as one number, from its first [n] 32-bit words. *)
Fixpoint ip_number (n : nat) (ip : list Z) : Z :=
  match n with O => 0 | S i => ip_number i ip * 2 ^ 32 + ip_word ip i end.

Lemma ip_word_range ip i : Forall is_byte ip -> 0 <= ip_word ip i < 2 ^ 32.
Proof.
  intros Hb. unfold ip_word.
  assert (H : forall k, is_byte (nth k ip 0)).
  { intros k. destruct (nth_in_or_default k ip 0) as [Hin| ->]; [|split; lia].
    rewrite Forall_forall in Hb. by apply Hb, list_elem_of_In. }
  pose proof (H (4 * i)%nat). pose proof (H (4 * i + 1)%nat).
  pose proof (H (4 * i + 2)%nat). pose proof (H (4 * i + 3)%nat). unfold is_byte in *. lia.
Qed.

Lemma netmask_loop_done n ip cidr : 32 * Z.of_nat n <= cidr -> netmask_loop n ip cidr = true.
Proof. destruct n as [|n]; simpl netmask_loop; [done|]. intros. case_match; [done|]. lia. Qed.

Lemma mod_pow2_split a w j k : 0 <= k <= j -> (a * 2 ^ j + w) mod 2 ^ k = w mod 2 ^ k.
Proof.
  intros. replace j with (k + (j - k)) by lia. rewrite Z.pow_add_r by lia.
  replace (a * (2 ^ k * 2 ^ (j - k)) + w) with (w + (a * 2 ^ (j - k)) * 2 ^ k) by ring.
  apply Z_mod_plus_full.
Qed.

Lemma mod_pow2_join a w j k : 0 <= j -> 0 <= k -> 0 <= w < 2 ^ j ->
  (a * 2 ^ j + w) mod 2 ^ (j + k) = 0 <-> w = 0 /\ a mod 2 ^ k = 0.
Proof.
  intros Hj Hk Hw. pose proof (Z.pow_pos_nonneg 2 j ltac:(lia) Hj).
  pose proof (Z.pow_pos_nonneg 2 k ltac:(lia) Hk). rewrite Z.pow_add_r by done.
  rewrite (Z.mul_comm (2 ^ j)), Z.mul_comm, Z.mod_eq by nia.
  rewrite (Z.mul_comm (2 ^ k)), <- Z.div_div by lia.
  rewrite (Z.mul_comm (2 ^ j) a), Z.div_add_l, (Z.div_small w) by lia.
  rewrite Z.add_0_r, (Z.mod_eq a) by lia. split.
  - intros He. assert (w = 2 ^ j * (2 ^ k * (a / 2 ^ k) - a)) by nia.
    assert (2 ^ k * (a / 2 ^ k) - a = 0) by nia. nia.
  - intros [-> ?]. nia.
Qed.

(** The loop decides whether the bits of the address below the prefix are all
    zero. *)
Lemma netmask_loop_spec ip cidr n : Forall is_byte ip -> 0 <= cidr ->
  netmask_loop n ip cidr = true <->
  ip_number n ip mod 2 ^ Z.max 0 (32 * Z.of_nat n - cidr) = 0.
Proof.
  intros Hb Hc. induction n as [|i IH]; [done|].
  cbn [netmask_loop ip_number]. pose proof (ip_word_range ip i Hb) as Hw.
  destruct (Z.leb_spec (32 * (Z.of_nat i + 1)) cidr) as [Hle|Hle].
  { rewrite Z.max_l by lia. rewrite Z.pow_0_r, Z.mod_1_r. done. }
  rewrite Z.max_r by lia.
  destruct (Z.ltb_spec (32 * Z.of_nat i) cidr) as [Hlt|Hlt].
  - assert (Hm : Z.shiftr (2 ^ 32 - 1) (cidr - 32 * Z.of_nat i)
                 = 2 ^ (32 * Z.of_nat (S i) - cidr) - 1).
    { set (k := cidr - 32 * Z.of_nat i). replace (32 * Z.of_nat (S i) - cidr) with (32 - k) by lia.
      rewrite Z.shiftr_div_pow2 by lia.
      replace (2 ^ 32) with (2 ^ (32 - k) * 2 ^ k) by (rewrite <- Z.pow_add_r by lia; f_equal; lia).
      pose proof (Z.pow_pos_nonneg 2 k). symmetry. apply (Z.div_unique _ _ _ (2 ^ k - 1)); nia. }
    rewrite Hm, (land_mask _ _ (32 * Z.of_nat (S i) - cidr)) by lia.
    rewrite mod_pow2_split by lia. rewrite netmask_loop_done by lia.
    destruct (Z.eqb_spec (ip_word ip i mod 2 ^ (32 * Z.of_nat (S i) - cidr)) 0); simpl; naive_solver.
  - rewrite (land_mask _ _ 32) by lia. rewrite Z.mod_small by lia.
    replace (32 * Z.of_nat (S i) - cidr) with (32 + (32 * Z.of_nat i - cidr)) by lia.
    rewrite mod_pow2_join by lia. rewrite Z.max_r in IH by lia.
    destruct (Z.eqb_spec (ip_word ip i) 0); simpl; [|naive_solver]. rewrite IH. naive_solver.
Qed.

(** ** What the line parser sees of a line *)

Section Lines.
Context `{P : Platform}.

(** A character that survives in a cleaned line. *)
Definition word_char (c : ascii) : bool :=
  negb (space_spec (uchar c)) && negb (Ascii.eqb c COMMENT_CHAR) && negb (Ascii.eqb c NUL).

Lemma filter_word (s : cstring) : Forall word_char s ->
  List.filter (fun c => negb (char_is_space (char_int c))) s = s.
Proof.
  induction 1 as [|c s Hc _ IH]; simpl; [done|]. rewrite char_is_space_char, IH.
  unfold word_char in Hc. by destruct (space_spec (uchar c)).
Qed.

Lemma word_no_comment s : Forall word_char s -> ~ In COMMENT_CHAR s.
Proof.
  rewrite Forall_forall. intros H Hin. specialize (H _ (proj2 (list_elem_of_In _ _) Hin)). done.
Qed.

Lemma word_no_nul s : Forall word_char s -> no_nul s.
Proof.
  rewrite Forall_forall. intros H Hin. specialize (H _ (proj2 (list_elem_of_In _ _) Hin)). done.
Qed.

Lemma clean_line_no_comment s : ~ In COMMENT_CHAR s ->
  clean_line s = List.filter (fun c => negb (char_is_space (char_int c))) s.
Proof. intros H%strchr_none. unfold clean_line. by rewrite H, firstn_all. Qed.

(** A comment is not seen. *)
Lemma clean_line_comment s t : ~ In COMMENT_CHAR s ->
  clean_line (s ++ COMMENT_CHAR :: t) = clean_line s.
Proof.
  intros H. rewrite (clean_line_no_comment s) by done. unfold clean_line.
  rewrite strchr_app by done. rewrite length_app. simpl.
  replace (length s + S (length t) - S (length t))%nat with (length s) by lia.
  by rewrite take_app_length.
Qed.

(** [key = value], as the tools print it, is seen as [key=value]. *)
Lemma clean_line_assign (key value : cstring) :
  Forall word_char key -> Forall word_char value ->
  clean_line (key ++ str " = " ++ value ++ [NL]) = key ++ str "=" ++ value.
Proof.
  intros Hk Hv. rewrite clean_line_no_comment.
  2: { rewrite !in_app_iff. intros [H|[H|[H|H]]].
       - by apply (word_no_comment key).
       - by repeat (destruct H as [H|H]; [done|]).
       - by apply (word_no_comment value).
       - by destruct H as [H|[]]. }
  rewrite !List.filter_app, (filter_word key), (filter_word value) by done.
  cbn [str list_ascii_of_string List.filter]. rewrite !char_is_space_char.
  change (space_spec (uchar " ")) with true. change (space_spec (uchar "=")) with false.
  change (space_spec (uchar NL)) with true. cbn [negb app]. rewrite app_nil_r. reflexivity.
Qed.

End Lines.

(** Two keywords that differ, up to case, within their common length. *)
Fixpoint diverge (a b : cstring) : bool :=
  match a, b with
  | x :: a, y :: b => if Ascii.eqb (tolower x) (tolower y) then diverge a b else true
  | _, _ => false
  end.

Lemma diverge_neq a : forall b s, diverge a b = true ->
  map tolower (take (length b) (a ++ s)) <> map tolower b.
Proof.
  induction a as [|x a IH]; intros [|y b] s; simpl; try done.
  destruct (Ascii.eqb_spec (tolower x) (tolower y)); [|intros _ [=]; done].
  intros Hd [= _ E]. by eapply IH.
Qed.

Lemma get_value_other key key' v : diverge key key' = true -> get_value (key ++ v) key' = None.
Proof.
  intros Hd. unfold get_value. case_match; [done|]. unfold strncase_eq.
  rewrite bool_decide_false; [done|]. rewrite firstn_all. by apply diverge_neq.
Qed.

Lemma get_value_hit key v : v <> [] -> get_value (key ++ v) key = Some v.
Proof.
  intros Hv. unfold get_value, strlen. rewrite length_app, strncase_eq_app, drop_app_length.
  destruct (Z.leb_spec (Z.of_nat (length key + length v)) (Z.of_nat (length key))); [|done].
  destruct v; simpl in *; [done|lia].
Qed.

Lemma strcase_eq_other key key' v : diverge key key' = true -> strcase_eq (key ++ v) key' = false.
Proof.
  intros Hd. unfold strcase_eq. apply bool_decide_false. intros E. apply (diverge_neq _ _ v) in Hd.
  apply Hd. apply (f_equal length) in E as El. rewrite !length_map in El.
  by rewrite <- El, firstn_all.
Qed.

End ConfigText.
