(* ===== verification/Names.v ===== *)
(** * Numeric names of addresses

    The documented round trip of the address functions of the C library
    ([inet_ntop]/[inet_pton], [getnameinfo]/[getaddrinfo] with numeric flags),
    as the laws of a class the printing tools rely on, and a concrete resolver
    of numeric names that satisfies all of them. *)
From S2P Require Import Prelude Ctype Libc Containers Config LibcFacts ConfigFacts ConfigText.
Import Libc Config LibcFacts ConfigText.

(** ** Joined texts *)
Fixpoint join (sep : cstring) (l : list cstring) : cstring :=
  match l with
  | [] => []
  | [x] => x
  | x :: r => x ++ sep ++ join sep r
  end.

Lemma join_cons sep x y l : join sep (x :: y :: l) = x ++ sep ++ join sep (y :: l).
Proof. done. Qed.

Lemma tokens_join c l : l <> [] -> Forall (fun x => ~ In c x) l -> tokens (join [c] l) c = l.
Proof.
  intros Hl Hf. induction Hf as [|x l Hx Hf IH]; [done|].
  destruct l as [|y l]; [by apply tokens_none|].
  rewrite join_cons. change ([c] ++ join [c] (y :: l)) with (c :: join [c] (y :: l)).
  rewrite tokens_app by done. by rewrite IH.
Qed.

(** ** Addresses *)

(** The characters of a numeric address. *)
Definition ip_char (c : ascii) : bool := alnum c || Ascii.eqb c "." || Ascii.eqb c ":".
(** The characters of a numeric host name, which may carry an IPv6 scope. *)
Definition host_char (c : ascii) : bool :=
  word_char c && negb (Ascii.eqb c "[") && negb (Ascii.eqb c "]").

(** A socket address all of whose fields the numeric names carry. *)
Definition canonical_sockaddr (sa : sockaddr) : Prop :=
  0 <= sa_port sa < 2 ^ 16 /\ sa_flowinfo sa = 0 /\ Forall is_byte (sa_addr sa) /\
  ((sa_family sa = AF_INET /\ length (sa_addr sa) = 4%nat /\ sa_scope_id sa = 0) \/
   (sa_family sa = AF_INET6 /\ length (sa_addr sa) = 16%nat)).

Definition sockaddr_len (family : Z) : Z :=
  if family =? AF_INET then sizeof_sockaddr_in else sizeof_sockaddr_in6.

(** The laws of numeric names. *)
Class NumericNames `{W : World} : Prop := {
  ntop_pton_4 a : length a = 4%nat -> Forall is_byte a ->
    exists s, inet_ntop AF_INET a = Some s /\ inet_pton AF_INET s = Some a /\
      s <> [] /\ Forall ip_char s /\ ~ In ":"%char s;
  ntop_pton_6 a : length a = 16%nat -> Forall is_byte a ->
    exists s, inet_ntop AF_INET6 a = Some s /\ inet_pton AF_INET6 s = Some a /\
      Forall ip_char s /\ In ":"%char s;
  nameinfo_addrinfo sa h sv : canonical_sockaddr sa -> getnameinfo sa = Some (h, sv) ->
    (forall n, getaddrinfo n (Some h) sv =
       GaiOk {| ai_family := sa_family sa; ai_addrlen := sockaddr_len (sa_family sa); ai_addr := sa |}) /\
    Forall host_char h /\ h <> [] /\ (sa_family sa = AF_INET -> ~ In ":"%char h) /\
    sv <> [] /\ Forall is_digit_char sv;
  service_port n : 0 <= n < 2 ^ 16 ->
    exists r, getaddrinfo 0 None (print_u n) = GaiOk r /\ sa_port (ai_addr r) = n /\
      (ai_family r = AF_INET \/ ai_family r = AF_INET6) /\ ai_addrlen r = sockaddr_len (ai_family r)
}.

(** ** A resolver of numeric names *)
Module NumericWorld.

Definition dotted (a : list Z) : cstring := join (str ".") (map print_u a).
Fixpoint groups (a : list Z) : list Z :=
  match a with x :: y :: r => (x * 256 + y) :: groups r | _ => [] end.
Definition ungroup (ws : list Z) : list Z := flat_map (fun w => [w / 256; w mod 256]) ws.
Definition colons (a : list Z) : cstring := join (str ":") (map print_x (groups a)).

Definition number_upto (base max : Z) (s : cstring) : option Z :=
  match number base s with Some x => if x <=? max then Some x else None | None => None end.

Definition parse4 (s : cstring) : option (list Z) :=
  match mapM (number_upto 10 255) (tokens s ".") with
  | Some l => if (length l =? 4)%nat then Some l else None
  | None => None
  end.
Definition parse6 (s : cstring) : option (list Z) :=
  match mapM (number_upto 16 65535) (tokens s ":") with
  | Some l => if (length l =? 8)%nat then Some (ungroup l) else None
  | None => None
  end.

Definition sockaddr_of (family port : Z) (a : list Z) : sockaddr :=
  {| sa_family := family; sa_port := port; sa_addr := a; sa_flowinfo := 0; sa_scope_id := 0 |}.
Definition resolved (family port : Z) (a : list Z) : gai_result :=
  GaiOk {| ai_family := family; ai_addrlen := sockaddr_len family;
           ai_addr := sockaddr_of family port a |}.

#[export] Instance numeric_world : World := {
  inet_pton family s :=
    if family =? AF_INET then parse4 s else if family =? AF_INET6 then parse6 s else None;
  inet_ntop family a :=
    if (family =? AF_INET) && (length a =? 4)%nat then Some (dotted a)
    else if (family =? AF_INET6) && (length a =? 16)%nat then Some (colons a) else None;
  getaddrinfo _ node service :=
    match number_upto 10 65535 service with
    | None => GaiErr EAI_NONAME
    | Some port =>
        match node with
        | None => resolved AF_INET port [0; 0; 0; 0]
        | Some h =>
            if bool_decide (is_Some (strchr h ":")) then
              match parse6 h with
              | Some a => resolved AF_INET6 port a
              | None => GaiErr EAI_NONAME
              end
            else
              match parse4 h with
              | Some a => resolved AF_INET port a
              | None => GaiErr EAI_NONAME
              end
        end
    end;
  getnameinfo sa :=
    if negb (sa_scope_id sa =? 0) then None
    else if sa_family sa =? AF_INET then Some (dotted (sa_addr sa), print_u (sa_port sa))
    else if sa_family sa =? AF_INET6 then Some (colons (sa_addr sa), print_u (sa_port sa))
    else None;
  getenv _ := None;
  fopen _ := None
}.

Lemma number_upto_u max x : 0 <= x <= max -> x < 2 ^ 64 -> number_upto 10 max (print_u x) = Some x.
Proof.
  intros Hx Hm. unfold number_upto. destruct (print_u_spec x) as (_ & _ & ->); [lia|].
  by destruct (Z.leb_spec x max); [|lia].
Qed.

Lemma number_upto_x max x : 0 <= x <= max -> x < 2 ^ 64 -> number_upto 16 max (print_x x) = Some x.
Proof.
  intros Hx Hm. unfold number_upto. destruct (print_x_spec x) as (_ & _ & ->); [lia|].
  by destruct (Z.leb_spec x max); [|lia].
Qed.

Lemma digits_not_in base c s : base <= 16 -> alnum c = false -> Forall (base_digit base) s -> ~ In c s.
Proof.
  intros Hb Hc Hs Hin. rewrite Forall_forall in Hs.
  apply list_elem_of_In, Hs, base_digit_alnum in Hin; [congruence|done].
Qed.

Lemma print_u_not_in c x : 0 <= x < 2 ^ 64 -> alnum c = false -> ~ In c (print_u x).
Proof. intros Hx Hc. apply (digits_not_in 10); [lia|done|]. by apply print_u_spec. Qed.

Lemma print_x_not_in c x : 0 <= x < 2 ^ 64 -> alnum c = false -> ~ In c (print_x x).
Proof. intros Hx Hc. apply (digits_not_in 16); [lia|done|]. by apply print_x_spec. Qed.

Lemma parse4_dotted a : length a = 4%nat -> Forall is_byte a -> parse4 (dotted a) = Some a.
Proof.
  intros Hl Hb. unfold parse4, dotted. change (str ".") with ["."%char].
  rewrite tokens_join.
  - assert (Hm : mapM (number_upto 10 255) (map print_u a) = Some a).
    { apply mapM_Some. clear Hl. induction Hb as [|x a Hx _ IH]; constructor; [|done].
      unfold is_byte in Hx. apply number_upto_u; lia. }
    by rewrite Hm, Hl.
  - by destruct a.
  - apply Forall_map. eapply Forall_impl; [exact Hb|]. intros x Hx. simpl. unfold is_byte in Hx.
    apply print_u_not_in; [lia|done].
Qed.

Lemma groups_ungroup n : forall a, length a = (2 * n)%nat -> Forall is_byte a ->
  ungroup (groups a) = a /\ length (groups a) = n /\ Forall (fun w => 0 <= w <= 65535) (groups a).
Proof.
  induction n as [|n IH]; intros a Hl Hb; [by destruct a|].
  destruct a as [|x [|y a]]; simpl in Hl; try lia.
  inversion_clear Hb as [|? ? Hx Hb']. inversion_clear Hb' as [|? ? Hy Hb].
  destruct (IH a) as (IH1 & IH2 & IH3); [lia|done|]. unfold is_byte in *.
  cbn [groups]. unfold ungroup in *. cbn [flat_map app]. rewrite IH1, Z.div_add_l by lia.
  rewrite (Z.div_small y), Z.add_0_r, Z.add_comm, Z_mod_plus_full, Z.mod_small by lia.
  split_and!; [done|simpl; lia|constructor; [lia|done]].
Qed.

Lemma parse6_colons a : length a = 16%nat -> Forall is_byte a -> parse6 (colons a) = Some a.
Proof.
  intros Hl Hb. destruct (groups_ungroup 8 a Hl Hb) as (Hu & Hlg & Hr).
  unfold parse6, colons. change (str ":") with [":"%char]. rewrite tokens_join.
  - assert (Hm : mapM (number_upto 16 65535) (map print_x (groups a)) = Some (groups a)).
    { apply mapM_Some. clear -Hr. induction Hr as [|x l Hx _ IH]; constructor; [|done].
      apply number_upto_x; lia. }
    by rewrite Hm, Hlg, Hu.
  - by destruct (groups a).
  - apply Forall_map. eapply Forall_impl; [exact Hr|]. intros x Hx. cbv beta in *.
    apply print_x_not_in; [lia|done].
Qed.

(** A property of single characters that the digits and the separator have. *)
Lemma join_forall (Q : ascii -> Prop) sep l :
  Forall Q sep -> Forall (Forall Q) l -> Forall Q (join sep l).
Proof.
  intros Hs Hl. induction Hl as [|x l Hx Hl IH]; [constructor|].
  destruct l; [done|]. rewrite join_cons. auto using Forall_app_2.
Qed.

Lemma alnum_ip_char c : alnum c = true -> ip_char c.
Proof. intros Hc. unfold ip_char. by rewrite Hc. Qed.

Lemma dotted_chars a : Forall is_byte a ->
  Forall (fun c => ip_char c /\ c <> ":"%char) (dotted a).
Proof.
  intros Hb. unfold dotted. apply join_forall; [by repeat constructor|].
  apply Forall_map. eapply Forall_impl; [exact Hb|]. intros x Hx. unfold is_byte in Hx.
  eapply Forall_impl; [apply print_u_spec; lia|]. intros c Hc. cbv beta in Hc.
  apply base_digit_alnum in Hc; [|lia]. split; [by apply alnum_ip_char|].
  by apply alnum_not.
Qed.

Lemma colons_chars a : length a = 16%nat -> Forall is_byte a ->
  Forall ip_char (colons a) /\ In ":"%char (colons a).
Proof.
  intros Hl Hb. destruct (groups_ungroup 8 a Hl Hb) as (_ & Hlg & Hr). unfold colons. split.
  - apply join_forall; [by repeat constructor|]. apply Forall_map.
    eapply Forall_impl; [exact Hr|]. intros x Hx. cbv beta in Hx.
    eapply Forall_impl; [apply print_x_spec; lia|]. intros c Hc. cbv beta in Hc.
    apply base_digit_alnum in Hc; [|lia]. by apply alnum_ip_char.
  - destruct (groups a) as [|x [|y l]]; simpl in Hlg; try lia.
    cbn [map]. rewrite join_cons. rewrite !in_app_iff. right. left. by left.
Qed.

Lemma join_nonnil sep x l : x <> [] -> join sep (x :: l) <> [].
Proof. intros Hx. destruct l; [done|]. rewrite join_cons. by destruct x. Qed.

Lemma not_in_forall (Q : ascii -> Prop) c s : Forall Q s -> ~ Q c -> ~ In c s.
Proof. rewrite Forall_forall. intros H Hn Hin%list_elem_of_In. auto. Qed.

Lemma ip_char_host c : ip_char c = true -> host_char c = true.
Proof.
  intros Hc. assert (H : (negb (ip_char c) || host_char c) = true).
  { clear Hc. revert c. apply char_forall. vm_compute. reflexivity. }
  rewrite Hc in H. done.
Qed.

Lemma strchr_decide_true s c : In c s -> bool_decide (is_Some (strchr s c)) = true.
Proof. intros H. by apply bool_decide_eq_true, strchr_some. Qed.

Lemma strchr_decide_false s c : ~ In c s -> bool_decide (is_Some (strchr s c)) = false.
Proof. intros H. apply bool_decide_eq_false. by rewrite <- strchr_some. Qed.

Lemma parse4_wf s a : parse4 s = Some a -> length a = 4%nat /\ Forall is_byte a.
Proof.
  unfold parse4. destruct (mapM _ _) as [l|] eqn:E; [|done].
  destruct (Nat.eqb_spec (length l) 4); [|done]. intros [= <-]. split; [done|].
  apply mapM_Some in E. clear -E. induction E as [|t x ts l Hx _ IH]; constructor; [|done].
  unfold number_upto in Hx. destruct (number 10 t) as [y|] eqn:En; [|done].
  destruct (Z.leb_spec y 255); [|done]. injection Hx as <-.
  unfold is_byte. split; [|lia]. destruct t; [done|].
  eapply digits_value_nonneg; [| |exact En]; lia.
Qed.

Lemma parse6_wf s a : parse6 s = Some a -> length a = 16%nat /\ Forall is_byte a.
Proof.
  unfold parse6. destruct (mapM _ _) as [l|] eqn:E; [|done].
  destruct (Nat.eqb_spec (length l) 8) as [Hl|]; [|done]. intros [= <-].
  assert (Hb : Forall (fun w => 0 <= w <= 65535) l).
  { apply mapM_Some in E. clear -E. induction E as [|t x ts l Hx _ IH]; constructor; [|done].
    unfold number_upto in Hx. destruct (number 16 t) as [y|] eqn:En; [|done].
    destruct (Z.leb_spec y 65535); [|done]. injection Hx as <-. split; [|lia].
    destruct t; [done|]. eapply digits_value_nonneg; [| |exact En]; lia. }
  enough (H : length (ungroup l) = (2 * length l)%nat /\ Forall is_byte (ungroup l)).
  { destruct H as [-> ?]. by rewrite Hl. }
  clear -Hb. induction Hb as [|x l Hx _ [IHl IHb]]; [by split; [|constructor]|].
  unfold ungroup in *. cbn [flat_map app length]. split; [lia|].
  constructor; [|constructor; [|done]]; unfold is_byte; Z.div_mod_to_equations; lia.
Qed.

Lemma numeric_world_ok : WorldOk.
Proof.
  split.
  - intros s a. apply parse4_wf.
  - intros s a. apply parse6_wf.
  - intros n h s r. simpl. unfold number_upto, resolved.
    destruct (number 10 s) as [x|] eqn:E; [|done]. destruct (Z.leb_spec x 65535); [|done].
    assert (0 <= x) by (destruct s; [done|]; eapply digits_value_nonneg; [| |exact E]; lia).
    repeat case_match; intros; simplify_eq; simpl; lia.
Qed.
#[export] Existing Instance numeric_world_ok.

Lemma digit_chars x : 0 <= x < 2 ^ 64 -> print_u x <> [] /\ Forall is_digit_char (print_u x).
Proof.
  intros Hx. destruct (print_u_spec x Hx) as (Hn & Hd & _). split; [done|].
  eapply Forall_impl; [exact Hd|]. intros c Hc. cbv beta in *. rewrite base_digit_10 by done. done.
Qed.

Lemma nameinfo_world sa h sv : canonical_sockaddr sa -> getnameinfo sa = Some (h, sv) ->
  (forall n, getaddrinfo n (Some h) sv =
     GaiOk {| ai_family := sa_family sa; ai_addrlen := sockaddr_len (sa_family sa); ai_addr := sa |}) /\
  Forall host_char h /\ h <> [] /\ (sa_family sa = AF_INET -> ~ In ":"%char h) /\
  sv <> [] /\ Forall is_digit_char sv.
Proof.
  intros (Hp & Hf & Hb & Hc). simpl. destruct (Z.eqb_spec (sa_scope_id sa) 0) as [Hs|]; [|done].
  cbn [negb]. destruct (digit_chars (sa_port sa)) as [Hn Hd]; [lia|].
  destruct Hc as [(Hfam & Hl & _)|(Hfam & Hl)]; rewrite Hfam; simpl; intros [= <- <-].
  - pose proof (dotted_chars _ Hb) as Hch.
    assert (Hnc : ~ In ":"%char (dotted (sa_addr sa))).
    { eapply not_in_forall; [exact Hch|]. cbv beta. tauto. }
    split_and!; try done.
    + intros n. rewrite number_upto_u by lia. rewrite strchr_decide_false by done.
      rewrite parse4_dotted by done. unfold resolved, sockaddr_of.
      destruct sa; simpl in *. subst. done.
    + eapply Forall_impl; [exact Hch|]. intros c [Hi _]. by apply Is_true_true, ip_char_host, Is_true_true.
    + destruct (sa_addr sa) as [|x l]; [done|]. unfold dotted. cbn [map]. apply join_nonnil.
      inversion_clear Hb as [|? ? Hx _]. unfold is_byte in Hx. apply digit_chars. lia.
  - destruct (colons_chars _ Hl Hb) as [Hch Hin]. split_and!; try done.
    + intros n. rewrite number_upto_u by lia. rewrite strchr_decide_true by done.
      rewrite parse6_colons by done. unfold resolved, sockaddr_of.
      destruct sa; simpl in *. subst. done.
    + eapply Forall_impl; [exact Hch|]. intros c Hi. by apply Is_true_true, ip_char_host, Is_true_true.
    + intros E. by rewrite E in Hin.
Qed.

Lemma numeric_names : NumericNames.
Proof.
  split.
  - intros a Hl Hb. exists (dotted a). simpl. rewrite Hl. simpl.
    pose proof (dotted_chars _ Hb) as Hch. split_and!.
    + done.
    + by apply parse4_dotted.
    + destruct a as [|x l]; [done|]. unfold dotted. cbn [map]. apply join_nonnil.
      inversion_clear Hb as [|? ? Hx _]. unfold is_byte in Hx. apply digit_chars. lia.
    + eapply Forall_impl; [exact Hch|]. by intros c [Hi _].
    + eapply not_in_forall; [exact Hch|]. cbv beta. tauto.
  - intros a Hl Hb. exists (colons a). simpl. rewrite Hl. simpl.
    destruct (colons_chars a Hl Hb). split_and!; try done. by apply parse6_colons.
  - intros. by apply nameinfo_world.
  - intros n Hn. eexists. simpl. rewrite number_upto_u by lia. unfold resolved. split; [done|].
    simpl. auto.
Qed.
#[export] Existing Instance numeric_names.

End NumericWorld.
