(* ===== verification/IpcSpec.v ===== *)
(** * The device interface the commands use (src/ipc.h)

    The three operations of ipc.h over the state of the system that holds the
    interfaces. The commands are modelled against this class; ipc.c is an
    instance of it. *)
From S2P Require Import Prelude Libc Containers.

(** [ipc_get_device] returns an errno value and the object stored through its
    out parameter. Looking for an interface may change the system, since stale
    sockets are removed on the way. *)
Class Ipc (Sys : Type) := {
  ipc_list_devices : Sys -> option (list cstring) * Sys;
  ipc_get_device : Sys -> cstring -> outcome (Z * option wgdevice * Sys);
  ipc_set_device : Sys -> wgdevice -> Z * Sys
}.

(** What the commands rely on: a device is handed out exactly on success. *)
Class IpcOk (Sys : Type) `{!Ipc Sys} : Prop := {
  ipc_get_returns sys iface : exists ret out sys',
    ipc_get_device sys iface = Ret (ret, out, sys') /\ (ret = 0 <-> is_Some out)
}.
