(* ===== verification/Showconf.v ===== *)
(** * wg showconf (src/showconf.c)

    The text [wg showconf] prints for a device, and the proof that
    [wg setconf] reads it back to the same configuration. *)
From S2P Require Import Prelude Ctype Libc Encoding Containers Config IpcSpec.
From S2P Require Import LibcFacts ConfigFacts ConfigText Names.
Import Ctype Libc Encoding Config LibcFacts ConfigFacts ConfigText.

Module Showconf.

Definition nl : cstring := [NL].

Section Print.
Context `{P : Platform} `{W : World}.

(** [inet_ntop] of the address of the node; [None] is the [continue] taken
    when it fails or the family is another one. *)
Definition allowedip_addr (a : wgallowedip) : option cstring :=
  if aip_family a =? AF_INET then inet_ntop AF_INET (take 4 (aip_ip a))
  else if aip_family a =? AF_INET6 then inet_ntop AF_INET6 (aip_ip a)
  else None.

(** The loop over the allowed IPs of a peer. *)
Fixpoint allowedips_text (l : list wgallowedip) : cstring :=
  match l with
  | [] => []
  | a :: next =>
      match allowedip_addr a with
      | None => []
      | Some ip => ip ++ str "/" ++ print_u (aip_cidr a)
                     ++ match next with [] => [] | _ => str ", " end
      end ++ allowedips_text next
  end.

Definition endpoint_known (sa : sockaddr) : bool :=
  (sa_family sa =? AF_INET) || (sa_family sa =? AF_INET6).

(** The endpoint as text, when it is set and [getnameinfo] succeeds. *)
Definition endpoint_text (sa : sockaddr) : option cstring :=
  if endpoint_known sa then
    match getnameinfo sa with
    | Some (host, service) =>
        Some (if (sa_family sa =? AF_INET6) && bool_decide (is_Some (strchr host ":"))
              then str "[" ++ host ++ str "]:" ++ service
              else host ++ str ":" ++ service)
    | None => None
    end
  else None.

Definition peer_text (p : wgpeer) (next : list wgpeer) : cstring :=
  str "[Peer]" ++ nl
  ++ str "PublicKey = " ++ key_to_base64 (peer_public_key p) ++ nl
  ++ (if has_flag (peer_flags p) WGPEER_HAS_PRESHARED_KEY
      then str "PresharedKey = " ++ key_to_base64 (peer_preshared_key p) ++ nl else [])
  ++ (if negb (bool_decide (peer_allowedips p = [])) then str "AllowedIPs = " else [])
  ++ allowedips_text (peer_allowedips p)
  ++ (if negb (bool_decide (peer_allowedips p = [])) then nl else [])
  ++ match endpoint_text (peer_endpoint p) with
     | Some e => str "Endpoint = " ++ e ++ nl
     | None => []
     end
  ++ (if negb (peer_persistent_keepalive_interval p =? 0)
      then str "PersistentKeepalive = " ++ print_u (peer_persistent_keepalive_interval p) ++ nl
      else [])
  ++ match next with [] => [] | _ => nl end.

Fixpoint peers_text (l : list wgpeer) : cstring :=
  match l with
  | [] => []
  | p :: next => peer_text p next ++ peers_text next
  end.

(** What is printed for a device. *)
Definition showconf (d : wgdevice) : cstring :=
  str "[Interface]" ++ nl
  ++ (if negb (dev_listen_port d =? 0)
      then str "ListenPort = " ++ print_u (dev_listen_port d) ++ nl else [])
  ++ (if negb (dev_fwmark d =? 0)
      then str "FwMark = " ++ str "0x" ++ print_x (dev_fwmark d) ++ nl else [])
  ++ (if has_flag (dev_flags d) WGDEVICE_HAS_PRIVATE_KEY
      then str "PrivateKey = " ++ key_to_base64 (dev_private_key d) ++ nl else [])
  ++ nl
  ++ peers_text (dev_peers d).

(** [showconf_main]: the exit status and what is written to stdout. *)
Definition showconf_main `{Ipc Sys} (sys : Sys) (argv : list cstring)
  : outcome (Z * cstring * Sys) :=
  match argv with
  | [_; iface] =>
      '(ret, device, sys) ← ipc_get_device sys iface;
      if negb (ret =? 0) then Ret (1, [], sys)
      else match device with
           | None => NullDeref
           | Some device => Ret (0, showconf device, sys)
           end
  | _ => Ret (1, [], sys)
  end.

End Print.

(** ** Reading the text back *)

(** The configuration the text carries: counters, names and the flags that say
    nothing in a configuration file are gone. *)
Definition reload_allowedip (a : wgallowedip) : wgallowedip :=
  {| aip_family := aip_family a; aip_ip := aip_ip a; aip_cidr := aip_cidr a; aip_flags := 0 |}.

Definition opt_flag (b : bool) (m : Z) : Z := if b then m else 0.

Section Reload.
Context `{P : Platform} `{W : World}.

Definition reload_peer (p : wgpeer) : wgpeer :=
  let psk := has_flag (peer_flags p) WGPEER_HAS_PRESHARED_KEY in
  {| peer_flags :=
       Z.lor WGPEER_REPLACE_ALLOWEDIPS (Z.lor WGPEER_HAS_PUBLIC_KEY
         (Z.lor (opt_flag psk WGPEER_HAS_PRESHARED_KEY)
            (opt_flag (negb (peer_persistent_keepalive_interval p =? 0))
               WGPEER_HAS_PERSISTENT_KEEPALIVE_INTERVAL)));
     peer_public_key := peer_public_key p;
     peer_preshared_key := if psk then peer_preshared_key p else zero_key;
     peer_endpoint := match endpoint_text (peer_endpoint p) with
                      | Some _ => peer_endpoint p
                      | None => zero_sockaddr
                      end;
     peer_last_handshake_time := {| tv_sec := 0; tv_nsec := 0 |};
     peer_rx_bytes := 0; peer_tx_bytes := 0;
     peer_persistent_keepalive_interval := peer_persistent_keepalive_interval p;
     peer_allowedips := map reload_allowedip (peer_allowedips p) |}.

Definition reload (d : wgdevice) : wgdevice :=
  {| dev_name := []; dev_ifindex := 0;
     dev_flags := Z.lor (Z.lor (Z.lor WGDEVICE_REPLACE_PEERS WGDEVICE_HAS_PRIVATE_KEY)
                    WGDEVICE_HAS_FWMARK) WGDEVICE_HAS_LISTEN_PORT;
     dev_public_key := zero_key;
     dev_private_key :=
       if has_flag (dev_flags d) WGDEVICE_HAS_PRIVATE_KEY then dev_private_key d else zero_key;
     dev_fwmark := dev_fwmark d; dev_listen_port := dev_listen_port d;
     dev_peers := map reload_peer (dev_peers d) |}.

End Reload.

(** Devices whose addresses are in the canonical form the kernel reports: an
    IPv4 address in the union is followed by zero bytes, and a set endpoint is
    canonical. *)
Definition canonical_allowedip (a : wgallowedip) : Prop :=
  aip_family a = AF_INET -> drop 4 (aip_ip a) = replicate 12 0.
Definition canonical_peer (p : wgpeer) : Prop :=
  Forall canonical_allowedip (peer_allowedips p) /\
  (endpoint_known (peer_endpoint p) = true -> canonical_sockaddr (peer_endpoint p)).
Definition canonical_device (d : wgdevice) : Prop := Forall canonical_peer (dev_peers d).

End Showconf.
