(* ===== verification/Samples.v ===== *)
(** * A sample device

    A concrete device with two peers, at which the theorems on devices are
    instantiated, and the checks that it satisfies their hypotheses. *)
From S2P Require Import Prelude Libc Encoding Containers Config ConfigFacts Names Showconf.
Import Libc Encoding Showconf.

Lemma bytes_check l : forallb (fun z => (0 <=? z) && (z <? 256)) l = true -> Forall is_byte l.
Proof.
  intros H. apply Forall_forall. intros z Hz%list_elem_of_In.
  apply (proj1 (forallb_forall _ _) H) in Hz. unfold is_byte. lia.
Qed.

(** Decides the well-formedness of concrete values by computation. *)
Ltac solve_concrete :=
  lazymatch goal with
  | |- Forall is_byte _ => apply bytes_check; vm_compute; reflexivity
  | |- Forall _ _ => constructor; solve_concrete
  | |- _ /\ _ => split; solve_concrete
  | |- wf_device _ => unfold wf_device; solve_concrete
  | |- wf_peer _ => unfold wf_peer; solve_concrete
  | |- wf_key _ => unfold wf_key; solve_concrete
  | |- wf_allowedip _ => unfold wf_allowedip; solve_concrete
  | |- canonical_device _ => unfold canonical_device; solve_concrete
  | |- canonical_peer _ => unfold canonical_peer; solve_concrete
  | |- canonical_allowedip _ => unfold canonical_allowedip; solve_concrete
  | |- canonical_sockaddr _ => unfold canonical_sockaddr; solve_concrete
  | |- _ -> _ => let H := fresh in intros H; solve_concrete
  | |- _ \/ _ => first [left; solve_concrete | right; solve_concrete]
  | |- _ <= _ => vm_compute; discriminate
  | |- _ => first [ vm_compute; reflexivity | exfalso; vm_compute in *; congruence ]
  end.

Definition sample_allowedip4 : wgallowedip :=
  {| aip_family := AF_INET; aip_ip := [10; 0; 0; 2] ++ replicate 12 0; aip_cidr := 32; aip_flags := 0 |}.
Definition sample_allowedip6 : wgallowedip :=
  {| aip_family := AF_INET6; aip_ip := [253; 0] ++ replicate 13 0 ++ [1]; aip_cidr := 64;
     aip_flags := 0 |}.

Definition sample_peer1 : wgpeer :=
  {| peer_flags := Z.lor WGPEER_HAS_PUBLIC_KEY WGPEER_HAS_PRESHARED_KEY;
     peer_public_key := sample_key; peer_preshared_key := rev sample_key;
     peer_endpoint := {| sa_family := AF_INET; sa_port := 51820; sa_addr := [192; 0; 2; 1];
                         sa_flowinfo := 0; sa_scope_id := 0 |};
     peer_last_handshake_time := {| tv_sec := 1700000000; tv_nsec := 7 |};
     peer_rx_bytes := 1024; peer_tx_bytes := 2048;
     peer_persistent_keepalive_interval := 25;
     peer_allowedips := [sample_allowedip4; sample_allowedip6] |}.
Definition sample_peer2 : wgpeer :=
  with_peer_flags (set_flag WGPEER_HAS_PUBLIC_KEY) (with_public_key (rev sample_key) zero_peer).

Definition sample_device : wgdevice :=
  {| dev_name := str "wg0"; dev_ifindex := 3;
     dev_flags := Z.lor WGDEVICE_HAS_PRIVATE_KEY (Z.lor WGDEVICE_HAS_PUBLIC_KEY
       (Z.lor WGDEVICE_HAS_LISTEN_PORT WGDEVICE_HAS_FWMARK));
     dev_public_key := zero_key; dev_private_key := sample_key;
     dev_fwmark := 51820; dev_listen_port := 51820;
     dev_peers := [sample_peer1; sample_peer2] |}.

Lemma sample_device_wf : wf_device sample_device.
Proof. solve_concrete. Qed.

Lemma sample_device_canonical : canonical_device sample_device.
Proof. solve_concrete. Qed.
