(* ===== verification/ConfigCmdFacts.v ===== *)
(** * Correctness of the command line parser of wg set (src/config.c)

    [config_read_cmd] keeps its pointers at the ends of the lists it grows,
    follows no null pointer, and builds well-formed devices. *)
From S2P Require Import Prelude Ctype Libc Encoding Containers Config LibcFacts ConfigFacts ConfigText Names.
Import Ctype Libc Encoding Config LibcFacts ConfigFacts ConfigText.

Module ConfigCmdFacts.
Section Cmd.
Context `{P : Platform} `{W : World} `{WOK : !WorldOk}.

Definition cmd_inv (st : cmd_state) : Prop :=
  wf_device (cmd_device st) /\
  cmd_peer st = last_ptr (dev_peers (cmd_device st)) /\
  match last (dev_peers (cmd_device st)) with
  | Some p => cmd_allowedip st = last_ptr (peer_allowedips p)
  | None => True
  end.

(** Updating the device only. *)
Lemma cmd_inv_device st d : cmd_inv st ->
  wf_device d -> dev_peers d = dev_peers (cmd_device st) ->
  cmd_inv {| cmd_device := d; cmd_peer := cmd_peer st; cmd_allowedip := cmd_allowedip st |}.
Proof. intros (_ & Hp & Ha) Hd E. unfold cmd_inv. simpl. by rewrite E. Qed.

(** Updating the current peer, and the pointer to its last allowed IP. *)
Lemma cmd_inv_peer st i p p' la : cmd_inv st -> cmd_peer st = Some i ->
  dev_peers (cmd_device st) !! i = Some p -> wf_peer p' -> la = last_ptr (peer_allowedips p') ->
  cmd_inv {| cmd_device := store_peer i p' (cmd_device st); cmd_peer := cmd_peer st;
             cmd_allowedip := la |}.
Proof.
  intros ((? & ? & ? & ? & ? & Hps) & Hp & Ha) Hi Hpi Hwf ->. unfold cmd_inv, store_peer. simpl.
  assert (Hl : last_ptr (dev_peers (cmd_device st)) = Some i) by congruence.
  rewrite last_ptr_insert, (last_insert_last _ i) by done. split; [|done].
  unfold wf_device. simpl. do 5 (split; [done|]). by apply Forall_insert.
Qed.

Lemma cmd_current st i p : cmd_inv st -> cmd_peer st = Some i ->
  dev_peers (cmd_device st) !! i = Some p ->
  wf_peer p /\ cmd_allowedip st = last_ptr (peer_allowedips p).
Proof.
  intros ((_ & _ & _ & _ & _ & Hps) & Hp & Ha) Hi Hpi. split.
  - by eapply (Forall_lookup_1 wf_peer).
  - assert (Hl : last_ptr (dev_peers (cmd_device st)) = Some i) by congruence.
    pose proof (last_ptr_Some _ _ Hl) as Hs. rewrite last_lookup, <- Hs in Ha. simpl in Ha.
    by rewrite Hpi in Ha.
Qed.

Lemma cmd_peer_exists st i : cmd_inv st -> cmd_peer st = Some i ->
  is_Some (dev_peers (cmd_device st) !! i).
Proof.
  intros (_ & Hp & _) Hi. apply lookup_lt_is_Some. rewrite Hp in Hi.
  apply last_ptr_Some in Hi. lia.
Qed.

Definition step_ok (r : outcome (option (cmd_state * bool))) : Prop :=
  match r with
  | Ret (Some (st, _)) => cmd_inv st
  | NullDeref => False
  | _ => True
  end.

(** Running a continuation on the current peer. *)
Lemma with_peer_ok st (f : nat -> wgpeer -> outcome (option (cmd_state * bool))) :
  cmd_inv st -> negb (bool_decide (is_Some (cmd_peer st))) = false ->
  (forall i p, cmd_peer st = Some i -> dev_peers (cmd_device st) !! i = Some p ->
     wf_peer p -> cmd_allowedip st = last_ptr (peer_allowedips p) -> step_ok (f i p)) ->
  step_ok (match cmd_peer st with
           | None => NullDeref
           | Some i => match dev_peers (cmd_device st) !! i with None => NullDeref | Some p => f i p end
           end).
Proof.
  intros Hinv Hsome Hf. destruct (cmd_peer st) as [i|] eqn:Ei; [|done].
  destruct (cmd_peer_exists st i Hinv Ei) as [p Hp]. rewrite Hp.
  destruct (cmd_current st i p Hinv Ei Hp). by apply Hf.
Qed.

Lemma step_remove st : cmd_inv st ->
  negb (bool_decide (is_Some (cmd_peer st))) = false ->
  step_ok (match cmd_peer st with
           | None => NullDeref
           | Some i => match dev_peers (cmd_device st) !! i with
                       | None => NullDeref
                       | Some p => Ret (Some ({| cmd_device := store_peer i
                           (with_peer_flags (set_flag WGPEER_REMOVE_ME) p) (cmd_device st);
                           cmd_peer := cmd_peer st; cmd_allowedip := cmd_allowedip st |}, false))
                       end
           end).
Proof.
  intros Hinv Hs. apply (with_peer_ok st (fun i p => Ret (Some ({| cmd_device := store_peer i
    (with_peer_flags (set_flag WGPEER_REMOVE_ME) p) (cmd_device st);
    cmd_peer := cmd_peer st; cmd_allowedip := cmd_allowedip st |}, false)))); [done|done|].
  intros i p Hi Hp Hwf Ha. pose proof Hwf as (? & ? & ? & ? & ?).
  apply (cmd_inv_peer st i p); try done. solve_wf.
Qed.

Lemma cmd_step_inv fuel st arg0 arg1 : cmd_inv st -> step_ok (cmd_step fuel st arg0 arg1).
Proof.
  intros Hinv. pose proof Hinv as ((Hf & Hpub & Hpriv & Hm & Hlp & Hps) & Hpt & _).
  unfold cmd_step. set (no_peer := negb (bool_decide (is_Some (cmd_peer st)))).
  destruct arg1 as [v|]; cbv zeta.
  2: { destruct (str_eq arg0 (str "remove")); simpl; [|done].
       destruct no_peer eqn:En; [done|]. by apply step_remove. }
  destruct (str_eq arg0 (str "listen-port") && no_peer).
  { destruct (parse_port _ _ v) as [[ok port] fl] eqn:E. destruct ok; [|done]. simpl.
    apply parse_port_wf in E as [? ?]; [|done..]. apply cmd_inv_device; [done| |done]. solve_wf. }
  destruct (str_eq arg0 (str "fwmark") && no_peer).
  { destruct (parse_fwmark _ _ v) as [[ok mark] fl] eqn:E. destruct ok; [|done]. simpl.
    apply parse_fwmark_wf in E as [? ?]; [|done..]. apply cmd_inv_device; [done| |done]. solve_wf. }
  destruct (str_eq arg0 (str "private-key") && no_peer).
  { destruct (parse_keyfile _ v) as [ok k] eqn:E. destruct ok; [|done]. simpl.
    apply parse_keyfile_wf in E; [|done]. apply cmd_inv_device; [done| |done]. solve_wf. }
  destruct (str_eq arg0 (str "peer")).
  { destruct (parse_key _ v) as [ok k] eqn:E. destruct ok; [|done].
    apply parse_key_wf in E; [|done]. unfold step_ok, cmd_inv. cbn [negb cmd_device cmd_peer cmd_allowedip].
    cbn [dev_peers with_peers]. rewrite Hpt, link_next_last, last_snoc, last_ptr_app. split; [|done].
    unfold wf_device; simpl. do 5 (split; [done|]). apply Forall_app_2; [done|].
    constructor; [|constructor]. unfold wf_peer; simpl. split; [done|]. split; [done|].
    split; [apply zero_key_wf|]. by split. }
  destruct (str_eq arg0 (str "remove") && negb no_peer) eqn:Er.
  { apply andb_true_iff in Er as [_ Er%negb_true_iff]. by apply step_remove. }
  destruct (str_eq arg0 (str "endpoint") && negb no_peer) eqn:Ee.
  { apply andb_true_iff in Ee as [_ Ee%negb_true_iff].
    apply (with_peer_ok st (fun i p => '(ok, e) ← parse_endpoint fuel (peer_endpoint p) v;
      if negb ok then Ret None else Ret (Some ({| cmd_device := store_peer i (with_endpoint e p)
        (cmd_device st); cmd_peer := cmd_peer st; cmd_allowedip := cmd_allowedip st |}, true))));
      [done|done|].
    intros i p Hi Hp Hwf Ha. pose proof (parse_endpoint_not_null fuel (peer_endpoint p) v).
    destruct (parse_endpoint fuel (peer_endpoint p) v) as [[ok e]| | |]; simpl; try done.
    destruct ok; simpl; [|done]. apply (cmd_inv_peer st i p); try done. }
  destruct (str_eq arg0 (str "allowed-ips") && negb no_peer) eqn:Ea.
  { apply andb_true_iff in Ea as [_ Ea%negb_true_iff].
    apply (with_peer_ok st (fun i p =>
      let '(ok, p, last) := parse_allowedips p (cmd_allowedip st) (strip_spaces v) in
      if negb ok then Ret None
      else Ret (Some ({| cmd_device := store_peer i p (cmd_device st); cmd_peer := cmd_peer st;
                         cmd_allowedip := last |}, true)))); [done|done|].
    intros i p Hi Hp Hwf Ha'. rewrite Ha'.
    destruct (parse_allowedips p _ _) as [[ok p'] la] eqn:E. destruct ok; simpl; [|done].
    apply parse_allowedips_wf in E as [? ->]; [|done]. by apply (cmd_inv_peer st i p). }
  destruct (str_eq arg0 (str "persistent-keepalive") && negb no_peer) eqn:Ek.
  { apply andb_true_iff in Ek as [_ Ek%negb_true_iff].
    apply (with_peer_ok st (fun i p =>
      let '(ok, interval, flags) :=
        parse_persistent_keepalive (peer_persistent_keepalive_interval p) (peer_flags p) v in
      if negb ok then Ret None
      else Ret (Some ({| cmd_device := store_peer i (with_peer_flags (fun _ => flags)
             (with_keepalive interval p)) (cmd_device st); cmd_peer := cmd_peer st;
             cmd_allowedip := cmd_allowedip st |}, true)))); [done|done|].
    intros i p Hi Hp Hwf Ha'. pose proof Hwf as (? & ? & ? & ? & ?).
    destruct (parse_persistent_keepalive _ _ v) as [[ok n] fl] eqn:E. destruct ok; simpl; [|done].
    apply parse_keepalive_wf in E as [? ?]; [|done..]. by apply (cmd_inv_peer st i p). }
  destruct (str_eq arg0 (str "preshared-key") && negb no_peer) eqn:Es; [|done].
  apply andb_true_iff in Es as [_ Es%negb_true_iff].
  apply (with_peer_ok st (fun i p =>
    let '(ok, key) := parse_keyfile (peer_preshared_key p) v in
    if negb ok then Ret None
    else Ret (Some ({| cmd_device := store_peer i (with_peer_flags (set_flag WGPEER_HAS_PRESHARED_KEY)
           (with_preshared_key key p)) (cmd_device st); cmd_peer := cmd_peer st;
           cmd_allowedip := cmd_allowedip st |}, true)))); [done|done|].
  intros i p Hi Hp Hwf Ha'. pose proof Hwf as (? & ? & ? & ? & ?).
  destruct (parse_keyfile _ v) as [ok k] eqn:E. destruct ok; simpl; [|done].
  apply parse_keyfile_wf in E; [|done]. apply (cmd_inv_peer st i p); try done. solve_wf.
Qed.

Lemma cmd_loop_inv fuel : forall n argv st, (length argv <= n)%nat -> cmd_inv st ->
  match cmd_loop fuel st argv with
  | Ret (Some d) => wf_device d
  | NullDeref => False
  | _ => True
  end.
Proof.
  induction n as [|n IH]; intros argv st Hn Hinv;
    (destruct argv as [|arg0 rest]; [apply Hinv|]); [simpl in Hn; lia|].
  cbn [cmd_loop]. pose proof (cmd_step_inv fuel st arg0 (head rest) Hinv) as Hs.
  destruct (cmd_step fuel st arg0 (head rest)) as [[[st' two]|]| | |]; simpl; try done.
  simpl in Hs, Hn. destruct rest as [|v rest']; [apply Hs|].
  destruct two; apply IH; simpl in *; try done; lia.
Qed.

Lemma config_read_cmd_ok fuel argv :
  match config_read_cmd fuel argv with
  | Ret (Some d) => wf_device d
  | NullDeref => False
  | _ => True
  end.
Proof.
  apply (cmd_loop_inv fuel (length argv)); [done|]. unfold cmd_inv. simpl. split; [|done].
  unfold wf_device; simpl. split; [lia|]. split; [apply zero_key_wf|]. split; [apply zero_key_wf|].
  split; [lia|]. split; [lia|]. constructor.
Qed.

End Cmd.
End ConfigCmdFacts.
