(* ===== verification/ConfigTheorems.v ===== *)
(** * What the configuration parsers guarantee (src/config.c)

    The theorems about config.c: reading a file or a command line returns and
    yields a well-formed device, each value parser accepts exactly its grammar,
    name resolution is retried a bounded number of times, and what a line means
    does not depend on its comments, its spacing or the case of its key. *)
From S2P Require Import Prelude Ctype Libc Encoding Containers Config ConfigFacts LibcFacts ConfigText.
From S2P Require Import ConfigCmdFacts Names Samples.
Import Ctype Libc Encoding Config ConfigFacts LibcFacts ConfigText ConfigCmdFacts.

Module ConfigTheorems.

(** Outcomes that neither end the process nor exhaust the fuel. *)
Definition quiet {A} (o : outcome A) : Prop :=
  match o with Ret _ | NullDeref => True | _ => False end.

Lemma quiet_bind {A B} (o : outcome A) (f : A -> outcome B) :
  quiet o -> (forall a, quiet (f a)) -> quiet (o ≫= f).
Proof. intros Ho Hf. by destruct o; simpl. Qed.

Lemma quiet_returns {A} (o : outcome A) : quiet o -> o <> NullDeref -> exists a, o = Ret a.
Proof. destruct o; simpl; try done. eauto. Qed.

Section Returns.
Context `{P : Platform} `{W : World} `{WOK : !WorldOk}.
Context (fuel : nat) (r : Z) (Hr : parse_dns_retries = Ret r) (Hfuel : 0 <= r < Z.of_nat fuel).

(** The retry loop is bounded by the retries asked for. *)
Lemma parse_endpoint_quiet e v : quiet (parse_endpoint fuel e v).
Proof.
  unfold parse_endpoint. rewrite Hr. cbn [mbind outcome_bind].
  destruct (strlen v =? 0); [done|]. destruct (split_endpoint v) as [[host port]|]; [|done].
  pose proof (resolve_endpoint_spec fuel 0 r 1000000 host port timeout_start) as Hs.
  destruct (resolve_endpoint fuel 0 r 1000000 host port) as [[[a|] sl]| | |]; simpl in *; try done.
  - by case_match.
  - lia.
Qed.

Lemma peer_line_quiet p la line : quiet (peer_line fuel p la line).
Proof.
  unfold peer_line. repeat (case_match; simpl; try done).
  apply quiet_bind; [apply parse_endpoint_quiet|]. by intros [ok e].
Qed.

Lemma process_line_quiet ctx line : quiet (process_line fuel ctx line).
Proof.
  unfold process_line. repeat (case_match; simpl; try done).
  apply quiet_bind; [apply peer_line_quiet|]. by intros [[? ?] ?].
Qed.

Lemma config_read_lines_quiet lines : forall ctx, quiet (config_read_lines fuel ctx lines).
Proof.
  induction lines as [|l ls IH]; intros ctx; simpl; [done|]. apply quiet_bind.
  - unfold config_read_line. case_match; [done|]. apply quiet_bind; [apply process_line_quiet|].
    by intros [? ?].
  - intros [ctx'|]; [apply IH|done].
Qed.

Lemma config_read_file_returns append lines : exists d, config_read_file fuel append lines = Ret d.
Proof.
  apply quiet_returns.
  - unfold config_read_file. apply quiet_bind; [apply config_read_lines_quiet|]. done.
  - pose proof (config_read_lines_inv fuel lines _ (init_inv append)) as Hinv.
    unfold config_read_file.
    by destruct (config_read_lines fuel (config_read_init append) lines) as [[?|]| | |].
Qed.

Lemma cmd_step_quiet st arg0 arg1 : quiet (cmd_step fuel st arg0 arg1).
Proof.
  unfold cmd_step. cbv zeta. repeat (case_match; simpl; try done).
  all: apply quiet_bind; [apply parse_endpoint_quiet|]; intros [[] ?]; done.
Qed.

Lemma cmd_loop_quiet : forall n argv st, (length argv <= n)%nat -> quiet (cmd_loop fuel st argv).
Proof.
  induction n as [|n IH]; intros argv st Hn; (destruct argv as [|a rest]; [done|]); [simpl in Hn; lia|].
  cbn [cmd_loop]. apply quiet_bind; [apply cmd_step_quiet|].
  intros [[st' two]|]; [|done]. simpl in Hn. destruct rest as [|v rest]; [done|].
  destruct two; apply IH; simpl in *; lia.
Qed.

Lemma config_read_cmd_returns argv : exists d, config_read_cmd fuel argv = Ret d.
Proof.
  apply quiet_returns; [by apply (cmd_loop_quiet (length argv))|].
  pose proof (config_read_cmd_ok fuel argv) as H.
  by destruct (config_read_cmd fuel argv) as [[?|]| | |].
Qed.


(** The same of the arguments of [wg set]: reading them returns, and an accepted
    command line yields a well-formed device. *)
Theorem config_read_cmd_safe argv : exists res,
  config_read_cmd fuel argv = Ret res /\ forall d, res = Some d -> wf_device d.
Proof.
  destruct (config_read_cmd_returns argv) as [res E]. exists res. split; [done|].
  intros d ->. pose proof (config_read_cmd_ok fuel argv) as H. by rewrite E in H.
Qed.

End Returns.

Section Values.
Context `{P : Platform} `{W : World}.

(** The keep-alive interval: the words "off" in any case, or a decimal number of
    at most 65535 that is the whole text. Anything else is refused and leaves the
    peer as it was. *)
Theorem keepalive_grammar n flags v : no_nul v ->
  parse_persistent_keepalive n flags v =
  match keepalive_value v with
  | Some k => (true, k, set_flag WGPEER_HAS_PERSISTENT_KEEPALIVE_INTERVAL flags)
  | None => (false, n, flags)
  end.
Proof. apply parse_keepalive_ok. Qed.

(** The firewall mark: "off", or a decimal or 0x-prefixed hexadecimal number that
    is the whole text. With a 64-bit [unsigned long] a number above 0xffffffff is
    refused, as the error message says. With a 32-bit one [strtoul] saturates
    before the comparison, so that such a number is accepted as 0xffffffff. *)
Theorem fwmark_grammar m flags v : no_nul v ->
  parse_fwmark m flags v =
  match (if strcase_eq v (str "off") then Some 0 else fwmark_number v) with
  | Some x =>
      if (ulong_bits =? 64) && (UINT32_MAX <? x) then (false, m, flags)
      else (true, Z.min x UINT32_MAX, set_flag WGDEVICE_HAS_FWMARK flags)
  | None => (false, m, flags)
  end.
Proof. apply parse_fwmark_ok. Qed.

(** [validate_netmask] accepts an address exactly when the bits below its prefix,
    of the address read as one big-endian number of its family's width, are all
    zero. *)
Theorem validate_netmask_correct a : wf_allowedip a ->
  let words := if aip_family a =? AF_INET then 1%nat else 4%nat in
  validate_netmask a = true <->
  ip_number words (aip_ip a) mod 2 ^ (32 * Z.of_nat words - aip_cidr a) = 0.
Proof.
  intros (Hl & Hb & Hf & _). unfold validate_netmask.
  destruct Hf as [[Hf Hc]|[Hf Hc]]; rewrite Hf; simpl (_ =? _); cbv iota zeta;
    rewrite netmask_loop_spec by (try done; lia); rewrite Z.max_r by lia; done.
Qed.

(** A list of allowed IPs is accepted exactly when each of its comma-separated
    entries denotes an address with a prefix length. The entries are then appended
    in order to those of the peer, each "-" marking its node for removal, and the
    peer's allowed IPs are replaced unless one entry has a "+" or a "-". (C27) *)
Theorem parse_allowedips_correct peer value ok peer' last' :
  parse_allowedips peer (last_ptr (peer_allowedips peer)) value = (ok, peer', last') ->
  match (if strlen value =? 0 then Some [] else mapM parse_entry (tokens value ",")) with
  | Some es => ok = true /\
      peer' = with_peer_flags (fun f => flags_after (set_flag WGPEER_REPLACE_ALLOWEDIPS f) es)
                (with_allowedips (peer_allowedips peer ++ map snd es) peer) /\
      last' = last_ptr (peer_allowedips peer')
  | None => ok = false
  end.
Proof. apply parse_allowedips_ok. Qed.


(** What a line means does not depend on its white space nor on a comment. *)
Theorem config_line_spacing fuel ctx s s' comment :
  ~ In COMMENT_CHAR s -> ~ In COMMENT_CHAR s' ->
  List.filter (fun c => negb (space_spec (uchar c))) s
  = List.filter (fun c => negb (space_spec (uchar c))) s' ->
  config_read_line fuel ctx (s ++ COMMENT_CHAR :: comment) = config_read_line fuel ctx s'.
Proof.
  intros Hs Hs' He. unfold config_read_line.
  rewrite clean_line_comment, !clean_line_no_comment by done.
  assert (Hf : forall t, List.filter (fun c => negb (char_is_space (char_int c))) t
    = List.filter (fun c => negb (space_spec (uchar c))) t).
  { intros t. apply List.filter_ext. intros c. by rewrite char_is_space_char. }
  by rewrite !Hf, He.
Qed.

Lemma tolower_equals c : tolower c = "="%char -> c = "="%char.
Proof.
  intros H. apply Ascii.eqb_eq. revert c H.
  enough (H : forall c, implb (Ascii.eqb (tolower c) "=") (Ascii.eqb c "=") = true).
  { intros c Hc. specialize (H c). rewrite Hc in H. exact H. }
  apply char_forall. vm_compute. reflexivity.
Qed.

(** A keyword that ends in "=" can only match up to the first "=" of a line. *)
Lemma no_key_within key k v : ~ In "="%char k -> (length key + 1 <= length k)%nat ->
  strncase_eq (k ++ v) (key ++ str "=") (length key + 1) = false.
Proof.
  intros Hn Hl. apply bool_decide_false. intros E. apply Hn.
  rewrite (take_ge (key ++ str "=")) in E by (rewrite length_app; simpl; lia).
  rewrite take_app_le in E by lia. apply (f_equal last) in E.
  rewrite map_app in E. change (map tolower (str "=")) with ["="%char] in E.
  rewrite last_snoc in E. change (map tolower (take (length key + 1) k)) with (tolower <$> take (length key + 1) k) in E.
  rewrite fmap_last in E.
  apply fmap_Some in E as (c & Hc & Heq). symmetry in Heq. apply tolower_equals in Heq as ->.
  apply last_Some in Hc as [l' Hc].
  rewrite <- (take_drop (length key + 1) k), Hc. apply in_app_iff. left. apply in_app_iff.
  right. by left.
Qed.

Lemma get_value_case key k k' v :
  map tolower k = map tolower k' -> ~ In "="%char k -> ~ In "="%char k' ->
  get_value (k ++ v) (key ++ str "=") = get_value (k' ++ v) (key ++ str "=").
Proof.
  intros Hk Hn Hn'. pose proof (f_equal length Hk) as Hl. rewrite !length_map in Hl.
  unfold get_value, strlen. rewrite !(length_app k), !(length_app k'), Hl. case_match; [done|].
  rewrite !length_app. simpl (length (str "=")).
  destruct (Nat.leb_spec (length key + 1) (length k)) as [Hle|Hgt].
  { by rewrite !no_key_within by (try done; lia). }
  assert (Hc : strncase_eq (k ++ v) (key ++ str "=") (length key + 1)
    = strncase_eq (k' ++ v) (key ++ str "=") (length key + 1)).
  { unfold strncase_eq. rewrite !firstn_app, !map_app, <- !firstn_map, Hk, Hl. done. }
  rewrite Hc, !drop_app_ge by lia. by rewrite Hl.
Qed.

(** Keys are matched without regard to case, while the value keeps it. *)
Theorem config_line_case fuel ctx k k' v :
  map tolower k = map tolower k' -> ~ In "="%char k -> ~ In "="%char k' ->
  process_line fuel ctx (k ++ str "=" ++ v) = process_line fuel ctx (k' ++ str "=" ++ v).
Proof.
  intros Hk Hn Hn'.
  assert (Hs : forall h, strcase_eq (k ++ str "=" ++ v) h = strcase_eq (k' ++ str "=" ++ v) h).
  { intros h. unfold strcase_eq. by rewrite !map_app, Hk. }
  assert (Hg : forall key, get_value (k ++ str "=" ++ v) (key ++ str "=")
    = get_value (k' ++ str "=" ++ v) (key ++ str "=")) by (intros; by apply get_value_case).
  unfold process_line, device_line, peer_line. rewrite !Hs.
  rewrite (Hg (str "ListenPort") : get_value _ (str "ListenPort=") = _),
    (Hg (str "FwMark") : get_value _ (str "FwMark=") = _),
    (Hg (str "PrivateKey") : get_value _ (str "PrivateKey=") = _),
    (Hg (str "Endpoint") : get_value _ (str "Endpoint=") = _),
    (Hg (str "PublicKey") : get_value _ (str "PublicKey=") = _),
    (Hg (str "AllowedIPs") : get_value _ (str "AllowedIPs=") = _),
    (Hg (str "PersistentKeepalive") : get_value _ (str "PersistentKeepalive=") = _),
    (Hg (str "PresharedKey") : get_value _ (str "PresharedKey=") = _).
  reflexivity.
Qed.

End Values.

(** ** Witnesses *)

Import NumericWorld.

(** A configuration with a comment, keys of either case and an incremental
    allowed IP. *)
Definition sample_text : cstring :=
  str "[Interface]" ++ [NL] ++ str "FwMark = 0x10 # mark" ++ [NL] ++ str "[peer]" ++ [NL]
  ++ str "publickey=" ++ key_to_base64 sample_key ++ [NL]
  ++ str "AllowedIPs = 10.0.0.0/8, +10.1.2.3" ++ [NL].


(** The sample is accepted, so that the theorem says something of its device. *)
Example sample_text_accepted : exists d,
  config_read_file (P := arm32) (W := numeric_world) 16 false (config_lines sample_text)
  = Ret (Some d) /\ dev_fwmark d = 16 /\ length (dev_peers d) = 1%nat.
Proof. eexists. split; [vm_compute; reflexivity|]. split; reflexivity. Qed.

Lemma config_read_cmd_safe_witness : exists res,
  config_read_cmd (P := arm32) (W := numeric_world) 16
    [str "fwmark"; str "off"; str "peer"; key_to_base64 sample_key; str "remove"] = Ret res /\
  forall d, res = Some d -> wf_device d.
Proof.
  exact (config_read_cmd_safe (P := arm32) (WOK := numeric_world_ok) 16 15 eq_refl ltac:(lia)
    [str "fwmark"; str "off"; str "peer"; key_to_base64 sample_key; str "remove"]).
Defined.

Lemma keepalive_grammar_witness :
  parse_persistent_keepalive (P := arm32) 7 0 (str "65535") = (true, 65535, 16).
Proof. rewrite keepalive_grammar; [vm_compute; reflexivity|]. by intros H; repeat destruct H as [H|H]. Defined.

(** On a 32-bit platform 2^32 is accepted as a mark, and on a 64-bit one it is
    refused. *)
Lemma fwmark_grammar_witness :
  parse_fwmark (P := arm32) 0 0 (str "4294967296") = (true, 4294967295, 16) /\
  parse_fwmark (P := arm64) 0 0 (str "4294967296") = (false, 0, 0).
Proof.
  split; (rewrite fwmark_grammar; [vm_compute; reflexivity|]);
    by intros H; repeat destruct H as [H|H].
Defined.

Lemma validate_netmask_correct_witness :
  wf_allowedip sample_allowedip4 /\
  (validate_netmask sample_allowedip4 = true <->
   ip_number 1 (aip_ip sample_allowedip4) mod 2 ^ (32 - aip_cidr sample_allowedip4) = 0).
Proof.
  assert (Hwf : wf_allowedip sample_allowedip4) by solve_concrete.
  split; [exact Hwf|]. exact (validate_netmask_correct sample_allowedip4 Hwf).
Defined.

Lemma parse_allowedips_correct_witness :
  (parse_allowedips (P := arm64) (W := numeric_world) zero_peer None (str "10.0.0.0/8,-10.1.2.3")).1.1
  = true.
Proof.
  destruct (parse_allowedips (P := arm64) (W := numeric_world) zero_peer None
    (str "10.0.0.0/8,-10.1.2.3")) as [[ok p] l] eqn:E.
  pose proof (parse_allowedips_correct (P := arm64) (W := numeric_world) zero_peer _ ok p l E) as H.
  revert H. vm_compute mapM. intros H. apply H.
Defined.


Lemma config_line_spacing_witness :
  config_read_line (P := arm64) (W := numeric_world) 16 (config_read_init false)
    (str " [Inter face ] " ++ COMMENT_CHAR :: str "x")
  = config_read_line (P := arm64) (W := numeric_world) 16 (config_read_init false) (str "[Interface]").
Proof.
  apply config_line_spacing; [| |reflexivity]; by intros H; repeat destruct H as [H|H].
Defined.

Lemma config_line_case_witness :
  process_line (P := arm64) (W := numeric_world) 16 (config_read_init false)
    (str "fWmARK" ++ str "=" ++ str "off")
  = process_line (P := arm64) (W := numeric_world) 16 (config_read_init false)
    (str "FwMark" ++ str "=" ++ str "off").
Proof.
  apply config_line_case; [reflexivity| |]; by intros H; repeat destruct H as [H|H].
Defined.

End ConfigTheorems.
