(* ===== verification/ShowconfFacts.v ===== *)
(** * wg setconf reads back what wg showconf prints

    Line by line, then peer by peer: every printed line is read as the
    assignment it stands for, and the device that results is the printed one
    without what a configuration file does not carry. *)
From S2P Require Import Prelude Ctype Libc Encoding Containers Config IpcSpec.
From S2P Require Import LibcFacts ConfigFacts ConfigText Names Showconf Samples.
Import Ctype Libc Encoding Config LibcFacts ConfigFacts ConfigText Showconf.

Module ShowconfFacts.

(** The keys are handled through the codec's lemmas only. *)
#[local] Opaque key_to_base64 key_from_base64 print_u print_x.

(** ** Characters of the printed values *)

Ltac by_chars c :=
  let H := fresh in
  match goal with
  | Hc : ?f c = true |- ?g c = true =>
      assert (H : (negb (f c) || g c) = true)
        by (clear Hc; revert c; apply char_forall; vm_compute; reflexivity);
      rewrite Hc in H; exact H
  end.

Lemma alnum_word c : alnum c = true -> word_char c = true.
Proof. intros H. by_chars c. Qed.
Lemma ip_char_word c : ip_char c = true -> word_char c = true.
Proof. intros H. by_chars c. Qed.
Lemma host_char_word c : host_char c = true -> word_char c = true.
Proof. intros H. by_chars c. Qed.
Lemma is_digit_char_word c : is_digit_char c = true -> word_char c = true.
Proof. intros H. by_chars c. Qed.

Lemma Forall_chars (f g : ascii -> bool) s :
  (forall c, f c = true -> g c = true) -> Forall f s -> Forall g s.
Proof.
  intros Hf Hs. eapply Forall_impl; [exact Hs|]. intros c Hc%Is_true_true. by apply Is_true_true, Hf.
Qed.

Lemma base_digits_word base s : base <= 16 -> Forall (base_digit base) s -> Forall word_char s.
Proof.
  intros Hb Hs. eapply Forall_impl; [exact Hs|]. intros c Hc.
  by apply Is_true_true, alnum_word, (base_digit_alnum base).
Qed.

Lemma b64_char_word x : 0 <= x < 64 -> word_char (b64_char x).
Proof.
  intros Hx. apply Is_true_true. revert x Hx. apply sextet_forall. vm_compute. reflexivity.
Qed.

Lemma base64_ref_word n : forall l, (length l <= 3 * n)%nat -> Forall is_byte l ->
  Forall word_char (base64_ref l).
Proof.
  induction n as [|n IH]; intros l Hl Hb.
  { destruct l; simpl in *; [constructor|lia]. }
  destruct l as [|a [|b [|c l]]]; [constructor| | |]; cbn [base64_ref];
    repeat (match goal with H : Forall is_byte (_ :: _) |- _ => inversion_clear H end).
  all: unfold is_byte in *; repeat constructor; try (apply b64_char_word; Z.div_mod_to_equations; lia).
  apply IH; [simpl in Hl; lia|done].
Qed.

Lemma key_to_base64_word `{Platform} k : wf_key k ->
  Forall word_char (key_to_base64 k) /\ key_to_base64 k <> [].
Proof.
  intros Hk. rewrite key_to_base64_ref by done. destruct Hk as [Hl Hb]. split.
  - apply (base64_ref_word 11); [unfold WG_KEY_LEN in Hl; lia|done].
  - by destruct k as [|? [|? [|? ?]]].
Qed.

(** ** Lines *)

Lemma getlines_line l rest : ~ In NL l -> getlines (l ++ NL :: rest) = (l ++ [NL]) :: getlines rest.
Proof.
  induction l as [|c l IH]; intros Hn; simpl.
  - done.
  - destruct (Ascii.eqb_spec c NL); [by subst; destruct Hn; left|].
    rewrite IH; [done|]. intros ?. by destruct Hn; right.
Qed.

Lemma cut_nul_id l : no_nul l -> cut_nul l = l.
Proof.
  induction l as [|c l IH]; intros Hn; simpl; [done|].
  apply no_nul_cons in Hn as [Hc Hn]. destruct (Ascii.eqb_spec c NUL); [done|]. by rewrite IH.
Qed.

Section Read.
Context `{P : Platform} `{W : World}.

(** Feeding a text to the reader. *)
Definition read (fuel : nat) (ctx : config_ctx) (text : cstring) : outcome (option config_ctx) :=
  config_read_lines fuel ctx (config_lines text).

(** A character of a printed line: no newline, comment or NUL. *)
Definition line_char (c : ascii) : bool :=
  negb (Ascii.eqb c NL) && negb (Ascii.eqb c COMMENT_CHAR) && negb (Ascii.eqb c NUL).

Lemma word_line c : word_char c = true -> line_char c = true.
Proof. intros H. by_chars c. Qed.

Lemma line_char_not_in l d : Forall line_char l -> line_char d = false -> ~ In d l.
Proof.
  rewrite Forall_forall. intros H Hd Hin%list_elem_of_In%H%Is_true_true. congruence.
Qed.

(** One line: its words are processed, then the rest is read. *)
Lemma read_line fuel ctx l line rest :
  Forall line_char l -> clean_line (l ++ nl) = line ->
  read fuel ctx (l ++ nl ++ rest) =
  if (length line =? 0)%nat then read fuel ctx rest
  else '(ret, ctx') ← process_line fuel ctx line;
       if (ret : bool) then read fuel ctx' rest else Ret None.
Proof.
  intros Hl Hc. unfold read, config_lines. simpl app at 2.
  rewrite getlines_line by (by apply line_char_not_in). cbn [map config_read_lines].
  rewrite cut_nul_id.
  2: { unfold no_nul. rewrite in_app_iff. intros [H|[H|[]]]; [|done].
       by apply (line_char_not_in _ _ Hl) in H. }
  unfold config_read_line. change [NL] with nl. rewrite Hc. destruct (length line =? 0)%nat; [done|].
  destruct (process_line fuel ctx line) as [[[] ctx']| | |]; done.
Qed.

Lemma read_blank fuel ctx rest : read fuel ctx (nl ++ rest) = read fuel ctx rest.
Proof.
  rewrite <- (app_nil_l (nl ++ rest)).
  rewrite (read_line fuel ctx [] []); [done|constructor|].
  rewrite clean_line_no_comment; [|by intros [?|[]]]. simpl. by rewrite char_is_space_char.
Qed.

(** A line that assigns a value to a keyword. *)
Lemma read_assign fuel ctx (key value rest : cstring) :
  Forall word_char key -> Forall word_char value -> key <> [] ->
  read fuel ctx (key ++ str " = " ++ value ++ nl ++ rest) =
  '(ret, ctx') ← process_line fuel ctx (key ++ str "=" ++ value);
  if (ret : bool) then read fuel ctx' rest else Ret None.
Proof.
  intros Hk Hv Hn. replace (key ++ str " = " ++ value ++ nl ++ rest)
    with ((key ++ str " = " ++ value) ++ nl ++ rest) by (by rewrite <- !app_assoc).
  rewrite (read_line fuel ctx _ (key ++ str "=" ++ value)).
  - rewrite length_app. by destruct key.
  - apply Forall_app_2; [by apply (Forall_chars _ _ _ word_line)|].
    apply Forall_app_2; [by repeat constructor|by apply (Forall_chars _ _ _ word_line)].
  - rewrite <- !app_assoc. by apply clean_line_assign.
Qed.

(** ** The interface section *)

Definition in_device (d : wgdevice) : config_ctx :=
  {| ctx_device := d; ctx_last_peer := None; ctx_last_allowedip := None;
     is_peer_section := false; is_device_section := true |}.

(** A keyword that is not the start of a section header. *)
Definition not_header (key : cstring) : bool :=
  diverge key (str "[Interface]") && diverge key (str "[Peer]").

Lemma process_not_header fuel ctx key v : not_header key = true ->
  process_line fuel ctx (key ++ v) =
  if is_device_section ctx then Ret (device_line ctx (key ++ v))
  else if is_peer_section ctx then
    match ctx_last_peer ctx with
    | None => NullDeref
    | Some i =>
        match dev_peers (ctx_device ctx) !! i with
        | None => NullDeref
        | Some peer =>
            '(ret, peer, last) ← peer_line fuel peer (ctx_last_allowedip ctx) (key ++ v);
            Ret (ret, with_ctx_last_allowedip last
                        (with_ctx_device (store_peer i peer (ctx_device ctx)) ctx))
        end
    end
  else Ret (false, ctx).
Proof.
  intros [H1 H2]%andb_true_iff. unfold process_line. by rewrite !strcase_eq_other.
Qed.

Lemma read_device_line fuel d d' (key value rest : cstring) :
  not_header key = true -> Forall word_char key -> Forall word_char value -> key <> [] ->
  device_line (in_device d) (key ++ str "=" ++ value) = (true, in_device d') ->
  read fuel (in_device d) (key ++ str " = " ++ value ++ nl ++ rest) = read fuel (in_device d') rest.
Proof.
  intros Hh Hk Hv Hn E. rewrite read_assign, process_not_header by done.
  cbn [is_device_section in_device]. by rewrite E.
Qed.

Lemma read_interface fuel rest :
  read fuel (config_read_init false) (str "[Interface]" ++ nl ++ rest) =
  read fuel (in_device (ctx_device (config_read_init false))) rest.
Proof.
  rewrite (read_line fuel _ (str "[Interface]") (str "[Interface]")); [done|by repeat constructor|].
  rewrite clean_line_no_comment by (simpl; naive_solver).
  unfold str, nl. cbn [list_ascii_of_string app List.filter]. by rewrite !char_is_space_char.
Qed.

Context `{NN : !NumericNames}.

Ltac other := rewrite get_value_other by reflexivity.

Lemma get_value_assign key v : v <> [] -> get_value (key ++ str "=" ++ v) (key ++ str "=") = Some v.
Proof. intros Hv. rewrite app_assoc. by apply get_value_hit. Qed.

Lemma parse_port_print port flags n : 0 <= n < 2 ^ 16 ->
  parse_port port flags (print_u n) = (true, n, set_flag WGDEVICE_HAS_LISTEN_PORT flags).
Proof.
  intros Hn. unfold parse_port. destruct (print_u_spec n) as (Hne & _); [lia|].
  destruct (Z.eqb_spec (strlen (print_u n)) 0) as [H|_].
  { unfold strlen in H. by destruct (print_u n). }
  destruct (service_port n Hn) as (r & -> & Hport & Hf & ->).
  destruct Hf as [-> | ->]; simpl; by rewrite Hport.
Qed.

Lemma print_x_value n : 0 <= n < 2 ^ 32 ->
  fwmark_number (str "0x" ++ print_x n) = Some n.
Proof.
  intros Hn. destruct (print_x_spec n) as (Hne & _ & Hv); [lia|].
  destruct (print_x n) as [|c r]; [done|]. exact Hv.
Qed.

Lemma print_words n : 0 <= n < 2 ^ 64 ->
  Forall word_char (print_u n) /\ Forall word_char (print_x n) /\
  no_nul (print_u n) /\ no_nul (print_x n).
Proof.
  intros Hn. destruct (print_u_spec n Hn) as (_ & Hu & _), (print_x_spec n Hn) as (_ & Hx & _).
  apply base_digits_word in Hu; [|lia]. apply base_digits_word in Hx; [|lia].
  auto using word_no_nul.
Qed.

Lemma parse_fwmark_print m flags n : 0 <= n < 2 ^ 32 ->
  parse_fwmark m flags (str "0x" ++ print_x n) = (true, n, set_flag WGDEVICE_HAS_FWMARK flags).
Proof.
  intros Hn. destruct (print_words n) as (_ & _ & _ & Hw); [lia|].
  rewrite parse_fwmark_ok.
  2: { unfold no_nul. rewrite in_app_iff. intros [[H|[H|[]]]|H]; [discriminate H|discriminate H|done]. }
  replace (strcase_eq (str "0x" ++ print_x n) (str "off")) with false.
  2: { symmetry. by apply strcase_eq_other. }
  rewrite print_x_value by lia. unfold UINT32_MAX.
  replace (2 ^ 32 - 1 <? n) with false by lia. rewrite andb_false_r, Z.min_l by lia. done.
Qed.

Lemma parse_key_print key k : length key = WG_KEY_LEN -> wf_key k ->
  parse_key key (key_to_base64 k) = (true, k).
Proof. intros Hl Hk. unfold parse_key. by rewrite key_from_base64_complete. Qed.

(** The device the interface section is read as. *)
Definition reload_interface (d : wgdevice) : wgdevice := with_peers [] (reload d).

Lemma read_interface_section fuel d rest : wf_device d ->
  read fuel (config_read_init false)
    (str "[Interface]" ++ nl
     ++ (if negb (dev_listen_port d =? 0)
         then str "ListenPort = " ++ print_u (dev_listen_port d) ++ nl else [])
     ++ (if negb (dev_fwmark d =? 0)
         then str "FwMark = " ++ str "0x" ++ print_x (dev_fwmark d) ++ nl else [])
     ++ (if has_flag (dev_flags d) WGDEVICE_HAS_PRIVATE_KEY
         then str "PrivateKey = " ++ key_to_base64 (dev_private_key d) ++ nl else [])
     ++ nl ++ rest) =
  read fuel (in_device (reload_interface d)) rest.
Proof.
  intros (Hf & Hpub & Hpriv & Hm & Hp & _). rewrite read_interface.
  set (d0 := ctx_device (config_read_init false)).
  set (d1 := with_listen_port (dev_listen_port d) d0).
  set (d2 := with_fwmark (dev_fwmark d) d1).
  destruct (print_words (dev_listen_port d)) as (Hw1 & _); [lia|].
  destruct (print_words (dev_fwmark d)) as (_ & Hw2 & _); [lia|].
  destruct (print_u_spec (dev_listen_port d)) as (Hne1 & _); [lia|].
  destruct (key_to_base64_word _ Hpriv) as [Hw3 Hne3].
  transitivity (read fuel (in_device d1)
    ((if negb (dev_fwmark d =? 0)
         then str "FwMark = " ++ str "0x" ++ print_x (dev_fwmark d) ++ nl else [])
     ++ (if has_flag (dev_flags d) WGDEVICE_HAS_PRIVATE_KEY
         then str "PrivateKey = " ++ key_to_base64 (dev_private_key d) ++ nl else [])
     ++ nl ++ rest)).
  { destruct (Z.eqb_spec (dev_listen_port d) 0) as [E|E]; cbn [negb].
    - subst d1. by rewrite E.
    - change (str "ListenPort = ") with (str "ListenPort" ++ str " = "). rewrite <- !app_assoc.
      rewrite (read_device_line fuel d0 d1 (str "ListenPort") (print_u (dev_listen_port d)));
        [reflexivity|reflexivity|by repeat constructor|assumption|discriminate|].
      unfold device_line. rewrite get_value_assign by done. cbn [in_device ctx_device].
      by rewrite parse_port_print. }
  transitivity (read fuel (in_device d2)
    ((if has_flag (dev_flags d) WGDEVICE_HAS_PRIVATE_KEY
         then str "PrivateKey = " ++ key_to_base64 (dev_private_key d) ++ nl else [])
     ++ nl ++ rest)).
  { destruct (Z.eqb_spec (dev_fwmark d) 0) as [E|E]; cbn [negb].
    - subst d2. by rewrite E.
    - change (str "FwMark = ") with (str "FwMark" ++ str " = "). rewrite <- !app_assoc.
      rewrite (app_assoc (str "0x")).
      rewrite (read_device_line fuel d1 d2 (str "FwMark") (str "0x" ++ print_x (dev_fwmark d)));
        [reflexivity|reflexivity|by repeat constructor| |discriminate|].
      { apply Forall_app_2; [by repeat constructor|done]. }
      unfold device_line. rewrite get_value_other by done.
      rewrite get_value_assign by done. cbn [in_device ctx_device].
      by rewrite parse_fwmark_print. }
  transitivity (read fuel (in_device (reload_interface d)) (nl ++ rest)); [|apply read_blank].
  unfold reload_interface, reload.
  destruct (has_flag (dev_flags d) WGDEVICE_HAS_PRIVATE_KEY).
  - change (str "PrivateKey = ") with (str "PrivateKey" ++ str " = "). rewrite <- !app_assoc.
    rewrite (read_device_line fuel d2 (with_private_key (dev_private_key d) d2)
      (str "PrivateKey") (key_to_base64 (dev_private_key d)));
      [reflexivity|reflexivity|by repeat constructor|assumption|discriminate|].
    unfold device_line. rewrite !get_value_other by done.
    rewrite get_value_assign by done. cbn [in_device ctx_device].
    by rewrite parse_key_print.
  - done.
Qed.

(** ** Peer sections *)

Definition in_peer (d : wgdevice) (ps : list wgpeer) (p : wgpeer) : config_ctx :=
  {| ctx_device := with_peers (ps ++ [p]) d; ctx_last_peer := Some (length ps);
     ctx_last_allowedip := last_ptr (peer_allowedips p);
     is_peer_section := true; is_device_section := false |}.

Lemma read_peer_line fuel d ps p p' key v l rest :
  not_header key = true -> Forall line_char l -> clean_line (l ++ nl) = key ++ v -> key <> [] ->
  peer_line fuel p (last_ptr (peer_allowedips p)) (key ++ v)
    = Ret (true, p', last_ptr (peer_allowedips p')) ->
  read fuel (in_peer d ps p) (l ++ nl ++ rest) = read fuel (in_peer d ps p') rest.
Proof.
  intros Hh Hl Hc Hn E. rewrite (read_line fuel _ l (key ++ v)) by done.
  rewrite process_not_header by done. cbn [in_peer is_device_section is_peer_section
    ctx_last_peer ctx_last_allowedip ctx_device with_peers dev_peers].
  rewrite list_lookup_middle by done. rewrite E.
  destruct key; [done|]. simpl. unfold in_peer, with_ctx_last_allowedip, with_ctx_device, store_peer.
  simpl. do 2 f_equal. unfold with_peers. simpl. f_equal.
  by rewrite insert_app_r_alt, Nat.sub_diag by lia.
Qed.

(** The same for a line that assigns a value without spaces. *)
Lemma read_peer_assign fuel d ps p p' key value rest :
  not_header key = true -> Forall word_char key -> Forall word_char value -> key <> [] ->
  peer_line fuel p (last_ptr (peer_allowedips p)) (key ++ str "=" ++ value)
    = Ret (true, p', last_ptr (peer_allowedips p')) ->
  read fuel (in_peer d ps p) (key ++ str " = " ++ value ++ nl ++ rest) = read fuel (in_peer d ps p') rest.
Proof.
  intros Hh Hk Hv Hn E. replace (key ++ str " = " ++ value ++ nl ++ rest)
    with ((key ++ str " = " ++ value) ++ nl ++ rest) by (by rewrite <- !app_assoc).
  apply (read_peer_line fuel d ps p p' key (str "=" ++ value)); try done.
  - apply Forall_app_2; [by apply (Forall_chars _ _ _ word_line)|].
    apply Forall_app_2; [by repeat constructor|by apply (Forall_chars _ _ _ word_line)].
  - rewrite <- !app_assoc. by apply clean_line_assign.
Qed.

Definition new_peer : wgpeer := with_peer_flags (set_flag WGPEER_REPLACE_ALLOWEDIPS) zero_peer.

Lemma read_peer_header fuel ctx d ps rest :
  ctx_device ctx = with_peers ps d -> ctx_last_peer ctx = last_ptr ps ->
  read fuel ctx (str "[Peer]" ++ nl ++ rest) = read fuel (in_peer d ps new_peer) rest.
Proof.
  intros Hd Hl. rewrite (read_line fuel _ (str "[Peer]") (str "[Peer]")); [|by repeat constructor|].
  - change (length (str "[Peer]") =? 0)%nat with false. cbv iota. unfold process_line.
    change (strcase_eq (str "[Peer]") (str "[Interface]")) with false.
    rewrite strcase_eq_refl, Hd, Hl. cbn [with_peers dev_peers]. rewrite link_next_last.
    change (read fuel {| ctx_device := with_peers (ps ++ [new_peer]) (with_peers ps d);
      ctx_last_peer := Some (linked_pos (last_ptr ps)); ctx_last_allowedip := None;
      is_peer_section := true; is_device_section := false |} rest
      = read fuel (in_peer d ps new_peer) rest).
    do 2 f_equal. unfold in_peer. f_equal. f_equal. unfold linked_pos, last_ptr.
    by destruct (length ps).
  - rewrite clean_line_no_comment by (simpl; naive_solver).
    unfold str, nl. cbn [list_ascii_of_string app List.filter]. by rewrite !char_is_space_char.
Qed.

(** *** Allowed IPs *)

Lemma ip_char_not s c : Forall ip_char s -> ip_char c = false -> ~ In c s.
Proof. rewrite Forall_forall. intros Hs Hc Hin%list_elem_of_In%Hs%Is_true_true. congruence. Qed.

Lemma no_sign s c : (match s with x :: _ => x <> c | [] => True end) -> c <> NUL ->
  Ascii.eqb (cget s 0) c = false.
Proof. intros H Hc. apply Ascii.eqb_neq. destruct s; unfold cget; simpl; naive_solver. Qed.

Lemma store_ip_zero l : (length l <= 16)%nat ->
  store_ip (replicate 16 0) l = l ++ replicate (16 - length l) 0.
Proof.
  intros Hl. unfold store_ip. replace 16%nat with (length l + (16 - length l))%nat at 1 by lia.
  rewrite replicate_add. apply list_inserts_0_r. by rewrite length_replicate.
Qed.

(** The address printed for a node, read back on its own. *)
Lemma parse_ip_print a : wf_allowedip a -> canonical_allowedip a ->
  exists ip, allowedip_addr a = Some ip /\ Forall ip_char ip /\ ip <> [] /\
    parse_ip zero_allowedip ip = (true, {| aip_family := aip_family a; aip_ip := aip_ip a;
      aip_cidr := 0; aip_flags := 0 |}).
Proof.
  intros (Hl & Hb & Hf & _) Hcan. unfold allowedip_addr, parse_ip. cbn [zero_allowedip aip_ip].
  destruct Hf as [[Hf _]|[Hf _]]; rewrite Hf; simpl (_ =? _); cbv iota.
  - destruct (ntop_pton_4 (take 4 (aip_ip a))) as (s & E1 & E2 & Hn & Hc & Hcol).
    { rewrite length_take. lia. } { by apply Forall_take. }
    exists s. split_and!; try done. rewrite (NumericWorld.strchr_decide_false _ _ Hcol), E2.
    rewrite store_ip_zero, length_take, Hl by (rewrite length_take; lia).
    change (16 - 4 `min` 16)%nat with 12%nat. rewrite <- (Hcan Hf), take_drop. done.
  - destruct (ntop_pton_6 (aip_ip a) Hl Hb) as (s & E1 & E2 & Hc & Hcol).
    exists s. split_and!; try done; [by intros ->|].
    rewrite (NumericWorld.strchr_decide_true _ _ Hcol), E2.
    rewrite store_ip_zero, Hl, app_nil_r by lia. done.
Qed.

Lemma parse_entry_print a : wf_allowedip a -> canonical_allowedip a ->
  exists ip, allowedip_addr a = Some ip /\ Forall ip_char ip /\
    parse_entry (ip ++ str "/" ++ print_u (aip_cidr a)) = Some (false, reload_allowedip a).
Proof.
  intros Hwf Hcan. destruct (parse_ip_print a Hwf Hcan) as (ip & Ha & Hc & Hn & Hp).
  destruct Hwf as (_ & _ & Hf & _). exists ip. split_and!; try done.
  assert (Hcidr : 0 <= aip_cidr a < 256) by (destruct Hf as [[_ ?]|[_ ?]]; lia).
  unfold parse_entry, entry_prefix. destruct ip as [|c ip]; [done|].
  assert (Hsign : forall d, ip_char d = false -> Ascii.eqb c d = false).
  { intros d Hd. apply Ascii.eqb_neq. intros ->.
    apply (ip_char_not _ d Hc Hd). by left. }
  unfold cget. cbn [app nth]. rewrite !Hsign by done.
  change (c :: ip ++ str "/" ++ print_u (aip_cidr a))
    with ((c :: ip) ++ "/"%char :: print_u (aip_cidr a)).
  rewrite strsep_app by (by apply (ip_char_not _ _ Hc)). rewrite Hp. cbn [aip_family aip_ip].
  destruct (print_words (aip_cidr a)) as (_ & _ & Hnn & _); [lia|].
  destruct (print_u_spec (aip_cidr a)) as (_ & _ & Hv); [lia|].
  rewrite parse_cidr_number by (try done; tauto). unfold decimal_upto. rewrite Hv.
  replace (aip_cidr a <=? _) with true; [by rewrite u8_small by lia|].
  destruct Hf as [[-> ?]|[-> ?]]; simpl; lia.
Qed.

(** The list printed for a peer: its entries joined, each of which reads back
    as its node. *)
Lemma allowedips_text_entries l :
  Forall wf_allowedip l -> Forall canonical_allowedip l ->
  exists es, allowedips_text l = join (str ", ") es /\ length es = length l /\
    mapM parse_entry es = Some (map (fun a => (false, reload_allowedip a)) l) /\
    Forall (fun e => Forall word_char e /\ ~ In ","%char e) es /\ Forall (fun e => e <> []) es.
Proof.
  intros Hwf Hcan. induction l as [|a l IH]; [by exists []; repeat split|].
  inversion_clear Hwf as [|? ? Ha Hl]. inversion_clear Hcan as [|? ? Hca Hcl].
  destruct (IH Hl Hcl) as (es & Ht & Hlen & Hm & Hw & Hn). clear IH.
  destruct (parse_entry_print a Ha Hca) as (ip & Hip & Hc & He).
  assert (Hcidr : 0 <= aip_cidr a < 2 ^ 64)
    by (destruct Ha as (_ & _ & [[_ ?]|[_ ?]] & _); lia).
  exists ((ip ++ str "/" ++ print_u (aip_cidr a)) :: es). split_and!.
  - cbn [allowedips_text]. rewrite Hip, Ht.
    destruct l as [|a' l], es as [|e es]; try done; [by rewrite !app_nil_r|].
    rewrite join_cons, <- !app_assoc. done.
  - simpl. by rewrite Hlen.
  - cbn [map]. apply mapM_Some. constructor; [done|]. by apply mapM_Some.
  - constructor; [|done]. destruct (print_words _ Hcidr) as (Hu & _). split.
    + apply Forall_app_2; [by apply (Forall_chars _ _ _ ip_char_word)|].
      apply Forall_app_2; [by repeat constructor|assumption].
    + rewrite !in_app_iff. intros [H|[H|H]].
      * by apply (ip_char_not _ _ Hc) in H.
      * by destruct H as [H|[]].
      * revert H. by apply NumericWorld.print_u_not_in.
  - constructor; [|done]. intros H%(f_equal length). rewrite !length_app in H. simpl in H. lia.
Qed.

Lemma clean_join es : Forall (fun e => Forall word_char e /\ ~ In ","%char e) es ->
  List.filter (fun c => negb (char_is_space (char_int c))) (join (str ", ") es) = join (str ",") es.
Proof.
  induction 1 as [|e es [He _] Hes IH]; [done|].
  destruct es as [|e' es]; [by apply filter_word|].
  rewrite !join_cons, !List.filter_app, IH, filter_word by done.
  cbn [str list_ascii_of_string List.filter]. rewrite !char_is_space_char. done.
Qed.

Lemma with_peer_id p : with_allowedips (peer_allowedips p) p = p.
Proof. by destruct p. Qed.

(** The line of the allowed IPs, read in a peer that has none yet and is to
    replace them. *)
Lemma read_allowedips fuel d ps p l rest :
  Forall wf_allowedip l -> Forall canonical_allowedip l -> l <> [] ->
  peer_allowedips p = [] ->
  read fuel (in_peer d ps p) (str "AllowedIPs = " ++ allowedips_text l ++ nl ++ rest) =
  read fuel (in_peer d ps (with_peer_flags (set_flag WGPEER_REPLACE_ALLOWEDIPS)
    (with_allowedips (map reload_allowedip l) p))) rest.
Proof.
  intros Hwf Hcan Hne Hp.
  destruct (allowedips_text_entries l Hwf Hcan) as (es & -> & Hlen & Hm & Hw & Hn).
  assert (Hes : es <> []) by (intros ->; by destruct l).
  rewrite app_assoc.
  rewrite (read_peer_line fuel d ps p (with_peer_flags (set_flag WGPEER_REPLACE_ALLOWEDIPS)
    (with_allowedips (map reload_allowedip l) p)) (str "AllowedIPs") (str "=" ++ join (str ",") es)).
  - done.
  - reflexivity.
  - apply Forall_app_2; [by repeat constructor|].
    apply NumericWorld.join_forall; [by repeat constructor|].
    eapply Forall_impl; [exact Hw|]. intros e [He _]. by apply (Forall_chars _ _ _ word_line).
  - rewrite clean_line_no_comment.
    + rewrite !List.filter_app, clean_join by done.
      cbn [str list_ascii_of_string List.filter nl]. rewrite !char_is_space_char.
      cbn [app]. change (space_spec (uchar NL)) with true. cbn [negb]. by rewrite app_nil_r.
    + rewrite !in_app_iff. intros [[H|H]|H].
      * repeat (destruct H as [H|H]; [discriminate H|]). done.
      * revert H. assert (Hlc : Forall line_char (join (str ", ") es)).
        { apply NumericWorld.join_forall; [by repeat constructor|].
          eapply Forall_impl; [exact Hw|]. intros e [He _]. by apply (Forall_chars _ _ _ word_line). }
        by apply (line_char_not_in _ _ Hlc).
      * destruct H as [H|[]]. discriminate H.
  - discriminate.
  - unfold peer_line. rewrite !get_value_other by reflexivity.
    assert (Hj : join (str ",") es <> []).
    { destruct es as [|e es']; [done|]. apply NumericWorld.join_nonnil.
      by inversion Hn. }
    rewrite get_value_assign by done. f_equal.
    destruct (parse_allowedips p _ (join (str ",") es)) as [[ok p'] la] eqn:E.
    apply parse_allowedips_ok in E.
    destruct (Z.eqb_spec (strlen (join (str ",") es)) 0) as [Hz|_].
    { unfold strlen in Hz. destruct (join (str ",") es); simpl in Hz; [done|lia]. }
    change (str ",") with [","%char] in E. rewrite tokens_join, Hm in E; [|done|].
    2: { eapply Forall_impl; [exact Hw|]. by intros e [_ ?]. }
    destruct E as (-> & -> & ->). rewrite Hp. cbn [app].
    assert (Hx : existsb fst (map (fun a => (false, reload_allowedip a)) l) = false)
      by (clear; induction l; done).
    unfold flags_after. rewrite Hx, map_map. done.
Qed.

(** *** Endpoints *)

Lemma split_endpoint_print (b : bool) h sv :
  Forall host_char h -> h <> [] ->
  sv <> [] -> Forall is_digit_char sv ->
  split_endpoint (if b then str "[" ++ h ++ str "]:" ++ sv else h ++ str ":" ++ sv) = Some (h, sv).
Proof.
  intros Hh Hne Hs Hd.
  assert (Hnb : forall c, host_char c = false -> ~ In c h).
  { intros c Hc Hin. rewrite Forall_forall in Hh.
    apply list_elem_of_In, Hh, Is_true_true in Hin. congruence. }
  assert (Hsv : Ascii.eqb (cget sv 0) NUL = false).
  { destruct sv as [|c sv]; [done|]. inversion_clear Hd as [|? ? Hc _].
    apply Is_true_true in Hc. unfold cget. simpl. apply Ascii.eqb_neq. by intros ->. }
  unfold split_endpoint. destruct b.
  - change (str "[" ++ h ++ str "]:" ++ sv) with ("["%char :: h ++ "]"%char :: ":"%char :: sv).
    unfold cget at 1. cbn [nth]. rewrite Ascii.eqb_refl. cbn [skipn]. rewrite drop_0.
    rewrite strsep_app by (by apply Hnb). unfold cget in *. cbn [nth].
    rewrite Ascii.eqb_refl. cbn [negb orb skipn]. by rewrite Hsv, drop_0.
  - change (h ++ str ":" ++ sv) with (h ++ ":"%char :: sv).
    replace (Ascii.eqb (cget (h ++ ":"%char :: sv) 0) "[") with false.
    2: { symmetry. apply Ascii.eqb_neq. destruct h as [|c h]; [done|]. unfold cget. simpl.
         intros ->. destruct (Hnb "["%char); [done|]. by left. }
    rewrite split_last_app; [by rewrite Hsv|]. intros Hin. rewrite Forall_forall in Hd.
    apply list_elem_of_In, Hd, Is_true_true in Hin. done.
Qed.

Lemma endpoint_text_word sa e : canonical_sockaddr sa -> endpoint_text sa = Some e ->
  Forall word_char e /\ e <> [] /\
  exists h sv, split_endpoint e = Some (h, sv) /\ forall n, getaddrinfo n (Some h) sv =
     GaiOk {| ai_family := sa_family sa; ai_addrlen := sockaddr_len (sa_family sa); ai_addr := sa |}.
Proof.
  intros Hc. unfold endpoint_text. destruct (endpoint_known sa); [|done].
  destruct (getnameinfo sa) as [[h sv]|] eqn:E; [|done].
  destruct (nameinfo_addrinfo sa h sv Hc E) as (Hg & Hh & Hn & _ & Hs & Hd).
  set (b := (sa_family sa =? AF_INET6) && bool_decide (is_Some (strchr h ":"))).
  intros [= <-]. pose proof (split_endpoint_print b h sv Hh Hn Hs Hd) as Hsp.
  apply (Forall_chars _ _ _ host_char_word) in Hh. apply (Forall_chars _ _ _ is_digit_char_word) in Hd.
  split_and!; [| |by eauto].
  - assert (Hq : Forall word_char (str "[") /\ Forall word_char (str "]:") /\ Forall word_char (str ":"))
      by (split_and!; by repeat constructor).
    destruct Hq as (? & ? & ?). destruct b; auto using Forall_app_2.
  - destruct b; [done|]. by destruct h.
Qed.

(** The resolver answers at once for a numeric name, so one unit of fuel is
    enough and the number of retries does not matter. *)
Lemma parse_endpoint_print fuel r old sa e :
  parse_dns_retries = Ret r -> (0 < fuel)%nat ->
  endpoint_known sa = true -> canonical_sockaddr sa -> endpoint_text sa = Some e ->
  parse_endpoint fuel old e = Ret (true, sa).
Proof.
  intros Hr Hf Hk Hc He. destruct (endpoint_text_word sa e Hc He) as (_ & Hn & h & sv & Hs & Hg).
  unfold parse_endpoint. rewrite Hr, Hs. simpl.
  destruct (Z.eqb_spec (strlen e) 0) as [H|_].
  { unfold strlen in H. by destruct e. }
  destruct fuel as [|fuel]; [lia|]. simpl. rewrite Hg. simpl.
  unfold endpoint_known in Hk. unfold sockaddr_len.
  destruct (Z.eqb_spec (sa_family sa) AF_INET); [done|].
  destruct (Z.eqb_spec (sa_family sa) AF_INET6); done.
Qed.

Lemma parse_keepalive_print n flags k : 0 <= k < 2 ^ 16 ->
  parse_persistent_keepalive n flags (print_u k)
  = (true, k, set_flag WGPEER_HAS_PERSISTENT_KEEPALIVE_INTERVAL flags).
Proof.
  intros Hk. destruct (print_words k) as (_ & _ & Hnn & _); [lia|].
  destruct (print_u_spec k) as (Hne & Hd & Hv); [lia|].
  rewrite parse_keepalive_ok by done. unfold keepalive_value, decimal_upto. rewrite Hv.
  replace (k <=? 65535) with true by lia.
  replace (strcase_eq (print_u k) (str "off")) with false; [done|].
  symmetry. destruct (print_u k) as [|c s]; [done|]. change (c :: s) with ([c] ++ s).
  apply strcase_eq_other. inversion_clear Hd as [|? ? Hc _]. apply base_digit_10 in Hc.
  unfold diverge, str. cbn [list_ascii_of_string].
  assert (H : (negb (is_digit_char c) || negb (Ascii.eqb (tolower c) (tolower "o"))) = true).
  { clear. revert c. apply char_forall. vm_compute. reflexivity. }
  rewrite Hc in H. simpl in H. by destruct (Ascii.eqb (tolower c) (tolower "o")).
Qed.

(** *** One peer *)

Lemma read_public_key fuel d ps k rest : wf_key k ->
  read fuel (in_peer d ps new_peer) (str "PublicKey = " ++ key_to_base64 k ++ nl ++ rest) =
  read fuel (in_peer d ps
    (with_peer_flags (set_flag WGPEER_HAS_PUBLIC_KEY) (with_public_key k new_peer))) rest.
Proof.
  intros Hk. destruct (key_to_base64_word _ Hk) as [Hw Hn].
  change (str "PublicKey = ") with (str "PublicKey" ++ str " = "). rewrite <- !app_assoc.
  rewrite (read_peer_assign fuel d ps new_peer
    (with_peer_flags (set_flag WGPEER_HAS_PUBLIC_KEY) (with_public_key k new_peer)));
    [reflexivity|reflexivity|by repeat constructor|assumption|discriminate|].
  unfold peer_line. rewrite get_value_other by reflexivity.
  rewrite get_value_assign by done. by rewrite parse_key_print.
Qed.

Lemma read_preshared_key fuel d ps p k rest :
  wf_key k -> length (peer_preshared_key p) = WG_KEY_LEN ->
  read fuel (in_peer d ps p) (str "PresharedKey = " ++ key_to_base64 k ++ nl ++ rest) =
  read fuel (in_peer d ps
    (with_peer_flags (set_flag WGPEER_HAS_PRESHARED_KEY) (with_preshared_key k p))) rest.
Proof.
  intros Hk Hl. destruct (key_to_base64_word _ Hk) as [Hw Hn].
  change (str "PresharedKey = ") with (str "PresharedKey" ++ str " = "). rewrite <- !app_assoc.
  rewrite (read_peer_assign fuel d ps p
    (with_peer_flags (set_flag WGPEER_HAS_PRESHARED_KEY) (with_preshared_key k p)));
    [reflexivity|reflexivity|by repeat constructor|assumption|discriminate|].
  unfold peer_line. rewrite !get_value_other by reflexivity.
  rewrite get_value_assign by done. by rewrite parse_key_print.
Qed.

Lemma read_endpoint fuel r d ps p sa e rest :
  parse_dns_retries = Ret r -> (0 < fuel)%nat ->
  endpoint_known sa = true -> canonical_sockaddr sa -> endpoint_text sa = Some e ->
  read fuel (in_peer d ps p) (str "Endpoint = " ++ e ++ nl ++ rest) =
  read fuel (in_peer d ps (with_endpoint sa p)) rest.
Proof.
  intros Hr Hf Hk Hc He. destruct (endpoint_text_word sa e Hc He) as (Hw & Hn & _).
  change (str "Endpoint = ") with (str "Endpoint" ++ str " = "). rewrite <- !app_assoc.
  rewrite (read_peer_assign fuel d ps p (with_endpoint sa p));
    [reflexivity|reflexivity|by repeat constructor|assumption|discriminate|].
  unfold peer_line. rewrite get_value_assign by done.
  by rewrite (parse_endpoint_print fuel r _ sa e).
Qed.

Lemma read_keepalive fuel d ps p k rest : 0 <= k < 2 ^ 16 ->
  read fuel (in_peer d ps p) (str "PersistentKeepalive = " ++ print_u k ++ nl ++ rest) =
  read fuel (in_peer d ps (with_peer_flags (set_flag WGPEER_HAS_PERSISTENT_KEEPALIVE_INTERVAL)
    (with_keepalive k p))) rest.
Proof.
  intros Hk. destruct (print_words k) as (Hw & _); [lia|].
  destruct (print_u_spec k) as (Hn & _); [lia|].
  change (str "PersistentKeepalive = ") with (str "PersistentKeepalive" ++ str " = ").
  rewrite <- !app_assoc.
  rewrite (read_peer_assign fuel d ps p
    (with_peer_flags (set_flag WGPEER_HAS_PERSISTENT_KEEPALIVE_INTERVAL) (with_keepalive k p)));
    [reflexivity|reflexivity|by repeat constructor|assumption|discriminate|].
  unfold peer_line. rewrite !get_value_other by reflexivity.
  rewrite get_value_assign by done. by rewrite parse_keepalive_print.
Qed.

Lemma endpoint_text_known sa e : endpoint_text sa = Some e -> endpoint_known sa = true.
Proof. unfold endpoint_text. by destruct (endpoint_known sa). Qed.

Lemma if_app {A} (b : bool) (x y : list A) : (if b then x else []) ++ y = if b then x ++ y else y.
Proof. by destruct b. Qed.

(** A peer section, whatever the reader's state: it is read as the printed
    peer. *)
Lemma read_peer fuel r ctx d ps p next rest :
  parse_dns_retries = Ret r -> (0 < fuel)%nat -> wf_peer p -> canonical_peer p ->
  ctx_device ctx = with_peers ps d -> ctx_last_peer ctx = last_ptr ps ->
  read fuel ctx (peer_text p next ++ rest) = read fuel (in_peer d ps (reload_peer p)) rest.
Proof.
  intros Hr Hf (Hfl & Hpk & Hpsk & Hka & Hal) (Hcal & Hce) Hd Hl.
  unfold peer_text. rewrite <- !app_assoc, (read_peer_header fuel ctx d ps), read_public_key by done.
  set (p1 := with_peer_flags _ (with_public_key _ _)).
  set (psk := has_flag (peer_flags p) WGPEER_HAS_PRESHARED_KEY).
  set (p2 := if psk then with_peer_flags (set_flag WGPEER_HAS_PRESHARED_KEY)
                (with_preshared_key (peer_preshared_key p) p1) else p1).
  set (p3 := with_allowedips (map reload_allowedip (peer_allowedips p)) p2).
  set (p4 := match endpoint_text (peer_endpoint p) with
             | Some _ => with_endpoint (peer_endpoint p) p3 | None => p3 end).
  set (t3 := match endpoint_text (peer_endpoint p) with Some _ => _ | None => _ end ++ _).
  transitivity (read fuel (in_peer d ps p2)
    ((if negb (bool_decide (peer_allowedips p = [])) then str "AllowedIPs = " else [])
     ++ allowedips_text (peer_allowedips p)
     ++ (if negb (bool_decide (peer_allowedips p = [])) then nl else []) ++ t3)).
  { subst p2. destruct psk; [|done]. rewrite <- !app_assoc. by rewrite read_preshared_key. }
  transitivity (read fuel (in_peer d ps p3) t3).
  { destruct (bool_decide (peer_allowedips p = [])) eqn:Eal; cbn [negb].
    - apply bool_decide_eq_true in Eal. subst p3. rewrite Eal. cbn [map allowedips_text app].
      do 2 f_equal. subst p2 p1. by destruct psk.
    - apply bool_decide_eq_false in Eal.
      rewrite (read_allowedips fuel d ps p2) by (try done; subst p2; by destruct psk).
      do 2 f_equal. subst p3 p2 p1. by destruct psk. }
  set (t4 := (if negb (peer_persistent_keepalive_interval p =? 0) then _ else _) ++ _) in t3.
  transitivity (read fuel (in_peer d ps p4) t4).
  { subst t3 p4. destruct (endpoint_text (peer_endpoint p)) as [e|] eqn:Ee; [|done].
    rewrite <- !app_assoc. pose proof (endpoint_text_known _ _ Ee).
    by rewrite (read_endpoint fuel r) with (sa := peer_endpoint p) by auto. }
  transitivity (read fuel (in_peer d ps (reload_peer p))
    (match next with [] => [] | _ => nl end ++ rest)).
  2: { destruct next; [done|apply read_blank]. }
  subst t4. destruct (Z.eqb_spec (peer_persistent_keepalive_interval p) 0) as [Ek|Ek]; cbn [negb].
  - do 2 f_equal. subst p4 p3 p2 p1. unfold reload_peer. fold psk. rewrite Ek.
    by destruct (endpoint_text (peer_endpoint p)), psk.
  - rewrite <- !app_assoc. rewrite read_keepalive by lia. do 2 f_equal.
    subst p4 p3 p2 p1. unfold reload_peer. fold psk.
    destruct (Z.eqb_spec (peer_persistent_keepalive_interval p) 0); [done|].
    by destruct (endpoint_text (peer_endpoint p)), psk.
Qed.

(** All the peers. *)
Lemma read_peers fuel r d : forall l ctx ps,
  parse_dns_retries = Ret r -> (0 < fuel)%nat -> Forall wf_peer l -> Forall canonical_peer l ->
  ctx_device ctx = with_peers ps d -> ctx_last_peer ctx = last_ptr ps ->
  exists ctx', read fuel ctx (peers_text l) = Ret (Some ctx') /\
    ctx_device ctx' = with_peers (ps ++ map reload_peer l) d.
Proof.
  induction l as [|p l IH]; intros ctx ps Hr Hf Hwf Hcan Hd Hl.
  { exists ctx. split; [done|]. simpl. by rewrite app_nil_r. }
  inversion_clear Hwf as [|? ? Hp Hwf']. inversion_clear Hcan as [|? ? Hc Hcan'].
  cbn [peers_text]. rewrite (read_peer fuel r ctx d ps) by done.
  destruct (IH (in_peer d ps (reload_peer p)) (ps ++ [reload_peer p])) as (ctx' & E & Hd');
    [done|done|done|done|done| |].
  { unfold in_peer. cbn [ctx_last_peer]. rewrite last_ptr_app. f_equal.
    unfold linked_pos, last_ptr. by destruct (length ps). }
  exists ctx'. split; [done|]. rewrite Hd', <- app_assoc. done.
Qed.

Lemma reload_has_public_key d :
  forallb (fun p => has_flag (peer_flags p) WGPEER_HAS_PUBLIC_KEY) (map reload_peer (dev_peers d)) = true.
Proof.
  apply forallb_forall. intros q (p & <- & _)%in_map_iff. unfold reload_peer. cbn [peer_flags].
  by destruct (has_flag (peer_flags p) WGPEER_HAS_PRESHARED_KEY),
    (negb (peer_persistent_keepalive_interval p =? 0)).
Qed.

(** Round trip: reading the text [wg showconf] prints with [wg setconf] succeeds,
    and gives the configuration of the printed device: keys, port, mark, peers in
    order with their keys, allowed IPs, endpoints and keep-alive intervals.
    (C1) *)
Theorem showconf_setconf_roundtrip fuel r d :
  wf_device d -> canonical_device d -> parse_dns_retries = Ret r -> (0 < fuel)%nat ->
  config_read_file fuel false (config_lines (showconf d)) = Ret (Some (reload d)).
Proof.
  intros Hwf Hcan Hr Hf. unfold config_read_file.
  change (config_read_lines fuel (config_read_init false) (config_lines (showconf d)))
    with (read fuel (config_read_init false) (showconf d)).
  unfold showconf. rewrite read_interface_section by done.
  destruct Hwf as (_ & _ & _ & _ & _ & Hps).
  destruct (read_peers fuel r (reload_interface d) (dev_peers d) (in_device (reload_interface d)) [])
    as (ctx' & E & Hd'); [done..|].
  rewrite E. simpl. unfold config_read_finish. rewrite Hd'. cbn [app with_peers dev_peers].
  by rewrite reload_has_public_key.
Qed.

End Read.

Lemma showconf_setconf_roundtrip_witness :
  config_read_file (P := arm64) (W := NumericWorld.numeric_world) 1 false
    (config_lines (showconf (W := NumericWorld.numeric_world) sample_device))
  = Ret (Some (reload (W := NumericWorld.numeric_world) sample_device)).
Proof.
  apply (showconf_setconf_roundtrip (P := arm64) (NN := NumericWorld.numeric_names) 1 15 sample_device).
  - exact sample_device_wf.
  - exact sample_device_canonical.
  - reflexivity.
  - lia.
Defined.

End ShowconfFacts.
