(* ===== verification/IpcUapi.v ===== *)
(** * The userspace configuration protocol (src/ipc-uapi.h, src/ipc-uapi-unix.h)

    The request [userspace_set_device] writes, its reading of the reply, the
    parser of [userspace_get_device], and the sockets they talk to: a directory
    of socket files and a server behind each, whose replies are a parameter. *)
From S2P Require Import Prelude Ctype Libc Encoding Containers Config Showconf.
Import Ctype Libc Encoding Config Showconf.

Definition ENOENT : Z := 2.
Definition EBADF : Z := 9.
Definition EINVAL : Z := 22.
Definition EPROTO : Z := 71.
Definition ENETUNREACH : Z := 101.
Definition ECONNREFUSED : Z := 111.

Module IpcUapi.

(** ** Sockets *)

Definition SOCK_SUFFIX : cstring := str ".sock".

(** What [connect] finds at a path of the socket directory: whether it is a
    socket, and the errno of connecting to it (0 on success). *)
Record sockent := { se_is_sock : bool; se_connect : Z }.

(** The system: the socket directory ([None] when it cannot be opened, with the
    errno), what [socket] returns, and the state of the servers. *)
Record usys (Srv : Type) := {
  us_dir : list (cstring * sockent) + Z;
  us_socket_errno : Z;
  us_srv : Srv
}.
Arguments us_dir {Srv} u.
Arguments us_socket_errno {Srv} u.
Arguments us_srv {Srv} u.

Definition dir_entries {Srv} (sys : usys Srv) : list (cstring * sockent) :=
  match us_dir sys with inl l => l | inr _ => [] end.

Fixpoint find_entry (l : list (cstring * sockent)) (name : cstring) : option sockent :=
  match l with
  | [] => None
  | (n, e) :: l => if str_eq n name then Some e else find_entry l name
  end.

Definition unlink {Srv} (sys : usys Srv) (name : cstring) : usys Srv :=
  {| us_dir := match us_dir sys with
               | inl l => inl (List.filter (fun e => negb (str_eq e.1 name)) l)
               | inr e => inr e
               end;
     us_socket_errno := us_socket_errno sys; us_srv := us_srv sys |}.

Definition with_srv {Srv} (s : Srv) (sys : usys Srv) : usys Srv :=
  {| us_dir := us_dir sys; us_socket_errno := us_socket_errno sys; us_srv := s |}.

(** The file name [snprintf] forms within the size of [sun_path]: [name_max] is
    what the directory prefix leaves of it. *)
Definition socket_name (name_max : nat) (iface : cstring) : cstring :=
  take name_max (iface ++ SOCK_SUFFIX).

Section Uapi.
Context `{P : Platform} `{W : World}.
Context (curve25519_generate_public : list Z -> list Z).
Context (name_max : nat).
Context {Srv : Type}.
(** One conversation: the reply to a request, the errno of the read that ends
    it, and the state of the server afterwards. *)
Context (serve : Srv -> cstring -> list ascii -> list ascii * Z * Srv).

(** [userspace_interface_file]: 0 and an open connection, or an errno. *)
Definition userspace_interface_file (sys : usys Srv) (iface : cstring) : Z * usys Srv :=
  if bool_decide (is_Some (strchr iface "/")) then (EINVAL, sys)
  else
    let path := socket_name name_max iface in
    match find_entry (dir_entries sys) path with
    | None => (ENOENT, sys)
    | Some e =>
        if negb (se_is_sock e) then (EBADF, sys)
        else if negb (us_socket_errno sys =? 0) then (us_socket_errno sys, sys)
        else if negb (se_connect e =? 0) then
          (se_connect e, if se_connect e =? ECONNREFUSED then unlink sys path else sys)
        else (0, sys)
    end.

Definition userspace_has_wireguard_interface (sys : usys Srv) (iface : cstring) : bool * usys Srv :=
  if bool_decide (is_Some (strchr iface "/")) then (false, sys)
  else
    let path := socket_name name_max iface in
    match find_entry (dir_entries sys) path with
    | None => (false, sys)
    | Some e =>
        if negb (se_is_sock e) then (false, sys)
        else if negb (us_socket_errno sys =? 0) then (false, sys)
        else if se_connect e =? ECONNREFUSED then (false, unlink sys path)
        else (true, sys)
    end.

(** The loop of [userspace_get_wireguard_interfaces] over the directory: the
    names passed to [string_list_add], in order. *)
Fixpoint interfaces_loop (sys : usys Srv) (names : list cstring) : list cstring * usys Srv :=
  match names with
  | [] => ([], sys)
  | d_name :: names =>
      if (length d_name <=? length SOCK_SUFFIX)%nat then interfaces_loop sys names
      else
        let cut := (length d_name - length SOCK_SUFFIX)%nat in
        if negb (str_eq (drop cut d_name) SOCK_SUFFIX) then interfaces_loop sys names
        else
          let '(has, sys) := userspace_has_wireguard_interface sys (take cut d_name) in
          let '(rest, sys) := interfaces_loop sys names in
          (if has then take cut d_name :: rest else rest, sys)
  end.

Definition userspace_get_wireguard_interfaces (sys : usys Srv) : Z * list cstring * usys Srv :=
  match us_dir sys with
  | inr e => (if e =? ENOENT then 0 else - e, [], sys)
  | inl l => let '(names, sys) := interfaces_loop sys (map fst l) in (0, names, sys)
  end.

(** ** Setting a device *)

Definition kv (key : string) (value : cstring) : cstring := str key ++ str "=" ++ value ++ nl.

(** One line per allowed IP; an address that cannot be printed is skipped. *)
Definition uapi_allowedip (a : wgallowedip) : cstring :=
  match allowedip_addr a with
  | None => []
  | Some ip => kv "allowed_ip" ((if has_flag (aip_flags a) WGALLOWEDIP_REMOVE_ME then str "-" else [])
                                ++ ip ++ str "/" ++ print_u (aip_cidr a))
  end.

Definition uapi_peer (p : wgpeer) : cstring :=
  kv "public_key" (key_to_hex (peer_public_key p))
  ++ (if has_flag (peer_flags p) WGPEER_REMOVE_ME then kv "remove" (str "true")
      else
        (if has_flag (peer_flags p) WGPEER_HAS_PRESHARED_KEY
         then kv "preshared_key" (key_to_hex (peer_preshared_key p)) else [])
        ++ match endpoint_text (peer_endpoint p) with
           | Some e => kv "endpoint" e
           | None => []
           end
        ++ (if has_flag (peer_flags p) WGPEER_HAS_PERSISTENT_KEEPALIVE_INTERVAL
            then kv "persistent_keepalive_interval" (print_u (peer_persistent_keepalive_interval p))
            else [])
        ++ (if has_flag (peer_flags p) WGPEER_REPLACE_ALLOWEDIPS
            then kv "replace_allowed_ips" (str "true") else [])
        ++ concat (map uapi_allowedip (peer_allowedips p))).

(** The lines between [set=1] and the empty line. *)
Definition uapi_body (d : wgdevice) : cstring :=
  (if has_flag (dev_flags d) WGDEVICE_HAS_PRIVATE_KEY
   then kv "private_key" (key_to_hex (dev_private_key d)) else [])
  ++ (if has_flag (dev_flags d) WGDEVICE_HAS_LISTEN_PORT
      then kv "listen_port" (print_u (dev_listen_port d)) else [])
  ++ (if has_flag (dev_flags d) WGDEVICE_HAS_FWMARK
      then kv "fwmark" (print_u (dev_fwmark d)) else [])
  ++ (if has_flag (dev_flags d) WGDEVICE_REPLACE_PEERS
      then kv "replace_peers" (str "true") else [])
  ++ concat (map uapi_peer (dev_peers d)).

Definition set_request (d : wgdevice) : cstring := kv "set" (str "1") ++ uapi_body d ++ nl.

(** What a line of a reply is to either function: the end of the reply, a line
    they stop at, or a key and its value. *)
Inductive reply_line := LineEnd | LineBad | LineKv (key value : cstring).

Definition read_reply_line (raw : list ascii) : reply_line :=
  let key := cut_nul raw in
  if str_eq key nl then LineEnd
  else match strsep key "=" with
       | (_, None) => LineBad
       | (k, Some value) =>
           if (length key =? 0)%nat || negb (Ascii.eqb (cget key (length key - 1)) NL) then LineBad
           else LineKv k (take (length value - 1) value)
       end.

(** The loop over the reply to a [set]: the value returned. *)
Fixpoint set_reply (errno : Z) (set_errno : Z) (lines : list (list ascii)) : Z :=
  let failed := if negb (errno =? 0) then - errno else - EPROTO in
  match lines with
  | [] => failed
  | raw :: lines =>
      match read_reply_line raw with
      | LineEnd => set_errno
      | LineBad => failed
      | LineKv key value =>
          if str_eq key (str "errno") then
            if negb (Ascii.eqb (cget value 0) "-") && negb (char_is_digit (char_int (cget value 0)))
            then failed
            else
              let '(num, rest) := strtoll value 10 in
              if negb (Ascii.eqb (cget rest 0) NUL) || (INT_MAX <? num) || (num <? INT_MIN)
              then failed
              else set_reply errno num lines
          else set_reply errno set_errno lines
      end
  end.

Definition userspace_set_device (sys : usys Srv) (d : wgdevice) : Z * usys Srv :=
  let '(err, sys) := userspace_interface_file sys (dev_name d) in
  if negb (err =? 0) then (- err, sys)
  else
    let '(reply, errno, srv) := serve (us_srv sys) (dev_name d) (set_request d) in
    (set_reply errno (- EPROTO) (getlines reply), with_srv srv sys).

(** ** Getting a device *)

(** [NUM(max)]: [None] is the [break] inside the macro. *)
Definition NUM (max : Z) (value : cstring) : option Z :=
  if negb (char_is_digit (char_int (cget value 0))) then None
  else
    let '(num, rest) := strtoull value 10 in
    if negb (Ascii.eqb (cget rest 0) NUL) || (max <? num) then None else Some num.

Record get_state := {
  g_dev : wgdevice;
  g_peer : option nat;
  g_allowedip : option nat;
  g_ret : Z
}.

(** One line: the loop goes on, breaks, or jumps to [err] with [ret]. *)
Inductive get_step := Next (st : get_state) | Break | Goto_err (ret : Z).

Definition next_dev (st : get_state) (d : wgdevice) : get_step :=
  Next {| g_dev := d; g_peer := g_peer st; g_allowedip := g_allowedip st; g_ret := g_ret st |}.

Definition num_step (max : Z) (value : cstring) (f : Z -> get_step) : get_step :=
  match NUM max value with None => Break | Some n => f n end.

(** The address of an [allowed_ip] line, written into a fresh node; the prefix
    length is stored in its 8-bit field before it is checked. *)
Definition get_allowedip (value : cstring) : option wgallowedip :=
  match strsep value "/" with
  | (_, None) => None
  | (ip, Some mask) =>
      if negb (char_is_digit (char_int (cget mask 0))) then None
      else
        let family := if bool_decide (is_Some (strchr ip ":")) then AF_INET6 else AF_INET in
        let '(num, rest) := strtoul mask 10 in
        let cidr := u8 num in
        match inet_pton family ip with
        | None => None
        | Some addr =>
            if negb (Ascii.eqb (cget rest 0) NUL) || ((family =? AF_INET6) && (128 <? cidr))
               || ((family =? AF_INET) && (32 <? cidr))
            then None
            else Some {| aip_family := family; aip_ip := store_ip (replicate 16 0) addr;
                         aip_cidr := cidr; aip_flags := 0 |}
        end
  end.

(** The lines that concern the peer at position [i]. *)
Definition get_peer_line (st : get_state) (i : nat) (p : wgpeer) (key value : cstring) : get_step :=
  let d := g_dev st in
  let next p := next_dev st (store_peer i p d) in
  let key_is s := str_eq key (str s) in
  if key_is "preshared_key" then
    let '(ok, k) := key_from_hex (peer_preshared_key p) value in
    if negb ok then Break
    else
      let p := with_preshared_key k p in
      next (if negb (key_is_zero k) then with_peer_flags (set_flag WGPEER_HAS_PRESHARED_KEY) p else p)
  else if key_is "endpoint" then
    if strlen value =? 0 then Break
    else match split_endpoint value with
         | None => Break
         | Some (host, port) =>
             match getaddrinfo 0 (Some host) port with
             | GaiErr _ => Goto_err ENETUNREACH
             | GaiOk resolved =>
                 if ((ai_family resolved =? AF_INET) && (ai_addrlen resolved =? sizeof_sockaddr_in))
                    || ((ai_family resolved =? AF_INET6) && (ai_addrlen resolved =? sizeof_sockaddr_in6))
                 then next (with_endpoint (ai_addr resolved) p)
                 else Break
             end
         end
  else if key_is "persistent_keepalive_interval" then
    num_step 65535 value (fun n =>
      next (with_peer_flags (set_flag WGPEER_HAS_PERSISTENT_KEEPALIVE_INTERVAL) (with_keepalive n p)))
  else if key_is "allowed_ip" then
    match get_allowedip value with
    | None => Break
    | Some a =>
        Next {| g_dev := store_peer i
                  (with_allowedips (link_next (g_allowedip st) (peer_allowedips p) a) p) d;
                g_peer := g_peer st; g_allowedip := Some (linked_pos (g_allowedip st));
                g_ret := g_ret st |}
    end
  else if key_is "last_handshake_time_sec" then
    num_step (2 ^ 63 - 1) value (fun n =>
      next (with_handshake {| tv_sec := n; tv_nsec := tv_nsec (peer_last_handshake_time p) |} p))
  else if key_is "last_handshake_time_nsec" then
    num_step (2 ^ 63 - 1) value (fun n =>
      next (with_handshake {| tv_sec := tv_sec (peer_last_handshake_time p); tv_nsec := n |} p))
  else if key_is "rx_bytes" then
    num_step (2 ^ 64 - 1) value (fun n => next (with_transfer n (peer_tx_bytes p) p))
  else if key_is "tx_bytes" then
    num_step (2 ^ 64 - 1) value (fun n => next (with_transfer (peer_rx_bytes p) n p))
  else if key_is "errno" then
    num_step INT_MAX value (fun n =>
      Next {| g_dev := d; g_peer := g_peer st; g_allowedip := g_allowedip st; g_ret := - n |})
  else Next st.

Definition get_line (st : get_state) (key value : cstring) : outcome get_step :=
  let d := g_dev st in
  let key_is s := str_eq key (str s) in
  let no_peer := negb (bool_decide (is_Some (g_peer st))) in
  if no_peer && key_is "private_key" then
    let '(ok, k) := key_from_hex (dev_private_key d) value in
    Ret (if negb ok then Break
         else next_dev st
           (with_dev_flags (set_flag (Z.lor WGDEVICE_HAS_PRIVATE_KEY WGDEVICE_HAS_PUBLIC_KEY))
             (with_dev_public_key (curve25519_generate_public k) (with_private_key k d))))
  else if no_peer && key_is "listen_port" then
    Ret (num_step 65535 value (fun n =>
      next_dev st (with_dev_flags (set_flag WGDEVICE_HAS_LISTEN_PORT) (with_listen_port n d))))
  else if no_peer && key_is "fwmark" then
    Ret (num_step UINT32_MAX value (fun n =>
      next_dev st (with_dev_flags (set_flag WGDEVICE_HAS_FWMARK) (with_fwmark n d))))
  else if key_is "public_key" then
    let '(ok, k) := key_from_hex (peer_public_key zero_peer) value in
    Ret (if negb ok then Break
         else Next {| g_dev := with_peers (link_next (g_peer st) (dev_peers d)
                        (with_peer_flags (set_flag WGPEER_HAS_PUBLIC_KEY)
                          (with_public_key k zero_peer))) d;
                      g_peer := Some (linked_pos (g_peer st)); g_allowedip := None;
                      g_ret := g_ret st |})
  else match g_peer st with
       | Some i =>
           match dev_peers d !! i with
           | Some p => Ret (get_peer_line st i p key value)
           | None => NullDeref
           end
       | None =>
           Ret (if key_is "errno" then
                  num_step INT_MAX value (fun n =>
                    Next {| g_dev := d; g_peer := g_peer st; g_allowedip := g_allowedip st;
                            g_ret := - n |})
                else Next st)
       end.

(** The loop over the reply: [ret] and the device at the label [err]. *)
Fixpoint get_reply (st : get_state) (lines : list (list ascii)) : outcome (Z * wgdevice) :=
  match lines with
  | [] => Ret (- EPROTO, g_dev st)
  | raw :: lines =>
      match read_reply_line raw with
      | LineEnd => Ret (g_ret st, g_dev st)
      | LineBad => Ret (- EPROTO, g_dev st)
      | LineKv key value =>
          s ← get_line st key value;
          match s with
          | Next st => get_reply st lines
          | Break => Ret (- EPROTO, g_dev st)
          | Goto_err ret => Ret (ret, g_dev st)
          end
      end
  end.

Definition get_request : cstring := kv "get" (str "1") ++ nl.

Definition get_init (iface : cstring) : get_state :=
  {| g_dev := with_dev_name (take (IFNAMSIZ - 1) iface) zero_device;
     g_peer := None; g_allowedip := None; g_ret := - EPROTO |}.

(** The reply as a whole: the returned value and [*out]. *)
Definition parse_get_reply (iface : cstring) (reply : list ascii) : outcome (Z * option wgdevice) :=
  '(ret, d) ← get_reply (get_init iface) (getlines reply);
  Ret (ret, if negb (ret =? 0) then None else Some d).

Definition userspace_get_device (sys : usys Srv) (iface : cstring)
  : outcome (Z * option wgdevice * usys Srv) :=
  let '(err, sys) := userspace_interface_file sys iface in
  if negb (err =? 0) then Ret (- err, None, sys)
  else
    let '(reply, _, srv) := serve (us_srv sys) iface get_request in
    '(ret, out) ← parse_get_reply iface reply;
    Ret (ret, out, with_srv srv sys).

End Uapi.
End IpcUapi.
