(* ===== verification/IpcUapiFacts.v ===== *)
(** * Correctness of the userspace protocol (src/ipc-uapi.h)

    [userspace_get_device] never follows a null pointer, hands out a device
    exactly when it returns 0, and that device is well formed; it reads back
    every configuration [userspace_set_device] writes. *)
From S2P Require Import Prelude Ctype Libc Encoding Containers Config IpcSpec.
From S2P Require Import LibcFacts ConfigFacts ConfigText Names Showconf Samples ShowconfFacts IpcUapi.
Import Ctype Libc Encoding Config LibcFacts ConfigFacts ConfigText Showconf ShowconfFacts IpcUapi.

Module IpcUapiFacts.

#[local] Opaque key_to_hex key_from_hex print_u print_x.

Section Facts.
Context `{P : Platform} `{W : World} `{WOK : !WorldOk}.
Context (curve25519_generate_public : list Z -> list Z).
Context (Hcurve : forall k, wf_key (curve25519_generate_public k)).

Abbreviation get_line := (get_line curve25519_generate_public).
Abbreviation get_reply := (get_reply curve25519_generate_public).

(** ** The parser's invariant *)

Definition get_inv (st : get_state) : Prop :=
  wf_device (g_dev st) /\
  g_peer st = last_ptr (dev_peers (g_dev st)) /\
  match last (dev_peers (g_dev st)) with
  | Some p => g_allowedip st = last_ptr (peer_allowedips p)
  | None => True
  end.

Lemma key_from_hex_wf key v k : length key = WG_KEY_LEN -> key_from_hex key v = (true, k) -> wf_key k.
Proof.
  intros Hk E. apply key_from_hex_accepts in E as [Hl Hu]; [|done].
  apply unhex_ref_wf in Hu as [Hlen Hb]. split; [unfold WG_KEY_LEN; lia|done].
Qed.

Lemma NUM_range max v n : NUM max v = Some n -> 0 <= n <= max.
Proof.
  unfold NUM. destruct (negb _); [done|]. pose proof (strtou_nonneg 64 v 10 ltac:(lia) ltac:(lia)).
  unfold strtoull. destruct (strtou 64 v 10) as [x rest]. simpl in *.
  destruct (_ || (max <? x)) eqn:E; [done|]. intros [= <-]. apply orb_false_iff in E as [_ E]. lia.
Qed.

Lemma get_allowedip_wf v a : get_allowedip v = Some a -> wf_allowedip a.
Proof.
  unfold get_allowedip. destruct (strsep v "/") as [ip [mask|]]; [|done].
  destruct (negb _); [done|]. set (fam := if bool_decide _ then AF_INET6 else AF_INET).
  assert (Hfam : fam = AF_INET \/ fam = AF_INET6) by (subst fam; case_match; auto).
  destruct (strtoul mask 10) as [num rest]. destruct (inet_pton fam ip) as [addr|] eqn:E; [|done].
  destruct (_ || _ || _) eqn:Eb; [done|]. intros [= <-].
  apply orb_false_iff in Eb as [Eb E4]. apply orb_false_iff in Eb as [_ E6].
  pose proof (u8_range num) as Hu. unfold is_byte in Hu.
  unfold wf_allowedip. cbn [aip_ip aip_family aip_cidr aip_flags]. split_and!.
  - unfold store_ip. by rewrite length_inserts.
  - apply Forall_inserts; [change (Forall is_byte (replicate 16 0)); apply Forall_replicate, byte_0|].
    destruct Hfam as [Hf|Hf]; rewrite Hf in E; [apply inet_pton_4 in E|apply inet_pton_6 in E]; tauto.
  - destruct Hfam as [Hf|Hf]; rewrite Hf in *; [left|right]; (split; [done|]);
      unfold AF_INET, AF_INET6 in *; simpl in *; lia.
  - by left.
Qed.

Lemma peer_in_place st i p p' :
  get_inv st -> g_peer st = Some i -> dev_peers (g_dev st) !! i = Some p ->
  wf_peer p' -> peer_allowedips p' = peer_allowedips p ->
  get_inv {| g_dev := store_peer i p' (g_dev st); g_peer := g_peer st;
             g_allowedip := g_allowedip st; g_ret := g_ret st |}.
Proof.
  intros ((? & ? & ? & ? & ? & Hps) & Hp & Hal) Hi Hpi Hwf Ha. unfold get_inv, store_peer. simpl.
  assert (Hl : last_ptr (dev_peers (g_dev st)) = Some i) by congruence.
  rewrite last_ptr_insert, (last_insert_last _ i) by done. split_and!; try done.
  - repeat (split; [done|]). simpl. by apply Forall_insert.
  - rewrite Ha. pose proof (last_ptr_Some _ _ Hl) as Hs.
    rewrite last_lookup, <- Hs in Hal. simpl in Hal. by rewrite Hpi in Hal.
Qed.

Lemma Next_inj a b : Next a = Next b -> a = b.
Proof. congruence. Qed.

Lemma get_peer_line_inv st i p key value st' :
  get_inv st -> g_peer st = Some i -> dev_peers (g_dev st) !! i = Some p ->
  get_peer_line st i p key value = Next st' -> get_inv st'.
Proof.
  intros Hinv Hi Hp. pose proof Hinv as ((Hd & _ & _ & _ & _ & Hps) & Hpt & Hal).
  assert (Hwf : wf_peer p) by (by eapply (Forall_lookup_1 wf_peer)).
  pose proof Hwf as (Hf & Hpk & Hpsk & Hk & Hals).
  unfold get_peer_line, num_step, next_dev.
  assert (Hstay : forall p', wf_peer p' -> peer_allowedips p' = peer_allowedips p ->
    get_inv {| g_dev := store_peer i p' (g_dev st); g_peer := g_peer st;
               g_allowedip := g_allowedip st; g_ret := g_ret st |})
    by (intros; by eapply peer_in_place).
  destruct (str_eq key (str "preshared_key")).
  { destruct (key_from_hex _ value) as [ok k] eqn:E. destruct ok; [|done]. cbn [negb].
    apply key_from_hex_wf in E; [|by apply wf_key_length].
    intros <-%Next_inj. apply Hstay; [|by destruct (negb (key_is_zero k))].
    destruct (negb (key_is_zero k)); solve_wf. }
  destruct (str_eq key (str "endpoint")).
  { repeat (case_match; try done); intros <-%Next_inj; (apply Hstay; [solve_wf|done]). }
  destruct (str_eq key (str "persistent_keepalive_interval")).
  { destruct (NUM _ value) as [n|] eqn:E; [|done]. apply NUM_range in E. intros <-%Next_inj.
    apply Hstay; [|done]. unfold wf_peer; simpl. split; [auto with wgflags|].
    do 2 (split; [done|]). split; [lia|done]. }
  destruct (str_eq key (str "allowed_ip")).
  { destruct (get_allowedip value) as [a|] eqn:E; [|done]. apply get_allowedip_wf in E.
    intros <-%Next_inj.
    assert (Hl : last_ptr (dev_peers (g_dev st)) = Some i) by congruence.
    pose proof (last_ptr_Some _ _ Hl) as Hs. rewrite last_lookup, <- Hs in Hal. simpl in Hal.
    rewrite Hp in Hal. unfold get_inv, store_peer. simpl.
    rewrite last_ptr_insert, (last_insert_last _ i), Hal, link_next_last by done. simpl.
    rewrite last_ptr_app. split_and!; try done.
    destruct Hinv as [(? & ? & ? & ? & ? & _) _]. unfold wf_device; simpl. do 5 (split; [done|]).
    apply Forall_insert; [done|]. unfold wf_peer; simpl. do 4 (split; [done|]).
    apply Forall_app_2; [done|]. by constructor. }
  destruct (str_eq key (str "last_handshake_time_sec")).
  { destruct (NUM _ value); [|done]. intros <-%Next_inj. apply Hstay; [|done]. solve_wf. }
  destruct (str_eq key (str "last_handshake_time_nsec")).
  { destruct (NUM _ value); [|done]. intros <-%Next_inj. apply Hstay; [|done]. solve_wf. }
  destruct (str_eq key (str "rx_bytes")).
  { destruct (NUM _ value); [|done]. intros <-%Next_inj. apply Hstay; [|done]. solve_wf. }
  destruct (str_eq key (str "tx_bytes")).
  { destruct (NUM _ value); [|done]. intros <-%Next_inj. apply Hstay; [|done]. solve_wf. }
  destruct (str_eq key (str "errno")); [|by intros <-%Next_inj].
  destruct (NUM _ value); [|done]. by intros <-%Next_inj.
Qed.

Lemma get_line_inv st key value : get_inv st ->
  match get_line st key value with
  | Ret (Next st') => get_inv st'
  | Ret _ => True
  | _ => False
  end.
Proof.
  intros Hinv. pose proof Hinv as ((Hf & Hpub & Hpriv & Hm & Hlp & Hps) & Hpt & Hal).
  unfold IpcUapi.get_line.
  destruct (negb _ && str_eq key (str "private_key")).
  { destruct (key_from_hex _ value) as [ok k] eqn:E. destruct ok; [|done]. cbn [negb].
    apply key_from_hex_wf in E; [|by apply wf_key_length].
    unfold next_dev, get_inv. simpl. split; [|done]. unfold wf_device; simpl.
    split; [apply set_flag_range; [vm_compute; split; [discriminate|reflexivity]|done]|].
    split; [apply Hcurve|]. by do 3 (split; [done|]). }
  destruct (negb _ && str_eq key (str "listen_port")).
  { unfold num_step. destruct (NUM _ value) as [n|] eqn:E; [|done]. apply NUM_range in E.
    unfold next_dev, get_inv. simpl. split; [|done]. unfold wf_device; simpl.
    split; [auto with wgflags|]. do 3 (split; [done|]). split; [lia|done]. }
  destruct (negb _ && str_eq key (str "fwmark")).
  { unfold num_step. destruct (NUM _ value) as [n|] eqn:E; [|done]. apply NUM_range in E.
    unfold next_dev, get_inv. simpl. split; [|done]. unfold wf_device, UINT32_MAX in *; simpl.
    split; [auto with wgflags|]. do 2 (split; [done|]). split; [lia|done]. }
  destruct (str_eq key (str "public_key")).
  { destruct (key_from_hex _ value) as [ok k] eqn:E. destruct ok; [|done]. cbn [negb].
    apply key_from_hex_wf in E; [|done].
    unfold get_inv. simpl. rewrite Hpt, link_next_last, last_snoc, last_ptr_app. split; [|done].
    unfold wf_device; simpl. do 5 (split; [done|]). apply Forall_app_2; [done|].
    constructor; [|constructor]. unfold wf_peer; simpl. split; [done|]. split; [done|].
    split; [apply zero_key_wf|]. by split. }
  destruct (g_peer st) as [i|] eqn:Ei.
  - destruct (dev_peers (g_dev st) !! i) as [p|] eqn:Ep.
    + destruct (get_peer_line st i p key value) as [st'| |] eqn:E; [|done|done].
      eapply get_peer_line_inv; [exact Hinv|exact Ei|exact Ep|exact E].
    + symmetry in Hpt. apply last_ptr_Some in Hpt. apply lookup_ge_None in Ep. lia.
  - destruct (str_eq key (str "errno")); [|done]. unfold num_step.
    destruct (NUM _ value); [|done]. unfold get_inv. simpl. done.
Qed.

Lemma get_reply_inv lines : forall st, get_inv st ->
  match get_reply st lines with
  | Ret (_, d) => wf_device d
  | _ => False
  end.
Proof.
  induction lines as [|raw lines IH]; intros st Hinv; simpl; [apply Hinv|].
  destruct (read_reply_line raw) as [| |key value]; try apply Hinv.
  pose proof (get_line_inv st key value Hinv) as Hl.
  destruct (get_line st key value) as [[st'| |ret]| | |]; simpl; try done; try apply Hinv.
  by apply IH.
Qed.

Lemma get_init_inv iface : get_inv (get_init iface).
Proof.
  unfold get_inv, get_init, wf_device; simpl. split; [|done].
  split; [lia|]. split; [apply zero_key_wf|]. split; [apply zero_key_wf|].
  split; [lia|]. split; [lia|]. constructor.
Qed.

(** Reading the reply to a [get] always returns (no null pointer is followed,
    whatever the server sends); it hands out a device exactly when it returns 0,
    and that device is well formed. (C24) *)
Theorem parse_get_reply_safe iface reply :
  exists ret out, parse_get_reply curve25519_generate_public iface reply = Ret (ret, out) /\
    (ret = 0 <-> is_Some out) /\ (forall d, out = Some d -> wf_device d).
Proof.
  unfold parse_get_reply. pose proof (get_reply_inv (getlines reply) _ (get_init_inv iface)) as H.
  destruct (get_reply (get_init iface) (getlines reply)) as [[ret d]| | |]; try done.
  simpl. do 2 eexists. split; [done|]. destruct (Z.eqb_spec ret 0); simpl.
  - split; [naive_solver|]. by intros ? [= <-].
  - split; [|done]. split; [done|]. by intros [? ?].
Qed.

(** ** Reading back what [userspace_set_device] writes *)

Context `{NN : !NumericNames}.

Definition reads (st : get_state) (text : cstring) : outcome (Z * wgdevice) :=
  get_reply st (getlines text).

Definition key_char (c : ascii) : bool := word_char c && negb (Ascii.eqb c "=").

Lemma key_char_word c : key_char c = true -> word_char c = true.
Proof. by intros [? _]%andb_true_iff. Qed.

Lemma word_not_in s d : Forall word_char s -> word_char d = false -> ~ In d s.
Proof. rewrite Forall_forall. intros Hs Hd Hin%list_elem_of_In%Hs%Is_true_true. congruence. Qed.

Lemma read_kv_line k v : Forall key_char k -> k <> [] -> Forall word_char v ->
  read_reply_line (k ++ str "=" ++ v ++ nl) = LineKv k v.
Proof.
  intros Hk Hn Hv. pose proof (Forall_chars _ _ _ key_char_word Hk) as Hkw.
  assert (Hnn : no_nul (k ++ str "=" ++ v ++ nl)).
  { unfold no_nul. rewrite !in_app_iff. intros [H|[H|[H|H]]].
    - by apply (word_not_in _ _ Hkw) in H.
    - by destruct H as [H|[]].
    - by apply (word_not_in _ _ Hv) in H.
    - by destruct H as [H|[]]. }
  unfold read_reply_line. rewrite cut_nul_id by done.
  replace (str_eq (k ++ str "=" ++ v ++ nl) nl) with false.
  2: { symmetry. apply bool_decide_eq_false. intros E%(f_equal length).
       rewrite !length_app in E. destruct k; simpl in *; [done|lia]. }
  change (str "=" ++ v ++ nl) with ("="%char :: v ++ nl).
  rewrite strsep_app.
  2: { intros Hin. rewrite Forall_forall in Hk. apply list_elem_of_In, Hk, Is_true_true in Hin. done. }
  replace (cget (k ++ "="%char :: v ++ nl) (length (k ++ "="%char :: v ++ nl) - 1)) with NL.
  2: { unfold cget. rewrite app_nth2; rewrite !length_app; simpl; rewrite !length_app; simpl; [|lia].
       replace (length k + S (length v + 1) - 1 - length k)%nat with (S (length v)) by lia.
       cbn [nth]. unfold nl. by rewrite nth_middle. }
  destruct (Nat.eqb_spec (length (k ++ "="%char :: v ++ nl)) 0) as [H|_].
  { rewrite length_app in H. simpl in H. lia. }
  rewrite Ascii.eqb_refl. simpl. f_equal. rewrite length_app. simpl.
  replace (length v + 1 - 1)%nat with (length v) by lia. by rewrite take_app_length.
Qed.

Lemma reads_kv st (key : string) v rest :
  Forall key_char (str key) -> str key <> [] -> Forall word_char v ->
  reads st (kv key v ++ rest) =
  s ← get_line st (str key) v;
  match s with
  | Next st => reads st rest
  | Break => Ret (- EPROTO, g_dev st)
  | Goto_err ret => Ret (ret, g_dev st)
  end.
Proof.
  intros Hk Hn Hv. unfold reads, kv.
  replace ((str key ++ str "=" ++ v ++ nl) ++ rest)
    with ((str key ++ str "=" ++ v) ++ NL :: rest) by (by rewrite <- !app_assoc).
  rewrite getlines_line.
  2: { rewrite !in_app_iff. intros [H|[H|H]].
       - by apply (word_not_in _ _ (Forall_chars _ _ _ key_char_word Hk)) in H.
       - by destruct H as [H|[]].
       - by apply (word_not_in _ _ Hv) in H. }
  cbn [IpcUapi.get_reply]. change [NL] with nl. rewrite <- !app_assoc.
  by rewrite read_kv_line.
Qed.

Lemma hex_char_word x : 0 <= x < 16 -> word_char (hex_char x) = true.
Proof.
  intros Hx. assert (H : (negb (x <? 16) || word_char (hex_char x)) = true).
  { assert (Hb : is_byte x) by (unfold is_byte; lia). clear Hx. revert x Hb.
    apply byte_forall. vm_compute. reflexivity. }
  apply orb_true_iff in H as [H|H]; [lia|done].
Qed.

Lemma key_to_hex_word k : wf_key k -> Forall word_char (key_to_hex k).
Proof.
  intros Hk. rewrite key_to_hex_ref by done. destruct Hk as [_ Hb].
  unfold hex_ref. induction Hb as [|b l Hx _ IH]; [constructor|]. cbn [flat_map app].
  unfold is_byte in Hx. constructor; [|constructor]; [| |done];
    apply Is_true_true, hex_char_word; Z.div_mod_to_equations; lia.
Qed.

Lemma key_from_hex_print key k : length key = WG_KEY_LEN -> wf_key k ->
  key_from_hex key (key_to_hex k) = (true, k).
Proof.
  intros Hl Hk. rewrite key_to_hex_ref by done. destruct Hk as [Hlk Hb].
  apply key_from_hex_accepts; [done|]. rewrite hex_ref_length, Hlk. split; [done|].
  by apply unhex_ref_hex.
Qed.

Lemma NUM_print max n : 0 <= n <= max -> n < 2 ^ 64 -> NUM max (print_u n) = Some n.
Proof.
  intros Hn Hm. destruct (print_u_spec n) as (Hne & Hd & Hv); [lia|].
  destruct (print_words n) as (_ & _ & Hnn & _); [lia|].
  destruct (print_u n) as [|c s]; [done|]. inversion_clear Hd as [|? ? Hc _].
  apply base_digit_10 in Hc. unfold NUM. unfold cget at 1. cbn [nth].
  rewrite char_is_digit_char. unfold is_digit_char in Hc. rewrite Hc. cbn [negb].
  pose proof (strtou_10 64 c s ltac:(lia) Hnn Hc) as Hs. unfold strtoull.
  destruct (strtou 64 (c :: s) 10) as [v rest]. rewrite Hv in Hs. destruct Hs as (-> & -> & _).
  unfold saturate. cbn [negb orb]. replace (max <? Z.min n (2 ^ 64 - 1)) with false by lia.
  f_equal. lia.
Qed.

(** The configuration the request carries for a peer and for the device. *)
Definition uapi_reload_peer (p : wgpeer) : wgpeer :=
  let psk := has_flag (peer_flags p) WGPEER_HAS_PRESHARED_KEY in
  let ka := has_flag (peer_flags p) WGPEER_HAS_PERSISTENT_KEEPALIVE_INTERVAL in
  {| peer_flags :=
       Z.lor WGPEER_HAS_PUBLIC_KEY
         (Z.lor (opt_flag (psk && negb (key_is_zero (peer_preshared_key p))) WGPEER_HAS_PRESHARED_KEY)
            (opt_flag ka WGPEER_HAS_PERSISTENT_KEEPALIVE_INTERVAL));
     peer_public_key := peer_public_key p;
     peer_preshared_key := if psk then peer_preshared_key p else zero_key;
     peer_endpoint := match endpoint_text (peer_endpoint p) with
                      | Some _ => peer_endpoint p
                      | None => zero_sockaddr
                      end;
     peer_last_handshake_time := {| tv_sec := 0; tv_nsec := 0 |};
     peer_rx_bytes := 0; peer_tx_bytes := 0;
     peer_persistent_keepalive_interval := if ka then peer_persistent_keepalive_interval p else 0;
     peer_allowedips := map reload_allowedip (peer_allowedips p) |}.

Definition uapi_reload (iface : cstring) (d : wgdevice) : wgdevice :=
  let priv := has_flag (dev_flags d) WGDEVICE_HAS_PRIVATE_KEY in
  let port := has_flag (dev_flags d) WGDEVICE_HAS_LISTEN_PORT in
  let mark := has_flag (dev_flags d) WGDEVICE_HAS_FWMARK in
  {| dev_name := take (IFNAMSIZ - 1) iface; dev_ifindex := 0;
     dev_flags := Z.lor (opt_flag priv (Z.lor WGDEVICE_HAS_PRIVATE_KEY WGDEVICE_HAS_PUBLIC_KEY))
       (Z.lor (opt_flag port WGDEVICE_HAS_LISTEN_PORT) (opt_flag mark WGDEVICE_HAS_FWMARK));
     dev_public_key := if priv then curve25519_generate_public (dev_private_key d) else zero_key;
     dev_private_key := if priv then dev_private_key d else zero_key;
     dev_fwmark := if mark then dev_fwmark d else 0;
     dev_listen_port := if port then dev_listen_port d else 0;
     dev_peers := map uapi_reload_peer (dev_peers d) |}.

(** A request that only adds: no peer and no allowed IP is marked for removal. *)
Definition no_removal (d : wgdevice) : Prop :=
  Forall (fun p => has_flag (peer_flags p) WGPEER_REMOVE_ME = false /\
    Forall (fun a => has_flag (aip_flags a) WGALLOWEDIP_REMOVE_ME = false) (peer_allowedips p))
    (dev_peers d).

Definition at_device (d : wgdevice) (r : Z) : get_state :=
  {| g_dev := d; g_peer := None; g_allowedip := None; g_ret := r |}.
Definition at_peer (d : wgdevice) (ps : list wgpeer) (p : wgpeer) (r : Z) : get_state :=
  {| g_dev := with_peers (ps ++ [p]) d; g_peer := Some (length ps);
     g_allowedip := last_ptr (peer_allowedips p); g_ret := r |}.

Lemma reads_public_key st d ps k rest : wf_key k ->
  g_dev st = with_peers ps d -> g_peer st = last_ptr ps ->
  reads st (kv "public_key" (key_to_hex k) ++ rest) =
  reads (at_peer d ps (with_peer_flags (set_flag WGPEER_HAS_PUBLIC_KEY)
    (with_public_key k zero_peer)) (g_ret st)) rest.
Proof.
  intros Hk Hd Hp. rewrite reads_kv;
    [|by repeat constructor|discriminate|by apply key_to_hex_word].
  unfold IpcUapi.get_line.
  replace (str_eq (str "public_key") (str "private_key")) with false by reflexivity.
  replace (str_eq (str "public_key") (str "listen_port")) with false by reflexivity.
  replace (str_eq (str "public_key") (str "fwmark")) with false by reflexivity.
  replace (str_eq (str "public_key") (str "public_key")) with true by reflexivity.
  rewrite !andb_false_r, key_from_hex_print by done. cbn [negb].
  rewrite Hd, Hp. cbn [with_peers dev_peers]. rewrite link_next_last. simpl.
  do 2 f_equal. unfold at_peer. f_equal. f_equal. unfold linked_pos, last_ptr. by destruct (length ps).
Qed.

(** A line of a peer section. *)
Lemma reads_peer_line d ps p r (key : string) v st' rest :
  Forall key_char (str key) -> str key <> [] -> Forall word_char v ->
  forallb (fun k => negb (str_eq (str key) (str k)))
    ["private_key"; "listen_port"; "fwmark"; "public_key"]%string = true ->
  get_peer_line (at_peer d ps p r) (length ps) p (str key) v = Next st' ->
  reads (at_peer d ps p r) (kv key v ++ rest) = reads st' rest.
Proof.
  intros Hk Hn Hv Hkeys E. rewrite reads_kv by done. unfold IpcUapi.get_line.
  cbn [forallb] in Hkeys. rewrite !andb_true_iff, !negb_true_iff in Hkeys.
  destruct Hkeys as (-> & -> & -> & -> & _). rewrite !andb_false_r.
  cbn [at_peer g_peer g_dev with_peers dev_peers]. rewrite list_lookup_middle by done.
  fold (at_peer d ps p r). rewrite E. done.
Qed.

Lemma store_last d ps p p' :
  store_peer (length ps) p' (with_peers (ps ++ [p]) d) = with_peers (ps ++ [p']) d.
Proof.
  unfold store_peer, with_peers. simpl. f_equal. by rewrite insert_app_r_alt, Nat.sub_diag by lia.
Qed.

Lemma next_at_peer d ps p p' r : peer_allowedips p' = peer_allowedips p ->
  next_dev (at_peer d ps p r) (store_peer (length ps) p' (g_dev (at_peer d ps p r)))
  = Next (at_peer d ps p' r).
Proof.
  intros Ha. unfold next_dev, at_peer. cbn [g_dev g_peer g_allowedip g_ret].
  by rewrite store_last, Ha.
Qed.

Lemma reads_preshared_key d ps p r k rest : wf_key k -> length (peer_preshared_key p) = WG_KEY_LEN ->
  reads (at_peer d ps p r) (kv "preshared_key" (key_to_hex k) ++ rest) =
  reads (at_peer d ps
    (if negb (key_is_zero k) then with_peer_flags (set_flag WGPEER_HAS_PRESHARED_KEY)
       (with_preshared_key k p) else with_preshared_key k p) r) rest.
Proof.
  intros Hk Hl. eapply reads_peer_line; [by repeat constructor|discriminate|by apply key_to_hex_word|done|].
  unfold get_peer_line. change (str_eq (str "preshared_key") (str "preshared_key")) with true. cbv iota.
  rewrite key_from_hex_print by done. cbn [negb].
  destruct (negb (key_is_zero k)); by rewrite next_at_peer.
Qed.

Lemma reads_endpoint d ps p r sa e rest :
  endpoint_known sa = true -> canonical_sockaddr sa -> endpoint_text sa = Some e ->
  reads (at_peer d ps p r) (kv "endpoint" e ++ rest) = reads (at_peer d ps (with_endpoint sa p) r) rest.
Proof.
  intros Hk Hc He. destruct (endpoint_text_word sa e Hc He) as (Hw & Hn & h & sv & Hs & Hg).
  eapply reads_peer_line; [by repeat constructor|discriminate|done|done|].
  unfold get_peer_line. change (str_eq (str "endpoint") (str "preshared_key")) with false.
  change (str_eq (str "endpoint") (str "endpoint")) with true. cbv iota.
  destruct (Z.eqb_spec (strlen e) 0) as [H|_]; [unfold strlen in H; by destruct e|].
  rewrite Hs, Hg. cbn [ai_family ai_addrlen ai_addr]. unfold endpoint_known in Hk. unfold sockaddr_len.
  destruct (Z.eqb_spec (sa_family sa) AF_INET); [by rewrite next_at_peer|].
  destruct (Z.eqb_spec (sa_family sa) AF_INET6); [by rewrite next_at_peer|done].
Qed.

Lemma reads_keepalive d ps p r n rest : 0 <= n < 2 ^ 16 ->
  reads (at_peer d ps p r) (kv "persistent_keepalive_interval" (print_u n) ++ rest) =
  reads (at_peer d ps (with_peer_flags (set_flag WGPEER_HAS_PERSISTENT_KEEPALIVE_INTERVAL)
    (with_keepalive n p)) r) rest.
Proof.
  intros Hn. destruct (print_words n) as (Hw & _); [lia|].
  eapply reads_peer_line; [by repeat constructor|discriminate|exact Hw|done|].
  unfold get_peer_line. set (key := str "persistent_keepalive_interval").
  change (str_eq key (str "preshared_key")) with false.
  change (str_eq key (str "endpoint")) with false. change (str_eq key key) with true. cbv iota.
  unfold num_step. rewrite NUM_print by lia. by rewrite next_at_peer.
Qed.

Lemma reads_replace_allowed_ips d ps p r rest :
  reads (at_peer d ps p r) (kv "replace_allowed_ips" (str "true") ++ rest) =
  reads (at_peer d ps p r) rest.
Proof. eapply reads_peer_line; [by repeat constructor|discriminate|by repeat constructor|done|done]. Qed.

(** The entry written for an allowed IP, read back. *)
Lemma get_allowedip_print a : wf_allowedip a -> canonical_allowedip a ->
  exists ip, allowedip_addr a = Some ip /\ Forall ip_char ip /\
    get_allowedip (ip ++ str "/" ++ print_u (aip_cidr a)) = Some (reload_allowedip a).
Proof.
  intros Hwf Hcan. destruct (parse_ip_print a Hwf Hcan) as (ip & Ha & Hc & Hn & Hp).
  destruct Hwf as (_ & _ & Hf & _). exists ip. split_and!; try done.
  assert (Hcidr : 0 <= aip_cidr a < 256) by (destruct Hf as [[_ ?]|[_ ?]]; lia).
  unfold get_allowedip. change (str "/" ++ print_u (aip_cidr a)) with ("/"%char :: print_u (aip_cidr a)).
  rewrite strsep_app by (by apply (ip_char_not _ _ Hc)).
  destruct (print_words (aip_cidr a)) as (_ & _ & Hnn & _); [lia|].
  destruct (print_u_spec (aip_cidr a)) as (Hne & Hd & Hv); [lia|].
  destruct (print_u (aip_cidr a)) as [|c s]; [done|]. inversion_clear Hd as [|? ? Hdc _].
  apply base_digit_10 in Hdc. unfold cget at 1. cbn [nth]. rewrite char_is_digit_char.
  pose proof (strtou_10 ulong_bits c s ulong_pos Hnn Hdc) as Hs. unfold is_digit_char in Hdc.
  rewrite Hdc. cbn [negb]. unfold strtoul. destruct (strtou ulong_bits (c :: s) 10) as [v rest].
  rewrite Hv in Hs. destruct Hs as (-> & -> & _). unfold saturate. pose proof ulong_ge_32.
  rewrite Z.min_l, u8_small by lia. unfold parse_ip in Hp.
  set (fam := if bool_decide (is_Some (strchr ip ":")) then AF_INET6 else AF_INET) in *.
  destruct (inet_pton fam ip) as [addr|]; [|done].
  injection Hp as Hfam Hip. cbn [zero_allowedip aip_ip] in Hip.
  replace (negb true || _ || _) with false.
  - unfold reload_allowedip. do 2 f_equal; [done|].
    change (replicate 16 0) with [0;0;0;0;0;0;0;0;0;0;0;0;0;0;0;0]. by rewrite Hip.
  - rewrite Hfam. destruct Hf as [[-> ?]|[-> ?]]; simpl; lia.
Qed.

Lemma reads_allowedips d ps r rest : forall l p,
  Forall wf_allowedip l -> Forall canonical_allowedip l ->
  Forall (fun a => has_flag (aip_flags a) WGALLOWEDIP_REMOVE_ME = false) l ->
  reads (at_peer d ps p r) (concat (map uapi_allowedip l) ++ rest) =
  reads (at_peer d ps (with_allowedips (peer_allowedips p ++ map reload_allowedip l) p) r) rest.
Proof.
  induction l as [|a l IH]; intros p Hwf Hcan Hrm.
  { simpl. rewrite app_nil_r. by destruct p. }
  inversion_clear Hwf as [|? ? Ha Hl]. inversion_clear Hcan as [|? ? Hca Hcl].
  inversion_clear Hrm as [|? ? Hra Hrl].
  destruct (get_allowedip_print a Ha Hca) as (ip & Hip & Hc & Hg).
  cbn [map concat]. unfold uapi_allowedip at 1. rewrite Hip, Hra, <- app_assoc. cbn [app].
  assert (Hcidr : 0 <= aip_cidr a < 2 ^ 64) by (destruct Ha as (_ & _ & [[_ ?]|[_ ?]] & _); lia).
  destruct (print_words _ Hcidr) as (Hw & _).
  assert (Hword : Forall word_char (ip ++ str "/" ++ print_u (aip_cidr a))).
  { apply Forall_app_2; [by apply (Forall_chars _ _ _ ip_char_word)|].
    apply Forall_app_2; [by repeat constructor|exact Hw]. }
  etransitivity; [eapply reads_peer_line; [by repeat constructor|discriminate|exact Hword|done|]|].
  - unfold get_peer_line. change (str_eq (str "allowed_ip") (str "preshared_key")) with false.
    change (str_eq (str "allowed_ip") (str "endpoint")) with false.
    change (str_eq (str "allowed_ip") (str "persistent_keepalive_interval")) with false.
    change (str_eq (str "allowed_ip") (str "allowed_ip")) with true. cbv iota. rewrite Hg.
    cbn [at_peer g_dev g_peer g_allowedip g_ret]. rewrite link_next_last, store_last.
    rewrite <- last_ptr_app with (x := reload_allowedip a). reflexivity.
  - transitivity (reads (at_peer d ps
      (with_allowedips (peer_allowedips p ++ [reload_allowedip a]) p) r)
      (concat (map uapi_allowedip l) ++ rest)); [done|].
    rewrite IH by done. cbn [with_allowedips peer_allowedips map]. by rewrite <- app_assoc.
Qed.

(** A peer of the request. *)
Lemma reads_peer st d ps p rest :
  wf_peer p -> canonical_peer p ->
  has_flag (peer_flags p) WGPEER_REMOVE_ME = false ->
  Forall (fun a => has_flag (aip_flags a) WGALLOWEDIP_REMOVE_ME = false) (peer_allowedips p) ->
  g_dev st = with_peers ps d -> g_peer st = last_ptr ps ->
  reads st (uapi_peer p ++ rest) = reads (at_peer d ps (uapi_reload_peer p) (g_ret st)) rest.
Proof.
  intros (Hfl & Hpk & Hpsk & Hka & Hal) (Hcal & Hce) Hrm Hra Hd Hp.
  unfold uapi_peer. rewrite Hrm, <- !app_assoc, (reads_public_key st d ps) by done.
  set (p1 := with_peer_flags _ (with_public_key _ _)). set (r := g_ret st).
  set (psk := has_flag (peer_flags p) WGPEER_HAS_PRESHARED_KEY).
  set (ka := has_flag (peer_flags p) WGPEER_HAS_PERSISTENT_KEEPALIVE_INTERVAL).
  set (nz := negb (key_is_zero (peer_preshared_key p))).
  set (p2 := if psk then
      (if nz then with_peer_flags (set_flag WGPEER_HAS_PRESHARED_KEY)
                (with_preshared_key (peer_preshared_key p) p1)
       else with_preshared_key (peer_preshared_key p) p1) else p1).
  set (p3 := match endpoint_text (peer_endpoint p) with
             | Some _ => with_endpoint (peer_endpoint p) p2 | None => p2 end).
  set (p4 := if ka then with_peer_flags (set_flag WGPEER_HAS_PERSISTENT_KEEPALIVE_INTERVAL)
      (with_keepalive (peer_persistent_keepalive_interval p) p3) else p3).
  set (t4 := (if has_flag _ WGPEER_REPLACE_ALLOWEDIPS then _ else _) ++ _).
  set (t3 := (if ka then _ else _) ++ t4).
  transitivity (reads (at_peer d ps p2 r)
    (match endpoint_text (peer_endpoint p) with Some e => kv "endpoint" e | None => [] end ++ t3)).
  { subst p2. destruct psk; [|done]. rewrite reads_preshared_key by done. reflexivity. }
  transitivity (reads (at_peer d ps p3 r) t3).
  { subst p3. destruct (endpoint_text (peer_endpoint p)) as [e|] eqn:Ee; [|done].
    pose proof (endpoint_text_known _ _ Ee).
    by rewrite reads_endpoint with (sa := peer_endpoint p) by auto. }
  transitivity (reads (at_peer d ps p4 r) t4).
  { subst t3 p4. destruct ka; [|done]. by rewrite reads_keepalive by done. }
  transitivity (reads (at_peer d ps p4 r) (concat (map uapi_allowedip (peer_allowedips p)) ++ rest)).
  { subst t4. destruct (has_flag _ WGPEER_REPLACE_ALLOWEDIPS); [|done].
    apply reads_replace_allowed_ips. }
  rewrite reads_allowedips by done. do 2 f_equal. subst p4 p3 p2 p1. unfold uapi_reload_peer.
  fold psk ka nz. destruct (endpoint_text (peer_endpoint p)), psk, ka, nz; done.
Qed.

Lemma reads_peers d rest : forall l st ps,
  Forall wf_peer l -> Forall canonical_peer l ->
  Forall (fun p => has_flag (peer_flags p) WGPEER_REMOVE_ME = false /\
    Forall (fun a => has_flag (aip_flags a) WGALLOWEDIP_REMOVE_ME = false) (peer_allowedips p)) l ->
  g_dev st = with_peers ps d -> g_peer st = last_ptr ps ->
  exists st', reads st (concat (map uapi_peer l) ++ rest) = reads st' rest /\
    g_dev st' = with_peers (ps ++ map uapi_reload_peer l) d /\
    g_peer st' = last_ptr (ps ++ map uapi_reload_peer l).
Proof.
  induction l as [|p l IH]; intros st ps Hwf Hcan Hrm Hd Hl.
  { exists st. simpl. by rewrite app_nil_r. }
  inversion_clear Hwf as [|? ? Hp Hwf']. inversion_clear Hcan as [|? ? Hc Hcan'].
  inversion_clear Hrm as [|? ? [Hr1 Hr2] Hrm']. cbn [map concat]. rewrite <- app_assoc.
  rewrite (reads_peer st d ps) by done.
  destruct (IH (at_peer d ps (uapi_reload_peer p) (g_ret st)) (ps ++ [uapi_reload_peer p]))
    as (st' & E & Hd' & Hl'); [done|done|done|done| |].
  { unfold at_peer. cbn [g_peer]. rewrite last_ptr_app. f_equal.
    unfold linked_pos, last_ptr. by destruct (length ps). }
  exists st'. rewrite E, Hd', Hl', <- app_assoc. done.
Qed.

(** A line before the first peer. *)
Lemma reads_device_line d d' r (key : string) v rest :
  Forall key_char (str key) -> str key <> [] -> Forall word_char v ->
  get_line (at_device d r) (str key) v = Ret (Next (at_device d' r)) ->
  reads (at_device d r) (kv key v ++ rest) = reads (at_device d' r) rest.
Proof. intros Hk Hn Hv E. rewrite reads_kv by done. by rewrite E. Qed.

(** The lines of the request before its first peer. *)
Lemma reads_device d iface r rest : wf_device d ->
  reads (at_device (with_dev_name (take (IFNAMSIZ - 1) iface) zero_device) r)
    ((if has_flag (dev_flags d) WGDEVICE_HAS_PRIVATE_KEY
      then kv "private_key" (key_to_hex (dev_private_key d)) else [])
     ++ (if has_flag (dev_flags d) WGDEVICE_HAS_LISTEN_PORT
         then kv "listen_port" (print_u (dev_listen_port d)) else [])
     ++ (if has_flag (dev_flags d) WGDEVICE_HAS_FWMARK
         then kv "fwmark" (print_u (dev_fwmark d)) else [])
     ++ (if has_flag (dev_flags d) WGDEVICE_REPLACE_PEERS
         then kv "replace_peers" (str "true") else [])
     ++ rest) =
  reads (at_device (with_peers [] (uapi_reload iface d)) r) rest.
Proof.
  intros (_ & _ & Hpriv & Hm & Hlp & _).
  set (priv := has_flag _ WGDEVICE_HAS_PRIVATE_KEY). set (port := has_flag _ WGDEVICE_HAS_LISTEN_PORT).
  set (mark := has_flag _ WGDEVICE_HAS_FWMARK). set (d0 := with_dev_name _ zero_device).
  set (d1 := if priv then
    with_dev_flags (set_flag (Z.lor WGDEVICE_HAS_PRIVATE_KEY WGDEVICE_HAS_PUBLIC_KEY))
      (with_dev_public_key (curve25519_generate_public (dev_private_key d))
        (with_private_key (dev_private_key d) d0)) else d0).
  set (d2 := if port then with_dev_flags (set_flag WGDEVICE_HAS_LISTEN_PORT)
    (with_listen_port (dev_listen_port d) d1) else d1).
  set (d3 := if mark then with_dev_flags (set_flag WGDEVICE_HAS_FWMARK)
    (with_fwmark (dev_fwmark d) d2) else d2).
  set (t4 := (if has_flag _ WGDEVICE_REPLACE_PEERS then _ else _) ++ rest).
  set (t3 := (if mark then _ else _) ++ t4). set (t2 := (if port then _ else _) ++ t3).
  transitivity (reads (at_device d1 r) t2).
  { subst d1. destruct priv; [|done].
    apply reads_device_line; [by repeat constructor|discriminate|by apply key_to_hex_word|].
    unfold IpcUapi.get_line. cbn [at_device g_peer g_dev]. rewrite bool_decide_false by (by intros [? ?]).
    change (str_eq (str "private_key") (str "private_key")) with true. cbn [negb andb].
    by rewrite key_from_hex_print. }
  transitivity (reads (at_device d2 r) t3).
  { subst t2 d2. destruct port; [|done]. destruct (print_words (dev_listen_port d)) as (Hw & _); [lia|].
    apply reads_device_line; [by repeat constructor|discriminate|exact Hw|].
    unfold IpcUapi.get_line. cbn [at_device g_peer g_dev]. rewrite bool_decide_false by (by intros [? ?]).
    change (str_eq (str "listen_port") (str "private_key")) with false.
    change (str_eq (str "listen_port") (str "listen_port")) with true. cbn [negb andb].
    unfold num_step. by rewrite NUM_print by lia. }
  transitivity (reads (at_device d3 r) t4).
  { subst t3 d3. destruct mark; [|done]. destruct (print_words (dev_fwmark d)) as (Hw & _); [lia|].
    apply reads_device_line; [by repeat constructor|discriminate|exact Hw|].
    unfold IpcUapi.get_line. cbn [at_device g_peer g_dev]. rewrite bool_decide_false by (by intros [? ?]).
    change (str_eq (str "fwmark") (str "private_key")) with false.
    change (str_eq (str "fwmark") (str "listen_port")) with false.
    change (str_eq (str "fwmark") (str "fwmark")) with true. cbn [negb andb].
    unfold num_step, UINT32_MAX. by rewrite NUM_print by lia. }
  transitivity (reads (at_device d3 r) rest).
  { subst t4. destruct (has_flag _ WGDEVICE_REPLACE_PEERS); [|done].
    apply reads_device_line; [by repeat constructor|discriminate|by repeat constructor|done]. }
  do 2 f_equal. subst d3 d2 d1 d0. unfold uapi_reload. fold priv port mark.
  by destruct priv, port, mark.
Qed.

(** The end of a successful reply. *)
Lemma reads_end st : (forall i, g_peer st = Some i -> (i < length (dev_peers (g_dev st)))%nat) ->
  reads st (kv "errno" (str "0") ++ nl) = Ret (0, g_dev st).
Proof.
  intros Hp. rewrite reads_kv; [|by repeat constructor|discriminate|by repeat constructor].
  unfold IpcUapi.get_line. change (str_eq (str "errno") (str "private_key")) with false.
  change (str_eq (str "errno") (str "listen_port")) with false.
  change (str_eq (str "errno") (str "fwmark")) with false.
  change (str_eq (str "errno") (str "public_key")) with false. rewrite !andb_false_r.
  assert (HN : NUM INT_MAX (str "0") = Some 0).
  { unfold NUM. change (cget (str "0") 0) with "0"%char. rewrite char_is_digit_char. reflexivity. }
  destruct (g_peer st) as [i|] eqn:Ei.
  - destruct (lookup_lt_is_Some_2 (dev_peers (g_dev st)) i) as [p ->]; [by apply Hp|].
    unfold get_peer_line, num_step.
    repeat match goal with |- context [str_eq (str "errno") ?k] =>
      change (str_eq (str "errno") k) with false || change (str_eq (str "errno") k) with true end.
    cbv iota. rewrite HN. reflexivity.
  - change (str_eq (str "errno") (str "errno")) with true. cbv iota. unfold num_step. rewrite HN.
    reflexivity.
Qed.

(** Round trip: a server that answers a [get] with the configuration lines of a
    [set] request is understood, and the device handed out is the one that was
    written: its keys, port and mark where the request carried them, and the
    peers in order with their allowed IPs and endpoints. The public key is
    derived from the private one. (C4) *)
Theorem uapi_set_get_roundtrip iface d :
  wf_device d -> canonical_device d -> no_removal d ->
  parse_get_reply curve25519_generate_public iface
    (uapi_body d ++ kv "errno" (str "0") ++ nl)
  = Ret (0, Some (uapi_reload iface d)).
Proof.
  intros Hwf Hcan Hrm. unfold parse_get_reply.
  change (get_reply (get_init iface) (getlines ?t)) with
    (reads (at_device (with_dev_name (take (IFNAMSIZ - 1) iface) zero_device) (- EPROTO)) t).
  unfold uapi_body. rewrite <- !app_assoc, reads_device by done.
  pose proof Hwf as (_ & _ & _ & _ & _ & Hps).
  destruct (reads_peers (with_peers [] (uapi_reload iface d)) (kv "errno" (str "0") ++ nl) (dev_peers d)
    (at_device (with_peers [] (uapi_reload iface d)) (- EPROTO)) []) as (st' & E & Hd & Hp); [done..|].
  rewrite E, reads_end.
  - simpl. by rewrite Hd.
  - intros i Hi. rewrite Hp in Hi. apply last_ptr_Some in Hi. rewrite Hd. simpl in *. lia.
Qed.

End Facts.

Lemma parse_get_reply_safe_witness : exists ret out,
  parse_get_reply (P := arm64) (W := NumericWorld.numeric_world) (fun _ => zero_key) (str "wg0")
    (str "public_key=00" ++ nl) = Ret (ret, out) /\ (ret = 0 <-> is_Some out) /\
    (forall d, out = Some d -> wf_device d).
Proof.
  apply (parse_get_reply_safe (P := arm64) (WOK := NumericWorld.numeric_world_ok)).
  intros k. apply zero_key_wf.
Defined.

Lemma uapi_set_get_roundtrip_witness :
  parse_get_reply (P := arm64) (W := NumericWorld.numeric_world) (fun _ => zero_key) (str "wg0")
    (uapi_body (W := NumericWorld.numeric_world) sample_device ++ kv "errno" (str "0") ++ nl)
  = Ret (0, Some (uapi_reload (W := NumericWorld.numeric_world) (fun _ => zero_key) (str "wg0") sample_device)).
Proof.
  apply (uapi_set_get_roundtrip (P := arm64) (fun _ => zero_key) (NN := NumericWorld.numeric_names)).
  - exact sample_device_wf.
  - exact sample_device_canonical.
  - repeat constructor.
Defined.

(** The prefix length is truncated to eight bits before it is compared with the
    width of the address: a reply with the prefix /288 is taken for /32. *)
Theorem uapi_cidr_wraps :
  option_map aip_cidr (get_allowedip (P := arm64) (W := NumericWorld.numeric_world) (str "10.0.0.1/288"))
  = Some 32.
Proof. vm_compute. reflexivity. Qed.

End IpcUapiFacts.
