(* ===== verification/Setconf.v ===== *)
(** * wg setconf, addconf, syncconf and set (src/setconf.c, src/set.c)

    The commands that write a configuration. [sync_conf] compares the peers of
    the file with the peers of the interface in one sorted array; the array
    entries refer to the nodes of the two lists by position, so that the
    in-place updates of the file's nodes are updates of its list. *)
From S2P Require Import Prelude Libc Encoding Containers Config IpcSpec.
Import Libc Encoding Config.

Module Setconf.

(** [memcmp] of two buffers of the same size. *)
Fixpoint memcmp (a b : list Z) : Z :=
  match a, b with
  | x :: a, y :: b => if x =? y then memcmp a b else x - y
  | _, _ => 0
  end.

Record peer_origin := { po_peer : nat; from_file : bool }.

Section Sync.
(** The nodes of the file's list and of the interface's list. *)
Context (runtime : list wgpeer).

Definition origin_peer (file : list wgpeer) (o : peer_origin) : wgpeer :=
  nth (po_peer o) (if from_file o then file else runtime) zero_peer.
Definition origin_key (file : list wgpeer) (o : peer_origin) : list Z :=
  peer_public_key (origin_peer file o).

Definition peer_cmp (file : list wgpeer) (a b : peer_origin) : Z :=
  let ret := memcmp (origin_key file a) (origin_key file b) in
  if negb (ret =? 0) then ret else Z.b2z (from_file a) - Z.b2z (from_file b).

(** The array before sorting: the file's peers, then the interface's. *)
Definition origins (file : list wgpeer) : list peer_origin :=
  map (fun i => {| po_peer := i; from_file := true |}) (seq 0 (length file))
  ++ map (fun i => {| po_peer := i; from_file := false |}) (seq 0 (length runtime)).

(** The node prepended to the file for a peer that is only in the interface. *)
Definition removal (key : list Z) : wgpeer :=
  with_peer_flags (fun _ => WGPEER_REMOVE_ME) (with_public_key key zero_peer).

(** The nodes prepended so far, and the nodes of the file. *)
Definition sync_state : Type := list wgpeer * list wgpeer.

Definition clear_preshared_key (p : wgpeer) : wgpeer :=
  with_peer_flags (set_flag WGPEER_HAS_PRESHARED_KEY) (with_preshared_key zero_key p).
Definition clear_keepalive (p : wgpeer) : wgpeer :=
  with_peer_flags (set_flag WGPEER_HAS_PERSISTENT_KEEPALIVE_INTERVAL) (with_keepalive 0 p).

(** One turn of the loop at [peers[i]]; [next] is [peers[i + 1]], [None] when
    [i == peer_count - 1]. *)
Definition sync_step (o : peer_origin) (next : option peer_origin) (st : sync_state) : sync_state :=
  let '(prepended, file) := st in
  if from_file o then st
  else
    let key := origin_key file o in
    let matches :=
      match next with
      | None => None
      | Some o' => if from_file o' && (memcmp key (origin_key file o') =? 0) then Some o' else None
      end in
    match matches with
    | None => (removal key :: prepended, file)
    | Some o' =>
        let p := origin_peer file o in
        let file :=
          if has_flag (peer_flags p) WGPEER_HAS_PRESHARED_KEY
             && negb (has_flag (peer_flags (origin_peer file o')) WGPEER_HAS_PRESHARED_KEY)
          then <[po_peer o' := clear_preshared_key (origin_peer file o')]> file else file in
        let file :=
          if negb (peer_persistent_keepalive_interval p =? 0)
             && negb (has_flag (peer_flags (origin_peer file o'))
                        WGPEER_HAS_PERSISTENT_KEEPALIVE_INTERVAL)
          then <[po_peer o' := clear_keepalive (origin_peer file o')]> file else file in
        (prepended, file)
    end.

Fixpoint sync_loop (peers : list peer_origin) (st : sync_state) : sync_state :=
  match peers with
  | [] => st
  | o :: next => sync_loop next (sync_step o (head next) st)
  end.

End Sync.

(** [qsort] is a parameter: any function that sorts. *)
Class Qsort := qsort : forall {A : Type}, (A -> A -> Z) -> list A -> list A.

Section Commands.
Context `{P : Platform} `{W : World} `{I : Ipc Sys} `{Q : Qsort}.

(** [sync_conf]: [None] is [return false]. *)
Definition sync_conf (sys : Sys) (file : wgdevice) : outcome (option wgdevice * Sys) :=
  match dev_peers file with
  | [] => Ret (Some file, sys)
  | fpeers =>
      '(ret, runtime, sys) ← ipc_get_device sys (dev_name file);
      if negb (ret =? 0) then Ret (None, sys)
      else match runtime with
           | None => NullDeref
           | Some runtime =>
               match dev_peers runtime with
               | [] => Ret (Some file, sys)
               | rpeers =>
                   let file := with_dev_flags (clear_flag WGDEVICE_REPLACE_PEERS) file in
                   let peers := qsort (peer_cmp rpeers fpeers) (origins rpeers fpeers) in
                   let '(prepended, fpeers) := sync_loop rpeers peers ([], fpeers) in
                   Ret (Some (with_peers (prepended ++ fpeers) file), sys)
               end
           end
  end.

(** [setconf_main] for the three subcommands [argv[0]] names. *)
Definition setconf_main (fuel : nat) (sys : Sys) (argv : list cstring) : outcome (Z * Sys) :=
  match argv with
  | [command; iface; path] =>
      match fopen path with
      | None => Ret (1, sys)
      | Some f =>
          r ← config_read_file fuel (str_eq command (str "addconf")) (config_lines (f_bytes f));
          match r with
          | None => Ret (1, sys)
          | Some device =>
              let device := with_dev_name (take (IFNAMSIZ - 1) iface) device in
              '(device, sys) ← (if str_eq command (str "syncconf") then sync_conf sys device
                                else Ret (Some device, sys));
              match device with
              | None => Ret (1, sys)
              | Some device =>
                  let '(ret, sys) := ipc_set_device sys device in
                  Ret (if negb (ret =? 0) then 1 else 0, sys)
              end
          end
      end
  | _ => Ret (1, sys)
  end.

Definition set_main (fuel : nat) (sys : Sys) (argv : list cstring) : outcome (Z * Sys) :=
  match argv with
  | _ :: iface :: args =>
      if (length argv <? 3)%nat then Ret (1, sys)
      else
        r ← config_read_cmd fuel args;
        match r with
        | None => Ret (1, sys)
        | Some device =>
            let device := with_dev_name (take (IFNAMSIZ - 1) iface) device in
            let '(ret, sys) := ipc_set_device sys device in
            Ret (if negb (ret =? 0) then 1 else 0, sys)
        end
  | _ => Ret (1, sys)
  end.

End Commands.
End Setconf.
