(* ===== verification/SetconfFacts.v ===== *)
(** * Correctness of wg syncconf (src/setconf.c)

    In the sorted array the file's entry for a peer follows the interface's
    entry for it, so one pass finds the peers to remove and the settings to
    reset; applied to the interface, the result leaves the configuration that
    replacing all peers would leave. *)
From stdpp Require Import sorting gmap.
From S2P Require Import Prelude Libc Encoding Containers Config IpcSpec ConfigFacts Setconf Names Showconf Samples.
Import Libc Encoding Config ConfigFacts Setconf.

(** [qsort] sorts: it permutes, and its result is in order for a comparison
    function that orders the elements consistently. *)
Class QsortOk `{Q : Qsort} : Prop := {
  qsort_perm {A} (cmp : A -> A -> Z) l : Permutation (qsort cmp l) l;
  qsort_sorted {A} (cmp : A -> A -> Z) l :
    (forall x y z, In x l -> In y l -> In z l -> cmp x y <= 0 -> cmp y z <= 0 -> cmp x z <= 0) ->
    (forall x y, In x l -> In y l -> cmp x y <= 0 \/ cmp y x <= 0) ->
    StronglySorted (fun x y => cmp x y <= 0) (qsort cmp l)
}.

Module SetconfFacts.

(** ** [memcmp] *)

Lemma memcmp_refl a : memcmp a a = 0.
Proof. induction a as [|x a IH]; simpl; [done|]. by rewrite Z.eqb_refl. Qed.

Lemma memcmp_eq a : forall b, length a = length b -> memcmp a b = 0 -> a = b.
Proof.
  induction a as [|x a IH]; intros [|y b]; simpl; try done. intros [= Hl].
  destruct (Z.eqb_spec x y); [|lia]. intros. f_equal; auto.
Qed.

Lemma memcmp_anti a : forall b, memcmp b a = - memcmp a b.
Proof.
  induction a as [|x a IH]; intros [|y b]; simpl; try done.
  destruct (Z.eqb_spec x y), (Z.eqb_spec y x); try lia. apply IH.
Qed.

Lemma memcmp_trans a : forall b c, length a = length b -> length b = length c ->
  memcmp a b <= 0 -> memcmp b c <= 0 -> memcmp a c <= 0.
Proof.
  induction a as [|x a IH]; intros [|y b] [|z c]; simpl; try done. intros [= H1] [= H2].
  destruct (Z.eqb_spec x y), (Z.eqb_spec y z), (Z.eqb_spec x z); subst; try lia. by apply IH.
Qed.

Section Sync.
Context (runtime : list wgpeer).

Definition keys_ok (l : list wgpeer) : Prop :=
  Forall (fun p => length (peer_public_key p) = WG_KEY_LEN) l.

Definition keys (l : list wgpeer) : list (list Z) := map peer_public_key l.

(** ** The order of the array *)

Section Order.
Context (file : list wgpeer) (Hf : keys_ok file) (Hr : keys_ok runtime).

Abbreviation okey := (origin_key runtime file).
Abbreviation cmp := (peer_cmp runtime file).

Lemma okey_length o : length (okey o) = WG_KEY_LEN.
Proof.
  unfold origin_key, origin_peer. destruct (from_file o).
  all: match goal with |- context [nth ?i ?l ?d] =>
    destruct (nth_in_or_default i l d) as [Hin| ->]; [|done] end.
  - unfold keys_ok in Hf. rewrite Forall_forall in Hf. by apply Hf, list_elem_of_In.
  - unfold keys_ok in Hr. rewrite Forall_forall in Hr. by apply Hr, list_elem_of_In.
Qed.

Lemma memcmp_zero a b : memcmp (okey a) (okey b) = 0 <-> okey a = okey b.
Proof.
  split; [|intros ->; apply memcmp_refl]. apply memcmp_eq. by rewrite !okey_length.
Qed.

Lemma cmp_total x y : cmp x y <= 0 \/ cmp y x <= 0.
Proof.
  unfold peer_cmp. rewrite (memcmp_anti (okey x) (okey y)).
  destruct (Z.eqb_spec (memcmp (okey x) (okey y)) 0) as [->|]; simpl.
  - destruct (from_file x), (from_file y); simpl; lia.
  - destruct (Z.eqb_spec (- memcmp (okey x) (okey y)) 0); simpl; lia.
Qed.

Lemma cmp_key x y : cmp x y <= 0 -> memcmp (okey x) (okey y) <= 0.
Proof. unfold peer_cmp. destruct (Z.eqb_spec (memcmp (okey x) (okey y)) 0); simpl; lia. Qed.

Lemma cmp_same_key x y : okey x = okey y -> cmp x y = Z.b2z (from_file x) - Z.b2z (from_file y).
Proof. intros E. unfold peer_cmp. rewrite E, memcmp_refl. done. Qed.

Lemma sandwich x y z : cmp x y <= 0 -> cmp y z <= 0 -> okey x = okey z -> okey y = okey x.
Proof.
  intros H1%cmp_key H2%cmp_key E. rewrite <- E in H2. apply memcmp_zero.
  rewrite (memcmp_anti (okey x)). rewrite (memcmp_anti (okey x)) in H2. lia.
Qed.

Lemma cmp_trans x y z : cmp x y <= 0 -> cmp y z <= 0 -> cmp x z <= 0.
Proof.
  intros H1 H2. pose proof (cmp_key _ _ H1) as K1. pose proof (cmp_key _ _ H2) as K2.
  assert (K : memcmp (okey x) (okey z) <= 0)
    by (apply (memcmp_trans _ (okey y)); rewrite ?okey_length; done).
  unfold peer_cmp at 1. destruct (Z.eqb_spec (memcmp (okey x) (okey z)) 0) as [E|]; simpl; [|lia].
  apply memcmp_zero in E. pose proof (sandwich x y z H1 H2 E) as Ey.
  rewrite cmp_same_key in H1 by done. rewrite cmp_same_key in H2 by congruence. lia.
Qed.

End Order.

Lemma nth_key_inj (l : list wgpeer) i j :
  NoDup (keys l) -> (i < length l)%nat -> (j < length l)%nat ->
  peer_public_key (nth i l zero_peer) = peer_public_key (nth j l zero_peer) -> i = j.
Proof.
  intros Hnd Hi Hj E.
  assert (H : forall k, (k < length l)%nat ->
    keys l !! k = Some (peer_public_key (nth k l zero_peer))).
  { intros k Hk. unfold keys. rewrite list_lookup_fmap.
    destruct (lookup_lt_is_Some_2 l k Hk) as [p Hp]. rewrite Hp. simpl.
    by rewrite (nth_lookup_Some _ _ _ _ Hp). }
  eapply (NoDup_lookup (keys l)); [exact Hnd|by apply H|]. rewrite H by done. by rewrite E.
Qed.

Definition valid_origin (file : list wgpeer) (o : peer_origin) : Prop :=
  (po_peer o < length (if from_file o then file else runtime))%nat.

Lemma in_origins file o : In o (origins runtime file) <-> valid_origin file o.
Proof.
  unfold origins, valid_origin. rewrite in_app_iff, !in_map_iff. split.
  - intros [(i & <- & Hi%in_seq)|(i & <- & Hi%in_seq)]; simpl; lia.
  - destruct o as [i []]; simpl; intros; [left|right]; exists i; (split; [done|]); apply in_seq; lia.
Qed.

Lemma origins_NoDup file : NoDup (origins runtime file).
Proof.
  unfold origins. apply NoDup_app. split_and!.
  - apply NoDup_fmap_2; [by intros ? ? [=]|]. apply NoDup_seq.
  - intros o (i & -> & _)%list_elem_of_fmap (j & [=] & _)%list_elem_of_fmap.
  - apply NoDup_fmap_2; [by intros ? ? [=]|]. apply NoDup_seq.
Qed.

(** The same peer is named by one entry of each origin. *)
Lemma same_origin file a b :
  NoDup (keys file) -> NoDup (keys runtime) -> valid_origin file a -> valid_origin file b ->
  from_file a = from_file b -> origin_key runtime file a = origin_key runtime file b -> a = b.
Proof.
  intros Hf Hr Ha Hb E Ek. destruct a as [i fa], b as [j fb]. simpl in E. subst fb.
  unfold valid_origin, origin_key, origin_peer in *. simpl in *. f_equal.
  destruct fa; [apply (nth_key_inj file)|apply (nth_key_inj runtime)]; done.
Qed.

(** In a sorted array the file's entry for a peer of the interface comes right
    after the interface's. *)
Lemma adjacent file pre o next fo :
  keys_ok file -> keys_ok runtime -> NoDup (keys file) -> NoDup (keys runtime) ->
  StronglySorted (fun x y => peer_cmp runtime file x y <= 0) (pre ++ o :: next) ->
  Permutation (pre ++ o :: next) (origins runtime file) ->
  from_file o = false -> valid_origin file fo -> from_file fo = true ->
  origin_key runtime file o = origin_key runtime file fo ->
  head next = Some fo.
Proof.
  intros Kf Kr Nf Nr Hs Hp Ho Hof Hff Ek.
  assert (Hall : forall x, In x (pre ++ o :: next) -> valid_origin file x).
  { intros x Hx. apply in_origins. by eapply Permutation_in. }
  assert (Hin : In fo (pre ++ o :: next)).
  { eapply Permutation_in; [symmetry; exact Hp|]. by apply in_origins. }
  assert (Hnd : NoDup (pre ++ o :: next)).
  { rewrite Hp. apply origins_NoDup. }
  rewrite StronglySorted_app in Hs. destruct Hs as (Hcross & _ & Hs).
  apply in_app_iff in Hin as [Hin|[->|Hin]]; [|congruence|].
  { exfalso. assert (H : peer_cmp runtime file fo o <= 0).
    { apply Hcross; [by apply list_elem_of_In|]. by left. }
    rewrite cmp_same_key in H by done. rewrite Ho, Hff in H. simpl in H. lia. }
  inversion_clear Hs as [|? ? Hs' Ho']. destruct next as [|o' rest]; [done|]. simpl. f_equal.
  destruct Hin as [->|Hin]; [done|].
  inversion_clear Hs' as [|? ? _ Hrest]. rewrite Forall_forall in Ho', Hrest.
  assert (H1 : peer_cmp runtime file o o' <= 0) by (apply Ho'; by left).
  assert (H2 : peer_cmp runtime file o' fo <= 0) by (apply Hrest; by apply list_elem_of_In).
  pose proof (sandwich file Kf Kr _ _ _ H1 H2 Ek) as Ek'.
  destruct (from_file o') eqn:Ef'.
  - apply (same_origin file); try done; [|congruence|congruence].
    apply Hall. apply in_app_iff. right. right. by left.
  - exfalso. apply NoDup_app in Hnd as (_ & _ & Hnd). inversion_clear Hnd as [|? ? Hni _].
    apply Hni. replace o with o'; [by left|].
    apply (same_origin file); try done; [| |congruence].
    + apply Hall. apply in_app_iff. right. right. by left.
    + apply Hall. apply in_app_iff. right. by left.
Qed.

(** ** One pass over the array *)

(** What the pass does to the file's node [f] of a peer the interface has as
    [r]: a preshared key and a keep-alive interval the file does not mention are
    reset. *)
Definition adjust (r f : wgpeer) : wgpeer :=
  let f := if has_flag (peer_flags r) WGPEER_HAS_PRESHARED_KEY
              && negb (has_flag (peer_flags f) WGPEER_HAS_PRESHARED_KEY)
           then clear_preshared_key f else f in
  if negb (peer_persistent_keepalive_interval r =? 0)
     && negb (has_flag (peer_flags f) WGPEER_HAS_PERSISTENT_KEEPALIVE_INTERVAL)
  then clear_keepalive f else f.

Lemma adjust_key r f : peer_public_key (adjust r f) = peer_public_key f.
Proof. unfold adjust. by repeat case_match. Qed.

Definition rt_peer (o : peer_origin) : wgpeer := nth (po_peer o) runtime zero_peer.
Definition rt_key (o : peer_origin) : list Z := peer_public_key (rt_peer o).

(** The interface's entry for a key in a part of the array. *)
Fixpoint find_rt (l : list peer_origin) (k : list Z) : option wgpeer :=
  match l with
  | [] => None
  | o :: l => if negb (from_file o) && bool_decide (rt_key o = k) then Some (rt_peer o)
              else find_rt l k
  end.

Definition adjust_by (m : option wgpeer) (f : wgpeer) : wgpeer :=
  match m with Some r => adjust r f | None => f end.

(** The keys of a part of the array that only the interface has. *)
Definition only_runtime (ks : list (list Z)) (l : list peer_origin) : list (list Z) :=
  map rt_key (List.filter (fun o => negb (from_file o) && bool_decide (rt_key o ∉ ks)) l).

Lemma origin_key_rt file o : from_file o = false -> origin_key runtime file o = rt_key o.
Proof. intros E. unfold origin_key, origin_peer. by rewrite E. Qed.

Lemma origin_key_keys file file' o :
  keys file = keys file' -> origin_key runtime file o = origin_key runtime file' o.
Proof.
  intros E. unfold origin_key, origin_peer. destruct (from_file o); [|done].
  rewrite <- !(map_nth peer_public_key). unfold keys in E. by rewrite E.
Qed.

Lemma find_rt_none l k :
  (forall o, In o l -> from_file o = false -> rt_key o <> k) -> find_rt l k = None.
Proof.
  induction l as [|o l IH]; intros H; simpl; [done|].
  destruct (from_file o) eqn:E; simpl; [apply IH; intros; apply H; [by right|done]|].
  rewrite bool_decide_false by (apply H; [by left|done]).
  apply IH. intros. apply H; [by right|done].
Qed.

Lemma find_rt_other o l k : (from_file o = false -> rt_key o <> k) -> find_rt (o :: l) k = find_rt l k.
Proof.
  intros H. simpl. destruct (from_file o); simpl; [done|]. by rewrite bool_decide_false by auto.
Qed.

(** A turn at an entry of the interface whose peer the file has. *)
Lemma sync_step_match prepended file o fo f :
  from_file o = false -> from_file fo = true -> file !! po_peer fo = Some f ->
  rt_key o = peer_public_key f ->
  sync_step runtime o (Some fo) (prepended, file)
  = (prepended, <[po_peer fo := adjust (rt_peer o) f]> file).
Proof.
  intros Ho Hfo Hf Hk. unfold sync_step. cbv zeta. rewrite Ho, Hfo, origin_key_rt by done.
  assert (Hp : origin_peer runtime file fo = f).
  { unfold origin_peer. rewrite Hfo. by apply nth_lookup_Some. }
  unfold origin_key. rewrite Hp, Hk, memcmp_refl. cbn [andb Z.eqb]. f_equal.
  assert (Ho' : origin_peer runtime file o = rt_peer o) by (unfold origin_peer; by rewrite Ho).
  rewrite Ho', Hp. unfold adjust. cbv zeta.
  destruct (has_flag (peer_flags (rt_peer o)) _ && _).
  - assert (Hp' : origin_peer runtime (<[po_peer fo:=clear_preshared_key f]> file) fo
                  = clear_preshared_key f).
    { unfold origin_peer. rewrite Hfo. apply nth_lookup_Some, list_lookup_insert_eq.
      by eapply lookup_lt_Some. }
    rewrite Hp'. destruct (negb _ && _); [|done]. by rewrite list_insert_insert_eq.
  - rewrite Hp. destruct (negb _ && _); [done|]. by rewrite list_insert_id.
Qed.

Lemma sync_step_unmatched prepended file o next :
  keys_ok file -> keys_ok runtime -> from_file o = false -> rt_key o ∉ keys file ->
  (forall o', next = Some o' -> valid_origin file o') ->
  sync_step runtime o next (prepended, file) = (removal (rt_key o) :: prepended, file).
Proof.
  intros Kf Kr Ho Hk Hv. unfold sync_step. rewrite Ho, origin_key_rt by done.
  destruct next as [o'|]; [|done]. specialize (Hv o' eq_refl).
  destruct (from_file o') eqn:Ef; [|done]. cbn [andb].
  destruct (Z.eqb_spec (memcmp (rt_key o) (origin_key runtime file o')) 0) as [E|]; [|done].
  exfalso. apply Hk. rewrite <- (origin_key_rt file) in E |- * by done.
  apply (memcmp_zero file Kf Kr) in E. rewrite E. unfold origin_key, origin_peer, valid_origin in *.
  rewrite Ef in *. apply list_elem_of_In. unfold keys. apply in_map. by apply nth_In.
Qed.

Context (file0 : list wgpeer).
Context (Kf : keys_ok file0) (Kr : keys_ok runtime).
Context (Nf : NoDup (keys file0)) (Nr : NoDup (keys runtime)).

Lemma keys_ok_keys file : keys file = keys file0 -> keys_ok file.
Proof.
  intros E. unfold keys_ok in *. apply (Forall_map peer_public_key (fun k => length k = WG_KEY_LEN)).
  unfold keys in E. rewrite E. by apply Forall_map.
Qed.

Lemma sync_loop_spec : forall l pre prepended file,
  StronglySorted (fun x y => peer_cmp runtime file0 x y <= 0) (pre ++ l) ->
  Permutation (pre ++ l) (origins runtime file0) ->
  keys file = keys file0 ->
  sync_loop runtime l (prepended, file) =
  (rev (map removal (only_runtime (keys file0) l)) ++ prepended,
   map (fun f => adjust_by (find_rt l (peer_public_key f)) f) file).
Proof.
  induction l as [|o next IH]; intros pre prepended file Hs Hp Hk.
  { simpl. by rewrite map_id. }
  assert (Hs' : StronglySorted (fun x y => peer_cmp runtime file0 x y <= 0) ((pre ++ [o]) ++ next))
    by (by rewrite <- app_assoc).
  assert (Hp' : Permutation ((pre ++ [o]) ++ next) (origins runtime file0)) by (by rewrite <- app_assoc).
  assert (Hvalid : forall x, In x (o :: next) -> valid_origin file0 x).
  { intros x Hx. apply in_origins. eapply Permutation_in; [exact Hp|]. apply in_app_iff. by right. }
  cbn [sync_loop]. unfold only_runtime. cbn [List.filter].
  destruct (from_file o) eqn:Ho; cbn [negb andb].
  { replace (sync_step runtime o (head next) (prepended, file)) with (prepended, file)
      by (unfold sync_step; by rewrite Ho).
    rewrite (IH (pre ++ [o])) by done. f_equal. apply map_ext. intros f.
    rewrite find_rt_other; [done|]. congruence. }
  assert (Hnone : find_rt next (rt_key o) = None).
  { apply find_rt_none. intros o' Ho' Ef E.
    assert (Hnd : NoDup (pre ++ o :: next)) by (rewrite Hp; apply origins_NoDup).
    apply NoDup_app in Hnd as (_ & _ & Hnd). inversion_clear Hnd as [|? ? Hni _].
    apply Hni, list_elem_of_In. replace o with o'; [done|].
    apply (same_origin file0); try done; [apply Hvalid; by right|apply Hvalid; by left|congruence|].
    by rewrite !origin_key_rt. }
  destruct (decide (rt_key o ∈ keys file0)) as [Hin|Hni].
  - rewrite bool_decide_false by tauto.
    rewrite <- Hk in Hin. unfold keys in Hin. apply list_elem_of_fmap in Hin as (f & Ekf & Hinf).
    apply list_elem_of_lookup in Hinf as [j Hj].
    assert (Hlen : length file = length file0)
      by (apply (f_equal length) in Hk; unfold keys in Hk; by rewrite !length_map in Hk).
    set (fo := {| po_peer := j; from_file := true |}).
    assert (Hkfo : origin_key runtime file fo = peer_public_key f).
    { unfold origin_key, origin_peer. simpl. f_equal. by apply nth_lookup_Some. }
    assert (Hh : head next = Some fo).
    { apply (adjacent file0 pre o next fo); try done.
      - unfold valid_origin. simpl. rewrite <- Hlen. by eapply lookup_lt_Some.
      - rewrite origin_key_rt, <- (origin_key_keys file file0), Hkfo by done. done. }
    rewrite Hh, (sync_step_match _ _ _ fo f) by done. cbn [po_peer fo].
    assert (Hk' : keys (<[j := adjust (rt_peer o) f]> file) = keys file0).
    { rewrite <- Hk. unfold keys. etransitivity; [apply (list_fmap_insert peer_public_key)|].
      apply list_insert_id.
      by rewrite list_lookup_fmap, Hj, adjust_key. }
    rewrite (IH (pre ++ [o])) by done. f_equal. apply list_eq. intros i.
    rewrite !list_lookup_fmap. destruct (decide (i = j)) as [->|Hij].
    + rewrite list_lookup_insert_eq, Hj by (by eapply lookup_lt_Some).
      cbn [fmap option_fmap option_map]. f_equal. rewrite adjust_key, <- Ekf, Hnone.
      cbn [find_rt]. rewrite Ho. by rewrite bool_decide_true.
    + rewrite list_lookup_insert_ne by done. destruct (file !! i) as [g|] eqn:Hg; [|done].
      cbn [fmap option_fmap option_map]. f_equal. rewrite find_rt_other; [done|].
      intros _ E. apply Hij. eapply (NoDup_lookup (keys file)); [by rewrite Hk| |].
      * unfold keys. rewrite list_lookup_fmap, Hg. done.
      * unfold keys. rewrite list_lookup_fmap, Hj. simpl. congruence.
  - rewrite bool_decide_true by done. cbn [map rev].
    rewrite sync_step_unmatched; try done.
    + rewrite (IH (pre ++ [o])) by done. rewrite <- app_assoc. f_equal.
      apply list_eq. intros i. rewrite !list_lookup_fmap.
      destruct (file !! i) as [g|] eqn:Hg; [|done]. cbn [fmap option_fmap option_map]. f_equal.
      rewrite find_rt_other; [done|]. intros _ E. apply Hni. rewrite E, <- Hk.
      unfold keys. apply list_elem_of_fmap. exists g. split; [done|]. by eapply list_elem_of_lookup_2.
    + by apply keys_ok_keys.
    + by rewrite Hk.
    + intros o' E. destruct next as [|o2 next]; [done|]. injection E as <-.
      assert (Hv : valid_origin file0 o2) by (apply Hvalid; right; by left).
      unfold valid_origin in *. apply (f_equal length) in Hk. unfold keys in Hk.
      rewrite !length_map in Hk. destruct (from_file o2); [by rewrite Hk|done].
Qed.

(** ** The whole array *)

Definition peer_of (l : list wgpeer) (k : list Z) : option wgpeer :=
  List.find (fun p => bool_decide (peer_public_key p = k)) l.

Lemma peer_of_unique l k p :
  NoDup (keys l) -> p ∈ l -> peer_public_key p = k -> peer_of l k = Some p.
Proof.
  intros Hnd Hin Hk. induction l as [|q l IH]; [by apply not_elem_of_nil in Hin|].
  unfold keys in Hnd. simpl in Hnd. inversion_clear Hnd as [|? ? Hni Hnd'].
  unfold peer_of. simpl. apply list_elem_of_In in Hin as [->|Hin].
  - by rewrite bool_decide_true.
  - rewrite bool_decide_false; [apply IH; [done|by apply list_elem_of_In]|].
    intros E. apply Hni. rewrite E, <- Hk. by apply list_elem_of_In, in_map.
Qed.

Lemma find_rt_peer_of l k :
  Permutation l (origins runtime file0) -> find_rt l k = peer_of runtime k.
Proof.
  intros Hp. destruct (find_rt l k) as [r|] eqn:E.
  - symmetry. assert (Hr : exists o, In o l /\ from_file o = false /\ rt_peer o = r /\ rt_key o = k).
    { clear Hp. induction l as [|o l IH]; [done|]. simpl in E.
      destruct (from_file o) eqn:Ef; simpl in E.
      - destruct (IH E) as (o' & ? & ?). exists o'. split; [by right|done].
      - destruct (bool_decide_reflect (rt_key o = k)) as [Hk|Hk].
        + injection E as <-. exists o. split; [by left|done].
        + destruct (IH E) as (o' & ? & ?). exists o'. split; [by right|done]. }
    destruct Hr as (o & Ho & Ef & <- & Hk).
    apply peer_of_unique; [done| |done]. apply (Permutation_in _ Hp), in_origins in Ho.
    unfold valid_origin in Ho. rewrite Ef in Ho. apply list_elem_of_In. by apply nth_In.
  - unfold peer_of. symmetry.
    destruct (List.find _ runtime) as [r|] eqn:Er; [exfalso|done].
    apply find_some in Er as [Hin Hk%bool_decide_eq_true].
    apply list_elem_of_In, list_elem_of_lookup in Hin as [i Hi].
    set (o := {| po_peer := i; from_file := false |}).
    assert (Ho : In o l).
    { eapply Permutation_in; [symmetry; exact Hp|]. apply in_origins. by eapply lookup_lt_Some. }
    assert (Hko : rt_key o = k) by (unfold rt_key, rt_peer; simpl; by rewrite (nth_lookup_Some _ _ _ _ Hi)).
    clear -E Ho Hko. induction l as [|o' l IH]; [done|]. simpl in E. destruct Ho as [->|Ho].
    + simpl in E. by rewrite bool_decide_true in E.
    + destruct (negb (from_file o') && bool_decide (rt_key o' = k)); [done|]. auto.
Qed.

Lemma only_runtime_perm l :
  Permutation l (origins runtime file0) ->
  Permutation (only_runtime (keys file0) l)
    (List.filter (fun k => bool_decide (k ∉ keys file0)) (keys runtime)).
Proof.
  intros Hp. unfold only_runtime.
  etransitivity; [apply Permutation_map, filter_Permutation, Hp|]. unfold origins.
  rewrite List.filter_app, map_app.
  replace (List.filter _ (map (fun i => {| po_peer := i; from_file := true |}) _)) with (@nil peer_origin).
  2: { symmetry. generalize (seq 0 (length file0)). intros s. induction s; simpl; done. }
  cbn [map app]. unfold keys at 2. clear.
  assert (H : forall n m, (n + m = length runtime)%nat ->
    map rt_key (List.filter (fun o => negb (from_file o) && bool_decide (rt_key o ∉ keys file0))
      (map (fun i => {| po_peer := i; from_file := false |}) (seq n m))) =
    List.filter (fun k => bool_decide (k ∉ keys file0)) (map peer_public_key (drop n runtime))).
  { intros n m. revert n. induction m as [|m IH]; intros n Hn; simpl.
    - rewrite drop_ge by lia. done.
    - destruct (lookup_lt_is_Some_2 runtime n) as [r Hr]; [lia|].
      rewrite (drop_S _ _ _ Hr). simpl.
      assert (Hk : rt_key {| po_peer := n; from_file := false |} = peer_public_key r)
        by (unfold rt_key, rt_peer; simpl; by rewrite (nth_lookup_Some _ _ _ _ Hr)).
      rewrite Hk. destruct (bool_decide _); simpl; rewrite IH by lia; [by rewrite Hk|done]. }
  specialize (H 0%nat (length runtime) eq_refl). rewrite drop_0 in H.
  transitivity (List.filter (fun k => bool_decide (k ∉ keys file0)) (map peer_public_key runtime)); [|done].
  rewrite <- H. reflexivity.
Qed.

End Sync.

(** ** The interface's view

    What a device keeps per peer of what the flags of a request control, after
    the description of the requests in uapi/linux/linux/wireguard.h: replacing
    peers empties the table, a removed peer is deleted, and a preshared key or
    an interval is kept unless the request carries one. *)
Record kconf := { kc_preshared_key : list Z; kc_keepalive : Z }.

Definition kc_default : kconf := {| kc_preshared_key := zero_key; kc_keepalive := 0 |}.

Definition kc_update (p : wgpeer) (old : option kconf) : kconf :=
  let old := default kc_default old in
  {| kc_preshared_key := if has_flag (peer_flags p) WGPEER_HAS_PRESHARED_KEY
                         then peer_preshared_key p else kc_preshared_key old;
     kc_keepalive := if has_flag (peer_flags p) WGPEER_HAS_PERSISTENT_KEEPALIVE_INTERVAL
                     then peer_persistent_keepalive_interval p else kc_keepalive old |}.

Definition apply_peer (m : gmap (list Z) kconf) (p : wgpeer) : gmap (list Z) kconf :=
  if has_flag (peer_flags p) WGPEER_REMOVE_ME then delete (peer_public_key p) m
  else <[peer_public_key p := kc_update p (m !! peer_public_key p)]> m.

Definition apply_device (m : gmap (list Z) kconf) (d : wgdevice) : gmap (list Z) kconf :=
  fold_left apply_peer (dev_peers d)
    (if has_flag (dev_flags d) WGDEVICE_REPLACE_PEERS then ∅ else m).

(** The table a device reports. *)
Definition conf_of (l : list wgpeer) : gmap (list Z) kconf :=
  list_to_map (map (fun r => (peer_public_key r,
    {| kc_preshared_key := if has_flag (peer_flags r) WGPEER_HAS_PRESHARED_KEY
                           then peer_preshared_key r else zero_key;
       kc_keepalive := peer_persistent_keepalive_interval r |})) l).

Definition no_remove (l : list wgpeer) : Prop :=
  Forall (fun p => has_flag (peer_flags p) WGPEER_REMOVE_ME = false) l.

Lemma peer_of_None l k : peer_of l k = None <-> k ∉ keys l.
Proof.
  unfold peer_of, keys. split.
  - intros H (p & -> & Hp)%list_elem_of_fmap. apply list_elem_of_In in Hp.
    pose proof (find_none _ _ H p Hp) as E. simpl in E. by rewrite bool_decide_true in E.
  - intros H. destruct (List.find _ l) as [p|] eqn:E; [|done].
    apply find_some in E as [Hin <-%bool_decide_eq_true]. exfalso. apply H.
    by apply list_elem_of_In, in_map.
Qed.

Lemma apply_removals ks : forall m k,
  fold_left apply_peer (map removal ks) m !! k = if bool_decide (k ∈ ks) then None else m !! k.
Proof.
  induction ks as [|k' ks IH]; intros m k; simpl; [done|].
  rewrite IH. unfold apply_peer.
  change (has_flag (peer_flags (removal k')) WGPEER_REMOVE_ME) with true. cbv iota.
  change (peer_public_key (removal k')) with k'.
  destruct (decide (k = k')) as [->|Hne].
  - rewrite lookup_delete_eq, (bool_decide_true (k' ∈ k' :: ks)) by (by left). by case_match.
  - rewrite lookup_delete_ne by done.
    destruct (bool_decide_reflect (k ∈ ks)) as [Hin|Hni].
    + by rewrite bool_decide_true by (by right).
    + rewrite bool_decide_false; [done|]. by intros [?|?]%elem_of_cons.
Qed.

Lemma apply_peers l : NoDup (keys l) -> no_remove l -> forall m k,
  fold_left apply_peer l m !! k =
  match peer_of l k with Some p => Some (kc_update p (m !! k)) | None => m !! k end.
Proof.
  induction l as [|p l IH]; intros Hnd Hrm m k; simpl; [done|].
  unfold keys in Hnd. simpl in Hnd. inversion_clear Hnd as [|? ? Hni Hnd'].
  inversion_clear Hrm as [|? ? Hp Hrm']. rewrite IH by done.
  unfold apply_peer. rewrite Hp. unfold peer_of at 2. simpl.
  destruct (bool_decide_reflect (peer_public_key p = k)) as [<-|Hne].
  - rewrite (proj2 (peer_of_None l _)) by done. by rewrite lookup_insert_eq.
  - by rewrite lookup_insert_ne by done.
Qed.

Lemma conf_of_lookup l k : NoDup (keys l) ->
  conf_of l !! k = (fun r =>
    {| kc_preshared_key := if has_flag (peer_flags r) WGPEER_HAS_PRESHARED_KEY
                           then peer_preshared_key r else zero_key;
       kc_keepalive := peer_persistent_keepalive_interval r |}) <$> peer_of l k.
Proof.
  intros _. unfold conf_of, peer_of. induction l as [|p l IH]; simpl; [done|].
  destruct (bool_decide_reflect (peer_public_key p = k)) as [<-|Hne].
  - by rewrite lookup_insert_eq.
  - by rewrite lookup_insert_ne by done.
Qed.

(** Adjusting the file's node makes what the interface kept irrelevant. *)
Lemma has_flag_set m f k : 0 <= k -> 0 <= m -> m <> k ->
  has_flag (set_flag (Z.shiftl 1 m) f) (Z.shiftl 1 k) = has_flag f (Z.shiftl 1 k).
Proof. intros. rewrite has_set_flag by done. by destruct (Z.eqb_spec m k). Qed.

Lemma has_flag_set_same f k : 0 <= k -> has_flag (set_flag (Z.shiftl 1 k) f) (Z.shiftl 1 k) = true.
Proof. intros. by rewrite has_set_flag, Z.eqb_refl. Qed.

(** Setting one of the peer flags tells nothing about another. *)
Lemma flag_psk_remove f :
  has_flag (set_flag WGPEER_HAS_PRESHARED_KEY f) WGPEER_REMOVE_ME = has_flag f WGPEER_REMOVE_ME.
Proof. by apply (has_flag_set 3 f 0). Qed.
Lemma flag_ka_remove f :
  has_flag (set_flag WGPEER_HAS_PERSISTENT_KEEPALIVE_INTERVAL f) WGPEER_REMOVE_ME
  = has_flag f WGPEER_REMOVE_ME.
Proof. by apply (has_flag_set 4 f 0). Qed.
Lemma flag_psk_ka f :
  has_flag (set_flag WGPEER_HAS_PRESHARED_KEY f) WGPEER_HAS_PERSISTENT_KEEPALIVE_INTERVAL
  = has_flag f WGPEER_HAS_PERSISTENT_KEEPALIVE_INTERVAL.
Proof. by apply (has_flag_set 3 f 4). Qed.
Lemma flag_ka_psk f :
  has_flag (set_flag WGPEER_HAS_PERSISTENT_KEEPALIVE_INTERVAL f) WGPEER_HAS_PRESHARED_KEY
  = has_flag f WGPEER_HAS_PRESHARED_KEY.
Proof. by apply (has_flag_set 4 f 3). Qed.
Lemma flag_psk_psk f : has_flag (set_flag WGPEER_HAS_PRESHARED_KEY f) WGPEER_HAS_PRESHARED_KEY = true.
Proof. by apply (has_flag_set_same f 3). Qed.
Lemma flag_ka_ka f :
  has_flag (set_flag WGPEER_HAS_PERSISTENT_KEEPALIVE_INTERVAL f)
    WGPEER_HAS_PERSISTENT_KEEPALIVE_INTERVAL = true.
Proof. by apply (has_flag_set_same f 4). Qed.
Lemma flag_clear_replace f :
  has_flag (clear_flag WGDEVICE_REPLACE_PEERS f) WGDEVICE_REPLACE_PEERS = false.
Proof. pose proof (has_clear_flag f 0 0 ltac:(lia) ltac:(lia)) as H. exact H. Qed.

Create Rewrite HintDb peer_flags.
#[local] Hint Rewrite flag_psk_remove flag_ka_remove flag_psk_ka flag_ka_psk flag_psk_psk flag_ka_ka
  : peer_flags.

Lemma adjust_no_remove r f :
  has_flag (peer_flags (adjust r f)) WGPEER_REMOVE_ME = has_flag (peer_flags f) WGPEER_REMOVE_ME.
Proof.
  unfold adjust. cbv zeta. repeat case_match; unfold clear_preshared_key, clear_keepalive;
    cbn [peer_flags with_peer_flags with_preshared_key with_keepalive];
    autorewrite with peer_flags; done.
Qed.

Lemma adjust_update r f :
  kc_update (adjust r f)
    (Some {| kc_preshared_key := if has_flag (peer_flags r) WGPEER_HAS_PRESHARED_KEY
                                 then peer_preshared_key r else zero_key;
             kc_keepalive := peer_persistent_keepalive_interval r |}) = kc_update f None.
Proof.
  unfold kc_update, adjust. cbv zeta. cbn [default kc_preshared_key kc_keepalive kc_default].
  destruct (has_flag (peer_flags r) WGPEER_HAS_PRESHARED_KEY) eqn:E1,
    (has_flag (peer_flags f) WGPEER_HAS_PRESHARED_KEY) eqn:E2; cbn [andb negb];
  destruct (Z.eqb_spec (peer_persistent_keepalive_interval r) 0) as [E3|E3]; cbn [andb negb];
  unfold clear_preshared_key, clear_keepalive;
  cbn [peer_flags with_peer_flags with_preshared_key with_keepalive]; autorewrite with peer_flags;
  destruct (has_flag (peer_flags f) WGPEER_HAS_PERSISTENT_KEEPALIVE_INTERVAL) eqn:E4; cbn [negb];
  cbn [peer_flags peer_preshared_key peer_persistent_keepalive_interval with_peer_flags
       with_preshared_key with_keepalive];
  autorewrite with peer_flags; rewrite ?E2, ?E4, ?E3; done.
Qed.

Section Command.
Context `{P : Platform} `{W : World} `{I : Ipc Sys} `{Q : Qsort} `{QOK : !QsortOk}.

(** What [sync_conf] makes of the peers of the file. *)
Definition synced (ks : list (list Z)) (rt file : list wgpeer) : list wgpeer :=
  map removal ks ++ map (fun f => adjust_by (peer_of rt (peer_public_key f)) f) file.

Lemma sync_conf_peers sys file ret rt sys' :
  ipc_get_device sys (dev_name file) = Ret (ret, Some rt, sys') -> ret = 0 ->
  dev_peers file <> [] -> dev_peers rt <> [] ->
  keys_ok (dev_peers file) -> keys_ok (dev_peers rt) ->
  NoDup (keys (dev_peers file)) -> NoDup (keys (dev_peers rt)) ->
  exists ks, Permutation ks
      (List.filter (fun k => bool_decide (k ∉ keys (dev_peers file))) (keys (dev_peers rt))) /\
    sync_conf sys file =
      Ret (Some (with_peers (synced ks (dev_peers rt) (dev_peers file))
                  (with_dev_flags (clear_flag WGDEVICE_REPLACE_PEERS) file)), sys').
Proof.
  intros E -> Hf Hr Kf Kr Nf Nr. unfold sync_conf.
  destruct (dev_peers file) as [|f0 fp'] eqn:Efp; [done|].
  destruct (dev_peers rt) as [|r0 rp'] eqn:Erp; [done|].
  set (fp := f0 :: fp') in *. set (rp := r0 :: rp') in *.
  set (l := qsort (peer_cmp rp fp) (origins rp fp)).
  assert (Hp : Permutation l (origins rp fp)) by apply qsort_perm.
  assert (Hs : StronglySorted (fun x y => peer_cmp rp fp x y <= 0) l).
  { apply qsort_sorted; intros; [by eapply cmp_trans|by apply cmp_total]. }
  exists (rev (only_runtime rp (keys fp) l)). split.
  { rewrite <- Permutation_rev. by apply only_runtime_perm. }
  rewrite E. cbn [mbind outcome_bind]. simpl (negb _). cbv iota. rewrite Erp. unfold rp at 1. cbv iota zeta. fold fp rp l.
  rewrite (sync_loop_spec rp fp Kf Kr Nf Nr l []) by done. do 2 f_equal.
  unfold synced. rewrite app_nil_r, map_rev. f_equal. f_equal. f_equal.
  apply map_ext. intros f. by rewrite (find_rt_peer_of rp fp).
Qed.

(** [sync_conf] on a file and an interface that both have peers: the replace
    flag is dropped; a removal is put in front for exactly the peers that only the
    interface has; the file's own nodes stay in place and in order, changed only
    where the interface has a preshared key or a keep-alive interval the file does
    not mention. (C23) *)
Theorem sync_conf_result sys file rt sys' :
  ipc_get_device sys (dev_name file) = Ret (0, Some rt, sys') ->
  dev_peers file <> [] -> dev_peers rt <> [] ->
  keys_ok (dev_peers file) -> keys_ok (dev_peers rt) ->
  NoDup (keys (dev_peers file)) -> NoDup (keys (dev_peers rt)) ->
  exists ks file', sync_conf sys file = Ret (Some file', sys') /\
    (forall k, In k ks <-> In k (keys (dev_peers rt)) /\ ~ In k (keys (dev_peers file))) /\
    NoDup ks /\
    has_flag (dev_flags file') WGDEVICE_REPLACE_PEERS = false /\
    dev_peers file' = map removal ks ++
      map (fun f => match peer_of (dev_peers rt) (peer_public_key f) with
                    | Some r => adjust r f
                    | None => f
                    end) (dev_peers file).
Proof.
  intros E Hf Hr Kf Kr Nf Nr.
  destruct (sync_conf_peers sys file 0 rt sys' E eq_refl Hf Hr Kf Kr Nf Nr) as (ks & Hp & ->).
  exists ks. eexists. split; [done|]. split; [|split; [|split]].
  - intros k. split.
    + intros Hk%(Permutation_in _ Hp). apply filter_In in Hk as [? Hk%bool_decide_eq_true].
      split; [done|]. by rewrite <- list_elem_of_In.
    + intros [H1 H2]. eapply Permutation_in; [symmetry; exact Hp|]. apply filter_In.
      split; [done|]. apply bool_decide_eq_true. by rewrite list_elem_of_In.
  - rewrite Hp. apply NoDup_ListNoDup, List.NoDup_filter, NoDup_ListNoDup. done.
  - cbn [dev_flags with_peers with_dev_flags]. apply flag_clear_replace.
  - done.
Qed.


End Command.
(** ** Instances for the witnesses: insertion sort, and a system that is one
    device. *)
Fixpoint insert_sorted {A} (cmp : A -> A -> Z) (x : A) (l : list A) : list A :=
  match l with
  | [] => [x]
  | y :: l' => if cmp x y <=? 0 then x :: l else y :: insert_sorted cmp x l'
  end.
Definition insertion_sort : Qsort := fun A cmp l => fold_right (insert_sorted cmp) [] l.

Lemma insert_sorted_perm {A} (cmp : A -> A -> Z) x l : Permutation (insert_sorted cmp x l) (x :: l).
Proof.
  induction l as [|y l IH]; simpl; [done|]. destruct (cmp x y <=? 0); [done|].
  rewrite IH. constructor.
Qed.

Lemma insertion_sort_ok : QsortOk (Q := insertion_sort).
Proof.
  split.
  - intros A cmp l. unfold qsort, insertion_sort. induction l as [|x l IH]; simpl; [done|].
    by rewrite insert_sorted_perm, IH.
  - intros A cmp l. unfold qsort, insertion_sort.
    induction l as [|x l IH]; intros Ht Htot; simpl; [constructor|].
    assert (Hp : Permutation (fold_right (insert_sorted cmp) [] l) l).
    { clear. induction l as [|x l IH]; simpl; [done|]. by rewrite insert_sorted_perm, IH. }
    assert (Hs : StronglySorted (fun x y => cmp x y <= 0) (fold_right (insert_sorted cmp) [] l)).
    { apply IH; [intros a b c Ha Hb Hc; apply (Ht a b c); by right|].
      intros a b Ha Hb. apply Htot; by right. }
    assert (Hin : forall y, In y (fold_right (insert_sorted cmp) [] l) -> In y (x :: l)).
    { intros y Hy. right. by eapply Permutation_in. }
    revert Hs Hin. generalize (fold_right (insert_sorted cmp) [] l) at 1 2 3.
    clear IH Hp. intros s. induction s as [|y s IHs]; intros Hs Hin; simpl; [by repeat constructor|].
    inversion_clear Hs as [|? ? Hs' Hy]. destruct (Z.leb_spec (cmp x y) 0) as [Hle|Hlt].
    + constructor; [by constructor|]. constructor; [done|].
      rewrite Forall_forall in Hy |- *. intros z Hz. apply (Ht x y z); try done.
      * by left.
      * apply Hin. by left.
      * apply Hin. right. by apply list_elem_of_In.
      * by apply Hy.
    + constructor; [apply IHs; [done|]; intros; apply Hin; by right|].
      rewrite insert_sorted_perm. constructor; [|done].
      destruct (Htot x y); [by left|apply Hin; by left|lia|done].
Qed.

Definition one_device : Ipc wgdevice :=
  {| ipc_list_devices := fun d => (Some [dev_name d], d);
     ipc_get_device := fun d _ => Ret (0, Some d, d);
     ipc_set_device := fun d _ => (0, d) |}.

Definition sample_file : wgdevice :=
  with_peers [with_peer_flags (set_flag WGPEER_HAS_PUBLIC_KEY) (with_public_key sample_key zero_peer);
              with_peer_flags (set_flag WGPEER_HAS_PUBLIC_KEY) (with_public_key zero_key zero_peer)]
    (with_dev_flags (set_flag WGDEVICE_REPLACE_PEERS) (with_dev_name (str "wg0") zero_device)).

Lemma sync_conf_result_witness : exists ks file',
  sync_conf (I := one_device) (Q := insertion_sort) sample_device sample_file
    = Ret (Some file', sample_device) /\
  (forall k, In k ks <-> In k (keys (dev_peers sample_device)) /\
                         ~ In k (keys (dev_peers sample_file))) /\
  NoDup ks /\ has_flag (dev_flags file') WGDEVICE_REPLACE_PEERS = false /\
  dev_peers file' = map removal ks ++
    map (fun f => match peer_of (dev_peers sample_device) (peer_public_key f) with
                  | Some r => adjust r f
                  | None => f
                  end) (dev_peers sample_file).
Proof.
  apply (sync_conf_result (I := one_device) (Q := insertion_sort) (QOK := insertion_sort_ok)
    sample_device sample_file sample_device sample_device).
  - reflexivity.
  - discriminate.
  - discriminate.
  - repeat constructor.
  - repeat constructor.
  - refine (bool_decide_unpack _ _). vm_compute. exact Logic.I.
  - refine (bool_decide_unpack _ _). vm_compute. exact Logic.I.
Defined.


End SetconfFacts.
