(* ===== verification/Ipc.v ===== *)
(** * The device interface (src/ipc.c)

    The growing list of interface names, and the three operations of ipc.h,
    each of which goes to the userspace implementation when the interface has a
    socket and to the kernel otherwise. The kernel side is a parameter. *)
From S2P Require Import Prelude Libc Encoding Containers Config IpcSpec Showconf IpcUapi.
From S2P Require Import ConfigFacts IpcUapiFacts Names.
Import Libc IpcUapi.

Module StringList.

(** [struct string_list]: the allocated bytes, [None] where they are
    indeterminate, and the length in use. The capacity is that of the buffer. *)
Record string_list := { sl_buffer : list (option ascii); sl_len : nat }.
Definition sl_cap (l : string_list) : nat := length (sl_buffer l).
Definition sl_empty : string_list := {| sl_buffer := []; sl_len := 0 |}.

(** Writing at an offset; [None] when the bytes do not fit in the buffer. *)
Definition write (buf : list (option ascii)) (off : nat) (s : list ascii) : option (list (option ascii)) :=
  if (off + length s <=? length buf)%nat
  then Some (take off buf ++ map Some s ++ drop (off + length s) buf)
  else None.

Definition realloc (buf : list (option ascii)) (n : nat) : list (option ascii) :=
  take n buf ++ replicate (n - length buf) None.

Definition string_list_add (l : string_list) (s : cstring) : option string_list :=
  let len := S (length s) in
  if (len =? 1)%nat then Some l
  else
    let buffer :=
      if (sl_cap l - sl_len l <=? len)%nat then
        let new_cap := (sl_cap l * 2)%nat in
        let new_cap := if (new_cap <? sl_len l + len + 1)%nat then (sl_len l + len + 1)%nat else new_cap in
        realloc (sl_buffer l) new_cap
      else sl_buffer l in
    match write buffer (sl_len l) (s ++ [NUL]) with
    | None => None
    | Some buffer =>
        match write buffer (sl_len l + len) [NUL] with
        | None => None
        | Some buffer => Some {| sl_buffer := buffer; sl_len := sl_len l + len |}
        end
    end.

Fixpoint string_list_add_all (l : string_list) (names : list cstring) : option string_list :=
  match names with
  | [] => Some l
  | s :: names => match string_list_add l s with
                  | Some l => string_list_add_all l names
                  | None => None
                  end
  end.

(** [strlen] at an offset of the buffer: [None] when it would read past the end
    or an indeterminate byte. *)
Fixpoint read_string (buf : list (option ascii)) : option cstring :=
  match buf with
  | Some c :: r => if Ascii.eqb c NUL then Some [] else s ← read_string r; Some (c :: s)
  | _ => None
  end.

(** The loop of the callers,
    [for (p = list; (len = strlen(p)); p += len + 1)], over what
    [ipc_list_devices] returns; an empty list is a string literal. *)
Fixpoint read_names (fuel : nat) (buf : list (option ascii)) : option (list cstring) :=
  match fuel with
  | O => None
  | S fuel =>
      match read_string buf with
      | None => None
      | Some [] => Some []
      | Some s => r ← read_names fuel (drop (S (length s)) buf); Some (s :: r)
      end
  end.
Definition list_result (l : string_list) : list (option ascii) :=
  match sl_buffer l with [] => [Some NUL; Some NUL] | b => b end.

(** What the buffer holds after adding the names. *)
Definition packed (names : list cstring) : list ascii := concat (map (fun s => s ++ [NUL]) names).

Lemma packed_snoc names s : packed (names ++ [s]) = packed names ++ s ++ [NUL].
Proof. unfold packed. rewrite map_app, concat_app. simpl. by rewrite app_nil_r. Qed.

Definition sl_inv (l : string_list) (names : list cstring) : Prop :=
  (sl_buffer l = [] /\ sl_len l = 0%nat /\ names = []) \/
  exists tail, sl_buffer l = map Some (packed names ++ [NUL]) ++ tail /\
    sl_len l = length (packed names).

Lemma write_app (a b : list (option ascii)) c s :
  length b = length s -> write (a ++ b ++ c) (length a) s = Some (a ++ map Some s ++ c).
Proof.
  intros Hl. unfold write. rewrite !length_app, Hl.
  destruct (Nat.leb_spec (length a + length s) (length a + (length s + length c))); [|lia].
  rewrite take_app_length. f_equal. f_equal. f_equal. rewrite drop_app_add.
  rewrite <- Hl. apply drop_app_length.
Qed.

Lemma split_at (b : list (option ascii)) n : (n <= length b)%nat ->
  exists c d, b = c ++ d /\ length c = n.
Proof. intros Hn. exists (take n b), (drop n b). by rewrite take_drop, length_take_le. Qed.

(** Adding a name keeps the layout and never writes outside the buffer. *)
Lemma string_list_add_inv l names s : sl_inv l names ->
  exists l', string_list_add l s = Some l' /\
    sl_inv l' (if (length s =? 0)%nat then names else names ++ [s]).
Proof.
  intros Hinv. unfold string_list_add. cbv zeta.
  destruct s as [|c s]; [exists l; by split|]. set (str := c :: s).
  change (S (length str) =? 1)%nat with false. change (length str =? 0)%nat with false. cbv iota.
  set (buffer := if (sl_cap l - sl_len l <=? S (length str))%nat then _ else _).
  assert (Hb : exists rest, buffer = map Some (packed names) ++ rest /\
    sl_len l = length (packed names) /\ (length str + 2 <= length rest)%nat).
  { subst buffer. destruct Hinv as [(Eb & El & ->)|(tail & Eb & El)].
    - unfold sl_cap. rewrite Eb, El. cbn [length]. exists (realloc [] (0 + S (length str) + 1)).
      split; [done|]. split; [done|]. unfold realloc. rewrite take_nil. simpl.
      rewrite length_replicate. lia.
    - unfold sl_cap. set (need := (sl_len l + S (length str) + 1)%nat).
      destruct (Nat.leb_spec (length (sl_buffer l) - sl_len l) (S (length str))) as [Hle|Hgt].
      + set (cap := if (length (sl_buffer l) * 2 <? need)%nat then _ else _).
        assert (Hcap : (need <= cap /\ length (sl_buffer l) <= cap)%nat).
        { subst cap. destruct (Nat.ltb_spec (length (sl_buffer l) * 2) need) as [H|H]; clear -H; lia. }
        exists (Some NUL :: tail ++ replicate (cap - length (sl_buffer l)) None). split_and!.
        * unfold realloc. rewrite take_ge by lia. rewrite Eb, map_app, <- !app_assoc. done.
        * done.
        * assert (Hlen : length (sl_buffer l) = (sl_len l + S (length tail))%nat)
            by (rewrite Eb, length_app, length_map, length_app, El; simpl; lia).
          cbn [length]. rewrite length_app, length_replicate. clearbody cap str. subst need. lia.
      + exists (Some NUL :: tail). rewrite Eb, map_app, <- !app_assoc. split_and!; [done|done|].
        rewrite Eb, length_app, length_map, length_app, El in Hgt. clearbody str. simpl in Hgt |- *. lia. }
  destruct Hb as (rest & Eb & El & Hrest). rewrite Eb. clear Eb buffer.
  destruct (split_at rest (length (str ++ [NUL]))) as (r1 & r2 & -> & Hr1).
  { rewrite length_app. simpl in *. lia. }
  rewrite El. rewrite <- (length_map (@Some ascii) (packed names)), write_app by done.
  destruct r2 as [|x r2].
  { rewrite app_nil_r, Hr1, length_app in Hrest. simpl in Hrest. lia. }
  rewrite app_assoc. change (x :: r2) with ([x] ++ r2).
  replace (length (map Some (packed names)) + S (length str))%nat
    with (length (map Some (packed names) ++ map Some (str ++ [NUL])))
    by (rewrite length_app, !length_map, length_app; simpl; lia).
  rewrite write_app by done. eexists. split; [done|]. right. exists r2.
  rewrite packed_snoc. cbn [sl_buffer sl_len]. split.
  - rewrite !map_app, <- !app_assoc. done.
  - rewrite !length_app, ?length_map, ?length_app. simpl. lia.
Qed.

Lemma string_list_add_all_inv added : forall l names, sl_inv l names ->
  exists l', string_list_add_all l added = Some l' /\
    sl_inv l' (names ++ List.filter (fun s => negb (length s =? 0)%nat) added).
Proof.
  induction added as [|s added IH]; intros l names Hinv; simpl.
  { exists l. by rewrite app_nil_r. }
  destruct (string_list_add_inv l names s Hinv) as (l1 & -> & H1).
  destruct (length s =? 0)%nat; simpl; [by apply IH|].
  destruct (IH l1 _ H1) as (l2 & E & H2). exists l2. by rewrite <- app_assoc in H2.
Qed.

Lemma read_string_app s rest : ~ In NUL s -> read_string (map Some s ++ Some NUL :: rest) = Some s.
Proof.
  induction s as [|c s IH]; intros Hn; [done|]. simpl.
  destruct (Ascii.eqb_spec c NUL); [by subst; destruct Hn; left|].
  rewrite IH; [done|]. intros ?. by destruct Hn; right.
Qed.

Lemma read_names_packed names tail : forall fuel, (length names < fuel)%nat ->
  Forall (fun s => s <> [] /\ ~ In NUL s) names ->
  read_names fuel (map Some (packed names ++ [NUL]) ++ tail) = Some names.
Proof.
  induction names as [|s names IH]; intros fuel Hf Hs; (destruct fuel as [|fuel]; [simpl in Hf; lia|]);
    [done|].
  inversion_clear Hs as [|? ? [Hne Hnn] Hs'].
  replace (map Some (packed (s :: names) ++ [NUL]) ++ tail)
    with (map Some s ++ Some NUL :: (map Some (packed names ++ [NUL]) ++ tail)).
  2: { unfold packed. cbn [map concat]. rewrite <- !app_assoc, !map_app, <- !app_assoc. done. }
  cbn [read_names]. rewrite read_string_app by done. destruct s as [|c s]; [done|].
  replace (drop (S (length (c :: s))) (map Some (c :: s) ++ Some NUL :: map Some (packed names ++ [NUL]) ++ tail))
    with (map Some (packed names ++ [NUL]) ++ tail).
  2: { replace (S (length (c :: s))) with (length (map Some (c :: s)) + 1)%nat
         by (rewrite length_map; lia).
       rewrite drop_app_add. done. }
  rewrite IH; [done|simpl in Hf; lia|done].
Qed.

End StringList.
Import StringList.

Module IpcOps.
Section Ops.
Context `{P : Platform} `{W : World}.
Context (curve25519_generate_public : list Z -> list Z) (name_max : nat).
Context {Srv : Type} (serve : Srv -> cstring -> list ascii -> list ascii * Z * Srv).
(** The kernel side: its state and its three operations. *)
Context {K : Type}.
Context (kernel_get_wireguard_interfaces : K -> Z * list cstring).
Context (kernel_get_device : K -> cstring -> Z * option wgdevice).
Context (kernel_set_device : K -> wgdevice -> Z * K).

Record ipc_sys := { is_user : usys Srv; is_kernel : K }.

(** [ipc_list_devices]: what the list points to, and [None] for [NULL]. *)
Definition ipc_list (sys : ipc_sys) : option (list (option ascii)) * ipc_sys :=
  let '(ret, knames) := kernel_get_wireguard_interfaces (is_kernel sys) in
  match string_list_add_all sl_empty knames with
  | None => (None, sys)
  | Some list =>
      if ret <? 0 then (None, sys)
      else
        let '(ret, unames, user) := userspace_get_wireguard_interfaces name_max (is_user sys) in
        let sys := {| is_user := user; is_kernel := is_kernel sys |} in
        match string_list_add_all list unames with
        | None => (None, sys)
        | Some list => (if negb (ret =? 0) then None else Some (list_result list), sys)
        end
  end.

Definition ipc_get (sys : ipc_sys) (iface : cstring) : outcome (Z * option wgdevice * ipc_sys) :=
  let '(has, user) := userspace_has_wireguard_interface name_max (is_user sys) iface in
  let sys := {| is_user := user; is_kernel := is_kernel sys |} in
  if (has : bool) then
    '(ret, out, user) ← userspace_get_device curve25519_generate_public name_max serve user iface;
    Ret (ret, out, {| is_user := user; is_kernel := is_kernel sys |})
  else
    let '(ret, out) := kernel_get_device (is_kernel sys) iface in Ret (ret, out, sys).

Definition ipc_set (sys : ipc_sys) (d : wgdevice) : Z * ipc_sys :=
  let '(has, user) := userspace_has_wireguard_interface name_max (is_user sys) (dev_name d) in
  let sys := {| is_user := user; is_kernel := is_kernel sys |} in
  if (has : bool) then
    let '(ret, user) := userspace_set_device name_max serve user d in
    (ret, {| is_user := user; is_kernel := is_kernel sys |})
  else
    let '(ret, k) := kernel_set_device (is_kernel sys) d in
    (ret, {| is_user := is_user sys; is_kernel := k |}).

(** The instance of ipc.h: the names a caller reads off the returned list. *)
#[export] Instance ipc_c : Ipc ipc_sys := {
  ipc_list_devices sys :=
    let '(l, sys) := ipc_list sys in
    (match l with None => None | Some b => read_names (S (length b)) b end, sys);
  ipc_get_device := ipc_get;
  ipc_set_device := ipc_set
}.

(** ipc.c keeps the contract of ipc.h provided the kernel side does. *)
Lemma ipc_c_ok `{WOK : !WorldOk} :
  (forall k, wf_key (curve25519_generate_public k)) ->
  (forall k iface ret out, kernel_get_device k iface = (ret, out) -> (ret = 0 <-> is_Some out)) ->
  IpcOk ipc_sys.
Proof.
  intros Hc Hk. split. intros sys iface. simpl. unfold ipc_get.
  destruct (userspace_has_wireguard_interface name_max (is_user sys) iface) as [[] user].
  - unfold userspace_get_device.
    destruct (userspace_interface_file name_max user iface) as [err user'] eqn:Ef.
    destruct (Z.eqb_spec err 0) as [->|Hne]; cbn [negb].
    + destruct (serve (us_srv user') iface get_request) as [[reply errno] srv].
      unfold parse_get_reply.
      pose proof (IpcUapiFacts.get_reply_inv curve25519_generate_public Hc
        (getlines reply) _ (IpcUapiFacts.get_init_inv iface)) as H.
      destruct (get_reply curve25519_generate_public (get_init iface) (getlines reply))
        as [[ret d]| | |]; try done.
      simpl. do 3 eexists. split; [done|]. destruct (Z.eqb_spec ret 0); simpl; [naive_solver|].
      split; [done|]. by intros [? ?].
    + simpl. do 3 eexists. split; [done|]. split; [lia|]. by intros [? ?].
  - simpl. destruct (kernel_get_device (is_kernel sys) iface) as [ret out] eqn:E.
    do 3 eexists. split; [done|]. by eapply Hk.
Qed.

(** [ipc_list_devices] never writes or reads outside the buffer it grows, and a
    caller that walks the returned list reads the names of the kernel interfaces
    followed by those of the userspace ones, in order, empty names left out.
    (C26) *)
Theorem ipc_list_devices_names sys knames unames user :
  kernel_get_wireguard_interfaces (is_kernel sys) = (0, knames) ->
  userspace_get_wireguard_interfaces name_max (is_user sys) = (0, unames, user) ->
  Forall (fun s => ~ In NUL s) (knames ++ unames) ->
  fst (ipc_list_devices sys) =
    Some (List.filter (fun s => negb (length s =? 0)%nat) (knames ++ unames)).
Proof.
  intros Ek Eu Hn.
  destruct (string_list_add_all_inv knames sl_empty []) as (l1 & E1 & H1); [by left|].
  destruct (string_list_add_all_inv unames l1 _ H1) as (l2 & E2 & H2).
  assert (Hil : fst (ipc_list sys) = Some (list_result l2)).
  { unfold ipc_list. rewrite Ek, E1. simpl (0 <? 0). cbv iota. rewrite Eu, E2. done. }
  cbn [ipc_c ipc_list_devices]. destruct (ipc_list sys) as [b sys']. cbn [fst] in Hil |- *. subst b.
  cbn [app] in H2. rewrite <- List.filter_app in H2.
  set (names := List.filter _ (knames ++ unames)) in *.
  assert (Hnames : Forall (fun s => s <> [] /\ ~ In NUL s) names).
  { apply Forall_forall. intros s Hs%list_elem_of_In. apply filter_In in Hs as [Hin Hl].
    rewrite Forall_forall in Hn. split; [by intros ->|]. by apply Hn, list_elem_of_In. }
  destruct H2 as [(Eb & _ & Hnil)|(tail & Eb & El)].
  - unfold list_result. rewrite Eb, Hnil. done.
  - assert (Hr : list_result l2 = map Some (packed names ++ [NUL]) ++ tail).
    { unfold list_result. rewrite Eb. by destruct (packed names). }
    rewrite Hr. apply read_names_packed; [|done].
    rewrite length_app, length_map, length_app.
    assert (Hlen : (length names <= length (packed names))%nat).
    { clear. unfold packed. induction names as [|s l IH]; simpl; [lia|].
      rewrite !length_app. simpl. lia. }
    lia.
Qed.

End Ops.

Definition sample_sys : ipc_sys (Srv := unit) (K := unit) :=
  {| is_user := {| us_dir := inl [(str "wg1.sock", {| se_is_sock := true; se_connect := 0 |});
                                  (str "x", {| se_is_sock := false; se_connect := 0 |})];
                   us_socket_errno := 0; us_srv := tt |};
     is_kernel := tt |}.

Lemma ipc_list_devices_names_witness :
  fst (ipc_list_devices (Ipc := ipc_c (W := NumericWorld.numeric_world) (P := arm64)
         (fun k => k) 80 (fun _ _ _ => ([], 0, tt)) (fun _ => (0, [str "wg0"; []]))
         (fun _ _ => (- ENOENT, None)) (fun k _ => (0, k))) sample_sys)
  = Some [str "wg0"; str "wg1"].
Proof.
  apply (ipc_list_devices_names (P := arm64) (W := NumericWorld.numeric_world) (fun k => k) 80
    (fun _ _ _ => ([], 0, tt)) (fun _ => (0, [str "wg0"; []]))
    (fun _ _ => (- ENOENT, None)) (fun k _ => (0, k)) sample_sys
    [str "wg0"; []] [str "wg1"] (is_user sample_sys)).
  - reflexivity.
  - vm_compute. reflexivity.
  - repeat constructor; simpl; intros H; repeat (destruct H as [H|H]; [discriminate H|]); done.
Defined.

End IpcOps.
