(* ===== verification/Netlink.v ===== *)
(** * Netlink messages (src/netlink.h)

    The subset of libmnl the tools carry: building a message attribute by
    attribute, walking the attributes of a received one, and the callback loops
    over what a socket returns. Messages are lists of bytes in the byte order of
    the host, which is little-endian on every Android ABI. A pointer to an
    attribute or a message is the list of bytes from there to the end of what was
    received. The socket calls are a parameter. *)
From S2P Require Import Prelude Libc Encoding Containers IpcUapi.
Import Libc.

Definition EINTR : Z := 4.
Definition ESRCH : Z := 3.
Definition ERANGE : Z := 34.
Definition ENAMETOOLONG : Z := 36.
Definition ENOSYS : Z := 38.
Definition EBADMSG : Z := 74.
Definition EPROTONOSUPPORT : Z := 93.
Definition EOPNOTSUPP : Z := 95.

Module Netlink.

Definition MNL_ALIGNTO : Z := 4.
Definition MNL_ALIGN (len : Z) : Z := Z.land (len + MNL_ALIGNTO - 1) (Z.lnot (MNL_ALIGNTO - 1)).
Definition sizeof_nlmsghdr : Z := 16.
Definition sizeof_nlattr : Z := 4.
Definition sizeof_genlmsghdr : Z := 4.
Definition MNL_NLMSG_HDRLEN : Z := MNL_ALIGN sizeof_nlmsghdr.
Definition MNL_ATTR_HDRLEN : Z := MNL_ALIGN sizeof_nlattr.
Definition NLA_F_NESTED : Z := 0x8000.
Definition NLA_TYPE_MASK : Z := 0x3fff.

Definition MNL_CB_ERROR : Z := -1.
Definition MNL_CB_STOP : Z := 0.
Definition MNL_CB_OK : Z := 1.

(** [mnl_ideal_socket_buffer_size], from the size of a page. *)
Definition mnl_ideal_socket_buffer_size (pagesize : Z) : Z :=
  if 8192 <? pagesize then 8192 else pagesize.

(** ** Building a message *)

(** A message under construction: the header fields and the bytes after the
    header. [nlmsg_len] counts both, and is a multiple of four throughout, so that
    the tail of the payload is the end of these bytes. *)
Record nlmsghdr := {
  nlmsg_type : Z;
  nlmsg_flags : Z;
  nlmsg_seq : Z;
  nlmsg_body : list Z
}.
Definition nlmsg_len (nlh : nlmsghdr) : Z := MNL_NLMSG_HDRLEN + Z.of_nat (length (nlmsg_body nlh)).
Definition with_body (b : list Z) (nlh : nlmsghdr) : nlmsghdr :=
  {| nlmsg_type := nlmsg_type nlh; nlmsg_flags := nlmsg_flags nlh; nlmsg_seq := nlmsg_seq nlh;
     nlmsg_body := b |}.
Definition append (b : list Z) (nlh : nlmsghdr) : nlmsghdr := with_body (nlmsg_body nlh ++ b) nlh.

Definition zeros (n : Z) : list Z := replicate (Z.to_nat n) 0.

(** The bytes that are sent; the port id of the sender is zero. *)
Definition nlmsg_bytes (nlh : nlmsghdr) : list Z :=
  le_bytes 4 (nlmsg_len nlh) ++ le_bytes 2 (nlmsg_type nlh) ++ le_bytes 2 (nlmsg_flags nlh)
  ++ le_bytes 4 (nlmsg_seq nlh) ++ le_bytes 4 0 ++ nlmsg_body nlh.

Definition mnl_nlmsg_put_header : nlmsghdr :=
  {| nlmsg_type := 0; nlmsg_flags := 0; nlmsg_seq := 0; nlmsg_body := [] |}.
Definition mnl_nlmsg_put_extra_header (nlh : nlmsghdr) (size : Z) : nlmsghdr :=
  append (zeros (MNL_ALIGN size)) nlh.

(** [mnl_attr_put]: the header, the data and the padding; the length field has
    16 bits. *)
Definition mnl_attr_put (nlh : nlmsghdr) (type : Z) (data : list Z) : nlmsghdr :=
  let len := Z.of_nat (length data) in
  let payload_len := u16 (MNL_ALIGN sizeof_nlattr + len) in
  append (take (Z.to_nat (MNL_ALIGN payload_len))
            (le_bytes 2 payload_len ++ le_bytes 2 type ++ data ++ zeros (MNL_ALIGN len - len))) nlh.
Definition mnl_attr_put_u16 (nlh : nlmsghdr) (type data : Z) : nlmsghdr :=
  mnl_attr_put nlh type (le_bytes 2 data).
Definition mnl_attr_put_u32 (nlh : nlmsghdr) (type data : Z) : nlmsghdr :=
  mnl_attr_put nlh type (le_bytes 4 data).
Definition mnl_attr_put_strz (nlh : nlmsghdr) (type : Z) (data : cstring) : nlmsghdr :=
  mnl_attr_put nlh type (map uchar data ++ [0]).

Definition mnl_attr_put_check (nlh : nlmsghdr) (buflen type : Z) (data : list Z) : option nlmsghdr :=
  if buflen <? nlmsg_len nlh + MNL_ATTR_HDRLEN + MNL_ALIGN (Z.of_nat (length data)) then None
  else Some (mnl_attr_put nlh type data).
Definition mnl_attr_put_u8_check (nlh : nlmsghdr) (buflen type data : Z) : option nlmsghdr :=
  mnl_attr_put_check nlh buflen type (le_bytes 1 data).
Definition mnl_attr_put_u16_check (nlh : nlmsghdr) (buflen type data : Z) : option nlmsghdr :=
  mnl_attr_put_check nlh buflen type (le_bytes 2 data).
Definition mnl_attr_put_u32_check (nlh : nlmsghdr) (buflen type data : Z) : option nlmsghdr :=
  mnl_attr_put_check nlh buflen type (le_bytes 4 data).

(** Nested attributes: the position of the header in the body. The length field
    is written by [mnl_attr_nest_end]. *)
Definition mnl_attr_nest_start (nlh : nlmsghdr) (type : Z) : nlmsghdr * nat :=
  (append ([0; 0] ++ le_bytes 2 (Z.lor NLA_F_NESTED type)) nlh, length (nlmsg_body nlh)).
Definition mnl_attr_nest_start_check (nlh : nlmsghdr) (buflen type : Z) : option (nlmsghdr * nat) :=
  if buflen <? nlmsg_len nlh + MNL_ATTR_HDRLEN then None else Some (mnl_attr_nest_start nlh type).
Definition mnl_attr_nest_end (nlh : nlmsghdr) (start : nat) : nlmsghdr :=
  with_body (list_inserts start
    (le_bytes 2 (u16 (Z.of_nat (length (nlmsg_body nlh)) - Z.of_nat start))) (nlmsg_body nlh)) nlh.
Definition mnl_attr_nest_cancel (nlh : nlmsghdr) (start : nat) : nlmsghdr :=
  with_body (take start (nlmsg_body nlh)) nlh.

(** ** Walking the attributes *)

Definition field (off n : nat) (bytes : list Z) : Z := le_number (take n (drop off bytes)).

Definition nla_len (attr : list Z) : Z := field 0 2 attr.
Definition mnl_attr_get_type (attr : list Z) : Z := Z.land (field 2 2 attr) NLA_TYPE_MASK.
Definition mnl_attr_get_payload_len (attr : list Z) : Z := u16 (nla_len attr - MNL_ATTR_HDRLEN).
Definition mnl_attr_get_payload (attr : list Z) : list Z := drop (Z.to_nat MNL_ATTR_HDRLEN) attr.

Definition mnl_attr_ok (attr : list Z) (len : Z) : bool :=
  (sizeof_nlattr <=? len) && (sizeof_nlattr <=? nla_len attr) && (nla_len attr <=? len).

Definition mnl_attr_next (attr : list Z) : list Z := drop (Z.to_nat (MNL_ALIGN (nla_len attr))) attr.

Definition mnl_attr_type_valid (attr : list Z) (max errno : Z) : Z * Z :=
  if max <? mnl_attr_get_type attr then (-1, EOPNOTSUPP) else (1, errno).

Inductive mnl_attr_data_type :=
| MNL_TYPE_UNSPEC | MNL_TYPE_U8 | MNL_TYPE_U16 | MNL_TYPE_U32 | MNL_TYPE_U64 | MNL_TYPE_STRING
| MNL_TYPE_FLAG | MNL_TYPE_MSECS | MNL_TYPE_NESTED | MNL_TYPE_NESTED_COMPAT | MNL_TYPE_NUL_STRING
| MNL_TYPE_BINARY.
Definition mnl_attr_data_type_len (type : mnl_attr_data_type) : Z :=
  match type with
  | MNL_TYPE_U8 => 1 | MNL_TYPE_U16 => 2 | MNL_TYPE_U32 => 4 | MNL_TYPE_U64 => 8
  | MNL_TYPE_MSECS => 8
  | _ => 0
  end.

(** [__mnl_attr_validate]: zero or -1, and [errno] afterwards. *)
Definition mnl_attr_validate_len (attr : list Z) (type : mnl_attr_data_type) (exp_len errno : Z) : Z * Z :=
  let attr_len := mnl_attr_get_payload_len attr in
  let attr_data := mnl_attr_get_payload attr in
  if attr_len <? exp_len then (-1, ERANGE)
  else
    let fault :=
      match type with
      | MNL_TYPE_FLAG => if 0 <? attr_len then Some ERANGE else None
      | MNL_TYPE_NUL_STRING =>
          if attr_len =? 0 then Some ERANGE
          else if negb (nth (Z.to_nat (attr_len - 1)) attr_data 0 =? 0) then Some EINVAL else None
      | MNL_TYPE_STRING => if attr_len =? 0 then Some ERANGE else None
      | MNL_TYPE_NESTED =>
          if attr_len =? 0 then None
          else if attr_len <? MNL_ATTR_HDRLEN then Some ERANGE else None
      | _ => None
      end in
    match fault with
    | Some e => (-1, e)
    | None => if negb (exp_len =? 0) && (exp_len <? attr_len) then (-1, ERANGE) else (0, errno)
    end.
Definition mnl_attr_validate (attr : list Z) (type : mnl_attr_data_type) (errno : Z) : Z * Z :=
  mnl_attr_validate_len attr type (mnl_attr_data_type_len type) errno.

Definition mnl_attr_get_u8 (attr : list Z) : Z := field 0 1 (mnl_attr_get_payload attr).
Definition mnl_attr_get_u16 (attr : list Z) : Z := field 0 2 (mnl_attr_get_payload attr).
Definition mnl_attr_get_u32 (attr : list Z) : Z := field 0 4 (mnl_attr_get_payload attr).
Definition mnl_attr_get_u64 (attr : list Z) : Z := field 0 8 (mnl_attr_get_payload attr).
Definition mnl_attr_get_str (attr : list Z) : cstring := cut_nul (map to_char (mnl_attr_get_payload attr)).

Section Walk.
Context {D : Type} (cb : list Z -> D -> Z * D).

(** [for (attr = ...; mnl_attr_ok(attr, ...); attr = mnl_attr_next(attr))]: every
    turn moves at least four bytes on, so the length of the bytes is enough fuel. *)
Fixpoint attr_loop (fuel : nat) (attr : list Z) (len : Z) (ret : Z) (data : D) : Z * D :=
  match fuel with
  | O => (ret, data)
  | S fuel =>
      if negb (mnl_attr_ok attr len) then (ret, data)
      else
        let '(ret, data) := cb attr data in
        if ret <=? MNL_CB_STOP then (ret, data)
        else attr_loop fuel (mnl_attr_next attr) (len - MNL_ALIGN (nla_len attr)) ret data
  end.

Definition mnl_attr_parse_nested (nested : list Z) (data : D) : Z * D :=
  attr_loop (length nested) (mnl_attr_get_payload nested) (mnl_attr_get_payload_len nested)
    MNL_CB_OK data.

End Walk.

(** ** Received messages *)

Definition msg_len (nlh : list Z) : Z := field 0 4 nlh.
Definition msg_type (nlh : list Z) : Z := field 4 2 nlh.
Definition msg_flags (nlh : list Z) : Z := field 6 2 nlh.
Definition msg_seq (nlh : list Z) : Z := field 8 4 nlh.
Definition msg_pid (nlh : list Z) : Z := field 12 4 nlh.
Definition mnl_nlmsg_get_payload (nlh : list Z) : list Z := drop (Z.to_nat MNL_NLMSG_HDRLEN) nlh.
Definition mnl_nlmsg_size (len : Z) : Z := len + MNL_NLMSG_HDRLEN.

Definition mnl_attr_parse {D} (cb : list Z -> D -> Z * D) (nlh : list Z) (offset : Z) (data : D) : Z * D :=
  let start := MNL_NLMSG_HDRLEN + MNL_ALIGN offset in
  attr_loop cb (length nlh) (drop (Z.to_nat start) nlh) (MNL_ALIGN (msg_len nlh) - start) MNL_CB_OK data.

Definition mnl_nlmsg_ok (nlh : list Z) (len : Z) : bool :=
  (sizeof_nlmsghdr <=? len) && (sizeof_nlmsghdr <=? msg_len nlh) && (s32 (msg_len nlh) <=? len).
Definition mnl_nlmsg_seq_ok (nlh : list Z) (seq : Z) : bool :=
  if negb (msg_seq nlh =? 0) && negb (seq =? 0) then msg_seq nlh =? seq else true.
Definition mnl_nlmsg_portid_ok (nlh : list Z) (portid : Z) : bool :=
  if negb (msg_pid nlh =? 0) && negb (portid =? 0) then msg_pid nlh =? portid else true.

Definition NLMSG_NOOP : Z := 1.
Definition NLMSG_ERROR : Z := 2.
Definition NLMSG_DONE : Z := 3.
Definition NLMSG_OVERRUN : Z := 4.
Definition NLMSG_MIN_TYPE : Z := 16.
Definition NLM_F_REQUEST : Z := 1.
Definition NLM_F_MULTI : Z := 2.
Definition NLM_F_ACK : Z := 4.
Definition NLM_F_DUMP_INTR : Z := 16.
Definition NLM_F_DUMP : Z := 0x300.
Definition sizeof_nlmsgerr : Z := 20.

(** The control callbacks: the value returned, and [errno]. *)
Definition from_error (error : Z) : Z * Z :=
  (if error =? 0 then MNL_CB_STOP else MNL_CB_ERROR, if error <? 0 then - error else error).
Definition mnl_cb_error (nlh : list Z) : Z * Z :=
  if msg_len nlh <? mnl_nlmsg_size sizeof_nlmsgerr then (MNL_CB_ERROR, EBADMSG)
  else from_error (s32 (field 0 4 (mnl_nlmsg_get_payload nlh))).
Definition mnlg_cb_stop (nlh : list Z) (errno : Z) : Z * Z :=
  if negb (Z.land (msg_flags nlh) NLM_F_MULTI =? 0) && (msg_len nlh =? mnl_nlmsg_size 4)
  then from_error (s32 (field 0 4 (mnl_nlmsg_get_payload nlh)))
  else (MNL_CB_STOP, errno).

(** Both arrays of control callbacks: libmnl's own, and the one for generic
    netlink; [None] where the array has no entry. *)
Definition default_cb_array (type : Z) (nlh : list Z) (errno : Z) : option (Z * Z) :=
  if type =? NLMSG_NOOP then Some (MNL_CB_OK, errno)
  else if type =? NLMSG_ERROR then Some (mnl_cb_error nlh)
  else if type =? NLMSG_DONE then Some (MNL_CB_STOP, errno)
  else if type =? NLMSG_OVERRUN then Some (MNL_CB_OK, errno)
  else None.
Definition mnlg_cb_array (type : Z) (nlh : list Z) (errno : Z) : option (Z * Z) :=
  if type =? NLMSG_NOOP then Some (MNL_CB_OK, errno)
  else if type =? NLMSG_ERROR then Some (mnl_cb_error nlh)
  else if type =? NLMSG_DONE then Some (mnlg_cb_stop nlh errno)
  else if type =? NLMSG_OVERRUN then Some (MNL_CB_OK, errno)
  else None.

Section Run.
Context {D : Type}.

(** [__mnl_cb_run] over the bytes received: the callback for data, if any, takes
    and returns [errno] beside its data. *)
Fixpoint mnl_cb_run (fuel : nat) (cb_ctl : Z -> list Z -> Z -> option (Z * Z))
  (cb_data : option (list Z -> D * Z -> Z * (D * Z))) (seq portid : Z)
  (nlh : list Z) (len : Z) (ret : Z) (data : D) (errno : Z) : Z * D * Z :=
  match fuel with
  | O => (ret, data, errno)
  | S fuel =>
      if negb (mnl_nlmsg_ok nlh len) then (ret, data, errno)
      else if negb (mnl_nlmsg_portid_ok nlh portid) then (-1, data, ESRCH)
      else if negb (mnl_nlmsg_seq_ok nlh seq) then (-1, data, EPROTO)
      else if negb (Z.land (msg_flags nlh) NLM_F_DUMP_INTR =? 0) then (-1, data, EINTR)
      else
        let next ret data errno :=
          mnl_cb_run fuel cb_ctl cb_data seq portid
            (drop (Z.to_nat (MNL_ALIGN (msg_len nlh))) nlh) (len - MNL_ALIGN (msg_len nlh))
            ret data errno in
        if NLMSG_MIN_TYPE <=? msg_type nlh then
          match cb_data with
          | Some cb =>
              let '(ret, (data, errno)) := cb nlh (data, errno) in
              if ret <=? MNL_CB_STOP then (ret, data, errno) else next ret data errno
          | None => next ret data errno
          end
        else
          match cb_ctl (msg_type nlh) nlh errno with
          | Some (ret, errno) =>
              if ret <=? MNL_CB_STOP then (ret, data, errno) else next ret data errno
          | None => next ret data errno
          end
  end.

End Run.

(** ** Sockets *)

(** The kernel behind the sockets: opening and binding one gives an [errno] or
    zero, and the port id; sending gives an [errno] or zero; receiving gives an
    [errno] or the bytes of one datagram, which fit the buffer. *)
Class NlKernel (K : Type) := {
  nl_open : K -> Z * Z * K;
  nl_sendto : K -> list Z -> Z * K;
  nl_recvfrom : K -> (Z + list Z) * K;
  nl_time : K -> Z
}.

Record mnlg_socket := { nlg_id : Z; nlg_version : Z; nlg_seq : Z; nlg_portid : Z }.

Definition GENL_ID_CTRL : Z := 0x10.
Definition CTRL_CMD_GETFAMILY : Z := 3.
Definition CTRL_ATTR_FAMILY_ID : Z := 1.
Definition CTRL_ATTR_FAMILY_NAME : Z := 2.
Definition CTRL_ATTR_MAX : Z := 10.

Section Sockets.
Context `{NK : NlKernel K}.

(** [__mnlg_msg_prepare]: the message with its generic netlink header, and the
    sequence number it stores in the socket. *)
Definition mnlg_msg_prepare_id (k : K) (cmd flags id version : Z) : nlmsghdr :=
  let nlh := {| nlmsg_type := id; nlmsg_flags := flags; nlmsg_seq := u32 (nl_time k);
                nlmsg_body := nlmsg_body mnl_nlmsg_put_header |} in
  let nlh := mnl_nlmsg_put_extra_header nlh sizeof_genlmsghdr in
  with_body (list_inserts 0 [cmd; version] (nlmsg_body nlh)) nlh.
Definition mnlg_msg_prepare (k : K) (nlg : mnlg_socket) (cmd flags : Z) : nlmsghdr :=
  mnlg_msg_prepare_id k cmd flags (nlg_id nlg) (nlg_version nlg).

(** [mnlg_socket_recv_run]: datagrams are read and run until a callback stops,
    an error occurs or nothing is left: the value returned, the data, [errno]. *)
Fixpoint mnlg_socket_recv_run {D} (fuel : nat) (k : K) (seq portid : Z)
  (cb : option (list Z -> D * Z -> Z * (D * Z))) (data : D) (errno : Z) : outcome (Z * D * Z * K) :=
  match fuel with
  | O => NoFuel
  | S fuel =>
      let '(r, k) := nl_recvfrom k in
      match r with
      | inl e => Ret (-1, data, e, k)
      | inr bytes =>
          if (length bytes =? 0)%nat then Ret (0, data, errno, k)
          else
            let '(err, data, errno) :=
              mnl_cb_run (length bytes) mnlg_cb_array cb seq portid bytes (Z.of_nat (length bytes))
                MNL_CB_OK data errno in
            if 0 <? err then mnlg_socket_recv_run fuel k seq portid cb data errno
            else Ret (err, data, errno, k)
      end
  end.

(** The callbacks that find the id of the family: the attributes seen so far by
    type, then the id. *)
Definition get_family_id_attr_cb (attr : list Z) (st : (Z -> option (list Z)) * Z)
  : Z * ((Z -> option (list Z)) * Z) :=
  let '(tb, errno) := st in
  let type := mnl_attr_get_type attr in
  let '(valid, errno) := mnl_attr_type_valid attr CTRL_ATTR_MAX errno in
  if valid <? 0 then (MNL_CB_ERROR, (tb, errno))
  else
    let '(bad, errno) :=
      if type =? CTRL_ATTR_FAMILY_ID
      then let '(v, errno) := mnl_attr_validate attr MNL_TYPE_U16 errno in (v <? 0, errno)
      else (false, errno) in
    if (bad : bool) then (MNL_CB_ERROR, (tb, errno))
    else (MNL_CB_OK, (fun t => if t =? type then Some attr else tb t, errno)).

Definition get_family_id_cb (nlh : list Z) (st : Z * Z) : Z * (Z * Z) :=
  let '(id, errno) := st in
  let '(_, (tb, errno)) :=
    mnl_attr_parse get_family_id_attr_cb nlh sizeof_genlmsghdr ((fun _ => None), errno) in
  match tb CTRL_ATTR_FAMILY_ID with
  | None => (MNL_CB_ERROR, (id, errno))
  | Some attr => (MNL_CB_OK, (mnl_attr_get_u16 attr, errno))
  end.

(** [mnlg_socket_open]: the socket, or the [errno] of the failure. *)
Definition mnlg_socket_open (fuel : nat) (k : K) (family_name : cstring) (version : Z)
  : outcome ((Z + mnlg_socket) * K) :=
  let '(err, portid, k) := nl_open k in
  if negb (err =? 0) then Ret (inl err, k)
  else
    let seq := u32 (nl_time k) in
    let nlh := mnlg_msg_prepare_id k CTRL_CMD_GETFAMILY (Z.lor NLM_F_REQUEST NLM_F_ACK) GENL_ID_CTRL 1 in
    let nlh := mnl_attr_put_strz nlh CTRL_ATTR_FAMILY_NAME family_name in
    let '(err, k) := nl_sendto k (nlmsg_bytes nlh) in
    if negb (err =? 0) then Ret (inl err, k)
    else
      '(r, id, errno, k) ← mnlg_socket_recv_run fuel k seq portid (Some get_family_id_cb) 0 0;
      if r <? 0 then
        let errno := if errno =? ENOENT then EPROTONOSUPPORT else errno in
        Ret (inl (if negb (errno =? 0) then errno else ENOSYS), k)
      else Ret (inr {| nlg_id := id; nlg_version := version; nlg_seq := seq; nlg_portid := portid |}, k).

End Sockets.
End Netlink.
