(* ===== verification/IpcLinux.v ===== *)
(** * The Linux back end (src/ipc-linux.h)

    The three operations of ipc.h over generic netlink: a device is sent in as
    many messages as its peers and allowed IPs need, and is read from as many
    messages as the kernel sends. *)
From S2P Require Import Prelude Libc Encoding Containers IpcUapi Netlink Ipc.
Import Libc Encoding Netlink StringList.

Module IpcLinux.

(** ** Constants of linux/wireguard.h *)

Definition WG_GENL_NAME : cstring := str "wireguard".
Definition WG_GENL_VERSION : Z := 1.
Definition WG_CMD_GET_DEVICE : Z := 0.
Definition WG_CMD_SET_DEVICE : Z := 1.
Definition WGDEVICE_F_REPLACE_PEERS : Z := Z.shiftl 1 0.
Definition WGDEVICE_A_UNSPEC : Z := 0.
Definition WGDEVICE_A_IFINDEX : Z := 1.
Definition WGDEVICE_A_IFNAME : Z := 2.
Definition WGDEVICE_A_PRIVATE_KEY : Z := 3.
Definition WGDEVICE_A_PUBLIC_KEY : Z := 4.
Definition WGDEVICE_A_FLAGS : Z := 5.
Definition WGDEVICE_A_LISTEN_PORT : Z := 6.
Definition WGDEVICE_A_FWMARK : Z := 7.
Definition WGDEVICE_A_PEERS : Z := 8.
Definition WGPEER_F_REMOVE_ME : Z := Z.shiftl 1 0.
Definition WGPEER_F_REPLACE_ALLOWEDIPS : Z := Z.shiftl 1 1.
Definition WGPEER_A_PUBLIC_KEY : Z := 1.
Definition WGPEER_A_PRESHARED_KEY : Z := 2.
Definition WGPEER_A_FLAGS : Z := 3.
Definition WGPEER_A_ENDPOINT : Z := 4.
Definition WGPEER_A_PERSISTENT_KEEPALIVE_INTERVAL : Z := 5.
Definition WGPEER_A_LAST_HANDSHAKE_TIME : Z := 6.
Definition WGPEER_A_RX_BYTES : Z := 7.
Definition WGPEER_A_TX_BYTES : Z := 8.
Definition WGPEER_A_ALLOWEDIPS : Z := 9.
Definition WGALLOWEDIP_A_FAMILY : Z := 1.
Definition WGALLOWEDIP_A_IPADDR : Z := 2.
Definition WGALLOWEDIP_A_CIDR_MASK : Z := 3.
Definition WGALLOWEDIP_A_FLAGS : Z := 4.

(** ** Socket addresses as bytes *)

Definition be16 (z : Z) : list Z := [(z / 256) mod 256; z mod 256].

(** [struct sockaddr_in] and [struct sockaddr_in6]. *)
Definition sockaddr_in_bytes (sa : sockaddr) : list Z :=
  le_bytes 2 (sa_family sa) ++ be16 (sa_port sa) ++ take 4 (sa_addr sa) ++ replicate 8 0.
Definition sockaddr_in6_bytes (sa : sockaddr) : list Z :=
  le_bytes 2 (sa_family sa) ++ be16 (sa_port sa) ++ le_bytes 4 (sa_flowinfo sa)
  ++ take 16 (sa_addr sa) ++ le_bytes 4 (sa_scope_id sa).

Definition read_sockaddr_in (b : list Z) : sockaddr :=
  {| sa_family := field 0 2 b; sa_port := 256 * field 2 1 b + field 3 1 b;
     sa_addr := take 4 (drop 4 b); sa_flowinfo := 0; sa_scope_id := 0 |}.
Definition read_sockaddr_in6 (b : list Z) : sockaddr :=
  {| sa_family := field 0 2 b; sa_port := 256 * field 2 1 b + field 3 1 b;
     sa_addr := take 16 (drop 8 b); sa_flowinfo := field 4 4 b; sa_scope_id := field 24 4 b |}.

(** ** Setting a device *)

Section Set_device.
(** [SOCKET_BUFFER_SIZE] *)
Context (buflen : Z).

(** A chain of writes, each of which may find no room: the message as far as it
    was written, and whether all of them fitted. *)
Definition try_put (m : nlmsghdr * bool) (f : nlmsghdr -> option nlmsghdr) : nlmsghdr * bool :=
  let '(nlh, ok) := m in
  if ok then match f nlh with Some nlh => (nlh, true) | None => (nlh, false) end else (nlh, false).
Definition put_if (b : bool) (f : nlmsghdr -> option nlmsghdr) (nlh : nlmsghdr) : option nlmsghdr :=
  if b then f nlh else Some nlh.

(** One turn of the loop over the allowed IPs; when it does not fit, the
    attribute is cancelled as the code does at [toobig_allowedips]. *)
Definition put_allowedip (nlh : nlmsghdr) (a : wgallowedip) : nlmsghdr * bool :=
  match mnl_attr_nest_start_check nlh buflen 0 with
  | None => (nlh, false)
  | Some (nlh, allowedip_nest) =>
      let m := (nlh, true) in
      let m := try_put m (fun nlh =>
        mnl_attr_put_u16_check nlh buflen WGALLOWEDIP_A_FAMILY (aip_family a)) in
      let m := try_put m (fun nlh =>
        if aip_family a =? AF_INET
        then mnl_attr_put_check nlh buflen WGALLOWEDIP_A_IPADDR (take 4 (aip_ip a))
        else if aip_family a =? AF_INET6
        then mnl_attr_put_check nlh buflen WGALLOWEDIP_A_IPADDR (aip_ip a)
        else Some nlh) in
      let m := try_put m (fun nlh =>
        mnl_attr_put_u8_check nlh buflen WGALLOWEDIP_A_CIDR_MASK (aip_cidr a)) in
      let m := try_put m (put_if (negb (aip_flags a =? 0)) (fun nlh =>
        mnl_attr_put_u32_check nlh buflen WGALLOWEDIP_A_FLAGS (aip_flags a))) in
      let '(nlh, ok) := m in
      if (ok : bool) then (mnl_attr_nest_end nlh allowedip_nest, true)
      else (mnl_attr_nest_cancel nlh allowedip_nest, false)
  end.

(** [for (; allowedip; allowedip = allowedip->next_allowedip)]: the message and
    what is left of the list. *)
Fixpoint put_allowedips (nlh : nlmsghdr) (allowedip : list wgallowedip) : nlmsghdr * list wgallowedip :=
  match allowedip with
  | [] => (nlh, [])
  | a :: rest =>
      let '(nlh, ok) := put_allowedip nlh a in
      if (ok : bool) then put_allowedips nlh rest else (nlh, allowedip)
  end.

(** The attributes of a peer before its allowed IPs; those that only go with the
    first message about the peer are left out when [allowedip] is not [NULL]. *)
Definition put_peer_head (nlh : nlmsghdr) (p : wgpeer) (first : bool) : nlmsghdr * bool :=
  let flag (b : bool) (m : Z) := if b then m else 0 in
  let flags := Z.lor (flag (has_flag (peer_flags p) WGPEER_REMOVE_ME) WGPEER_F_REMOVE_ME)
                 (flag (first && has_flag (peer_flags p) WGPEER_REPLACE_ALLOWEDIPS)
                    WGPEER_F_REPLACE_ALLOWEDIPS) in
  let m := (nlh, true) in
  let m := try_put m (fun nlh =>
    mnl_attr_put_check nlh buflen WGPEER_A_PUBLIC_KEY (peer_public_key p)) in
  let m := try_put m (put_if (first && has_flag (peer_flags p) WGPEER_HAS_PRESHARED_KEY) (fun nlh =>
    mnl_attr_put_check nlh buflen WGPEER_A_PRESHARED_KEY (peer_preshared_key p))) in
  let m := try_put m (put_if first (fun nlh =>
    if sa_family (peer_endpoint p) =? AF_INET
    then mnl_attr_put_check nlh buflen WGPEER_A_ENDPOINT (sockaddr_in_bytes (peer_endpoint p))
    else if sa_family (peer_endpoint p) =? AF_INET6
    then mnl_attr_put_check nlh buflen WGPEER_A_ENDPOINT (sockaddr_in6_bytes (peer_endpoint p))
    else Some nlh)) in
  let m := try_put m (put_if
    (first && has_flag (peer_flags p) WGPEER_HAS_PERSISTENT_KEEPALIVE_INTERVAL) (fun nlh =>
    mnl_attr_put_u16_check nlh buflen WGPEER_A_PERSISTENT_KEEPALIVE_INTERVAL
      (peer_persistent_keepalive_interval p))) in
  try_put m (put_if (negb (flags =? 0)) (fun nlh =>
    mnl_attr_put_u32_check nlh buflen WGPEER_A_FLAGS flags)).

(** How the loop over the peers goes on after a peer: it is complete, or the
    message is sent as it is with the peer (and its allowed IPs) left to do. *)
Inductive peer_put :=
| PeerDone (nlh : nlmsghdr)
| TooBigAllowedips (nlh : nlmsghdr) (allowedip : list wgallowedip)
| TooBigPeers (nlh : nlmsghdr).

Definition put_peer (nlh : nlmsghdr) (p : wgpeer) (allowedip : list wgallowedip) : peer_put :=
  match mnl_attr_nest_start_check nlh buflen 0 with
  | None => TooBigPeers nlh
  | Some (nlh, peer_nest) =>
      let '(nlh, ok) := put_peer_head nlh p (length allowedip =? 0)%nat in
      if negb ok then TooBigPeers (mnl_attr_nest_cancel nlh peer_nest)
      else
        match peer_allowedips p with
        | [] => PeerDone (mnl_attr_nest_end nlh peer_nest)
        | first_allowedip =>
            let allowedip := if (length allowedip =? 0)%nat then first_allowedip else allowedip in
            match mnl_attr_nest_start_check nlh buflen WGPEER_A_ALLOWEDIPS with
            | None => TooBigAllowedips (mnl_attr_nest_end nlh peer_nest) allowedip
            | Some (nlh, allowedips_nest) =>
                let '(nlh, allowedip) := put_allowedips nlh allowedip in
                let nlh := mnl_attr_nest_end nlh allowedips_nest in
                match allowedip with
                | [] => PeerDone (mnl_attr_nest_end nlh peer_nest)
                | _ => TooBigAllowedips (mnl_attr_nest_end nlh peer_nest) allowedip
                end
            end
        end
  end.

(** The loop over the peers: the message, and [peer] and [allowedip] after it,
    [NULL] being the empty list. *)
Fixpoint put_peers (nlh : nlmsghdr) (peer : list wgpeer) (allowedip : list wgallowedip)
  : nlmsghdr * list wgpeer * list wgallowedip :=
  match peer with
  | [] => (nlh, [], allowedip)
  | p :: rest =>
      match put_peer nlh p allowedip with
      | PeerDone nlh => put_peers nlh rest []
      | TooBigAllowedips nlh allowedip => (nlh, peer, allowedip)
      | TooBigPeers nlh => (nlh, peer, allowedip)
      end
  end.

(** The attributes of the device itself, in the first message. *)
Definition put_device (nlh : nlmsghdr) (d : wgdevice) : nlmsghdr :=
  let opt (b : bool) f (nlh : nlmsghdr) := if b then f nlh else nlh in
  let nlh := opt (has_flag (dev_flags d) WGDEVICE_HAS_PRIVATE_KEY)
    (fun nlh => mnl_attr_put nlh WGDEVICE_A_PRIVATE_KEY (dev_private_key d)) nlh in
  let nlh := opt (has_flag (dev_flags d) WGDEVICE_HAS_LISTEN_PORT)
    (fun nlh => mnl_attr_put_u16 nlh WGDEVICE_A_LISTEN_PORT (dev_listen_port d)) nlh in
  let nlh := opt (has_flag (dev_flags d) WGDEVICE_HAS_FWMARK)
    (fun nlh => mnl_attr_put_u32 nlh WGDEVICE_A_FWMARK (dev_fwmark d)) nlh in
  opt (has_flag (dev_flags d) WGDEVICE_REPLACE_PEERS)
    (fun nlh => mnl_attr_put_u32 nlh WGDEVICE_A_FLAGS WGDEVICE_F_REPLACE_PEERS) nlh.

(** One message, from [again] to [send], after [nlh] was prepared. *)
Definition set_message (nlh : nlmsghdr) (d : wgdevice) (peer : list wgpeer) (allowedip : list wgallowedip)
  : nlmsghdr * list wgpeer * list wgallowedip :=
  let nlh := mnl_attr_put_strz nlh WGDEVICE_A_IFNAME (dev_name d) in
  let nlh := match peer with [] => put_device nlh d | _ => nlh end in
  match dev_peers d with
  | [] => (nlh, peer, allowedip)
  | first_peer =>
      let '(nlh, peers_nest) := mnl_attr_nest_start nlh WGDEVICE_A_PEERS in
      let '(nlh, peer, allowedip) :=
        put_peers nlh (match peer with [] => first_peer | _ => peer end) allowedip in
      (mnl_attr_nest_end nlh peers_nest, peer, allowedip)
  end.

Section Kernel.
Context `{NK : NlKernel K}.

(** The loop of [kernel_set_device]: each message is sent and acknowledged
    before the next one is built. *)
Fixpoint set_loop (fuel : nat) (k : K) (nlg : mnlg_socket) (d : wgdevice)
  (peer : list wgpeer) (allowedip : list wgallowedip) : outcome (Z * K) :=
  match fuel with
  | O => NoFuel
  | S fuel' =>
      let seq := u32 (nl_time k) in
      let nlh := mnlg_msg_prepare k nlg WG_CMD_SET_DEVICE (Z.lor NLM_F_REQUEST NLM_F_ACK) in
      let '(nlh, peer, allowedip) := set_message nlh d peer allowedip in
      let '(err, k) := nl_sendto k (nlmsg_bytes nlh) in
      if negb (err =? 0) then Ret (- err, k)
      else
        '(r, _, errno, k) ← mnlg_socket_recv_run (D := unit) fuel k seq (nlg_portid nlg) None tt 0;
        if r <? 0 then Ret (if negb (errno =? 0) then - errno else - EINVAL, k)
        else match peer with
             | [] => Ret (0, k)
             | _ => set_loop fuel' k nlg d peer allowedip
             end
  end.

Definition kernel_set_device (fuel : nat) (k : K) (d : wgdevice) : outcome (Z * K) :=
  '(r, k) ← mnlg_socket_open fuel k WG_GENL_NAME WG_GENL_VERSION;
  match r with
  | inl errno => Ret (- errno, k)
  | inr nlg => set_loop fuel k nlg d [] []
  end.

End Kernel.
End Set_device.

(** ** Reading a device *)

(** [memcpy(dst, mnl_attr_get_payload(attr), n)] *)
Definition payload (n : nat) (attr : list Z) : list Z := take n (mnl_attr_get_payload attr).

(** The callbacks take and return the object they fill in and [errno], and
    return the value that says whether to go on. *)
Definition parse_allowedip (attr : list Z) (st : wgallowedip * Z) : Z * (wgallowedip * Z) :=
  let '(a, errno) := st in
  let type := mnl_attr_get_type attr in
  let update family ip cidr :=
    {| aip_family := family; aip_ip := ip; aip_cidr := cidr; aip_flags := aip_flags a |} in
  if type =? WGALLOWEDIP_A_FAMILY then
    let '(v, errno) := mnl_attr_validate attr MNL_TYPE_U16 errno in
    (MNL_CB_OK, (if v =? 0 then update (mnl_attr_get_u16 attr) (aip_ip a) (aip_cidr a) else a, errno))
  else if type =? WGALLOWEDIP_A_IPADDR then
    (MNL_CB_OK,
     (if mnl_attr_get_payload_len attr =? 4
      then update (aip_family a) (list_inserts 0 (payload 4 attr) (aip_ip a)) (aip_cidr a)
      else if mnl_attr_get_payload_len attr =? 16
      then update (aip_family a) (list_inserts 0 (payload 16 attr) (aip_ip a)) (aip_cidr a)
      else a, errno))
  else if type =? WGALLOWEDIP_A_CIDR_MASK then
    let '(v, errno) := mnl_attr_validate attr MNL_TYPE_U8 errno in
    (MNL_CB_OK, (if v =? 0 then update (aip_family a) (aip_ip a) (mnl_attr_get_u8 attr) else a, errno))
  else (MNL_CB_OK, (a, errno)).

(** A fresh allowed IP is linked at the end of the peer's list, then filled in. *)
Definition parse_allowedips (attr : list Z) (st : wgpeer * Z) : Z * (wgpeer * Z) :=
  let '(peer, errno) := st in
  let '(ret, (a, errno)) := mnl_attr_parse_nested parse_allowedip attr (zero_allowedip, errno) in
  let st := (with_allowedips (peer_allowedips peer ++ [a]) peer, errno) in
  if ret =? 0 then (ret, st)
  else if negb (((aip_family a =? AF_INET) && (aip_cidr a <=? 32))
                || ((aip_family a =? AF_INET6) && (aip_cidr a <=? 128))) then (MNL_CB_ERROR, st)
  else (MNL_CB_OK, st).

Definition parse_peer (attr : list Z) (st : wgpeer * Z) : Z * (wgpeer * Z) :=
  let '(peer, errno) := st in
  let type := mnl_attr_get_type attr in
  let len := mnl_attr_get_payload_len attr in
  if type =? WGPEER_A_PUBLIC_KEY then
    (MNL_CB_OK, (if len =? Z.of_nat WG_KEY_LEN
                 then with_peer_flags (set_flag WGPEER_HAS_PUBLIC_KEY)
                        (with_public_key (payload WG_KEY_LEN attr) peer) else peer, errno))
  else if type =? WGPEER_A_PRESHARED_KEY then
    (MNL_CB_OK, (if len =? Z.of_nat WG_KEY_LEN
                 then let peer := with_preshared_key (payload WG_KEY_LEN attr) peer in
                      if negb (key_is_zero (peer_preshared_key peer))
                      then with_peer_flags (set_flag WGPEER_HAS_PRESHARED_KEY) peer else peer
                 else peer, errno))
  else if type =? WGPEER_A_ENDPOINT then
    let addr := mnl_attr_get_payload attr in
    (MNL_CB_OK, (if len <? 16 then peer
                 else if (field 0 2 addr =? AF_INET) && (len =? sizeof_sockaddr_in)
                 then with_endpoint (read_sockaddr_in (take 16 addr)) peer
                 else if (field 0 2 addr =? AF_INET6) && (len =? sizeof_sockaddr_in6)
                 then with_endpoint (read_sockaddr_in6 (take 28 addr)) peer
                 else peer, errno))
  else if type =? WGPEER_A_PERSISTENT_KEEPALIVE_INTERVAL then
    let '(v, errno) := mnl_attr_validate attr MNL_TYPE_U16 errno in
    (MNL_CB_OK, (if v =? 0 then with_keepalive (mnl_attr_get_u16 attr) peer else peer, errno))
  else if type =? WGPEER_A_LAST_HANDSHAKE_TIME then
    (MNL_CB_OK,
     (if len =? 16
      then with_handshake {| tv_sec := s64 (field 0 8 (payload 16 attr));
                             tv_nsec := s64 (field 8 8 (payload 16 attr)) |} peer
      else peer, errno))
  else if type =? WGPEER_A_RX_BYTES then
    let '(v, errno) := mnl_attr_validate attr MNL_TYPE_U64 errno in
    (MNL_CB_OK, (if v =? 0 then with_transfer (mnl_attr_get_u64 attr) (peer_tx_bytes peer) peer
                 else peer, errno))
  else if type =? WGPEER_A_TX_BYTES then
    let '(v, errno) := mnl_attr_validate attr MNL_TYPE_U64 errno in
    (MNL_CB_OK, (if v =? 0 then with_transfer (peer_rx_bytes peer) (mnl_attr_get_u64 attr) peer
                 else peer, errno))
  else if type =? WGPEER_A_ALLOWEDIPS then mnl_attr_parse_nested parse_allowedips attr (peer, errno)
  else (MNL_CB_OK, (peer, errno)).

(** A fresh peer is linked at the end of the device's list, then filled in. *)
Definition parse_peers (attr : list Z) (st : wgdevice * Z) : Z * (wgdevice * Z) :=
  let '(device, errno) := st in
  let '(ret, (peer, errno)) := mnl_attr_parse_nested parse_peer attr (zero_peer, errno) in
  let st := (with_peers (dev_peers device ++ [peer]) device, errno) in
  if ret =? 0 then (ret, st)
  else if negb (has_flag (peer_flags peer) WGPEER_HAS_PUBLIC_KEY) then (MNL_CB_ERROR, st)
  else (MNL_CB_OK, st).

Definition parse_device (attr : list Z) (st : wgdevice * Z) : Z * (wgdevice * Z) :=
  let '(device, errno) := st in
  let type := mnl_attr_get_type attr in
  let len := mnl_attr_get_payload_len attr in
  if type =? WGDEVICE_A_IFINDEX then
    let '(v, errno) := mnl_attr_validate attr MNL_TYPE_U32 errno in
    (MNL_CB_OK, (if v =? 0 then with_ifindex (mnl_attr_get_u32 attr) device else device, errno))
  else if type =? WGDEVICE_A_IFNAME then
    let '(v, errno) := mnl_attr_validate attr MNL_TYPE_STRING errno in
    (MNL_CB_OK, (if v =? 0 then with_dev_name (take (IFNAMSIZ - 1) (mnl_attr_get_str attr)) device
                 else device, errno))
  else if type =? WGDEVICE_A_PRIVATE_KEY then
    (MNL_CB_OK, (if len =? Z.of_nat WG_KEY_LEN
                 then with_dev_flags (set_flag WGDEVICE_HAS_PRIVATE_KEY)
                        (with_private_key (payload WG_KEY_LEN attr) device) else device, errno))
  else if type =? WGDEVICE_A_PUBLIC_KEY then
    (MNL_CB_OK, (if len =? Z.of_nat WG_KEY_LEN
                 then with_dev_flags (set_flag WGDEVICE_HAS_PUBLIC_KEY)
                        (with_dev_public_key (payload WG_KEY_LEN attr) device) else device, errno))
  else if type =? WGDEVICE_A_LISTEN_PORT then
    let '(v, errno) := mnl_attr_validate attr MNL_TYPE_U16 errno in
    (MNL_CB_OK, (if v =? 0 then with_listen_port (mnl_attr_get_u16 attr) device else device, errno))
  else if type =? WGDEVICE_A_FWMARK then
    let '(v, errno) := mnl_attr_validate attr MNL_TYPE_U32 errno in
    (MNL_CB_OK, (if v =? 0 then with_fwmark (mnl_attr_get_u32 attr) device else device, errno))
  else if type =? WGDEVICE_A_PEERS then mnl_attr_parse_nested parse_peers attr (device, errno)
  else (MNL_CB_OK, (device, errno)).

Definition read_device_cb (nlh : list Z) (st : wgdevice * Z) : Z * (wgdevice * Z) :=
  mnl_attr_parse parse_device nlh sizeof_genlmsghdr st.

(** ** Joining the fragments of a peer *)

(** The loop of [coalesce_peers] at the peer [p], [rest] being the peers after
    it. [has_last] says whether [p->last_allowedip] points to the last of its
    allowed IPs; after a fragment without any it is [NULL]. *)
Fixpoint coalesce_from (p : wgpeer) (has_last : bool) (rest : list wgpeer) : outcome (list wgpeer) :=
  match rest with
  | [] => Ret [p]
  | q :: rest =>
      if negb (bool_decide (peer_public_key p = peer_public_key q)) then
        l ← coalesce_from q (negb (length (peer_allowedips q) =? 0)%nat) rest;
        Ret (p :: l)
      else
        let q_has_last := negb (length (peer_allowedips q) =? 0)%nat in
        match peer_allowedips p with
        | [] => coalesce_from (with_allowedips (peer_allowedips q) p) q_has_last rest
        | _ =>
            if (has_last : bool)
            then coalesce_from (with_allowedips (peer_allowedips p ++ peer_allowedips q) p) q_has_last rest
            else NullDeref
        end
  end.
Definition coalesce_peers (device : wgdevice) : outcome wgdevice :=
  match dev_peers device with
  | [] => Ret device
  | p :: rest =>
      l ← coalesce_from p (negb (length (peer_allowedips p) =? 0)%nat) rest;
      Ret (with_peers l device)
  end.

Section Get_device.
Context `{NK : NlKernel K}.

(** [kernel_get_device]: an interrupted dump is started again. *)
Fixpoint kernel_get_device (fuel : nat) (k : K) (iface : cstring)
  : outcome (Z * option wgdevice * K) :=
  match fuel with
  | O => NoFuel
  | S fuel' =>
      if (IFNAMSIZ <=? length iface)%nat then Ret (- ENAMETOOLONG, None, k)
      else
        '(r, k) ← mnlg_socket_open fuel k WG_GENL_NAME WG_GENL_VERSION;
        match r with
        | inl errno => Ret (- errno, None, k)
        | inr nlg =>
            let seq := u32 (nl_time k) in
            let nlh := mnlg_msg_prepare k nlg WG_CMD_GET_DEVICE
                         (Z.lor (Z.lor NLM_F_REQUEST NLM_F_ACK) NLM_F_DUMP) in
            let nlh := mnl_attr_put_strz nlh WGDEVICE_A_IFNAME iface in
            let '(err, k) := nl_sendto k (nlmsg_bytes nlh) in
            let again ret k :=
              if ret =? - EINTR then kernel_get_device fuel' k iface else Ret (ret, None, k) in
            if negb (err =? 0) then again (- err) k
            else
              '(r, device, errno, k) ←
                mnlg_socket_recv_run fuel k seq (nlg_portid nlg) (Some read_device_cb) zero_device 0;
              if r <? 0 then again (if negb (errno =? 0) then - errno else - EINVAL) k
              else
                device ← coalesce_peers device;
                Ret (0, Some device, k)
        end
  end.

End Get_device.

(** ** Listing the interfaces *)

Definition IFLA_IFNAME : Z := 3.
Definition IFLA_LINKINFO : Z := 18.
Definition IFLA_INFO_KIND : Z := 1.
Definition sizeof_ifinfomsg : Z := 16.
Definition RTM_GETLINK : Z := 18.

(** [struct interface] *)
Record interface := { if_name : option cstring; is_wireguard : bool }.

Definition parse_linkinfo (attr : list Z) (i : interface) : Z * interface :=
  (MNL_CB_OK,
   if (mnl_attr_get_type attr =? IFLA_INFO_KIND) && str_eq WG_GENL_NAME (mnl_attr_get_str attr)
   then {| if_name := if_name i; is_wireguard := true |} else i).

Definition parse_infomsg (attr : list Z) (i : interface) : Z * interface :=
  if mnl_attr_get_type attr =? IFLA_LINKINFO then mnl_attr_parse_nested parse_linkinfo attr i
  else (MNL_CB_OK,
        if mnl_attr_get_type attr =? IFLA_IFNAME
        then {| if_name := Some (mnl_attr_get_str attr); is_wireguard := is_wireguard i |} else i).

(** [read_devices_cb]: [None] when adding a name would write out of bounds. *)
Definition read_devices_cb (nlh : list Z) (st : option string_list * Z) : Z * (option string_list * Z) :=
  let '(list, errno) := st in
  let '(ret, i) := mnl_attr_parse parse_infomsg nlh sizeof_ifinfomsg
                     {| if_name := None; is_wireguard := false |} in
  if negb (ret =? MNL_CB_OK) then (ret, st)
  else
    let st :=
      match if_name i with
      | Some name =>
          if is_wireguard i
          then (match list with Some l => string_list_add l name | None => None end, errno)
          else st
      | None => st
      end in
    if negb (msg_type nlh =? NLMSG_DONE) then (MNL_CB_OK + 1, st) else (MNL_CB_OK, st).

Section List_devices.
Context `{NK : NlKernel K}.

(** The loop at [another]: a dump that was interrupted is worked with as it is. *)
Fixpoint interfaces_run (fuel : nat) (k : K) (seq portid : Z) (list : option string_list)
  : outcome (Z * option string_list * K) :=
  match fuel with
  | O => NoFuel
  | S fuel =>
      let '(r, k) := nl_recvfrom k in
      match r with
      | inl e => Ret (- e, list, k)
      | inr bytes =>
          let '(len, list, errno) :=
            mnl_cb_run (length bytes) default_cb_array (Some read_devices_cb) seq portid bytes
              (Z.of_nat (length bytes)) MNL_CB_OK list 0 in
          if (len <? 0) && negb (errno =? EINTR) then Ret (- errno, list, k)
          else if len =? MNL_CB_OK + 1 then interfaces_run fuel k seq portid list
          else Ret (0, list, k)
      end
  end.

Definition kernel_get_wireguard_interfaces (fuel : nat) (k : K) (list : string_list)
  : outcome (Z * option string_list * K) :=
  let '(err, portid, k) := nl_open k in
  if negb (err =? 0) then Ret (- err, Some list, k)
  else
    let seq := u32 (nl_time k) in
    let nlh := {| nlmsg_type := RTM_GETLINK;
                  nlmsg_flags := Z.lor (Z.lor NLM_F_REQUEST NLM_F_ACK) NLM_F_DUMP;
                  nlmsg_seq := seq; nlmsg_body := nlmsg_body mnl_nlmsg_put_header |} in
    let nlh := mnl_nlmsg_put_extra_header nlh sizeof_ifinfomsg in
    let '(err, k) := nl_sendto k (nlmsg_bytes nlh) in
    if negb (err =? 0) then Ret (- err, Some list, k)
    else interfaces_run fuel k seq portid (Some list).

End List_devices.
End IpcLinux.
