(* ===== verification/NetlinkFacts.v ===== *)
(** * Facts on netlink messages

    What the functions of netlink.h write, as lists of bytes, and what walking
    such bytes calls its callback with. The two sides share [attr_bytes] and
    [nest_bytes]; the back ends combine them without looking at offsets again. *)
From S2P Require Import Prelude Libc Encoding Containers IpcUapi Netlink.
Import Libc Netlink.

Create HintDb aligned.

Module NetlinkFacts.

(** ** Alignment *)

Lemma MNL_ALIGN_eq len : MNL_ALIGN len = (len + 3) / 4 * 4.
Proof.
  unfold MNL_ALIGN, MNL_ALIGNTO. replace (len + 4 - 1) with (len + 3) by lia.
  change (Z.lnot (4 - 1)) with (Z.lnot (Z.ones 2)).
  rewrite <- Z.ldiff_land, Z.ldiff_ones_r, Z.shiftl_mul_pow2, Z.shiftr_div_pow2 by lia. reflexivity.
Qed.

Lemma MNL_ALIGN_bounds len : len <= MNL_ALIGN len < len + 4.
Proof. rewrite MNL_ALIGN_eq. pose proof (Z.div_mod (len + 3) 4). pose proof (Z.mod_pos_bound (len + 3) 4). lia. Qed.

Lemma MNL_ALIGN_add4 len : MNL_ALIGN (4 + len) = 4 + MNL_ALIGN len.
Proof.
  rewrite !MNL_ALIGN_eq. replace (4 + len + 3) with (len + 3 + 1 * 4) by lia.
  rewrite Z.div_add by lia. lia.
Qed.

Lemma MNL_ALIGN_fix len : len mod 4 = 0 -> MNL_ALIGN len = len.
Proof.
  intros H. rewrite MNL_ALIGN_eq. pose proof (Z.div_mod len 4). pose proof (Z.div_mod (len + 3) 4).
  pose proof (Z.mod_pos_bound (len + 3) 4). lia.
Qed.

Lemma MNL_ALIGN_mod len : MNL_ALIGN len mod 4 = 0.
Proof. rewrite MNL_ALIGN_eq. apply Z.mod_mul. lia. Qed.

Definition zlen (b : list Z) : Z := Z.of_nat (length b).

Lemma zlen_app a b : zlen (a ++ b) = zlen a + zlen b.
Proof. unfold zlen. rewrite length_app. lia. Qed.
Lemma zlen_nonneg b : 0 <= zlen b.
Proof. unfold zlen. lia. Qed.
Lemma zlen_le_bytes n z : zlen (le_bytes n z) = Z.of_nat n.
Proof. unfold zlen. by rewrite le_bytes_length. Qed.
Lemma zlen_zeros n : 0 <= n -> zlen (zeros n) = n.
Proof. intros. unfold zlen, zeros. rewrite length_replicate. lia. Qed.
Lemma zlen_nil : zlen [] = 0.
Proof. reflexivity. Qed.

(** ** What is written *)

Definition attr_bytes (type : Z) (data : list Z) : list Z :=
  le_bytes 2 (4 + zlen data) ++ le_bytes 2 type ++ data ++ zeros (MNL_ALIGN (zlen data) - zlen data).
Definition nest_bytes (type : Z) (content : list Z) : list Z :=
  le_bytes 2 (4 + zlen content) ++ le_bytes 2 (Z.lor NLA_F_NESTED type) ++ content.

#[global] Arguments attr_bytes : simpl never.
#[global] Arguments nest_bytes : simpl never.

Lemma zlen_attr_bytes type data : zlen (attr_bytes type data) = 4 + MNL_ALIGN (zlen data).
Proof.
  unfold attr_bytes. rewrite !zlen_app, !zlen_le_bytes, zlen_zeros; [lia|].
  pose proof (MNL_ALIGN_bounds (zlen data)). lia.
Qed.
Lemma zlen_nest_bytes type c : zlen (nest_bytes type c) = 4 + zlen c.
Proof. unfold nest_bytes. rewrite !zlen_app, !zlen_le_bytes. lia. Qed.

Lemma zlen_attr_mod type data : zlen (attr_bytes type data) mod 4 = 0.
Proof.
  rewrite zlen_attr_bytes, <- MNL_ALIGN_add4. apply MNL_ALIGN_mod.
Qed.

(** Attributes end at a multiple of four bytes. *)
Definition aligned (b : list Z) : Prop := zlen b mod 4 = 0.
Lemma aligned_nil : aligned [].
Proof. reflexivity. Qed.
Lemma aligned_app a b : aligned a -> aligned b -> aligned (a ++ b).
Proof. unfold aligned. intros Ha Hb. by rewrite zlen_app, Z.add_mod, Ha, Hb. Qed.
Lemma aligned_attr type data : aligned (attr_bytes type data).
Proof. apply zlen_attr_mod. Qed.
Lemma aligned_nest type c : aligned c -> aligned (nest_bytes type c).
Proof. unfold aligned. intros H. by rewrite zlen_nest_bytes, Z.add_mod, H. Qed.
Lemma aligned_concat l : Forall aligned l -> aligned (concat l).
Proof. induction 1; cbn [concat]; auto using aligned_nil, aligned_app. Qed.

#[export] Hint Resolve aligned_nil aligned_app aligned_attr aligned_nest : aligned.

Lemma with_body_append b b' nlh : with_body b (append b' nlh) = with_body b nlh.
Proof. reflexivity. Qed.
Lemma append_nil nlh : append [] nlh = nlh.
Proof. unfold append. rewrite app_nil_r. by destruct nlh. Qed.
Lemma append_append a b nlh : append b (append a nlh) = append (a ++ b) nlh.
Proof. unfold append, with_body; cbn. by rewrite app_assoc. Qed.
Lemma body_append b nlh : nlmsg_body (append b nlh) = nlmsg_body nlh ++ b.
Proof. reflexivity. Qed.
Lemma nlmsg_len_append b nlh : nlmsg_len (append b nlh) = nlmsg_len nlh + zlen b.
Proof. unfold nlmsg_len. rewrite body_append, length_app. unfold zlen. lia. Qed.

Lemma mnl_attr_put_bytes nlh type data : zlen data < 2 ^ 16 - 4 ->
  mnl_attr_put nlh type data = append (attr_bytes type data) nlh.
Proof.
  intros H. unfold mnl_attr_put. fold (zlen data). cbv zeta.
  change (MNL_ALIGN sizeof_nlattr) with 4. pose proof (zlen_nonneg data).
  rewrite u16_small by lia. f_equal. unfold attr_bytes. apply take_ge.
  pose proof (zlen_attr_bytes type data) as E. unfold attr_bytes, zlen in *.
  rewrite MNL_ALIGN_add4. lia.
Qed.

Section Room.
Context (buflen : Z) (Hbuf : buflen <= 2 ^ 15).

(** Writing bytes when they fit. *)
Definition write (b : list Z) (nlh : nlmsghdr) : option nlmsghdr :=
  if buflen <? nlmsg_len nlh + zlen b then None else Some (append b nlh).

Lemma nlmsg_len_nonneg nlh : 16 <= nlmsg_len nlh.
Proof. unfold nlmsg_len. change MNL_NLMSG_HDRLEN with 16. lia. Qed.

Lemma put_check_write nlh type data :
  mnl_attr_put_check nlh buflen type data = write (attr_bytes type data) nlh.
Proof using Hbuf.
  unfold mnl_attr_put_check, write. fold (zlen data). rewrite zlen_attr_bytes.
  change MNL_ATTR_HDRLEN with 4.
  replace (nlmsg_len nlh + 4 + MNL_ALIGN (zlen data))
    with (nlmsg_len nlh + (4 + MNL_ALIGN (zlen data))) by lia.
  destruct (Z.ltb_spec buflen (nlmsg_len nlh + (4 + MNL_ALIGN (zlen data)))); [done|].
  f_equal. apply mnl_attr_put_bytes. pose proof (nlmsg_len_nonneg nlh).
  pose proof (MNL_ALIGN_bounds (zlen data)). lia.
Qed.

Lemma write_nil nlh : nlmsg_len nlh <= buflen -> write [] nlh = Some nlh.
Proof using. intros H. unfold write. rewrite zlen_nil, append_nil. by destruct (Z.ltb_spec buflen (nlmsg_len nlh + 0)); [lia|]. Qed.

(** A nested attribute that is started, filled and ended. *)
Lemma nest_end_bytes nlh type c :
  4 + zlen c < 2 ^ 16 ->
  mnl_attr_nest_end (append (([0; 0] ++ le_bytes 2 (Z.lor NLA_F_NESTED type)) ++ c) nlh) (length (nlmsg_body nlh))
  = append (nest_bytes type c) nlh.
Proof.
  intros H. unfold mnl_attr_nest_end. rewrite with_body_append, body_append.
  pose proof (zlen_nonneg c).
  replace (Z.of_nat (length (nlmsg_body nlh ++ _)) - _) with (4 + zlen c)
    by (unfold zlen; rewrite !length_app, le_bytes_length; cbn [length]; lia).
  rewrite u16_small by lia. unfold append, nest_bytes. f_equal.
  rewrite <- (Nat.add_0_r (length (nlmsg_body nlh))), list_inserts_app_r. reflexivity.
Qed.

Lemma nest_cancel_restores nlh b : mnl_attr_nest_cancel (append b nlh) (length (nlmsg_body nlh)) = nlh.
Proof.
  unfold mnl_attr_nest_cancel. rewrite with_body_append, body_append, take_app_length.
  by destruct nlh.
Qed.

(** A chain of writes after [nlh0]: what it wrote, all of [total] if it went
    well; it goes wrong only when [total] does not fit. *)
Definition wrote (nlh0 : nlmsghdr) (total : list Z) (m : nlmsghdr * bool) : Prop :=
  exists b, m.1 = append b nlh0 /\
    if m.2 then b = total /\ nlmsg_len nlh0 + zlen total <= buflen
    else buflen < nlmsg_len nlh0 + zlen total.
End Room.

(** ** What is read *)

Definition header (len type : Z) (x : list Z) : list Z := le_bytes 2 (4 + len) ++ le_bytes 2 type ++ x.

Lemma field_skip a b off n : field (length a + off) n (a ++ b) = field off n b.
Proof. unfold field. by rewrite drop_app_add. Qed.
Lemma field_here a b n : length a = n -> field 0 n (a ++ b) = le_number a.
Proof. intros <-. unfold field. by rewrite drop_0, take_app_length. Qed.
Lemma field_le_bytes n z b : 0 <= z < 256 ^ Z.of_nat n -> field 0 n (le_bytes n z ++ b) = z.
Proof.
  intros H. rewrite field_here by apply le_bytes_length. rewrite le_number_bytes. by apply Z.mod_small.
Qed.

Lemma nla_len_header len type x : 0 <= len < 2 ^ 16 - 4 -> nla_len (header len type x) = 4 + len.
Proof. intros H. unfold nla_len, header. apply field_le_bytes. lia. Qed.
Lemma type_header len type x : 0 <= type < 2 ^ 16 ->
  mnl_attr_get_type (header len type x) = Z.land type NLA_TYPE_MASK.
Proof.
  intros H. unfold mnl_attr_get_type, header. f_equal.
  pose proof (field_skip (le_bytes 2 (4 + len)) (le_bytes 2 type ++ x) 0 2) as E.
  rewrite le_bytes_length in E. cbn [Nat.add] in E. rewrite E. by apply field_le_bytes.
Qed.
Lemma payload_len_header len type x : 0 <= len < 2 ^ 16 - 4 ->
  mnl_attr_get_payload_len (header len type x) = len.
Proof.
  intros H. unfold mnl_attr_get_payload_len. rewrite nla_len_header by done.
  change MNL_ATTR_HDRLEN with 4. replace (4 + len - 4) with len by lia. apply u16_small. lia.
Qed.
Lemma payload_header len type x : mnl_attr_get_payload (header len type x) = x.
Proof.
  unfold mnl_attr_get_payload, header. change (Z.to_nat MNL_ATTR_HDRLEN) with 4%nat.
  rewrite app_assoc. apply drop_app_length'. by rewrite length_app, !le_bytes_length.
Qed.

Lemma attr_bytes_header type data rest :
  attr_bytes type data ++ rest
  = header (zlen data) type (data ++ zeros (MNL_ALIGN (zlen data) - zlen data) ++ rest).
Proof. unfold attr_bytes, header. by rewrite <- !app_assoc. Qed.
Lemma nest_bytes_header type c rest :
  nest_bytes type c ++ rest = header (zlen c) (Z.lor NLA_F_NESTED type) (c ++ rest).
Proof. unfold nest_bytes, header. by rewrite <- !app_assoc. Qed.

Section Walks.
Context {D : Type} (cb : list Z -> D -> Z * D).

(** Walking [bytes] takes [d] to [d'] and leaves what follows to be walked. *)
Definition walks (bytes : list Z) (d d' : D) : Prop :=
  exists k, (k <= length bytes)%nat /\ forall fuel rest len, zlen bytes <= len ->
    attr_loop cb (k + fuel) (bytes ++ rest) len MNL_CB_OK d
    = attr_loop cb fuel rest (len - zlen bytes) MNL_CB_OK d'.

Lemma walks_nil d : walks [] d d.
Proof.
  exists 0%nat. split; [done|]. intros fuel rest len _. rewrite zlen_nil, Z.sub_0_r. reflexivity.
Qed.

Lemma walks_app a b d d1 d2 : walks a d d1 -> walks b d1 d2 -> walks (a ++ b) d d2.
Proof.
  intros (k & Hk & Ha) (j & Hj & Hb). exists (k + j)%nat. rewrite length_app. split; [lia|].
  intros fuel rest len Hlen. rewrite zlen_app in *. pose proof (zlen_nonneg b).
  rewrite <- Nat.add_assoc, <- app_assoc, Ha, Hb by lia. f_equal. lia.
Qed.

(** One attribute, of any kind. *)
Lemma walks_header len type x d d' :
  0 <= len < 2 ^ 16 - 4 -> zlen x = MNL_ALIGN len ->
  (forall rest, cb (header len type (x ++ rest)) d = (MNL_CB_OK, d')) ->
  walks (header len type x) d d'.
Proof.
  intros Hlen Hx Hcb. exists 1%nat.
  assert (Hh : zlen (header len type x) = 4 + MNL_ALIGN len)
    by (unfold header; rewrite !zlen_app, !zlen_le_bytes, Hx; lia).
  pose proof (MNL_ALIGN_bounds len). split; [unfold zlen in Hh; lia|].
  intros fuel rest l Hl. cbn [Nat.add attr_loop].
  replace (header len type x ++ rest) with (header len type (x ++ rest))
    by (unfold header; by rewrite <- !app_assoc).
  unfold mnl_attr_ok, mnl_attr_next, sizeof_nlattr. rewrite nla_len_header by done.
  replace (_ && _) with true by lia. cbn [negb]. rewrite Hcb. cbn iota beta.
  change (MNL_CB_OK <=? MNL_CB_STOP) with false. cbn iota. rewrite MNL_ALIGN_add4. f_equal; [|lia].
  unfold header. rewrite !app_assoc. apply drop_app_length'.
  rewrite !length_app, !le_bytes_length. unfold zlen in Hx. lia.
Qed.

Lemma walks_attr type data d d' :
  zlen data < 2 ^ 15 ->
  (forall rest, cb (attr_bytes type data ++ rest) d = (MNL_CB_OK, d')) ->
  walks (attr_bytes type data) d d'.
Proof.
  intros Hl Hcb. pose proof (zlen_nonneg data). pose proof (MNL_ALIGN_bounds (zlen data)).
  rewrite <- (app_nil_r (attr_bytes _ _)), attr_bytes_header, app_nil_r.
  apply walks_header; [lia|rewrite zlen_app, zlen_zeros; lia|].
  intros rest. rewrite <- (Hcb rest), attr_bytes_header, <- !app_assoc. reflexivity.
Qed.

Lemma walks_nest type c d d' :
  zlen c < 2 ^ 15 -> zlen c mod 4 = 0 ->
  (forall rest, cb (nest_bytes type c ++ rest) d = (MNL_CB_OK, d')) ->
  walks (nest_bytes type c) d d'.
Proof.
  intros Hl Hm Hcb. pose proof (zlen_nonneg c).
  rewrite <- (app_nil_r (nest_bytes _ _)), nest_bytes_header, app_nil_r.
  apply walks_header; [lia|by rewrite MNL_ALIGN_fix|].
  intros rest. by rewrite <- (Hcb rest), nest_bytes_header.
Qed.

(** A walk that covers all of the bytes. *)
Lemma attr_loop_walks fuel bytes rest d d' :
  walks bytes d d' -> (length bytes <= fuel)%nat ->
  attr_loop cb fuel (bytes ++ rest) (zlen bytes) MNL_CB_OK d = (MNL_CB_OK, d').
Proof.
  intros (k & Hk & Hw) Hf. replace fuel with (k + (fuel - k))%nat by lia.
  rewrite Hw by lia. rewrite Z.sub_diag. by destruct (fuel - k)%nat.
Qed.

Lemma parse_nested_walks type c rest d d' :
  zlen c < 2 ^ 15 -> walks c d d' ->
  mnl_attr_parse_nested cb (nest_bytes type c ++ rest) d = (MNL_CB_OK, d').
Proof.
  intros Hl Hw. unfold mnl_attr_parse_nested. pose proof (zlen_nonneg c). rewrite nest_bytes_header.
  rewrite payload_header, payload_len_header by lia. apply attr_loop_walks; [done|].
  unfold header. rewrite !length_app. lia.
Qed.

(** A chain of steps, each of which walks its own bytes. *)
Lemma walks_concat {A} (f : A -> list Z) (g : A -> D -> D) l d :
  (forall a d, In a l -> walks (f a) d (g a d)) ->
  walks (concat (map f l)) d (fold_left (fun d a => g a d) l d).
Proof.
  revert d. induction l as [|a l IH]; intros d H; cbn [map concat fold_left]; [apply walks_nil|].
  eapply walks_app; [apply H; by left|]. apply IH. intros. apply H. by right.
Qed.

End Walks.

(** The attributes of the message [nlh] after its family's header. *)
Lemma attr_parse_walks_at {D} (cb : list Z -> D -> Z * D) offset nlh g b d d' :
  nlmsg_body nlh = g ++ b -> zlen g = offset -> offset mod 4 = 0 -> nlmsg_len nlh < 2 ^ 31 -> zlen b mod 4 = 0 ->
  walks cb b d d' ->
  mnl_attr_parse cb (nlmsg_bytes nlh) offset d = (MNL_CB_OK, d').
Proof.
  intros Hb Hg Ho Hl Hm Hw. unfold mnl_attr_parse. cbv zeta.
  rewrite (MNL_ALIGN_fix offset) by done. change MNL_NLMSG_HDRLEN with 16.
  assert (Hn : nlmsg_len nlh = 16 + offset + zlen b)
    by (unfold nlmsg_len; rewrite Hb, length_app; change MNL_NLMSG_HDRLEN with 16; unfold zlen in *; lia).
  pose proof (zlen_nonneg b). pose proof (zlen_nonneg g).
  replace (msg_len (nlmsg_bytes nlh)) with (16 + offset + zlen b)
    by (unfold msg_len, nlmsg_bytes; rewrite <- Hn; symmetry; apply field_le_bytes; lia).
  rewrite MNL_ALIGN_fix by (rewrite Z.add_mod, Hm, (Z.add_mod 16 offset), Ho by lia; reflexivity).
  replace (16 + offset + zlen b - (16 + offset)) with (zlen b) by lia.
  replace (drop (Z.to_nat (16 + offset)) (nlmsg_bytes nlh)) with (b ++ []).
  - apply attr_loop_walks; [done|]. unfold nlmsg_bytes. rewrite !length_app, Hb, length_app. lia.
  - unfold nlmsg_bytes. rewrite app_nil_r, Hb. symmetry. rewrite !app_assoc.
    apply drop_app_length'. rewrite !length_app, !le_bytes_length. unfold zlen in Hg. lia.
Qed.
Lemma attr_parse_walks {D} (cb : list Z -> D -> Z * D) nlh g b d d' :
  nlmsg_body nlh = g ++ b -> length g = 4%nat -> nlmsg_len nlh < 2 ^ 31 -> zlen b mod 4 = 0 ->
  walks cb b d d' ->
  mnl_attr_parse cb (nlmsg_bytes nlh) sizeof_genlmsghdr d = (MNL_CB_OK, d').
Proof. intros Hb Hg. apply attr_parse_walks_at with g; [done| |done]. unfold zlen. by rewrite Hg. Qed.

(** ** Acknowledgements *)

(** A reply to the message with the given sequence number that reports no error. *)
Definition is_ack (seq portid : Z) (b : list Z) : bool :=
  (36 <=? zlen b) && (msg_len b =? zlen b) && (zlen b <? 2 ^ 31) && (msg_type b =? NLMSG_ERROR)
  && mnl_nlmsg_portid_ok b portid && mnl_nlmsg_seq_ok b seq
  && (Z.land (msg_flags b) NLM_F_DUMP_INTR =? 0) && (field 0 4 (mnl_nlmsg_get_payload b) =? 0).

(** A kernel that acknowledges every message to a family but the controller;
    [nl_sent] is the messages so far. *)
Class NlAcks (K : Type) `{!NlKernel K} := {
  nl_sent : K -> list (list Z);
  nl_acks k b portid : msg_type b <> GENL_ID_CTRL -> 0 <= msg_seq b < 2 ^ 32 -> exists k1 reply k2,
    nl_sendto k b = (0, k1) /\ nl_recvfrom k1 = (inr reply, k2) /\
    is_ack (msg_seq b) portid reply = true /\ nl_sent k2 = nl_sent k ++ [b]
}.

(** A reply of one message that reports a result, zero or not. *)
Definition is_reply (portid : Z) (b : list Z) : bool :=
  (36 <=? zlen b) && (msg_len b =? zlen b) && (zlen b <? 2 ^ 31) && (msg_type b =? NLMSG_ERROR)
  && mnl_nlmsg_portid_ok b portid && (Z.land (msg_flags b) NLM_F_DUMP_INTR =? 0).
Definition reply_error (b : list Z) : Z := s32 (field 0 4 (mnl_nlmsg_get_payload b)).

(** Both arrays of control callbacks read an error message in the same way. *)
Lemma cb_run_reply {D} ctl seq portid b (d : D) errno :
  (forall e, ctl NLMSG_ERROR b e = Some (mnl_cb_error b)) ->
  is_reply portid b = true -> mnl_nlmsg_seq_ok b seq = true ->
  mnl_cb_run (length b) ctl None seq portid b (Z.of_nat (length b)) MNL_CB_OK d errno
  = let '(ret, errno) := from_error (reply_error b) in (ret, d, errno).
Proof.
  intros Hctl H Hseq. unfold is_reply in H. rewrite !andb_true_iff in H.
  destruct H as [[[[[H1 H2] H3] H4] Hport] Hdump].
  assert (E : exists n, length b = S n) by (exists (pred (length b)); unfold zlen in *; lia).
  destruct E as [n En]. rewrite En at 1. cbn [mnl_cb_run]. fold (zlen b). unfold mnl_nlmsg_ok.
  assert (Hm : msg_len b = zlen b) by lia.
  rewrite Hm, s32_small by lia. unfold sizeof_nlmsghdr. replace (_ && _) with true by lia.
  cbn [negb]. rewrite Hport, Hseq. cbn [negb]. rewrite Hdump. cbn [negb].
  assert (Ht : msg_type b = NLMSG_ERROR) by lia. rewrite Ht.
  change (NLMSG_MIN_TYPE <=? NLMSG_ERROR) with false. cbn iota.
  rewrite Hctl. unfold mnl_cb_error. rewrite Hm. change (mnl_nlmsg_size sizeof_nlmsgerr) with 36.
  replace (zlen b <? 36) with false by lia. fold (reply_error b). unfold from_error.
  by destruct (reply_error b =? 0).
Qed.

Lemma cb_run_ack {D} ctl seq portid b (d : D) errno :
  (forall e, ctl NLMSG_ERROR b e = Some (mnl_cb_error b)) -> is_ack seq portid b = true ->
  mnl_cb_run (length b) ctl None seq portid b (Z.of_nat (length b)) MNL_CB_OK d errno
  = (MNL_CB_STOP, d, 0).
Proof.
  unfold is_ack. intros Hctl H. rewrite !andb_true_iff in H.
  destruct H as [[[[[[[H1 H2] H3] H4] Hport] Hseq] Hdump] H8].
  rewrite cb_run_reply; [|done| |done]; [|unfold is_reply; by rewrite H1, H2, H3, H4, Hport, Hdump].
  unfold reply_error. apply Z.eqb_eq in H8. by rewrite H8.
Qed.

Lemma recv_run_ack `{NlKernel K} fuel (k : K) seq portid reply k' :
  nl_recvfrom k = (inr reply, k') -> is_ack seq portid reply = true ->
  mnlg_socket_recv_run (D := unit) (S fuel) k seq portid None tt 0 = Ret (0, tt, 0, k').
Proof.
  intros E Ha. cbn [mnlg_socket_recv_run]. rewrite E.
  destruct (Nat.eqb_spec (length reply) 0) as [E0|_].
  { unfold is_ack, zlen in Ha. rewrite E0 in Ha. discriminate Ha. }
  by rewrite cb_run_ack.
Qed.

Lemma msg_seq_bytes nlh : 0 <= nlmsg_seq nlh < 2 ^ 32 -> msg_seq (nlmsg_bytes nlh) = nlmsg_seq nlh.
Proof.
  intros H. unfold msg_seq, nlmsg_bytes. rewrite 2!app_assoc.
  match goal with |- field 8 4 (?a ++ ?b) = _ => pose proof (field_skip a b 0 4) as E end.
  rewrite !length_app, !le_bytes_length in E. cbn [Nat.add] in E. rewrite E. by apply field_le_bytes.
Qed.

Lemma msg_type_bytes nlh : 0 <= nlmsg_type nlh < 2 ^ 16 -> msg_type (nlmsg_bytes nlh) = nlmsg_type nlh.
Proof.
  intros H. unfold msg_type, nlmsg_bytes.
  match goal with |- field 4 2 (?a ++ ?b) = _ => pose proof (field_skip a b 0 2) as E end.
  rewrite le_bytes_length in E. cbn [Nat.add] in E. rewrite E. by apply field_le_bytes.
Qed.

Lemma zlen_nlmsg_bytes nlh : zlen (nlmsg_bytes nlh) = nlmsg_len nlh.
Proof.
  unfold nlmsg_bytes, nlmsg_len. rewrite !zlen_app, !zlen_le_bytes.
  change MNL_NLMSG_HDRLEN with 16. unfold zlen. lia.
Qed.
End NetlinkFacts.
