(* ===== verification/IpcLinuxFacts.v ===== *)
(** * The Linux back end: what is sent

    [kernel_set_device] splits a device over several messages. This file gives
    the bytes of each message as fragments of peers, and shows that the loop
    makes progress in every message, so that it ends after the whole device. *)
From S2P Require Import Prelude Libc Encoding Containers IpcUapi Netlink NetlinkFacts Ipc IpcLinux.
Import Libc Encoding Netlink NetlinkFacts IpcLinux.

Module IpcLinuxFacts.

(** ** The bytes of a fragment *)

Definition opt_bytes (b : bool) (x : list Z) : list Z := if b then x else [].

Definition aip_content (a : wgallowedip) : list Z :=
  attr_bytes WGALLOWEDIP_A_FAMILY (le_bytes 2 (aip_family a))
  ++ (if aip_family a =? AF_INET then attr_bytes WGALLOWEDIP_A_IPADDR (take 4 (aip_ip a))
      else if aip_family a =? AF_INET6 then attr_bytes WGALLOWEDIP_A_IPADDR (aip_ip a) else [])
  ++ attr_bytes WGALLOWEDIP_A_CIDR_MASK (le_bytes 1 (aip_cidr a))
  ++ opt_bytes (negb (aip_flags a =? 0)) (attr_bytes WGALLOWEDIP_A_FLAGS (le_bytes 4 (aip_flags a))).
Definition aip_bytes (a : wgallowedip) : list Z := nest_bytes 0 (aip_content a).
Definition aips_bytes (l : list wgallowedip) : list Z := concat (map aip_bytes l).

Definition head_flags (p : wgpeer) (first : bool) : Z :=
  Z.lor (if has_flag (peer_flags p) WGPEER_REMOVE_ME then WGPEER_F_REMOVE_ME else 0)
    (if first && has_flag (peer_flags p) WGPEER_REPLACE_ALLOWEDIPS
     then WGPEER_F_REPLACE_ALLOWEDIPS else 0).
Definition head_bytes (p : wgpeer) (first : bool) : list Z :=
  attr_bytes WGPEER_A_PUBLIC_KEY (peer_public_key p)
  ++ opt_bytes (first && has_flag (peer_flags p) WGPEER_HAS_PRESHARED_KEY)
       (attr_bytes WGPEER_A_PRESHARED_KEY (peer_preshared_key p))
  ++ opt_bytes first
       (if sa_family (peer_endpoint p) =? AF_INET
        then attr_bytes WGPEER_A_ENDPOINT (sockaddr_in_bytes (peer_endpoint p))
        else if sa_family (peer_endpoint p) =? AF_INET6
        then attr_bytes WGPEER_A_ENDPOINT (sockaddr_in6_bytes (peer_endpoint p)) else [])
  ++ opt_bytes (first && has_flag (peer_flags p) WGPEER_HAS_PERSISTENT_KEEPALIVE_INTERVAL)
       (attr_bytes WGPEER_A_PERSISTENT_KEEPALIVE_INTERVAL
          (le_bytes 2 (peer_persistent_keepalive_interval p)))
  ++ opt_bytes (negb (head_flags p first =? 0))
       (attr_bytes WGPEER_A_FLAGS (le_bytes 4 (head_flags p first))).

(** What one message says of one peer: whether it is the first to mention it,
    and the allowed IPs it carries, if it has that attribute. *)
Record fragment := { fr_peer : wgpeer; fr_first : bool; fr_aips : option (list wgallowedip) }.
Definition frag_content (f : fragment) : list Z :=
  head_bytes (fr_peer f) (fr_first f)
  ++ match fr_aips f with
     | None => []
     | Some l => nest_bytes WGPEER_A_ALLOWEDIPS (aips_bytes l)
     end.
Definition frag_bytes (f : fragment) : list Z := nest_bytes 0 (frag_content f).
Definition frag_list (f : fragment) : list wgallowedip := default [] (fr_aips f).

#[global] Arguments aip_bytes : simpl never.
#[global] Arguments aip_content : simpl never.
#[global] Arguments aips_bytes : simpl never.
#[global] Arguments head_bytes : simpl never.
#[global] Arguments frag_content : simpl never.
#[global] Arguments frag_bytes : simpl never.

Lemma aligned_opt b x : aligned x -> aligned (opt_bytes b x).
Proof. destruct b; cbn [opt_bytes]; auto with aligned. Qed.
#[export] Hint Resolve aligned_opt : aligned.

Lemma aligned_aip a : aligned (aip_content a).
Proof. unfold aip_content. repeat case_match; auto 8 with aligned. Qed.
Lemma aligned_aips l : aligned (aips_bytes l).
Proof.
  apply aligned_concat, Forall_map, Forall_true. intros a. apply aligned_nest, aligned_aip.
Qed.
#[export] Hint Resolve aligned_aips : aligned.
Lemma aligned_head p first : aligned (head_bytes p first).
Proof. unfold head_bytes. repeat case_match; auto 8 with aligned. Qed.
Lemma aligned_frag f : aligned (frag_content f).
Proof.
  unfold frag_content. apply aligned_app; [apply aligned_head|].
  case_match; auto with aligned.
Qed.

(** What is left to send: the peers, and the allowed IPs of the first of them
    unless none of it has been sent. *)
Definition pending : Type := list wgpeer * list wgallowedip.
Definition left_of (p : wgpeer) (allowedip : list wgallowedip) : list wgallowedip :=
  match allowedip with [] => peer_allowedips p | _ => allowedip end.
Definition fresh (allowedip : list wgallowedip) : bool := (length allowedip =? 0)%nat.

(** One fragment: the peer is completed, or some of its allowed IPs are left. Only
    the first fragment of a peer may be without any. *)
Inductive emits : pending -> fragment -> pending -> Prop :=
| emits_last p rest aip f :
    fr_peer f = p -> fr_first f = fresh aip -> frag_list f = left_of p aip ->
    emits (p :: rest, aip) f (rest, [])
| emits_part p rest aip f r :
    fr_peer f = p -> fr_first f = fresh aip -> frag_list f ++ r = left_of p aip -> r <> [] ->
    (fresh aip = false -> frag_list f <> []) ->
    emits (p :: rest, aip) f (p :: rest, r).

Inductive emits_all : pending -> list fragment -> pending -> Prop :=
| emits_nil s : emits_all s [] s
| emits_cons s f s1 l s2 : emits s f s1 -> emits_all s1 l s2 -> emits_all s (f :: l) s2.

Lemma emits_all_app s1 l1 s2 l2 s3 :
  emits_all s1 l1 s2 -> emits_all s2 l2 s3 -> emits_all s1 (l1 ++ l2) s3.
Proof. induction 1; cbn [app]; [done|]. intros. by econstructor; eauto. Qed.

Section Send.
Context (buflen : Z) (Hbuf : buflen <= 2 ^ 15).
#[local] Abbreviation write := (write buflen).
#[local] Abbreviation wrote := (wrote buflen).
#[local] Abbreviation fits nlh b := (nlmsg_len nlh + zlen b <= buflen).

(** ** Chains of writes *)

Lemma try_put_wrote nlh0 t m f x :
  wrote nlh0 t m -> (forall nlh, nlmsg_len nlh <= buflen -> f nlh = write x nlh) ->
  wrote nlh0 (t ++ x) (try_put m f).
Proof using.
  intros (b & E & H) Hf. destruct m as [nlh ok]; cbn [fst snd] in *. unfold try_put.
  pose proof (zlen_nonneg x). destruct ok.
  - destruct H as [-> H]. subst nlh.
    assert (Hn : nlmsg_len (append t nlh0) = nlmsg_len nlh0 + zlen t) by apply nlmsg_len_append.
    rewrite Hf by lia. unfold NetlinkFacts.write. rewrite Hn.
    destruct (Z.ltb_spec buflen (nlmsg_len nlh0 + zlen t + zlen x)).
    + exists t. cbn [fst snd]. rewrite zlen_app. split; [done|lia].
    + exists (t ++ x). cbn [fst snd]. rewrite zlen_app, append_append. split_and!; [done|done|lia].
  - exists b. cbn [fst snd]. rewrite zlen_app. split; [done|lia].
Qed.

Lemma wrote_start nlh : nlmsg_len nlh <= buflen -> wrote nlh [] (nlh, true).
Proof using. intros. exists []. cbn [fst snd]. rewrite append_nil, zlen_nil. split_and!; [done|done|lia]. Qed.

Lemma put_if_write b f x nlh :
  (nlmsg_len nlh <= buflen -> f nlh = write x nlh) -> nlmsg_len nlh <= buflen ->
  put_if b f nlh = write (opt_bytes b x) nlh.
Proof using. intros Hf Hn. destruct b; cbn [put_if opt_bytes]; [by apply Hf|by rewrite write_nil]. Qed.

Ltac write_step :=
  intros; first
    [ apply put_check_write; done
    | apply put_if_write; [write_step|done]
    | case_match; write_step
    | rewrite write_nil; done ].

Lemma put_peer_head_wrote nlh p first :
  nlmsg_len nlh <= buflen -> wrote nlh (head_bytes p first) (put_peer_head buflen nlh p first).
Proof using Hbuf.
  intros Hn. unfold put_peer_head, head_bytes. cbv zeta. fold (head_flags p first).
  rewrite <- (app_nil_l (attr_bytes WGPEER_A_PUBLIC_KEY _ ++ _)), !app_assoc.
  repeat (apply try_put_wrote; [|write_step]). by apply wrote_start.
Qed.

(** A nested attribute is written as a whole, or not at all. *)
Lemma nest_wrote nlh type c m :
  fits nlh [] ->
  wrote (append ([0; 0] ++ le_bytes 2 (Z.lor NLA_F_NESTED type)) nlh) c m ->
  (if m.2 then Some (mnl_attr_nest_end m.1 (length (nlmsg_body nlh))) else None)
  = write (nest_bytes type c) nlh /\
  (m.2 = false -> mnl_attr_nest_cancel m.1 (length (nlmsg_body nlh)) = nlh).
Proof using Hbuf.
  intros Hn (b & E & H). rewrite E, append_append.
  assert (H4 : zlen ([0; 0] ++ le_bytes 2 (Z.lor NLA_F_NESTED type)) = 4) by reflexivity.
  rewrite nlmsg_len_append, H4 in H. pose proof (zlen_nonneg c). pose proof (nlmsg_len_nonneg nlh).
  split; [|intros _; apply nest_cancel_restores].
  unfold NetlinkFacts.write. rewrite zlen_nest_bytes. destruct m.2.
  - destruct H as [-> H]. rewrite nest_end_bytes by lia.
    by destruct (Z.ltb_spec buflen (nlmsg_len nlh + (4 + zlen c))); [lia|].
  - by destruct (Z.ltb_spec buflen (nlmsg_len nlh + (4 + zlen c))); [|lia].
Qed.

Lemma nest_start_check_eq nlh type :
  mnl_attr_nest_start_check nlh buflen type =
  if buflen <? nlmsg_len nlh + 4 then None
  else Some (append ([0; 0] ++ le_bytes 2 (Z.lor NLA_F_NESTED type)) nlh, length (nlmsg_body nlh)).
Proof using. reflexivity. Qed.

Lemma put_allowedip_write nlh a : nlmsg_len nlh <= buflen ->
  put_allowedip buflen nlh a =
  match write (aip_bytes a) nlh with Some nlh' => (nlh', true) | None => (nlh, false) end.
Proof using Hbuf.
  intros Hn. unfold put_allowedip. rewrite nest_start_check_eq.
  unfold NetlinkFacts.write, aip_bytes. rewrite zlen_nest_bytes.
  pose proof (zlen_nonneg (aip_content a)) as Hc.
  destruct (Z.ltb_spec buflen (nlmsg_len nlh + 4)) as [|Hroom].
  - by destruct (Z.ltb_spec buflen (nlmsg_len nlh + (4 + zlen (aip_content a)))); [|lia].
  - set (nlh1 := append _ nlh). cbv zeta.
    match goal with |- (let '(_, _) := ?m in _) = _ => assert (H : wrote nlh1 (aip_content a) m) end.
    { unfold aip_content. rewrite <- (app_nil_l (attr_bytes WGALLOWEDIP_A_FAMILY _ ++ _)), !app_assoc.
      repeat (apply try_put_wrote; [|write_step]). apply wrote_start.
      unfold nlh1. rewrite nlmsg_len_append. change (zlen _) with 4. lia. }
    apply nest_wrote in H as [Hw Hcancel]; [|rewrite zlen_nil; lia].
    unfold NetlinkFacts.write in Hw. rewrite zlen_nest_bytes in Hw. revert Hw Hcancel.
    match goal with |- context [let '(_, _) := ?m in _] => destruct m as [nlh2 ok] end. cbn [fst snd].
    destruct (buflen <? _), ok; intros Hw Hcancel; simplify_eq; [by rewrite Hcancel|by f_equal].
Qed.

Lemma put_allowedips_spec nlh l : nlmsg_len nlh <= buflen ->
  exists t r, l = t ++ r /\ put_allowedips buflen nlh l = (append (aips_bytes t) nlh, r) /\
    fits nlh (aips_bytes t) /\ (forall a, head l = Some a -> fits nlh (aip_bytes a) -> t <> []).
Proof using Hbuf.
  revert nlh. induction l as [|a l IH]; intros nlh Hn; cbn [put_allowedips].
  - exists [], []. change (aips_bytes []) with (@nil Z). rewrite append_nil, zlen_nil. split_and!; [done|done|lia|done].
  - rewrite put_allowedip_write by done. unfold NetlinkFacts.write.
    destruct (Z.ltb_spec buflen (nlmsg_len nlh + zlen (aip_bytes a))) as [Hno|Hyes].
    + exists [], (a :: l). change (aips_bytes []) with (@nil Z). rewrite append_nil, zlen_nil. split_and!; [done|done|lia|].
      intros ? [= <-] ?. lia.
    + pose proof (nlmsg_len_append (aip_bytes a) nlh) as En.
      destruct (IH (append (aip_bytes a) nlh)) as (t & r & -> & E & Hf & _); [lia|].
      exists (a :: t), r. rewrite E, append_append. split_and!; [done|done| |done].
      unfold aips_bytes in *. cbn [map concat]. rewrite zlen_app. lia.
Qed.

(** How far [put_peer] gets. *)
Inductive put_peer_spec (nlh : nlmsghdr) (p : wgpeer) (aip : list wgallowedip) : peer_put -> Prop :=
| put_peer_done f :
    fr_peer f = p -> fr_first f = fresh aip -> frag_list f = left_of p aip ->
    fits nlh (frag_bytes f) ->
    put_peer_spec nlh p aip (PeerDone (append (frag_bytes f) nlh))
| put_peer_part f r :
    fr_peer f = p -> fr_first f = fresh aip -> frag_list f ++ r = left_of p aip -> r <> [] ->
    fits nlh (frag_bytes f) ->
    (forall a, head (left_of p aip) = Some a ->
       nlmsg_len nlh + 8 + zlen (head_bytes p (fresh aip)) + zlen (aip_bytes a) <= buflen ->
       frag_list f <> []) ->
    put_peer_spec nlh p aip (TooBigAllowedips (append (frag_bytes f) nlh) r)
| put_peer_none :
    buflen < nlmsg_len nlh + 4 + zlen (head_bytes p (fresh aip)) ->
    put_peer_spec nlh p aip (TooBigPeers nlh).

(** What is in an open nested attribute when it is closed. *)
Lemma nest_close nlh type c : fits nlh (nest_bytes type c) ->
  mnl_attr_nest_end (append c (append ([0; 0] ++ le_bytes 2 (Z.lor NLA_F_NESTED type)) nlh))
    (length (nlmsg_body nlh)) = append (nest_bytes type c) nlh.
Proof using Hbuf.
  intros H. rewrite zlen_nest_bytes in H. rewrite append_append. apply nest_end_bytes.
  pose proof (nlmsg_len_nonneg nlh). lia.
Qed.

Lemma left_of_eq p aip : (if fresh aip then peer_allowedips p else aip) = left_of p aip.
Proof using. by destruct aip. Qed.

(** The allowed IPs of a peer, after its head [h] was written to [nlh]. *)
Lemma put_peer_aips nlh p aip first h :
  let nlh1 := append h (append ([0; 0] ++ le_bytes 2 (Z.lor NLA_F_NESTED 0)) nlh) in
  h = head_bytes p first -> first = fresh aip -> nlmsg_len nlh1 <= buflen -> left_of p aip <> [] ->
  put_peer_spec nlh p aip
    match mnl_attr_nest_start_check nlh1 buflen WGPEER_A_ALLOWEDIPS with
    | None => TooBigAllowedips (mnl_attr_nest_end nlh1 (length (nlmsg_body nlh))) (left_of p aip)
    | Some (nlh2, allowedips_nest) =>
        let '(nlh3, allowedip) := put_allowedips buflen nlh2 (left_of p aip) in
        let nlh3 := mnl_attr_nest_end nlh3 allowedips_nest in
        match allowedip with
        | [] => PeerDone (mnl_attr_nest_end nlh3 (length (nlmsg_body nlh)))
        | _ => TooBigAllowedips (mnl_attr_nest_end nlh3 (length (nlmsg_body nlh))) allowedip
        end
    end.
Proof using Hbuf.
  intros nlh1 -> -> Hn1 Hne.
  assert (En1 : nlmsg_len nlh1 = nlmsg_len nlh + 4 + zlen (head_bytes p (fresh aip)))
    by (unfold nlh1; rewrite !nlmsg_len_append; change (zlen ([0; 0] ++ _)) with 4; lia).
  rewrite nest_start_check_eq. destruct (Z.ltb_spec buflen (nlmsg_len nlh1 + 4)) as [Hno|Hyes].
  - set (f := {| fr_peer := p; fr_first := fresh aip; fr_aips := None |}).
    assert (Ef : frag_content f = head_bytes p (fresh aip)) by apply app_nil_r.
    assert (Hf : fits nlh (frag_bytes f)) by (unfold frag_bytes; rewrite zlen_nest_bytes, Ef; lia).
    unfold nlh1. rewrite <- Ef, nest_close by done. fold (frag_bytes f).
    eapply put_peer_part; try done. intros a Ha Hroom.
    pose proof (zlen_nonneg (aip_bytes a)). lia.
  - set (nlh2 := append _ nlh1).
    assert (En2 : nlmsg_len nlh2 = nlmsg_len nlh1 + 4)
      by (unfold nlh2; rewrite nlmsg_len_append; reflexivity).
    destruct (put_allowedips_spec nlh2 (left_of p aip)) as (t & r & Elist & E & Hft & Hprog); [lia|].
    rewrite E. set (f := {| fr_peer := p; fr_first := fresh aip; fr_aips := Some t |}).
    cbv zeta. unfold nlh2 at 1 2. rewrite nest_close by (rewrite zlen_nest_bytes; lia).
    unfold nlh1 at 1 2. rewrite (append_append (head_bytes p (fresh aip)) _ (append _ nlh)).
    change (head_bytes p (fresh aip) ++ _) with (frag_content f).
    assert (Hf : fits nlh (frag_bytes f))
      by (unfold frag_bytes, frag_content; rewrite zlen_nest_bytes, zlen_app;
          cbn [fr_aips fr_peer fr_first f]; rewrite zlen_nest_bytes; lia).
    rewrite nest_close by done. fold (frag_bytes f). destruct r as [|a r].
    + eapply put_peer_done; try done. cbn. by rewrite Elist, app_nil_r.
    + eapply put_peer_part; try done.
      intros a' Ha Hroom. apply (Hprog a'); [done|lia].
Qed.

Lemma put_peer_correct nlh p aip : nlmsg_len nlh <= buflen ->
  (fresh aip = false -> peer_allowedips p <> []) ->
  put_peer_spec nlh p aip (put_peer buflen nlh p aip).
Proof using Hbuf.
  intros Hn Haip. unfold put_peer. fold (fresh aip). rewrite nest_start_check_eq.
  pose proof (zlen_nonneg (head_bytes p (fresh aip))) as Hh.
  destruct (Z.ltb_spec buflen (nlmsg_len nlh + 4)) as [Hno|Hyes]; [apply put_peer_none; lia|].
  set (nlh0 := append _ nlh).
  assert (En : nlmsg_len nlh0 = nlmsg_len nlh + 4)
    by (unfold nlh0; rewrite nlmsg_len_append; reflexivity).
  destruct (put_peer_head_wrote nlh0 p (fresh aip)) as (b & Eb & Hb); [lia|].
  destruct (put_peer_head buflen nlh0 p (fresh aip)) as [nlh1 ok]. cbn [fst snd] in *. subst nlh1.
  destruct ok; cbn [negb].
  2: { unfold nlh0. rewrite append_append, nest_cancel_restores. apply put_peer_none. lia. }
  destruct Hb as [-> Hb].
  destruct (peer_allowedips p) as [|a l] eqn:Ea.
  - assert (Hfr : fresh aip = true) by (destruct (fresh aip); [done|by destruct (Haip eq_refl)]).
    set (f := {| fr_peer := p; fr_first := fresh aip; fr_aips := None |}).
    assert (Ef : frag_content f = head_bytes p (fresh aip)) by apply app_nil_r.
    assert (Hf : fits nlh (frag_bytes f)) by (unfold frag_bytes; rewrite zlen_nest_bytes, Ef; lia).
    unfold nlh0. rewrite <- Ef, nest_close by done. eapply put_peer_done; try done.
    unfold left_of. by destruct aip; [rewrite Ea|].
  - rewrite <- Ea, left_of_eq. eapply put_peer_aips; [done|done| |].
    + rewrite nlmsg_len_append. fold nlh0. lia.
    + unfold left_of. by destruct aip; [rewrite Ea|].
Qed.

(** ** A message *)

Definition frags_bytes (l : list fragment) : list Z := concat (map frag_bytes l).

Lemma aligned_frags l : aligned (frags_bytes l).
Proof using.
  apply aligned_concat, Forall_map, Forall_true. intros f. apply aligned_nest, aligned_frag.
Qed.

Lemma put_peers_fresh peers nlh : nlmsg_len nlh <= buflen ->
  exists frags peers' aip', put_peers buflen nlh peers [] = (append (frags_bytes frags) nlh, peers', aip') /\
    emits_all (peers, []) frags (peers', aip') /\ fits nlh (frags_bytes frags).
Proof using Hbuf.
  revert nlh. induction peers as [|p peers IH]; intros nlh Hn; cbn [put_peers].
  - exists [], [], []. change (frags_bytes []) with (@nil Z). rewrite append_nil, zlen_nil. split_and!; [done|constructor|lia].
  - destruct (put_peer_correct nlh p []) as [f Hp H1 Hl Hf|f r Hp H1 Hl Hr Hf _|]; try done.
    + destruct (IH (append (frag_bytes f) nlh)) as (frags & peers' & aip' & E & Hem & Hfs);
        [rewrite nlmsg_len_append; lia|].
      exists (f :: frags), peers', aip'. rewrite E, append_append. split_and!; [done| |].
      * econstructor; [|done]. by constructor.
      * unfold frags_bytes in *. cbn [map concat]. rewrite zlen_app. rewrite nlmsg_len_append in Hfs. lia.
    + exists [f], (p :: peers), r. unfold frags_bytes. cbn. rewrite app_nil_r. split_and!; [done| |done].
      econstructor; [|constructor]. by constructor.
    + exists [], (p :: peers), []. change (frags_bytes []) with (@nil Z). rewrite append_nil, zlen_nil. split_and!; [done|constructor|lia].
Qed.

(** ** Sizes *)

Lemma zlen_opt b x n : zlen x <= n -> zlen (opt_bytes b x) <= n.
Proof using. intros H. pose proof (zlen_nonneg x). destruct b; cbn [opt_bytes]; [done|rewrite zlen_nil; lia]. Qed.

Lemma zlen_attr_le type data n : zlen data <= 4 * n -> zlen (attr_bytes type data) <= 4 + 4 * n.
Proof using.
  intros H. rewrite zlen_attr_bytes, MNL_ALIGN_eq.
  pose proof (Z.div_mod (zlen data + 3) 4). pose proof (Z.mod_pos_bound (zlen data + 3) 4). lia.
Qed.

Lemma zlen_take_le n (l : list Z) : zlen (take n l) <= Z.of_nat n.
Proof using. unfold zlen. rewrite length_take. lia. Qed.

Lemma zlen_aip_bytes a : length (aip_ip a) = 16%nat -> zlen (aip_bytes a) <= 48.
Proof using.
  intros H. unfold aip_bytes, aip_content. rewrite zlen_nest_bytes, !zlen_app.
  pose proof (zlen_attr_le WGALLOWEDIP_A_FAMILY (le_bytes 2 (aip_family a)) 1
    ltac:(by rewrite zlen_le_bytes)).
  pose proof (zlen_attr_le WGALLOWEDIP_A_CIDR_MASK (le_bytes 1 (aip_cidr a)) 1
    ltac:(by rewrite zlen_le_bytes)).
  pose proof (zlen_opt (negb (aip_flags a =? 0)) _ 8
                (zlen_attr_le WGALLOWEDIP_A_FLAGS (le_bytes 4 (aip_flags a)) 1
                   ltac:(by rewrite zlen_le_bytes))).
  enough (zlen (if aip_family a =? AF_INET then attr_bytes WGALLOWEDIP_A_IPADDR (take 4 (aip_ip a))
     else if aip_family a =? AF_INET6 then attr_bytes WGALLOWEDIP_A_IPADDR (aip_ip a) else []) <= 20) by lia.
  pose proof (zlen_take_le 4 (aip_ip a)).
  repeat case_match; [apply (zlen_attr_le _ _ 4); lia|apply (zlen_attr_le _ _ 4)|rewrite zlen_nil; lia].
  unfold zlen. lia.
Qed.

Lemma zlen_head_bytes p first : wf_peer p -> zlen (head_bytes p first) <= 120.
Proof using.
  intros (_ & [Hk _] & [Hs _] & _). unfold head_bytes. rewrite !zlen_app.
  pose proof (zlen_attr_le WGPEER_A_PUBLIC_KEY (peer_public_key p) 8
    ltac:(unfold zlen; by rewrite Hk)).
  pose proof (zlen_opt (first && has_flag (peer_flags p) WGPEER_HAS_PRESHARED_KEY) _ 36
    (zlen_attr_le WGPEER_A_PRESHARED_KEY (peer_preshared_key p) 8 ltac:(unfold zlen; by rewrite Hs))).
  pose proof (zlen_opt (first && has_flag (peer_flags p) WGPEER_HAS_PERSISTENT_KEEPALIVE_INTERVAL) _ 8
    (zlen_attr_le WGPEER_A_PERSISTENT_KEEPALIVE_INTERVAL
       (le_bytes 2 (peer_persistent_keepalive_interval p)) 1 ltac:(rewrite zlen_le_bytes; lia))).
  pose proof (zlen_opt (negb (head_flags p first =? 0)) _ 8
    (zlen_attr_le WGPEER_A_FLAGS (le_bytes 4 (head_flags p first)) 1 ltac:(by rewrite zlen_le_bytes))).
  match goal with |- _ + (_ + (zlen (opt_bytes first ?e) + _)) <= _ =>
    assert (zlen (opt_bytes first e) <= 32) end; [|lia].
  apply zlen_opt. repeat case_match; [| |rewrite zlen_nil; lia]; apply (zlen_attr_le _ _ 7).
  - unfold sockaddr_in_bytes. rewrite !zlen_app, zlen_le_bytes.
    pose proof (zlen_take_le 4 (sa_addr (peer_endpoint p))).
    change (zlen (be16 _)) with 2. change (zlen (replicate 8 0)) with 8. lia.
  - unfold sockaddr_in6_bytes. rewrite !zlen_app, !zlen_le_bytes.
    pose proof (zlen_take_le 16 (sa_addr (peer_endpoint p))).
    change (zlen (be16 _)) with 2. lia.
Qed.

(** Work that is left in a state the loop can be in. *)
Definition pending_ok (s : pending) : Prop :=
  Forall wf_peer s.1 /\ Forall wf_allowedip s.2 /\
  (s.2 <> [] -> exists p rest, s.1 = p :: rest /\ peer_allowedips p <> []).

Lemma left_of_wf p rest aip a :
  pending_ok (p :: rest, aip) -> head (left_of p aip) = Some a -> wf_allowedip a.
Proof using.
  intros (Hp & Ha & _) Hh. cbn in *. apply Forall_cons in Hp as [(_ & _ & _ & _ & Hp) _].
  unfold left_of in Hh. destruct aip as [|x aip]; cbn in Hh.
  - destruct (peer_allowedips p) as [|y l]; cbn in Hh; [done|]. injection Hh as <-.
    by apply Forall_cons in Hp as [? _].
  - injection Hh as <-. by apply Forall_cons in Ha as [? _].
Qed.

(** With room for a peer's head and an allowed IP, the message carries at least
    one fragment. *)
Lemma put_peers_correct peers aip nlh :
  nlmsg_len nlh + 176 <= buflen -> pending_ok (peers, aip) ->
  exists frags peers' aip',
    put_peers buflen nlh peers aip = (append (frags_bytes frags) nlh, peers', aip') /\
    emits_all (peers, aip) frags (peers', aip') /\ fits nlh (frags_bytes frags) /\
    (peers <> [] -> frags <> []).
Proof using Hbuf.
  intros Hn Hok. pose proof Hok as (Hpeers & Haips & Hne). cbn [fst snd] in *.
  destruct peers as [|p peers].
  { destruct aip as [|a aip]; [|by destruct Hne as (? & ? & ? & ?)]. exists [], [], [].
    change (frags_bytes []) with (@nil Z). cbn [put_peers].
    rewrite append_nil, zlen_nil. split_and!; [done|constructor|lia|done]. }
  pose proof (Forall_inv Hpeers) as Hp. pose proof (zlen_head_bytes p (fresh aip) Hp) as Hh.
  assert (Hfr : fresh aip = false -> peer_allowedips p <> []).
  { intros H. destruct Hne as (q & r & [= <- <-] & ?); [by destruct aip|done]. }
  cbn [put_peers].
  destruct (put_peer_correct nlh p aip) as [f Hfp H1 Hl Hf|f r Hfp H1 Hl Hr Hf Hprog|]; [lia|done| | |lia].
  - destruct (put_peers_fresh peers (append (frag_bytes f) nlh))
      as (frags & peers' & aip' & E & Hem & Hfs); [rewrite nlmsg_len_append; lia|].
    exists (f :: frags), peers', aip'. rewrite E, append_append. split_and!; [done| | |done].
    + econstructor; [|done]. by constructor.
    + unfold frags_bytes in *. cbn [map concat]. rewrite zlen_app. rewrite nlmsg_len_append in Hfs. lia.
  - exists [f], (p :: peers), r. unfold frags_bytes. cbn. rewrite app_nil_r. split_and!; [done| |done|done].
    econstructor; [|constructor]. constructor; try done. intros _.
    destruct (left_of p aip) as [|a l] eqn:El.
    { by destruct (frag_list f), r. }
    apply (Hprog a); [done|]. pose proof (zlen_aip_bytes a).
    assert (Hwa : wf_allowedip a) by (eapply left_of_wf; [done|by rewrite El]). destruct Hwa as [? _]. lia.
Qed.

Definition name_bytes (d : wgdevice) : list Z :=
  attr_bytes WGDEVICE_A_IFNAME (map uchar (dev_name d) ++ [0]).
Definition device_bytes (d : wgdevice) : list Z :=
  opt_bytes (has_flag (dev_flags d) WGDEVICE_HAS_PRIVATE_KEY)
    (attr_bytes WGDEVICE_A_PRIVATE_KEY (dev_private_key d))
  ++ opt_bytes (has_flag (dev_flags d) WGDEVICE_HAS_LISTEN_PORT)
       (attr_bytes WGDEVICE_A_LISTEN_PORT (le_bytes 2 (dev_listen_port d)))
  ++ opt_bytes (has_flag (dev_flags d) WGDEVICE_HAS_FWMARK)
       (attr_bytes WGDEVICE_A_FWMARK (le_bytes 4 (dev_fwmark d)))
  ++ opt_bytes (has_flag (dev_flags d) WGDEVICE_REPLACE_PEERS)
       (attr_bytes WGDEVICE_A_FLAGS (le_bytes 4 WGDEVICE_F_REPLACE_PEERS)).
(** The attributes of one message; [first] says that it is the first one. *)
Definition message_bytes (d : wgdevice) (first : bool) (frags : list fragment) : list Z :=
  (name_bytes d ++ opt_bytes first (device_bytes d))
  ++ match dev_peers d with [] => [] | _ => nest_bytes WGDEVICE_A_PEERS (frags_bytes frags) end.

Lemma zlen_name_bytes d : (length (dev_name d) <= 15)%nat -> zlen (name_bytes d) <= 20.
Proof using.
  intros H. apply (zlen_attr_le _ _ 4). rewrite zlen_app. unfold zlen. rewrite length_map. cbn [length]. lia.
Qed.
Lemma zlen_device_bytes d : wf_device d -> zlen (device_bytes d) <= 60.
Proof using.
  intros (_ & _ & [Hk _] & _). unfold device_bytes. rewrite !zlen_app.
  repeat match goal with |- context [opt_bytes ?b (attr_bytes ?t ?x)] =>
    lazymatch x with
    | dev_private_key _ => pose proof (zlen_opt b (attr_bytes t x) 36 (zlen_attr_le t x 8 ltac:(unfold zlen; by rewrite Hk)))
    | _ => pose proof (zlen_opt b (attr_bytes t x) 8 (zlen_attr_le t x 1 ltac:(by rewrite zlen_le_bytes)))
    end; generalize dependent (opt_bytes b (attr_bytes t x)); intros end.
  lia.
Qed.

Lemma opt_put (b : bool) nlh type data : zlen data < 2 ^ 16 - 4 ->
  (if b then mnl_attr_put nlh type data else nlh) = append (opt_bytes b (attr_bytes type data)) nlh.
Proof using.
  intros H. destruct b; cbn [opt_bytes]; [by apply mnl_attr_put_bytes|by rewrite append_nil].
Qed.

Lemma put_device_bytes nlh d : wf_device d -> put_device nlh d = append (device_bytes d) nlh.
Proof using.
  intros (_ & _ & [Hk _] & _). unfold put_device, device_bytes, mnl_attr_put_u16, mnl_attr_put_u32. cbv zeta.
  rewrite !opt_put by first [rewrite zlen_le_bytes; lia | unfold zlen; by rewrite Hk].
  rewrite !append_append, <- ?app_assoc. reflexivity.
Qed.

Lemma aligned_message d first frags : aligned (message_bytes d first frags).
Proof using.
  unfold message_bytes, name_bytes, device_bytes. pose proof (aligned_frags frags).
  case_match; auto 10 with aligned.
Qed.

Definition start_of (d : wgdevice) (peer : list wgpeer) : list wgpeer :=
  match peer with [] => dev_peers d | _ => peer end.
Definition is_first (peer : list wgpeer) : bool := (length peer =? 0)%nat.

Lemma set_message_correct nlh d peer aip :
  280 <= buflen -> wf_device d -> (length (dev_name d) <= 15)%nat -> nlmsg_len nlh = 20 ->
  pending_ok (start_of d peer, aip) -> (dev_peers d = [] -> peer = []) ->
  exists frags peer' aip',
    set_message buflen nlh d peer aip
    = (append (message_bytes d (is_first peer) frags) nlh, peer', aip') /\
    emits_all (start_of d peer, aip) frags (peer', aip') /\
    fits nlh (message_bytes d (is_first peer) frags) /\ (start_of d peer <> [] -> frags <> []).
Proof using Hbuf.
  intros H280 Hwf Hname Hn Hok Hpeers. unfold set_message.
  pose proof (zlen_name_bytes d Hname) as Hnl.
  pose proof (zlen_opt (is_first peer) _ _ (zlen_device_bytes d Hwf)) as Hdl.
  assert (En : match peer with
               | [] => put_device (mnl_attr_put_strz nlh WGDEVICE_A_IFNAME (dev_name d)) d
               | _ => mnl_attr_put_strz nlh WGDEVICE_A_IFNAME (dev_name d)
               end = append (name_bytes d ++ opt_bytes (is_first peer) (device_bytes d)) nlh).
  { unfold mnl_attr_put_strz. rewrite mnl_attr_put_bytes
      by (rewrite zlen_app; unfold zlen; rewrite length_map; cbn [length]; lia).
    fold (name_bytes d). destruct peer; cbn [is_first length Nat.eqb opt_bytes].
    - by rewrite put_device_bytes, append_append.
    - by rewrite app_nil_r. }
  cbv zeta. rewrite En. clear En. set (pre := name_bytes d ++ _).
  assert (Hpre : zlen pre <= 80) by (unfold pre; rewrite zlen_app; lia).
  unfold message_bytes. fold pre.
  assert (Es : match peer with [] => dev_peers d | _ => peer end = start_of d peer) by done.
  destruct (dev_peers d) as [|p0 ps] eqn:Ed.
  - assert (Hp : peer = []) by auto. subst peer.
    assert (aip = []) as ->.
    { destruct Hok as (_ & _ & H). cbn in H. destruct aip; [done|].
      unfold start_of in H. rewrite Ed in H. by destruct H as (? & ? & ? & ?). }
    exists [], [], []. unfold start_of. rewrite Ed, app_nil_r. split_and!; [done|constructor|lia|done].
  - rewrite Es. set (nlh1 := append pre nlh). cbn [mnl_attr_nest_start].
    set (nlh2 := append _ nlh1).
    assert (En2 : nlmsg_len nlh2 = 24 + zlen pre)
      by (unfold nlh2, nlh1; rewrite !nlmsg_len_append, Hn; change (zlen ([0; 0] ++ _)) with 4; lia).
    destruct (put_peers_correct (start_of d peer) aip nlh2) as (frags & peer' & aip' & E & Hem & Hf & Hprog);
      [lia|done|].
    unfold mnl_attr_nest_start. cbn [fst snd]. fold nlh2. rewrite E.
    exists frags, peer', aip'. split_and!; [|done| |done].
    + f_equal. f_equal. unfold nlh2. rewrite nest_close.
      * unfold nlh1. by rewrite append_append.
      * rewrite zlen_nest_bytes. unfold nlh1. rewrite nlmsg_len_append. lia.
    + rewrite zlen_app, zlen_nest_bytes. lia.
Qed.

(** ** The loop over the messages *)

Definition peer_work (p : wgpeer) : nat := 2 + length (peer_allowedips p).
(** An upper bound on the fragments that are left. *)
Definition work (s : pending) : nat :=
  match s with
  | ([], _) => 0
  | (p :: rest, aip) =>
      (if fresh aip then peer_work p else 1 + length aip) + list_sum (map peer_work rest)
  end.

Lemma work_cons p rest : list_sum (map peer_work (p :: rest)) = (peer_work p + list_sum (map peer_work rest))%nat.
Proof using. reflexivity. Qed.
Lemma work_fresh peers : work (peers, []) = list_sum (map peer_work peers).
Proof using. by destruct peers. Qed.

Lemma fresh_false aip : aip <> [] -> fresh aip = false.
Proof using. by destruct aip. Qed.

Lemma emits_work s f s' : emits s f s' -> (work s' < work s)%nat.
Proof using.
  destruct 1 as [p rest aip f H1 H2 H3|p rest aip f r H1 H2 H3 Hr H4]; unfold work at 2.
  - rewrite work_fresh. unfold peer_work at 2. destruct (fresh aip); lia.
  - unfold work. rewrite (fresh_false r) by done. unfold peer_work at 2.
    destruct aip as [|a aip]; cbn [fresh length Nat.eqb left_of] in *.
    + rewrite <- H3, length_app. lia.
    + assert (E : length (frag_list f ++ r) = S (length aip)) by by rewrite H3.
      rewrite length_app in E. destruct (frag_list f); [by destruct H4|]. cbn [length] in E. lia.
Qed.

Lemma emits_all_work s l s' : emits_all s l s' -> (l <> [] -> work s' < work s)%nat /\ (work s' <= work s)%nat.
Proof using.
  induction 1 as [|s f s1 l s2 H _ [_ IH]]; [done|]. apply emits_work in H. split; [intros _|]; lia.
Qed.

Lemma emits_ok s f s' : emits s f s' -> pending_ok s -> pending_ok s'.
Proof using.
  intros H (Hp & Ha & Hne). destruct H as [p rest aip f H1 H2 H3|p rest aip f r H1 H2 H3 Hr H4]; cbn [fst snd] in *.
  - apply Forall_cons in Hp as [_ Hp]. by split_and!.
  - split_and!; [done| |].
    + assert (Hl : Forall wf_allowedip (left_of p aip)).
      { destruct aip; [|done]. by apply Forall_cons in Hp as [(_ & _ & _ & _ & Hp) _]. }
      rewrite <- H3 in Hl. cbn. by apply Forall_app in Hl as [_ ?].
    + intros _. exists p, rest. split; [done|]. destruct aip.
      * cbn in H3. rewrite <- H3. by destruct (frag_list f).
      * destruct Hne as (q & l & [= <- <-] & ?); done.
Qed.

Lemma emits_all_ok s l s' : emits_all s l s' -> pending_ok s -> pending_ok s'.
Proof using. induction 1; eauto using emits_ok. Qed.

Section Loop.
Context `{NA : NlAcks K} (nlg : mnlg_socket) (d : wgdevice).
Hypothesis (Hid : GENL_ID_CTRL < nlg_id nlg < 2 ^ 16).
Hypothesis (H280 : 280 <= buflen) (Hwf : wf_device d) (Hname : (length (dev_name d) <= 15)%nat).

(** The messages that convey the fragments, each within the buffer. *)
Inductive conveys : bool -> list (list fragment) -> list (list Z) -> Prop :=
| conveys_nil first : conveys first [] []
| conveys_cons first frags nlh fs ms :
    nlmsg_body nlh = [WG_CMD_SET_DEVICE; nlg_version nlg; 0; 0] ++ message_bytes d first frags ->
    nlmsg_len nlh <= buflen -> conveys false fs ms ->
    conveys first (frags :: fs) (nlmsg_bytes nlh :: ms).

Lemma conveys_sizes first fs ms : conveys first fs ms ->
  length ms = length fs /\ Forall (fun m => zlen m <= buflen) ms.
Proof using.
  induction 1 as [|first frags nlh fs ms Hb Hl _ [IH1 IH2]]; [done|].
  split; [cbn [length]; by rewrite IH1|]. constructor; [|done]. by rewrite zlen_nlmsg_bytes.
Qed.

Lemma set_loop_correct fuel k peer aip :
  pending_ok (start_of d peer, aip) -> (dev_peers d = [] -> peer = []) ->
  (work (start_of d peer, aip) < fuel)%nat ->
  exists k' fs ms, set_loop buflen fuel k nlg d peer aip = Ret (0, k') /\
    nl_sent k' = nl_sent k ++ ms /\ conveys (is_first peer) fs ms /\ fs <> [] /\
    (length fs <= S (work (start_of d peer, aip)))%nat /\
    emits_all (start_of d peer, aip) (concat fs) ([], []).
Proof using Hbuf Hid Hwf Hname H280.
  revert k peer aip. induction fuel as [|fuel IH]; intros k peer aip Hok Hpeers Hfuel; [lia|].
  cbn [set_loop]. set (nlh0 := mnlg_msg_prepare k nlg WG_CMD_SET_DEVICE _).
  assert (En : nlmsg_len nlh0 = 20) by reflexivity.
  destruct (set_message_correct nlh0 d peer aip)
    as (frags & peer' & aip' & E & Hem & Hf & Hprog); try done.
  rewrite E. set (nlh := append _ nlh0).
  assert (Hseq : 0 <= nlmsg_seq nlh < 2 ^ 32) by (apply Z.mod_pos_bound; lia).
  assert (Hty : GENL_ID_CTRL < nlmsg_type nlh < 2 ^ 16) by exact Hid.
  destruct (nl_acks k (nlmsg_bytes nlh) (nlg_portid nlg)) as (k1 & reply & k2 & Es & Er & Hack & Hsent);
    [rewrite msg_type_bytes; unfold GENL_ID_CTRL in *; lia|by rewrite msg_seq_bytes|].
  rewrite Es. change (negb (0 =? 0)) with false. cbn iota.
  rewrite msg_seq_bytes in Hack by exact Hseq.
  change (nlmsg_seq nlh) with (u32 (nl_time k)) in Hack.
  rewrite (recv_run_ack fuel k1 (u32 (nl_time k)) (nlg_portid nlg) reply k2 Er Hack).
  cbn [mbind outcome_bind]. change (0 <? 0) with false. cbn iota beta.
  assert (Hlen : nlmsg_len nlh <= buflen) by (unfold nlh; rewrite nlmsg_len_append; lia).
  assert (Hconv : forall fs ms, conveys false fs ms ->
            conveys (is_first peer) (frags :: fs) (nlmsg_bytes nlh :: ms)) by (intros; by constructor).
  pose proof (emits_all_ok _ _ _ Hem Hok) as Hok'.
  destruct peer' as [|p peer'].
  - assert (aip' = []) as ->.
    { destruct Hok' as (_ & _ & H). cbn in H. destruct aip'; [done|]. by destruct H as (? & ? & ? & ?). }
    exists k2, [frags], [nlmsg_bytes nlh]. split_and!; [done|done|apply Hconv; constructor|done|cbn [length]; lia|].
    cbn [concat]. by rewrite app_nil_r.
  - assert (Hs : start_of d peer <> []) by (intros Hs; rewrite Hs in Hem; by inversion Hem as [|? ? ? ? ? H]; inversion H).
    assert (Hdp : dev_peers d <> []).
    { intros Hd. apply Hs. rewrite (Hpeers Hd). exact Hd. }
    destruct (emits_all_work _ _ _ Hem) as [Hw _]. specialize (Hw (Hprog Hs)).
    destruct (IH k2 (p :: peer') aip') as (k' & fs & ms & Eloop & Hsent' & Hfs & _ & Hlenfs & Hrest);
      [done|done|cbn [start_of]; lia|].
    exists k', (frags :: fs), (nlmsg_bytes nlh :: ms). rewrite Eloop. split_and!; [done| |by apply Hconv|done| |].
    + by rewrite Hsent', Hsent, <- app_assoc.
    + cbn [length start_of] in *. lia.
    + cbn [concat]. eapply emits_all_app; [exact Hem|exact Hrest].
Qed.
End Loop.
End Send.
End IpcLinuxFacts.
