(* ===== verification/IpcLinuxRead.v ===== *)
(** * The Linux back end: what is read

    The callbacks of [kernel_get_device] on the attributes [kernel_set_device]
    writes, and the joining of a peer's fragments. Together they show that a
    device sent in any number of messages arrives as one configuration. *)
From S2P Require Import Prelude Libc Encoding Containers IpcUapi Names Showconf.
From S2P Require Import Netlink NetlinkFacts Ipc IpcLinux IpcLinuxFacts.
Import Libc Encoding Showconf Netlink NetlinkFacts IpcLinux IpcLinuxFacts.

Module IpcLinuxRead.

(** ** Attributes *)

Lemma attr_type type data rest : Z.land type NLA_TYPE_MASK = type -> 0 <= type < 2 ^ 16 ->
  mnl_attr_get_type (attr_bytes type data ++ rest) = type.
Proof. intros H Hr. by rewrite attr_bytes_header, type_header. Qed.

Lemma attr_payload_len type data rest : zlen data < 2 ^ 15 ->
  mnl_attr_get_payload_len (attr_bytes type data ++ rest) = zlen data.
Proof. intros H. pose proof (zlen_nonneg data). by rewrite attr_bytes_header, payload_len_header by lia. Qed.

Lemma attr_get_payload type data rest : exists rest',
  mnl_attr_get_payload (attr_bytes type data ++ rest) = data ++ rest'.
Proof. rewrite attr_bytes_header, payload_header. eauto. Qed.

Lemma attr_payload n type data rest : length data = n -> payload n (attr_bytes type data ++ rest) = data.
Proof.
  intros <-. unfold payload. destruct (attr_get_payload type data rest) as [r ->]. by rewrite take_app_length.
Qed.

Lemma attr_get_number n type z rest : 0 <= z < 256 ^ Z.of_nat n ->
  field 0 n (mnl_attr_get_payload (attr_bytes type (le_bytes n z) ++ rest)) = z.
Proof.
  intros H. destruct (attr_get_payload type (le_bytes n z) rest) as [r ->]. by rewrite field_le_bytes.
Qed.

(** The attribute has exactly the length its type calls for. *)
Lemma attr_validate_number n type z ty rest errno :
  mnl_attr_data_type_len ty = Z.of_nat n -> n <> 0%nat -> Z.of_nat n < 100 ->
  mnl_attr_validate (attr_bytes type (le_bytes n z) ++ rest) ty errno = (0, errno).
Proof.
  intros Hty Hn Hn2. unfold mnl_attr_validate, mnl_attr_validate_len.
  rewrite attr_payload_len by (rewrite zlen_le_bytes; lia). rewrite zlen_le_bytes, Hty. cbv zeta.
  rewrite Z.ltb_irrefl, andb_false_r. destruct ty; try done; cbn in Hty; lia.
Qed.

Lemma walks_opt {D} (cb : list Z -> D * Z -> Z * (D * Z)) (b : bool) x d d' e :
  (b = true -> walks cb x (d, e) (d', e)) -> walks cb (opt_bytes b x) (d, e) (if b then d' else d, e).
Proof. intros H. destruct b; [by apply H|apply walks_nil]. Qed.

Lemma walks_opt_same {D} (cb : list Z -> D -> Z * D) (b : bool) x d :
  (b = true -> walks cb x d d) -> walks cb (opt_bytes b x) d d.
Proof. intros H. destruct b; [by apply H|apply walks_nil]. Qed.

Lemma walks_to {D} (cb : list Z -> D -> Z * D) x d d' d'' :
  walks cb x d d' -> d' = d'' -> walks cb x d d''.
Proof. by intros ? <-. Qed.

(** Runs a callback on an attribute of a known type: the type is decided, then
    the payload is read. *)
Ltac at_attr :=
  apply walks_attr; [rewrite ?zlen_le_bytes; try done|
  intros rest;
  match goal with |- ?f _ _ = _ => unfold f end;
  rewrite attr_type by done;
  repeat match goal with |- context [?a =? ?b] =>
    let v := eval vm_compute in (a =? b) in
    lazymatch v with true => change (a =? b) with true | false => change (a =? b) with false end;
    cbn iota end;
  rewrite ?(attr_validate_number 1), ?(attr_validate_number 2), ?(attr_validate_number 4) by done ].

(** ** Allowed IPs *)

Definition upd_aip (a : wgallowedip) (family : Z) (ip : list Z) (cidr : Z) : wgallowedip :=
  {| aip_family := family; aip_ip := ip; aip_cidr := cidr; aip_flags := aip_flags a |}.

Lemma walks_aip_family a e n : 0 <= n < 2 ^ 16 ->
  walks parse_allowedip (attr_bytes WGALLOWEDIP_A_FAMILY (le_bytes 2 n)) (a, e)
    (upd_aip a n (aip_ip a) (aip_cidr a), e).
Proof. intros H. at_attr. unfold mnl_attr_get_u16. by rewrite attr_get_number. Qed.

Lemma walks_aip_cidr a e n : is_byte n ->
  walks parse_allowedip (attr_bytes WGALLOWEDIP_A_CIDR_MASK (le_bytes 1 n)) (a, e)
    (upd_aip a (aip_family a) (aip_ip a) n, e).
Proof. intros H. at_attr. unfold mnl_attr_get_u8. by rewrite attr_get_number. Qed.

Lemma walks_aip_flags a e n :
  walks parse_allowedip (attr_bytes WGALLOWEDIP_A_FLAGS (le_bytes 4 n)) (a, e) (a, e).
Proof. at_attr. reflexivity. Qed.

Lemma walks_aip_ip a e ip : length ip = 4%nat \/ length ip = 16%nat ->
  walks parse_allowedip (attr_bytes WGALLOWEDIP_A_IPADDR ip) (a, e)
    (upd_aip a (aip_family a) (list_inserts 0 ip (aip_ip a)) (aip_cidr a), e).
Proof.
  intros H. at_attr; [unfold zlen; destruct H as [-> | ->]; lia|].
  rewrite attr_payload_len by (unfold zlen; lia). unfold zlen.
  destruct H as [E|E]; rewrite E;
    [change (Z.of_nat 4 =? 4) with true
    |change (Z.of_nat 16 =? 4) with false; change (Z.of_nat 16 =? 16) with true]; cbn iota;
    by rewrite attr_payload.
Qed.

(** An IPv4 address that replaces the first bytes of a zeroed address. *)
Lemma ip4_over_zeros ip : length ip = 16%nat -> drop 4 ip = replicate 12 0 ->
  list_inserts 0 (take 4 ip) (aip_ip zero_allowedip) = ip.
Proof.
  intros Hl Hd. change (aip_ip zero_allowedip) with (replicate 4 0 ++ replicate 12 0).
  rewrite list_inserts_0_r by (rewrite length_take, length_replicate, Hl; reflexivity).
  rewrite <- Hd. apply take_drop.
Qed.

Lemma walks_aip_content a e : wf_allowedip a -> canonical_allowedip a ->
  walks parse_allowedip (aip_content a) (zero_allowedip, e) (reload_allowedip a, e).
Proof.
  intros (Hl & Hb & Hf & _) Hc. unfold aip_content.
  assert (0 <= aip_family a < 2 ^ 16 /\ is_byte (aip_cidr a)) as [Hfam Hcidr].
  { unfold is_byte. destruct Hf as [[-> ?]|[-> ?]]; (split; [split; [vm_compute; congruence|reflexivity]|lia]). }
  assert (Hip : forall ip, list_inserts 0 ip (aip_ip zero_allowedip) = aip_ip a ->
    (length ip = 4%nat \/ length ip = 16%nat) ->
    walks parse_allowedip
      (attr_bytes WGALLOWEDIP_A_FAMILY (le_bytes 2 (aip_family a)) ++ attr_bytes WGALLOWEDIP_A_IPADDR ip
       ++ attr_bytes WGALLOWEDIP_A_CIDR_MASK (le_bytes 1 (aip_cidr a))
       ++ opt_bytes (negb (aip_flags a =? 0)) (attr_bytes WGALLOWEDIP_A_FLAGS (le_bytes 4 (aip_flags a))))
      (zero_allowedip, e) (reload_allowedip a, e)).
  { intros ip E Hip. eapply walks_to.
    - eapply walks_app; [by apply walks_aip_family|]. eapply walks_app; [by apply walks_aip_ip|].
      eapply walks_app; [by apply walks_aip_cidr|]. apply walks_opt_same. intros _. apply walks_aip_flags.
    - unfold upd_aip, reload_allowedip. cbn [aip_ip aip_family aip_cidr aip_flags] in *. by rewrite E. }
  destruct Hf as [[Ef Hr]|[Ef Hr]]; rewrite Ef in *.
  - apply Hip; [by apply ip4_over_zeros; auto|]. rewrite length_take, Hl. by left.
  - apply Hip; [|by right]. rewrite <- (app_nil_r (aip_ip a)) at 1.
    by apply list_inserts_0_l; rewrite Hl.
Qed.


Lemma walks_aip p e a : wf_allowedip a -> canonical_allowedip a ->
  walks parse_allowedips (aip_bytes a) (p, e)
    (with_allowedips (peer_allowedips p ++ [reload_allowedip a]) p, e).
Proof.
  intros Hwf Hc. pose proof Hwf as (Hl & _ & Hf & _). pose proof (zlen_aip_bytes a Hl) as Hz.
  unfold aip_bytes in *. rewrite zlen_nest_bytes in Hz.
  apply walks_nest; [lia|apply aligned_aip|]. intros rest. unfold parse_allowedips.
  erewrite parse_nested_walks; [|lia|by apply walks_aip_content].
  change (MNL_CB_OK =? 0) with false. cbn iota beta.
  change (aip_family (reload_allowedip a)) with (aip_family a).
  change (aip_cidr (reload_allowedip a)) with (aip_cidr a).
  replace (negb _) with false; [done|]. symmetry. apply negb_false_iff.
  destruct Hf as [[-> ?]|[-> ?]]; [apply orb_true_intro; left|apply orb_true_intro; right];
    apply andb_true_intro; (split; [reflexivity|lia]).
Qed.

Lemma walks_aips p e l : Forall wf_allowedip l -> Forall canonical_allowedip l ->
  walks parse_allowedips (aips_bytes l) (p, e)
    (with_allowedips (peer_allowedips p ++ map reload_allowedip l) p, e).
Proof.
  intros Hw Hc. revert p. induction l as [|a l IH]; intros p.
  - cbn [map]. rewrite app_nil_r. destruct p. apply walks_nil.
  - apply Forall_cons in Hw as [Ha Hw], Hc as [Hca Hc]. unfold aips_bytes. cbn [map concat].
    eapply walks_app; [by apply walks_aip|]. eapply walks_to; [by apply IH|].
    cbn [peer_allowedips with_allowedips]. by rewrite <- app_assoc.
Qed.

(** ** Peers *)

Lemma walks_public_key p e k : length k = WG_KEY_LEN ->
  walks parse_peer (attr_bytes WGPEER_A_PUBLIC_KEY k) (p, e)
    (with_peer_flags (set_flag WGPEER_HAS_PUBLIC_KEY) (with_public_key k p), e).
Proof.
  intros H. at_attr; [unfold zlen; by rewrite H|].
  rewrite attr_payload_len by (unfold zlen; by rewrite H). unfold zlen. rewrite H, Z.eqb_refl.
  by rewrite attr_payload.
Qed.

Definition store_psk (k : list Z) (p : wgpeer) : wgpeer :=
  let p := with_preshared_key k p in
  if negb (key_is_zero (peer_preshared_key p))
  then with_peer_flags (set_flag WGPEER_HAS_PRESHARED_KEY) p else p.
Lemma walks_psk p e k : length k = WG_KEY_LEN ->
  walks parse_peer (attr_bytes WGPEER_A_PRESHARED_KEY k) (p, e) (store_psk k p, e).
Proof.
  intros H. at_attr; [unfold zlen; by rewrite H|].
  rewrite attr_payload_len by (unfold zlen; by rewrite H). unfold zlen. rewrite H, Z.eqb_refl.
  rewrite attr_payload by exact H. exact eq_refl.
Qed.

Lemma walks_keepalive p e n : 0 <= n < 2 ^ 16 ->
  walks parse_peer (attr_bytes WGPEER_A_PERSISTENT_KEEPALIVE_INTERVAL (le_bytes 2 n)) (p, e)
    (with_keepalive n p, e).
Proof. intros H. at_attr. unfold mnl_attr_get_u16. by rewrite attr_get_number. Qed.

Lemma walks_peer_flags p e n : walks parse_peer (attr_bytes WGPEER_A_FLAGS (le_bytes 4 n)) (p, e) (p, e).
Proof. at_attr. reflexivity. Qed.

(** Socket addresses are read back from their bytes. *)
Lemma be16_number z : 0 <= z < 2 ^ 16 -> 256 * ((z / 256) mod 256) + z mod 256 = z.
Proof.
  intros H. rewrite (Z.mod_small (z / 256)) by (split; [apply Z.div_pos|apply Z.div_lt_upper_bound]; lia).
  pose proof (Z.div_mod z 256). lia.
Qed.

Lemma port_be16 fam port rest : 0 <= port < 2 ^ 16 ->
  256 * field 2 1 (le_bytes 2 fam ++ be16 port ++ rest) + field 3 1 (le_bytes 2 fam ++ be16 port ++ rest) = port.
Proof.
  intros H. etransitivity; [|exact (be16_number port H)]. unfold field, be16.
  cbn [le_bytes app drop take firstn skipn le_number]. rewrite !Z.mul_0_r, !Z.add_0_r. reflexivity.
Qed.

Lemma read_sockaddr_in_bytes sa : canonical_sockaddr sa -> sa_family sa = AF_INET ->
  read_sockaddr_in (sockaddr_in_bytes sa) = sa.
Proof.
  intros (Hp & Hf & _ & [(_ & Hl & Hs)|(E & _)]) Efam; [|by rewrite Efam in E].
  unfold read_sockaddr_in. unfold sockaddr_in_bytes at 2 3. rewrite port_be16 by done.
  unfold sockaddr_in_bytes. rewrite Efam. rewrite field_le_bytes by done.
  destruct sa as [fam port addr flow scope]; cbn [sa_family sa_port sa_addr sa_flowinfo sa_scope_id] in *. subst.
  f_equal. unfold be16. cbn [le_bytes app drop]. rewrite (take_ge addr) by lia.
  apply take_app_length'. done.
Qed.

Lemma read_sockaddr_in6_bytes sa : canonical_sockaddr sa -> sa_family sa = AF_INET6 ->
  0 <= sa_scope_id sa < 2 ^ 32 -> read_sockaddr_in6 (sockaddr_in6_bytes sa) = sa.
Proof.
  intros (Hp & Hf & _ & [(E & _)|(_ & Hl)]) Efam Hsc; [by rewrite Efam in E|].
  unfold read_sockaddr_in6. unfold sockaddr_in6_bytes at 2 3. rewrite port_be16 by done.
  unfold sockaddr_in6_bytes. rewrite Efam. rewrite field_le_bytes by done.
  destruct sa as [fam port addr flow scope]; cbn [sa_family sa_port sa_addr sa_flowinfo sa_scope_id] in *. subst.
  rewrite (take_ge addr) by lia. f_equal.
  - unfold be16. cbn [le_bytes app drop skipn]. by apply take_app_length'.
  - rewrite (app_assoc (be16 port)), (app_assoc (le_bytes 2 AF_INET6)), (app_assoc _ addr).
    pose proof (field_skip ((le_bytes 2 AF_INET6 ++ be16 port ++ le_bytes 4 0) ++ addr) (le_bytes 4 scope) 0 4) as E.
    rewrite length_app, Hl in E. etransitivity; [exact E|]. rewrite <- (app_nil_r (le_bytes 4 scope)).
    by apply field_le_bytes.
Qed.

Definition endpoint_ok (sa : sockaddr) : Prop :=
  endpoint_known sa = true -> canonical_sockaddr sa /\ 0 <= sa_scope_id sa < 2 ^ 32.

Lemma zlen_sockaddr_in_bytes sa : length (sa_addr sa) = 4%nat -> zlen (sockaddr_in_bytes sa) = 16.
Proof.
  intros H. unfold sockaddr_in_bytes. rewrite !zlen_app, zlen_le_bytes.
  unfold zlen. rewrite length_take, H, length_replicate. reflexivity.
Qed.
Lemma zlen_sockaddr_in6_bytes sa : length (sa_addr sa) = 16%nat -> zlen (sockaddr_in6_bytes sa) = 28.
Proof.
  intros H. unfold sockaddr_in6_bytes. rewrite !zlen_app, !zlen_le_bytes.
  unfold zlen. rewrite length_take, H. reflexivity.
Qed.

(** The branch of [parse_peer] for an endpoint whose bytes are [b]. *)
Lemma walks_endpoint_bytes p e fam b sa n :
  field 0 2 b = fam -> zlen b = n -> n = 16 \/ n = 28 ->
  (fam = AF_INET -> n = 16 /\ read_sockaddr_in b = sa) ->
  (fam = AF_INET6 -> n = 28 /\ read_sockaddr_in6 b = sa) ->
  fam = AF_INET \/ fam = AF_INET6 ->
  walks parse_peer (attr_bytes WGPEER_A_ENDPOINT b) (p, e) (with_endpoint sa p, e).
Proof.
  intros Hf Hn Hn' H4 H6 Hfam. at_attr; [destruct Hn'; lia|].
  rewrite attr_payload_len by (destruct Hn'; lia). rewrite Hn. cbv zeta.
  destruct (attr_get_payload WGPEER_A_ENDPOINT b rest) as [r ->].
  assert (Eb : (2 <= length b)%nat) by (unfold zlen in *; destruct Hn'; lia).
  replace (field 0 2 (b ++ r)) with fam
    by (unfold field in *; rewrite drop_0, take_app_le by done; by rewrite drop_0 in Hf).
  destruct Hfam as [E|E]; rewrite E in *.
  - destruct (H4 eq_refl) as [-> Hr]. change (AF_INET =? AF_INET) with true.
    change (16 <? 16) with false. change (16 =? sizeof_sockaddr_in) with true. cbn [andb].
    rewrite (take_app_length' b r 16) by (unfold zlen in *; lia). by rewrite Hr.
  - destruct (H6 eq_refl) as [-> Hr]. change (AF_INET6 =? AF_INET) with false.
    change (AF_INET6 =? AF_INET6) with true.
    change (28 <? 16) with false. change (28 =? sizeof_sockaddr_in6) with true. cbn [andb].
    rewrite (take_app_length' b r 28) by (unfold zlen in *; lia). by rewrite Hr.
Qed.

Lemma walks_endpoint p e sa : endpoint_ok sa ->
  walks parse_peer
    (if sa_family sa =? AF_INET then attr_bytes WGPEER_A_ENDPOINT (sockaddr_in_bytes sa)
     else if sa_family sa =? AF_INET6 then attr_bytes WGPEER_A_ENDPOINT (sockaddr_in6_bytes sa) else [])
    (p, e) (if endpoint_known sa then with_endpoint sa p else p, e).
Proof.
  intros Hok. unfold endpoint_ok, endpoint_known in *.
  destruct (Z.eqb_spec (sa_family sa) AF_INET) as [E|_]; [|destruct (Z.eqb_spec (sa_family sa) AF_INET6) as [E|_]];
    cbn [orb] in *; [| |apply walks_nil]; destruct (Hok eq_refl) as [Hc Hs]; clear Hok.
  - pose proof Hc as (_ & _ & _ & [(_ & Hl & _)|(E' & _)]); [|by rewrite E in E'].
    eapply (walks_endpoint_bytes _ _ AF_INET _ _ 16); [|by apply zlen_sockaddr_in_bytes|auto| |done|auto].
    + unfold sockaddr_in_bytes. rewrite E. by apply field_le_bytes.
    + intros _. split; [done|]. by apply read_sockaddr_in_bytes.
  - pose proof Hc as (_ & _ & _ & [(E' & _)|(_ & Hl)]); [by rewrite E in E'|].
    eapply (walks_endpoint_bytes _ _ AF_INET6 _ _ 28); [|by apply zlen_sockaddr_in6_bytes|auto|done| |auto].
    + unfold sockaddr_in6_bytes. rewrite E. by apply field_le_bytes.
    + intros _. split; [done|]. by apply read_sockaddr_in6_bytes.
Qed.

(** The configuration of a peer as the kernel interface carries it: a first
    fragment, and one that only continues the allowed IPs. *)
Definition linux_peer_with (l : list wgallowedip) (p : wgpeer) : wgpeer :=
  let psk := has_flag (peer_flags p) WGPEER_HAS_PRESHARED_KEY in
  {| peer_flags :=
       Z.lor WGPEER_HAS_PUBLIC_KEY
         (opt_flag (psk && negb (key_is_zero (peer_preshared_key p))) WGPEER_HAS_PRESHARED_KEY);
     peer_public_key := peer_public_key p;
     peer_preshared_key := if psk then peer_preshared_key p else zero_key;
     peer_endpoint := if endpoint_known (peer_endpoint p) then peer_endpoint p else zero_sockaddr;
     peer_last_handshake_time := {| tv_sec := 0; tv_nsec := 0 |};
     peer_rx_bytes := 0; peer_tx_bytes := 0;
     peer_persistent_keepalive_interval :=
       if has_flag (peer_flags p) WGPEER_HAS_PERSISTENT_KEEPALIVE_INTERVAL
       then peer_persistent_keepalive_interval p else 0;
     peer_allowedips := map reload_allowedip l |}.
Definition linux_peer (p : wgpeer) : wgpeer := linux_peer_with (peer_allowedips p) p.
Definition continued_peer (l : list wgallowedip) (p : wgpeer) : wgpeer :=
  with_allowedips (map reload_allowedip l)
    (with_peer_flags (set_flag WGPEER_HAS_PUBLIC_KEY) (with_public_key (peer_public_key p) zero_peer)).
Definition frag_reads (f : fragment) : wgpeer :=
  if fr_first f then linux_peer_with (frag_list f) (fr_peer f)
  else continued_peer (frag_list f) (fr_peer f).

(** Peers whose addresses survive the interface. *)
Definition linux_ok (p : wgpeer) : Prop :=
  wf_peer p /\ canonical_peer p /\ 0 <= sa_scope_id (peer_endpoint p) < 2 ^ 32.

Lemma walks_head p first e : linux_ok p ->
  walks parse_peer (head_bytes p first) (zero_peer, e)
    (if first then linux_peer_with [] p else continued_peer [] p, e).
Proof.
  intros ((_ & [Hk _] & [Hs _] & Hka & _) & [_ Hep] & Hsc). unfold head_bytes.
  eapply walks_app; [by apply walks_public_key|]. destruct first; cbn [andb].
  - eapply walks_app; [apply walks_opt; intros _; by apply walks_psk|].
    eapply walks_to.
    + eapply walks_app; [|eapply walks_app].
      * apply walks_endpoint. intros E. split; [by apply Hep|done].
      * apply walks_opt. intros _. by apply walks_keepalive.
      * apply walks_opt_same. intros _. apply walks_peer_flags.
    + unfold linux_peer_with, opt_flag, store_psk.
      destruct (has_flag (peer_flags p) WGPEER_HAS_PRESHARED_KEY), (endpoint_known (peer_endpoint p)),
        (has_flag (peer_flags p) WGPEER_HAS_PERSISTENT_KEEPALIVE_INTERVAL);
        cbn [andb peer_preshared_key with_preshared_key]; try destruct (key_is_zero _);
        reflexivity.
  - do 3 (eapply walks_app; [apply walks_opt_same; discriminate|]).
    eapply walks_to; [apply walks_opt_same; intros _; apply walks_peer_flags|reflexivity].
Qed.

Definition frag_ok (f : fragment) : Prop :=
  linux_ok (fr_peer f) /\ Forall wf_allowedip (frag_list f) /\ Forall canonical_allowedip (frag_list f).

Lemma nest_type type c rest t : Z.land (Z.lor NLA_F_NESTED type) NLA_TYPE_MASK = t ->
  0 <= Z.lor NLA_F_NESTED type < 2 ^ 16 -> mnl_attr_get_type (nest_bytes type c ++ rest) = t.
Proof. intros H Hr. by rewrite nest_bytes_header, type_header. Qed.

Lemma walks_frag_content f e : frag_ok f -> zlen (frag_content f) < 2 ^ 15 ->
  walks parse_peer (frag_content f) (zero_peer, e) (frag_reads f, e).
Proof.
  intros (Hp & Hw & Hc) Hz. unfold frag_content in *. unfold frag_reads, frag_list in *.
  eapply walks_app; [by apply walks_head|]. rewrite zlen_app in Hz.
  pose proof (zlen_nonneg (head_bytes (fr_peer f) (fr_first f))).
  destruct (fr_aips f) as [l|]; cbn [default] in *.
  - rewrite zlen_nest_bytes in Hz. apply walks_nest; [lia|apply aligned_aips|]. intros rest.
    unfold parse_peer. rewrite (nest_type _ _ _ WGPEER_A_ALLOWEDIPS) by done.
    repeat match goal with |- context [WGPEER_A_ALLOWEDIPS =? ?b] =>
      let v := eval vm_compute in (WGPEER_A_ALLOWEDIPS =? b) in
      change (WGPEER_A_ALLOWEDIPS =? b) with v; cbn iota end.
    erewrite parse_nested_walks; [|lia|by apply walks_aips]. by destruct (fr_first f).
  - eapply walks_to; [apply walks_nil|]. by destruct (fr_first f).
Qed.

Lemma walks_frag f d e : frag_ok f -> zlen (frag_content f) < 2 ^ 15 ->
  walks parse_peers (frag_bytes f) (d, e) (with_peers (dev_peers d ++ [frag_reads f]) d, e).
Proof.
  intros Hok Hz. apply walks_nest; [done|apply aligned_frag|]. intros rest. unfold parse_peers.
  erewrite parse_nested_walks; [|done|by apply walks_frag_content].
  change (MNL_CB_OK =? 0) with false. cbn iota beta.
  replace (has_flag (peer_flags (frag_reads f)) WGPEER_HAS_PUBLIC_KEY) with true; [done|].
  unfold frag_reads, linux_peer_with, opt_flag, continued_peer. destruct (fr_first f); [|reflexivity].
  cbn [peer_flags]. by destruct (_ && _).
Qed.

Lemma walks_frags l d e : Forall frag_ok l -> zlen (frags_bytes l) < 2 ^ 15 ->
  walks parse_peers (frags_bytes l) (d, e) (with_peers (dev_peers d ++ map frag_reads l) d, e).
Proof.
  intros H. revert d. induction H as [|f l Hf _ IH]; intros d Hz.
  - cbn [map]. rewrite app_nil_r. destruct d. apply walks_nil.
  - unfold frags_bytes in *. cbn [map concat] in *. rewrite zlen_app in Hz.
    pose proof (zlen_nonneg (concat (map frag_bytes l))). pose proof (zlen_nonneg (frag_bytes f)).
    assert (Hz' : zlen (frag_content f) < 2 ^ 15)
      by (unfold frag_bytes in *; rewrite zlen_nest_bytes in *; lia).
    eapply walks_app; [by apply walks_frag|]. eapply walks_to; [apply IH; lia|].
    cbn [dev_peers with_peers]. by rewrite <- app_assoc.
Qed.

(** ** Devices *)

(** Names an interface can have. *)
Definition name_ok (n : cstring) : Prop := (length n <= 15)%nat /\ ~ In NUL n.

Lemma cut_nul_app n rest : ~ In NUL n -> cut_nul (n ++ NUL :: rest) = n.
Proof.
  induction n as [|c n IH]; intros H; cbn [app cut_nul]; [done|].
  destruct (Ascii.eqb_spec c NUL) as [->|_]; [by destruct H; left|]. f_equal. apply IH. intros ?. apply H. by right.
Qed.

Lemma map_to_char_uchar n : map to_char (map uchar n) = n.
Proof. rewrite map_map. rewrite <- (map_id n) at 2. apply map_ext. apply to_char_uchar. Qed.

Lemma attr_get_strz type n rest : ~ In NUL n ->
  mnl_attr_get_str (attr_bytes type (map uchar n ++ [0]) ++ rest) = n.
Proof.
  intros Hn. unfold mnl_attr_get_str. destruct (attr_get_payload type (map uchar n ++ [0]) rest) as [r ->].
  rewrite !map_app, map_to_char_uchar, <- app_assoc. cbn [map app]. change (to_char 0) with NUL. by apply cut_nul_app.
Qed.

Lemma walks_name d0 d e : name_ok (dev_name d) ->
  walks parse_device (name_bytes d) (d0, e) (with_dev_name (dev_name d) d0, e).
Proof.
  intros [Hl Hn]. unfold name_bytes.
  assert (Hz : zlen (map uchar (dev_name d) ++ [0]) = Z.of_nat (length (dev_name d)) + 1)
    by (rewrite zlen_app; unfold zlen; rewrite length_map; reflexivity).
  at_attr; [lia|]. unfold mnl_attr_validate, mnl_attr_validate_len. cbn [mnl_attr_data_type_len].
  rewrite attr_payload_len by lia. rewrite Hz. cbv zeta.
  destruct (Z.ltb_spec (Z.of_nat (length (dev_name d)) + 1) 0); [lia|].
  destruct (Z.eqb_spec (Z.of_nat (length (dev_name d)) + 1) 0); [lia|].
  change (negb (0 =? 0)) with false. cbn [andb]. change (0 =? 0) with true. cbn iota.
  rewrite attr_get_strz, take_ge by (done || (unfold IFNAMSIZ; lia)). reflexivity.
Qed.

Lemma walks_private_key d e k : length k = WG_KEY_LEN ->
  walks parse_device (attr_bytes WGDEVICE_A_PRIVATE_KEY k) (d, e)
    (with_dev_flags (set_flag WGDEVICE_HAS_PRIVATE_KEY) (with_private_key k d), e).
Proof.
  intros H. at_attr; [unfold zlen; by rewrite H|].
  rewrite attr_payload_len by (unfold zlen; by rewrite H). unfold zlen. rewrite H, Z.eqb_refl.
  by rewrite attr_payload.
Qed.
Lemma walks_listen_port d e n : 0 <= n < 2 ^ 16 ->
  walks parse_device (attr_bytes WGDEVICE_A_LISTEN_PORT (le_bytes 2 n)) (d, e) (with_listen_port n d, e).
Proof. intros H. at_attr. unfold mnl_attr_get_u16. by rewrite attr_get_number. Qed.
Lemma walks_fwmark d e n : 0 <= n < 2 ^ 32 ->
  walks parse_device (attr_bytes WGDEVICE_A_FWMARK (le_bytes 4 n)) (d, e) (with_fwmark n d, e).
Proof. intros H. at_attr. unfold mnl_attr_get_u32. by rewrite attr_get_number. Qed.
Lemma walks_dev_flags d e n :
  walks parse_device (attr_bytes WGDEVICE_A_FLAGS (le_bytes 4 n)) (d, e) (d, e).
Proof. at_attr. reflexivity. Qed.

(** What the device attributes of the first message set. *)
Definition store_device (d d0 : wgdevice) : wgdevice :=
  let d0 := if has_flag (dev_flags d) WGDEVICE_HAS_PRIVATE_KEY
            then with_dev_flags (set_flag WGDEVICE_HAS_PRIVATE_KEY) (with_private_key (dev_private_key d) d0)
            else d0 in
  let d0 := if has_flag (dev_flags d) WGDEVICE_HAS_LISTEN_PORT
            then with_listen_port (dev_listen_port d) d0 else d0 in
  if has_flag (dev_flags d) WGDEVICE_HAS_FWMARK then with_fwmark (dev_fwmark d) d0 else d0.

Lemma walks_device_bytes d d0 e : wf_device d ->
  walks parse_device (device_bytes d) (d0, e) (store_device d d0, e).
Proof.
  intros (_ & _ & [Hk _] & Hm & Hp & _). unfold device_bytes, store_device.
  eapply walks_app; [apply walks_opt; intros _; by apply walks_private_key|].
  eapply walks_app; [apply walks_opt; intros _; by apply walks_listen_port|].
  eapply walks_app; [apply walks_opt; intros _; by apply walks_fwmark|].
  apply walks_opt_same. intros _. apply walks_dev_flags.
Qed.

Definition message_reads (d : wgdevice) (first : bool) (frags : list fragment) (d0 : wgdevice) : wgdevice :=
  let d0 := with_dev_name (dev_name d) d0 in
  let d0 := if first then store_device d d0 else d0 in
  with_peers (dev_peers d0 ++ map frag_reads frags) d0.

Lemma walks_message d first frags d0 e :
  wf_device d -> name_ok (dev_name d) -> Forall frag_ok frags -> (dev_peers d = [] -> frags = []) ->
  zlen (message_bytes d first frags) < 2 ^ 15 ->
  walks parse_device (message_bytes d first frags) (d0, e) (message_reads d first frags d0, e).
Proof.
  intros Hwf Hn Hfr Hd Hz. unfold message_bytes, message_reads in *. rewrite zlen_app in Hz.
  eapply walks_app; [eapply walks_app; [by apply walks_name|apply walks_opt; intros _; by apply walks_device_bytes]|].
  match goal with |- walks _ _ (?d1, _) _ => set (dd := d1) end.
  pose proof (zlen_nonneg (name_bytes d ++ opt_bytes first (device_bytes d))).
  destruct (dev_peers d) as [|p0 ps].
  - rewrite Hd by done. cbn [map]. rewrite app_nil_r. destruct dd. apply walks_nil.
  - rewrite zlen_nest_bytes in Hz. apply walks_nest; [lia|apply aligned_frags|]. intros rest.
    unfold parse_device. rewrite (nest_type _ _ _ WGDEVICE_A_PEERS) by done.
    repeat match goal with |- context [WGDEVICE_A_PEERS =? ?b] =>
      let v := eval vm_compute in (WGDEVICE_A_PEERS =? b) in
      change (WGDEVICE_A_PEERS =? b) with v; cbn iota end.
    erewrite parse_nested_walks; [reflexivity|lia|apply walks_frags; [done|lia]].
Qed.
End IpcLinuxRead.
