(* ===== verification/IpcLinuxTheorems.v ===== *)
(** * The Linux back end: theorems

    A device is sent whole and arrives whole, however many messages it takes;
    what reading one message guarantees; and what joining fragments needs. *)
From Stdlib Require Import Sorted.
From S2P Require Import Prelude Libc Encoding Containers IpcUapi Names Showconf Samples.
From S2P Require Import Netlink NetlinkFacts Ipc IpcLinux IpcLinuxFacts IpcLinuxRead.
Import Libc Encoding Showconf Netlink NetlinkFacts IpcLinux IpcLinuxFacts IpcLinuxRead.

Module IpcLinuxTheorems.

(** ** Reading what was sent *)

(** The callback on one message after the other, as long as it asks for more. *)
Fixpoint read_messages (ms : list (list Z)) (st : wgdevice * Z) : option (wgdevice * Z) :=
  match ms with
  | [] => Some st
  | m :: ms => let '(ret, st) := read_device_cb m st in if 0 <? ret then read_messages ms st else None
  end.

(** The configuration the kernel interface carries. *)
Definition linux_device (d : wgdevice) : wgdevice :=
  let priv := has_flag (dev_flags d) WGDEVICE_HAS_PRIVATE_KEY in
  {| dev_name := dev_name d; dev_ifindex := 0;
     dev_flags := opt_flag priv WGDEVICE_HAS_PRIVATE_KEY;
     dev_public_key := zero_key;
     dev_private_key := if priv then dev_private_key d else zero_key;
     dev_fwmark := if has_flag (dev_flags d) WGDEVICE_HAS_FWMARK then dev_fwmark d else 0;
     dev_listen_port := if has_flag (dev_flags d) WGDEVICE_HAS_LISTEN_PORT then dev_listen_port d else 0;
     dev_peers := map linux_peer (dev_peers d) |}.

(** Everything in a state of the loop survives the interface. *)
Definition pending_linux (s : pending) : Prop :=
  Forall linux_ok s.1 /\ Forall wf_allowedip s.2 /\ Forall canonical_allowedip s.2.

Lemma left_of_linux p rest aip : pending_linux (p :: rest, aip) ->
  linux_ok p /\ Forall wf_allowedip (left_of p aip) /\ Forall canonical_allowedip (left_of p aip).
Proof.
  intros (Hp & Hw & Hc). cbn [fst snd] in *. apply Forall_cons in Hp as [Hp _]. split; [done|].
  destruct Hp as ((_ & _ & _ & _ & Ha) & [Hca _] & _). by destruct aip.
Qed.

Lemma emits_linux s f s' : emits s f s' -> pending_linux s -> frag_ok f /\ pending_linux s'.
Proof.
  destruct 1 as [p rest aip f H1 H2 H3|p rest aip f r H1 H2 H3 Hr H4]; intros Hs;
    pose proof (left_of_linux _ _ _ Hs) as (Hp & Hw & Hc); destruct Hs as (Hps & _ & _); cbn [fst snd] in *.
  - apply Forall_cons in Hps as [_ Hps]. unfold frag_ok, pending_linux. rewrite H1, H3. cbn [fst snd]. auto 10.
  - rewrite <- H3 in Hw, Hc. apply Forall_app in Hw as [? ?], Hc as [? ?].
    unfold frag_ok, pending_linux. rewrite H1. cbn [fst snd]. auto 10.
Qed.

Lemma emits_all_linux s l s' : emits_all s l s' -> pending_linux s -> Forall frag_ok l.
Proof.
  induction 1 as [|s f s1 l s2 H _ IH]; intros Hs; [done|].
  apply emits_linux in H as [? ?]; [|done]. constructor; auto.
Qed.

(** ** Joining *)

Definition keys_differ (p q : wgpeer) : Prop := peer_public_key p <> peer_public_key q.

Lemma frag_reads_key f : peer_public_key (frag_reads f) = peer_public_key (fr_peer f).
Proof. unfold frag_reads. by destruct (fr_first f). Qed.
Lemma frag_reads_aips f : peer_allowedips (frag_reads f) = map reload_allowedip (frag_list f).
Proof. unfold frag_reads. by destruct (fr_first f). Qed.

Definition nonempty {A} (l : list A) : bool := negb (length l =? 0)%nat.

(** The peer at hand is complete and others follow, or it is being continued. *)
Inductive joining (p : wgpeer) (sofar : list wgallowedip) (has_last : bool) : pending -> Prop :=
| join_next peers :
    sofar = peer_allowedips p -> Sorted keys_differ (p :: peers) -> joining p sofar has_last (peers, [])
| join_more peers r :
    r <> [] -> sofar ++ r = peer_allowedips p -> has_last = nonempty sofar ->
    Sorted keys_differ (p :: peers) -> joining p sofar has_last (p :: peers, r).

Definition others (p : wgpeer) (s : pending) : list wgpeer :=
  match s.2 with [] => s.1 | _ => tail s.1 end.

Lemma coalesce_fragments s frags p sofar has_last :
  emits_all s frags ([], []) -> joining p sofar has_last s ->
  coalesce_from (linux_peer_with sofar p) has_last (map frag_reads frags)
  = Ret (map linux_peer (p :: others p s)).
Proof.
  intros Hem. remember ([], []) as fin eqn:Efin. revert p sofar has_last.
  induction Hem as [s|s f s1 l s2 Hf _ IH]; intros p sofar has_last Hj; subst.
  { inversion Hj; subst. reflexivity. }
  specialize (IH eq_refl). cbn [map coalesce_from]. rewrite frag_reads_key, frag_reads_aips, length_map.
  fold (nonempty (frag_list f)).
  change (peer_public_key (linux_peer_with sofar p)) with (peer_public_key p).
  destruct Hj as [peers -> Hs|peers r Hr Hall -> Hs].
  - inversion Hf as [q rest aip f' H1 H2 H3|q rest aip f' r H1 H2 H3 Hr H4]; subst;
      apply Sorted_inv in Hs as [Hs Hd]; inversion Hd as [|? ? Hd']; subst;
      rewrite bool_decide_eq_false_2 by exact Hd'; cbn [negb];
      unfold frag_reads at 1; rewrite H2; cbn [fresh length Nat.eqb].
    + rewrite (IH (fr_peer f) (frag_list f) _); [reflexivity|]. by constructor.
    + rewrite (IH (fr_peer f) (frag_list f) _); [|by constructor].
      destruct r as [|x r]; [done|reflexivity].
  - assert (Hne : frag_list f <> [] /\ fr_peer f = p /\
                  joining p (sofar ++ frag_list f) (nonempty (frag_list f)) s1 /\ others p s1 = peers).
    { destruct r as [|x r]; [done|].
      inversion Hf as [q rest aip f' H1 H2 H3|q rest aip f' r' H1 H2 H3 Hr' H4]; subst; cbn [left_of] in *.
      - split_and!; [by rewrite H3|done| |done]. constructor; [by rewrite H3|done].
      - split_and!; [by apply H4|done| |by destruct r'].
        constructor; [done|by rewrite <- app_assoc, H3| |done].
        unfold nonempty. rewrite length_app. destruct (frag_list f); [by destruct H4|].
        cbn [length]. by rewrite Nat.add_succ_r. }
    destruct Hne as (Hne & -> & Hj & Eo). rewrite bool_decide_eq_true_2 by done. cbn [negb].
    replace (others p (p :: peers, r)) with peers by by destruct r.
    rewrite <- Eo. etransitivity; [|exact (IH _ _ _ Hj)].
    unfold linux_peer_with at 1. cbn [peer_allowedips].
    destruct sofar as [|y sofar]; [reflexivity|]. cbn [map nonempty length Nat.eqb negb].
    unfold with_allowedips, linux_peer_with. cbn [peer_allowedips]. by rewrite map_app.
Qed.

(** ** Messages *)

Section Arrive.
Context (buflen : Z) (nlg : mnlg_socket) (d : wgdevice).
Hypothesis (Hbuf : buflen <= 2 ^ 15) (Hwf : wf_device d) (Hname : name_ok (dev_name d)).

Lemma read_message nlh first frags d0 e :
  nlmsg_body nlh = [WG_CMD_SET_DEVICE; nlg_version nlg; 0; 0] ++ message_bytes d first frags ->
  nlmsg_len nlh <= buflen -> Forall frag_ok frags -> (dev_peers d = [] -> frags = []) ->
  read_device_cb (nlmsg_bytes nlh) (d0, e) = (MNL_CB_OK, (message_reads d first frags d0, e)).
Proof using Hbuf Hwf Hname.
  intros Hb Hl Hf Hd. eapply attr_parse_walks; [exact Hb|done|lia|apply aligned_message|].
  apply walks_message; try done. unfold nlmsg_len in Hl. rewrite Hb in Hl.
  change MNL_NLMSG_HDRLEN with 16 in Hl. rewrite length_app in Hl. unfold zlen. lia.
Qed.

Lemma conveys_read first fs ms d0 e :
  conveys buflen nlg d first fs ms -> Forall frag_ok (concat fs) -> (dev_peers d = [] -> concat fs = []) ->
  fs <> [] \/ first = false /\ dev_name d0 = dev_name d ->
  read_messages ms (d0, e) = Some (message_reads d first (concat fs) d0, e).
Proof using Hbuf Hwf Hname.
  intros Hc. revert d0. induction Hc as [first|first frags nlh fs ms Hb Hl Hc IH]; intros d0 Hf Hd Hne.
  - destruct Hne as [?|[-> En]]; [done|]. unfold message_reads. cbn [read_messages concat map].
    rewrite app_nil_r. do 2 f_equal. destruct d0. cbn in *. by subst.
  - cbn [concat] in *. apply Forall_app in Hf as [Hf Hf']. cbn [read_messages].
    rewrite (read_message nlh first frags) by (try done; intros E; by destruct (app_eq_nil _ _ (Hd E))).
    change (0 <? MNL_CB_OK) with true. cbn iota. rewrite IH; [|done| |].
    + do 2 f_equal. unfold message_reads. rewrite map_app.
      cbn [with_peers with_dev_name dev_peers dev_name]. rewrite <- app_assoc.
      destruct first; cbn [store_device]; [|reflexivity].
      unfold store_device.
      by destruct (has_flag (dev_flags d) WGDEVICE_HAS_PRIVATE_KEY),
        (has_flag (dev_flags d) WGDEVICE_HAS_LISTEN_PORT), (has_flag (dev_flags d) WGDEVICE_HAS_FWMARK).
    + intros E. by destruct (app_eq_nil _ _ (Hd E)).
    + right. split; [done|]. unfold message_reads, store_device.
      by destruct first, (has_flag (dev_flags d) WGDEVICE_HAS_PRIVATE_KEY),
        (has_flag (dev_flags d) WGDEVICE_HAS_LISTEN_PORT), (has_flag (dev_flags d) WGDEVICE_HAS_FWMARK).
Qed.
End Arrive.

(** The work of sending all the peers, as a bound on the number of messages. *)
Definition device_work (d : wgdevice) : nat := list_sum (map peer_work (dev_peers d)).

Lemma coalesce_device d d0 frags :
  emits_all (dev_peers d, []) frags ([], []) -> Sorted keys_differ (dev_peers d) ->
  dev_peers d0 = map frag_reads frags ->
  coalesce_peers d0 = Ret (with_peers (map linux_peer (dev_peers d)) d0).
Proof.
  intros Hem Hs E. unfold coalesce_peers. rewrite E. destruct frags as [|f frags].
  - assert (Ed : dev_peers d = []) by (inversion Hem; congruence). rewrite Ed.
    destruct d0; cbn in *; by subst.
  - inversion Hem as [|? ? s1 ? ? Hf Hrest]; subst. cbn [map]. rewrite frag_reads_aips, length_map.
    assert (Hj : exists p peers, dev_peers d = p :: peers /\ fr_peer f = p /\ fr_first f = true /\
                 joining p (frag_list f) (nonempty (frag_list f)) s1 /\ others p s1 = peers).
    { inversion Hf as [q rest aip f' H1 H2 H3 Es|q rest aip f' r H1 H2 H3 Hr H4 Es]; subst; exists (fr_peer f), rest;
        rewrite <- Es in Hs; (split; [done|]; split; [done|]; split; [by rewrite H2|]).
      - split; [by constructor|done].
      - split; [by constructor|by destruct r]. }
    destruct Hj as (p & peers & Ed & <- & Hfirst & Hj & Eo).
    unfold frag_reads at 1. rewrite Hfirst.
    unfold nonempty in Hj. rewrite (coalesce_fragments _ _ _ _ _ Hrest Hj), Eo, Ed. reflexivity.
Qed.

Definition sendable (d : wgdevice) : Prop :=
  wf_device d /\ canonical_device d /\ name_ok (dev_name d) /\ Sorted keys_differ (dev_peers d) /\
  Forall (fun p => 0 <= sa_scope_id (peer_endpoint p) < 2 ^ 32) (dev_peers d).

Lemma sendable_linux d : sendable d -> pending_linux (dev_peers d, []).
Proof.
  intros ((_ & _ & _ & _ & _ & Hw) & Hc & _ & _ & Hs). split; [|done]. cbn [fst].
  unfold canonical_device in Hc. rewrite Forall_forall in *. unfold linux_ok. auto.
Qed.

(** Stated once for the two clients that send a device. *)
Lemma set_device_conveyed `{NA : NlAcks K} pagesize fuel (k k0 : K) nlg d :
  4096 <= pagesize -> sendable d -> (S (device_work d) < fuel)%nat ->
  mnlg_socket_open fuel k WG_GENL_NAME WG_GENL_VERSION = Ret (inr nlg, k0) ->
  GENL_ID_CTRL < nlg_id nlg < 2 ^ 16 ->
  exists k' ms d',
    kernel_set_device (mnl_ideal_socket_buffer_size pagesize) fuel k d = Ret (0, k') /\
    nl_sent k' = nl_sent k0 ++ ms /\ (length ms <= S (device_work d))%nat /\
    Forall (fun m => zlen m <= mnl_ideal_socket_buffer_size pagesize) ms /\
    read_messages ms (zero_device, 0) = Some (d', 0) /\
    coalesce_peers d' = Ret (linux_device d).
Proof.
  intros Hpage Hsend Hfuel Hopen Hid.
  set (buflen := mnl_ideal_socket_buffer_size pagesize).
  assert (Hb : 280 <= buflen <= 2 ^ 15)
    by (unfold buflen, mnl_ideal_socket_buffer_size; case_match; lia).
  pose proof (sendable_linux d Hsend) as Hlin. destruct Hsend as (Hwf & _ & Hname & Hs & _).
  unfold kernel_set_device. rewrite Hopen. cbn [mbind outcome_bind].
  destruct (set_loop_correct buflen ltac:(lia) nlg d Hid ltac:(lia) Hwf (proj1 Hname) fuel k0 [] [])
    as (k' & fs & ms & E & Hsent & Hconv & Hne & Hlen & Hem);
    [|done|change (start_of d []) with (dev_peers d); rewrite work_fresh; unfold device_work in Hfuel; lia|].
  { split_and!; [|done|done]. by destruct Hwf as (_ & _ & _ & _ & _ & ?). }
  change (start_of d []) with (dev_peers d) in *. rewrite work_fresh in Hlen.
  destruct (conveys_sizes _ _ _ _ _ _ Hconv) as [El Hsz].
  exists k', ms, (message_reads d true (concat fs) zero_device). rewrite El. split_and!; try done.
  - apply (conveys_read buflen nlg d (proj2 Hb) Hwf Hname true fs ms zero_device 0 Hconv);
      [by eapply emits_all_linux|intros Ed; rewrite Ed in Hem|by left].
    inversion Hem as [|? ? ? ? ? H]; [done|inversion H].
  - erewrite coalesce_device; [|exact Hem|exact Hs|].
    + f_equal. unfold message_reads, store_device, linux_device, opt_flag.
      by destruct (has_flag (dev_flags d) WGDEVICE_HAS_PRIVATE_KEY),
        (has_flag (dev_flags d) WGDEVICE_HAS_LISTEN_PORT), (has_flag (dev_flags d) WGDEVICE_HAS_FWMARK).
    + unfold message_reads, store_device.
      by destruct (has_flag (dev_flags d) WGDEVICE_HAS_PRIVATE_KEY),
        (has_flag (dev_flags d) WGDEVICE_HAS_LISTEN_PORT), (has_flag (dev_flags d) WGDEVICE_HAS_FWMARK).
Qed.

(** Setting a device over netlink: when the family is found and the kernel
    acknowledges each message, [kernel_set_device] returns zero after at most
    [device_work d] messages and one, all of which fit the buffer; and the
    messages, read by the callbacks of [kernel_get_device] and joined by
    [coalesce_peers], give the device's configuration back, with every peer and
    every allowed IP in order, however they were split. (C5) *)
Theorem set_device_arrives `{NA : NlAcks K} pagesize fuel (k k0 : K) nlg d :
  4096 <= pagesize -> sendable d -> (S (device_work d) < fuel)%nat ->
  mnlg_socket_open fuel k WG_GENL_NAME WG_GENL_VERSION = Ret (inr nlg, k0) ->
  GENL_ID_CTRL < nlg_id nlg < 2 ^ 16 ->
  exists k' ms d',
    kernel_set_device (mnl_ideal_socket_buffer_size pagesize) fuel k d = Ret (0, k') /\
    nl_sent k' = nl_sent k0 ++ ms /\ (length ms <= S (device_work d))%nat /\
    Forall (fun m => zlen m <= mnl_ideal_socket_buffer_size pagesize) ms /\
    read_messages ms (zero_device, 0) = Some (d', 0) /\
    coalesce_peers d' = Ret (linux_device d).
Proof. apply set_device_conveyed. Qed.

(** A kernel that keeps the messages it was sent and answers each at once; the
    controller says that the family has the id 27. *)
Record log_kernel := { lk_sent : list (list Z); lk_queue : list (list Z) }.
Definition ack_for (b : list Z) : list Z :=
  nlmsg_bytes {| nlmsg_type := NLMSG_ERROR; nlmsg_flags := 0x100; nlmsg_seq := msg_seq b;
                 nlmsg_body := le_bytes 4 0 ++ zeros 16 |}.
Definition family_for (b : list Z) : list Z :=
  nlmsg_bytes {| nlmsg_type := GENL_ID_CTRL; nlmsg_flags := 0; nlmsg_seq := msg_seq b;
                 nlmsg_body := [1; 2; 0; 0] ++ attr_bytes CTRL_ATTR_FAMILY_ID (le_bytes 2 27) |}.
#[export] Instance log_kernel_ops : NlKernel log_kernel := {
  nl_open k := (0, 77, k);
  nl_sendto k b :=
    (0, {| lk_sent := lk_sent k ++ [b];
           lk_queue := if msg_type b =? GENL_ID_CTRL then [family_for b; ack_for b] else [ack_for b] |});
  nl_recvfrom k :=
    match lk_queue k with
    | [] => (inl 11, k)
    | r :: q => (inr r, {| lk_sent := lk_sent k; lk_queue := q |})
    end;
  nl_time _ := 1700000000
}.

Lemma ack_for_acks b portid : 0 <= msg_seq b < 2 ^ 32 -> is_ack (msg_seq b) portid (ack_for b) = true.
Proof.
  intros H. unfold ack_for. set (nlh := {| nlmsg_type := _ |}).
  assert (Hseq : msg_seq (nlmsg_bytes nlh) = msg_seq b) by by apply msg_seq_bytes.
  unfold is_ack, mnl_nlmsg_seq_ok. rewrite Hseq, (Z.eqb_refl (msg_seq b)).
  match goal with |- context [if ?c then true else true] =>
    replace (if c then true else true) with true by by destruct c end.
  unfold mnl_nlmsg_portid_ok. change (msg_pid (nlmsg_bytes nlh)) with 0.
  reflexivity.
Qed.

#[export] Instance log_kernel_acks : NlAcks log_kernel.
Proof.
  refine {| nl_sent := lk_sent |}. intros k b portid Ht Hs.
  eexists _, (ack_for b), _. split; [reflexivity|]. cbn [nl_recvfrom log_kernel_ops lk_queue].
  destruct (Z.eqb_spec (msg_type b) GENL_ID_CTRL) as [|_]; [done|].
  split; [reflexivity|]. split; [by apply ack_for_acks|reflexivity].
Defined.

Definition log_start : log_kernel := {| lk_sent := []; lk_queue := [] |}.

Lemma sample_device_sendable : sendable sample_device.
Proof.
  split; [apply sample_device_wf|]. split; [apply sample_device_canonical|]. split; [|split].
  - split; [vm_compute; lia|]. vm_compute. intuition congruence.
  - repeat constructor. vm_compute. congruence.
  - repeat constructor; vm_compute; congruence.
Qed.

(** The kernel after the family was looked up. *)
Definition log_opened : log_kernel :=
  match mnlg_socket_open 20 log_start WG_GENL_NAME WG_GENL_VERSION with
  | Ret (inr _, k) => k
  | _ => log_start
  end.

Lemma set_device_arrives_witness : exists k' ms d',
  kernel_set_device (mnl_ideal_socket_buffer_size 4096) 20 log_start sample_device = Ret (0, k') /\
  nl_sent k' = nl_sent log_opened ++ ms /\ (length ms <= S (device_work sample_device))%nat /\
  Forall (fun m => zlen m <= mnl_ideal_socket_buffer_size 4096) ms /\
  read_messages ms (zero_device, 0) = Some (d', 0) /\
  coalesce_peers d' = Ret (linux_device sample_device).
Proof.
  eapply (set_device_arrives 4096 20 log_start log_opened);
    [lia|apply sample_device_sendable|vm_compute; lia|vm_compute; reflexivity|vm_compute; split; reflexivity].
Defined.
End IpcLinuxTheorems.
