(* ===== verification/IpcLinuxSafe.v ===== *)
(** * The Linux back end: reading any message

    The callbacks of [kernel_get_device] on bytes nothing is known about: what
    they copy is inside the message, and what they build keeps the types of
    containers.h. Two places where less is checked than it seems. *)
From S2P Require Import Prelude Libc Encoding Containers IpcUapi Samples Showconf.
From S2P Require Import Netlink NetlinkFacts Ipc IpcLinux.
Import Libc Encoding Showconf Netlink NetlinkFacts IpcLinux.

Module IpcLinuxSafe.

(** ** Walking any attributes *)

(** The bytes from an attribute on, all of it being inside the message. *)
Definition attr_wf (attr : list Z) : Prop :=
  Forall is_byte attr /\ 4 <= nla_len attr <= zlen attr /\ nla_len attr < 2 ^ 16.

Lemma Forall_byte_drop n b : Forall is_byte b -> Forall is_byte (drop n b).
Proof. intros H. rewrite <- (take_drop n b) in H. by apply Forall_app in H as [_ ?]. Qed.
Lemma Forall_byte_take n b : Forall is_byte b -> Forall is_byte (take n b).
Proof. intros H. rewrite <- (take_drop n b) in H. by apply Forall_app in H as [? _]. Qed.

Lemma field_range off n b : Forall is_byte b -> 0 <= field off n b < 256 ^ Z.of_nat n.
Proof.
  intros H. unfold field. pose proof (le_number_range _ (Forall_byte_take n _ (Forall_byte_drop off _ H))) as Hr.
  rewrite length_take in Hr. split; [lia|]. eapply Z.lt_le_trans; [apply Hr|]. apply Z.pow_le_mono_r; lia.
Qed.

Lemma zlen_drop n b : zlen (drop n b) = Z.max 0 (zlen b - Z.of_nat n).
Proof. unfold zlen. rewrite length_drop. lia. Qed.

Section Loop.
Context {D : Type} (cb : list Z -> D -> Z * D) (P : Z * D -> Prop).
Hypothesis (Hstep : forall attr ret d, attr_wf attr -> 0 < ret -> P (ret, d) -> P (cb attr d)).

Lemma attr_loop_inv fuel attr len ret d :
  Forall is_byte attr -> len <= zlen attr -> 0 < ret -> P (ret, d) -> P (attr_loop cb fuel attr len ret d).
Proof using Hstep.
  revert attr len ret d. induction fuel as [|fuel IH]; intros attr len ret d Hb Hl Hr HP; cbn [attr_loop]; [done|].
  destruct (mnl_attr_ok attr len) eqn:Hok; cbn [negb]; [|done].
  unfold mnl_attr_ok, sizeof_nlattr in Hok. pose proof (field_range 0 2 attr Hb) as Hf. fold (nla_len attr) in Hf.
  assert (Hwf : attr_wf attr) by (split_and!; [done|lia|lia|lia]).
  pose proof (Hstep attr ret d Hwf Hr HP) as HP'. destruct (cb attr d) as [ret' d'].
  destruct (Z.leb_spec ret' MNL_CB_STOP) as [|Hr']; [done|]. unfold MNL_CB_STOP in Hr'.
  apply IH; [by apply Forall_byte_drop| |done|done].
  unfold mnl_attr_next. rewrite zlen_drop. pose proof (MNL_ALIGN_bounds (nla_len attr)). lia.
Qed.

Lemma parse_nested_inv nested d : attr_wf nested -> P (MNL_CB_OK, d) -> P (mnl_attr_parse_nested cb nested d).
Proof using Hstep.
  intros (Hb & Hl & Hs) HP. unfold mnl_attr_parse_nested, mnl_attr_get_payload, mnl_attr_get_payload_len.
  change MNL_ATTR_HDRLEN with 4. apply attr_loop_inv; [by apply Forall_byte_drop| |done|done].
  rewrite u16_small by lia. rewrite zlen_drop. lia.
Qed.

(** A message as [recv] delivers it: padded to four bytes. *)
Lemma attr_parse_inv nlh offset d :
  Forall is_byte nlh -> MNL_ALIGN (msg_len nlh) <= zlen nlh -> 0 <= offset ->
  P (MNL_CB_OK, d) -> P (mnl_attr_parse cb nlh offset d).
Proof using Hstep.
  intros Hb Hl Ho HP. unfold mnl_attr_parse. cbv zeta. apply attr_loop_inv; [by apply Forall_byte_drop| |done|done].
  rewrite zlen_drop. pose proof (MNL_ALIGN_bounds offset). change MNL_NLMSG_HDRLEN with 16. lia.
Qed.
End Loop.

(** What a fixed-size copy takes is inside the attribute. *)
Lemma payload_wf n attr : attr_wf attr -> mnl_attr_get_payload_len attr = Z.of_nat n ->
  length (payload n attr) = n /\ Forall is_byte (payload n attr).
Proof.
  intros (Hb & Hl & Hs) Hn. unfold payload, mnl_attr_get_payload, mnl_attr_get_payload_len in *.
  change MNL_ATTR_HDRLEN with 4 in *. rewrite u16_small in Hn by lia.
  split; [|by apply Forall_byte_take, Forall_byte_drop].
  pose proof (zlen_drop (Z.to_nat 4) attr) as E. unfold zlen in *. rewrite length_take. lia.
Qed.

Lemma payload_bytes attr : attr_wf attr -> Forall is_byte (mnl_attr_get_payload attr).
Proof. intros [Hb _]. by apply Forall_byte_drop. Qed.

Lemma payload_length attr : attr_wf attr -> mnl_attr_get_payload_len attr <= zlen (mnl_attr_get_payload attr).
Proof.
  intros (Hb & Hl & Hs). unfold mnl_attr_get_payload, mnl_attr_get_payload_len.
  change MNL_ATTR_HDRLEN with 4. rewrite u16_small by lia. rewrite zlen_drop. lia.
Qed.

Lemma get_number_range n attr : attr_wf attr -> 0 <= field 0 n (mnl_attr_get_payload attr) < 256 ^ Z.of_nat n.
Proof. intros H. by apply field_range, payload_bytes. Qed.

(** ** The invariant *)

Definition raw_allowedip (a : wgallowedip) : Prop :=
  0 <= aip_family a < 2 ^ 16 /\ length (aip_ip a) = 16%nat /\ Forall is_byte (aip_ip a) /\
  is_byte (aip_cidr a) /\ aip_flags a = 0.
Definition raw_endpoint (sa : sockaddr) : Prop :=
  Forall is_byte (sa_addr sa) /\ 0 <= sa_port sa < 2 ^ 16 /\
  (sa = zero_sockaddr \/ sa_family sa = AF_INET /\ length (sa_addr sa) = 4%nat \/
   sa_family sa = AF_INET6 /\ length (sa_addr sa) = 16%nat).
Definition raw_peer (p : wgpeer) : Prop :=
  wf_key (peer_public_key p) /\ wf_key (peer_preshared_key p) /\ raw_endpoint (peer_endpoint p) /\
  0 <= peer_persistent_keepalive_interval p < 2 ^ 16 /\
  0 <= peer_rx_bytes p < 2 ^ 64 /\ 0 <= peer_tx_bytes p < 2 ^ 64 /\
  Forall raw_allowedip (peer_allowedips p).
Definition raw_device (d : wgdevice) : Prop :=
  wf_key (dev_public_key d) /\ wf_key (dev_private_key d) /\
  0 <= dev_ifindex d < 2 ^ 32 /\ 0 <= dev_fwmark d < 2 ^ 32 /\ 0 <= dev_listen_port d < 2 ^ 16 /\
  (length (dev_name d) <= 15)%nat /\ Forall raw_peer (dev_peers d).
Definition keyed (p : wgpeer) : Prop := has_flag (peer_flags p) WGPEER_HAS_PUBLIC_KEY = true.
Definition device_inv (d : wgdevice) : Prop := raw_device d /\ Forall keyed (dev_peers d).

Lemma raw_allowedip_step attr a e : attr_wf attr -> raw_allowedip a ->
  raw_allowedip (parse_allowedip attr (a, e)).2.1.
Proof.
  intros Hwf Ha. pose proof Ha as (Hf & Hl & Hb & Hc & Hfl). unfold parse_allowedip.
  assert (Hins : forall n, (n <= 16)%nat -> mnl_attr_get_payload_len attr = Z.of_nat n ->
            length (list_inserts 0 (payload n attr) (aip_ip a)) = 16%nat /\
            Forall is_byte (list_inserts 0 (payload n attr) (aip_ip a))).
  { intros n Hn E. destruct (payload_wf n attr Hwf E) as [Hpl Hpb].
    rewrite length_inserts. split; [done|].
    rewrite <- (take_drop n (aip_ip a)), list_inserts_0_r by (rewrite length_take; lia).
    apply Forall_app. split; [done|by apply Forall_byte_drop]. }
  pose proof (get_number_range 2 attr Hwf) as H2. pose proof (get_number_range 1 attr Hwf) as H1.
  repeat case_match; cbn [fst snd]; unfold raw_allowedip; cbn [aip_family aip_ip aip_cidr aip_flags];
    try done; simplify_eq; split_and!; try done; try lia;
    try (apply (Hins 4%nat); lia); try (apply (Hins 16%nat); lia).
Qed.

Lemma raw_zero_allowedip : raw_allowedip zero_allowedip.
Proof.
  unfold raw_allowedip. split_and!; try (vm_compute; congruence); try done. apply bytes_check. reflexivity.
Qed.
Lemma raw_zero_endpoint : raw_endpoint zero_sockaddr.
Proof.
  unfold raw_endpoint. split_and!; try (vm_compute; congruence); try done; [|by left]. apply bytes_check. reflexivity.
Qed.
Lemma wf_zero_key : wf_key zero_key.
Proof. split; [done|]. apply bytes_check. reflexivity. Qed.
Lemma raw_zero_peer : raw_peer zero_peer.
Proof.
  refine (conj wf_zero_key (conj wf_zero_key (conj raw_zero_endpoint (conj _ (conj _ (conj _ _))))));
    [vm_compute; split; congruence..|constructor].
Qed.
Lemma raw_zero_device : raw_device zero_device.
Proof.
  refine (conj wf_zero_key (conj wf_zero_key (conj _ (conj _ (conj _ (conj _ _))))));
    [vm_compute; split; congruence..|vm_compute; lia|constructor].
Qed.

Lemma raw_allowedips_step attr p e : attr_wf attr -> raw_peer p ->
  raw_peer (parse_allowedips attr (p, e)).2.1.
Proof.
  intros Hwf Hp. unfold parse_allowedips.
  assert (Ha : raw_allowedip (mnl_attr_parse_nested parse_allowedip attr (zero_allowedip, e)).2.1).
  { apply (parse_nested_inv parse_allowedip (fun r => raw_allowedip r.2.1)); [|done|apply raw_zero_allowedip].
    intros at' ret [a' e'] Hw _ H. by apply raw_allowedip_step. }
  destruct (mnl_attr_parse_nested parse_allowedip attr (zero_allowedip, e)) as [ret [a e']]. cbn [fst snd] in Ha.
  assert (H : raw_peer (with_allowedips (peer_allowedips p ++ [a]) p)).
  { destruct Hp as (? & ? & ? & ? & ? & ? & Hl). unfold raw_peer.
    cbn [with_allowedips peer_public_key peer_preshared_key peer_endpoint peer_persistent_keepalive_interval
         peer_rx_bytes peer_tx_bytes peer_allowedips].
    split_and!; try done; try lia. apply Forall_app. split; [done|]. by constructor. }
  cbv zeta. by repeat case_match.
Qed.

Lemma payload_key attr : attr_wf attr -> mnl_attr_get_payload_len attr = Z.of_nat WG_KEY_LEN ->
  wf_key (payload WG_KEY_LEN attr).
Proof. intros H E. by apply payload_wf. Qed.

(** The two shapes of an endpoint, read from enough bytes. *)
Lemma raw_endpoint_in b : Forall is_byte b -> 16 <= zlen b -> field 0 2 b = AF_INET ->
  raw_endpoint (read_sockaddr_in (take 16 b)).
Proof.
  intros Hb Hl Hf. pose proof (Forall_byte_take 16 b Hb) as Hb'. unfold raw_endpoint, read_sockaddr_in.
  cbn [sa_addr sa_port sa_family]. pose proof (field_range 2 1 _ Hb'). pose proof (field_range 3 1 _ Hb').
  change (256 ^ Z.of_nat 1) with 256 in *.
  split_and!; [by apply Forall_byte_take, Forall_byte_drop|lia|lia|]. right. left. split.
  - unfold field in *. rewrite drop_0 in *. by rewrite take_take.
  - rewrite length_take, length_drop, length_take. unfold zlen in Hl. lia.
Qed.
Lemma raw_endpoint_in6 b : Forall is_byte b -> 28 <= zlen b -> field 0 2 b = AF_INET6 ->
  raw_endpoint (read_sockaddr_in6 (take 28 b)).
Proof.
  intros Hb Hl Hf. pose proof (Forall_byte_take 28 b Hb) as Hb'. unfold raw_endpoint, read_sockaddr_in6.
  cbn [sa_addr sa_port sa_family]. pose proof (field_range 2 1 _ Hb'). pose proof (field_range 3 1 _ Hb').
  change (256 ^ Z.of_nat 1) with 256 in *.
  split_and!; [by apply Forall_byte_take, Forall_byte_drop|lia|lia|]. right. right. split.
  - unfold field in *. rewrite drop_0 in *. by rewrite take_take.
  - rewrite length_take, length_drop, length_take. unfold zlen in Hl. lia.
Qed.

(** Replacing one field keeps the invariant of the peer. *)
Lemma raw_with_flags f p : raw_peer p -> raw_peer (with_peer_flags f p).
Proof. exact (fun H => H). Qed.
Lemma raw_with_public_key k p : wf_key k -> raw_peer p -> raw_peer (with_public_key k p).
Proof. exact (fun H '(conj _ H') => conj H H'). Qed.
Lemma raw_with_preshared_key k p : wf_key k -> raw_peer p -> raw_peer (with_preshared_key k p).
Proof. exact (fun H '(conj H1 (conj _ H')) => conj H1 (conj H H')). Qed.
Lemma raw_with_endpoint sa p : raw_endpoint sa -> raw_peer p -> raw_peer (with_endpoint sa p).
Proof. exact (fun H '(conj H1 (conj H2 (conj _ H'))) => conj H1 (conj H2 (conj H H'))). Qed.
Lemma raw_with_keepalive n p : 0 <= n < 2 ^ 16 -> raw_peer p -> raw_peer (with_keepalive n p).
Proof.
  exact (fun H '(conj H1 (conj H2 (conj H3 (conj _ H')))) => conj H1 (conj H2 (conj H3 (conj H H')))).
Qed.
Lemma raw_with_handshake t p : raw_peer p -> raw_peer (with_handshake t p).
Proof. exact (fun H => H). Qed.
Lemma raw_with_transfer rx tx p : 0 <= rx < 2 ^ 64 -> 0 <= tx < 2 ^ 64 -> raw_peer p ->
  raw_peer (with_transfer rx tx p).
Proof.
  intros Hr Ht (H1 & H2 & H3 & H4 & _ & _ & H').
  exact (conj H1 (conj H2 (conj H3 (conj H4 (conj Hr (conj Ht H')))))).
Qed.

Lemma raw_peer_step attr p e : attr_wf attr -> raw_peer p -> raw_peer (parse_peer attr (p, e)).2.1.
Proof.
  intros Hwf Hp. pose proof (payload_bytes attr Hwf) as Hb. pose proof (payload_length attr Hwf) as Hl.
  pose proof Hp as (_ & _ & _ & _ & Hrx & Htx & _).
  pose proof (get_number_range 2 attr Hwf) as H2. pose proof (get_number_range 8 attr Hwf) as H8.
  change (256 ^ Z.of_nat 8) with (2 ^ 64) in H8. change (256 ^ Z.of_nat 2) with (2 ^ 16) in H2.
  unfold parse_peer, sizeof_sockaddr_in, sizeof_sockaddr_in6. cbv zeta.
  destruct (mnl_attr_get_type attr =? WGPEER_A_PUBLIC_KEY).
  { case_match eqn:E; cbn [fst snd]; [|done]. apply raw_with_flags, raw_with_public_key; [|done].
    apply payload_key; [done|]. by apply Z.eqb_eq. }
  destruct (mnl_attr_get_type attr =? WGPEER_A_PRESHARED_KEY).
  { case_match eqn:E; cbn [fst snd]; [|done].
    assert (raw_peer (with_preshared_key (payload WG_KEY_LEN attr) p)).
    { apply raw_with_preshared_key; [|done]. apply payload_key; [done|]. by apply Z.eqb_eq. }
    case_match; [by apply raw_with_flags|done]. }
  destruct (mnl_attr_get_type attr =? WGPEER_A_ENDPOINT).
  { cbn [fst snd]. destruct (_ <? 16); [done|].
    destruct (_ && _) eqn:E4; [|destruct ((_ =? AF_INET6) && _) eqn:E6; [|done]];
      (apply raw_with_endpoint; [|done]).
    - apply raw_endpoint_in; [done|lia|lia].
    - apply raw_endpoint_in6; [done|lia|lia]. }
  destruct (mnl_attr_get_type attr =? WGPEER_A_PERSISTENT_KEEPALIVE_INTERVAL).
  { destruct (mnl_attr_validate _ _ _) as [v e']. cbn [fst snd]. case_match; [|done].
    by apply raw_with_keepalive. }
  destruct (mnl_attr_get_type attr =? WGPEER_A_LAST_HANDSHAKE_TIME).
  { cbn [fst snd]. case_match; [by apply raw_with_handshake|done]. }
  destruct (mnl_attr_get_type attr =? WGPEER_A_RX_BYTES).
  { destruct (mnl_attr_validate _ _ _) as [v e']. cbn [fst snd]. case_match; [|done].
    by apply raw_with_transfer. }
  destruct (mnl_attr_get_type attr =? WGPEER_A_TX_BYTES).
  { destruct (mnl_attr_validate _ _ _) as [v e']. cbn [fst snd]. case_match; [|done].
    by apply raw_with_transfer. }
  destruct (mnl_attr_get_type attr =? WGPEER_A_ALLOWEDIPS); [|done].
  apply (parse_nested_inv parse_allowedips (fun r => raw_peer r.2.1)); [|done|done].
  intros at' ret [p' e'] Hw _ H. by apply raw_allowedips_step.
Qed.

(** Whatever the value a callback for devices returns, the device keeps its
    types; when it asks for more, every peer has a public key. *)
Definition cb_inv (r : Z * (wgdevice * Z)) : Prop :=
  raw_device r.2.1 /\ (0 < r.1 -> Forall keyed (dev_peers r.2.1)).

Lemma parse_peers_inv attr ret st : attr_wf attr -> 0 < ret -> cb_inv (ret, st) -> cb_inv (parse_peers attr st).
Proof.
  destruct st as [d e]. intros Hwf Hret [Hd Hk]. specialize (Hk Hret). cbn [fst snd] in *. unfold parse_peers.
  assert (Hp : raw_peer (mnl_attr_parse_nested parse_peer attr (zero_peer, e)).2.1).
  { apply (parse_nested_inv parse_peer (fun r => raw_peer r.2.1)); [|done|apply raw_zero_peer].
    intros at' ret' [p' e'] Hw _ H. by apply raw_peer_step. }
  destruct (mnl_attr_parse_nested parse_peer attr (zero_peer, e)) as [r [p e']]. cbn [fst snd] in Hp.
  assert (H : raw_device (with_peers (dev_peers d ++ [p]) d)).
  { destruct Hd as (H1 & H2 & H3 & H4 & H5 & H6 & H7).
    refine (conj H1 (conj H2 (conj H3 (conj H4 (conj H5 (conj H6 _)))))).
    apply Forall_app. split; [done|]. by constructor. }
  destruct (Z.eqb_spec r 0) as [->|_]; [split; [done|cbn; lia]|].
  destruct (has_flag (peer_flags p) WGPEER_HAS_PUBLIC_KEY) eqn:Ek; cbn [negb]; (split; [done|]); cbn [fst snd].
  - intros _. apply Forall_app. split; [done|]. by constructor.
  - unfold MNL_CB_ERROR. lia.
Qed.

Lemma parse_device_inv attr ret st : attr_wf attr -> 0 < ret -> cb_inv (ret, st) -> cb_inv (parse_device attr st).
Proof.
  destruct st as [d e]. intros Hwf Hret HI. pose proof HI as [Hd Hk]. specialize (Hk Hret). cbn [fst snd] in *.
  pose proof (get_number_range 2 attr Hwf) as N2. pose proof (get_number_range 4 attr Hwf) as N4.
  pose proof Hd as (H1 & H2 & H3 & H4 & H5 & H6 & H7). unfold parse_device. cbv zeta.
  assert (Hsame : forall e', cb_inv (MNL_CB_OK, (d, e'))) by done.
  destruct (_ =? WGDEVICE_A_IFINDEX).
  { destruct (mnl_attr_validate _ _ _) as [v e']. case_match; [|done].
    exact (conj (conj H1 (conj H2 (conj N4 (conj H4 (conj H5 (conj H6 H7)))))) (fun _ => Hk)). }
  destruct (_ =? WGDEVICE_A_IFNAME).
  { destruct (mnl_attr_validate _ _ _) as [v e']. case_match; [|done].
    refine (conj (conj H1 (conj H2 (conj H3 (conj H4 (conj H5 (conj _ H7)))))) (fun _ => Hk)).
    cbn [fst snd dev_name with_dev_name]. rewrite length_take. change (IFNAMSIZ - 1)%nat with 15%nat. lia. }
  destruct (_ =? WGDEVICE_A_PRIVATE_KEY).
  { case_match eqn:E; [|done]. apply Z.eqb_eq in E.
    exact (conj (conj H1 (conj (payload_key attr Hwf E) (conj H3 (conj H4 (conj H5 (conj H6 H7)))))) (fun _ => Hk)). }
  destruct (_ =? WGDEVICE_A_PUBLIC_KEY).
  { case_match eqn:E; [|done]. apply Z.eqb_eq in E.
    exact (conj (conj (payload_key attr Hwf E) (conj H2 (conj H3 (conj H4 (conj H5 (conj H6 H7)))))) (fun _ => Hk)). }
  destruct (_ =? WGDEVICE_A_LISTEN_PORT).
  { destruct (mnl_attr_validate _ _ _) as [v e']. case_match; [|done].
    exact (conj (conj H1 (conj H2 (conj H3 (conj H4 (conj N2 (conj H6 H7)))))) (fun _ => Hk)). }
  destruct (_ =? WGDEVICE_A_FWMARK).
  { destruct (mnl_attr_validate _ _ _) as [v e']. case_match; [|done].
    exact (conj (conj H1 (conj H2 (conj H3 (conj N4 (conj H5 (conj H6 H7)))))) (fun _ => Hk)). }
  destruct (_ =? WGDEVICE_A_PEERS); [|done].
  apply parse_nested_inv; [exact parse_peers_inv|done|done].
Qed.


(** A message with a listening port, a name and a truncated attribute. *)
Definition sample_message : list Z :=
  nlmsg_bytes {| nlmsg_type := 27; nlmsg_flags := 2; nlmsg_seq := 5;
                 nlmsg_body := [0; 1; 0; 0] ++ attr_bytes WGDEVICE_A_LISTEN_PORT (le_bytes 2 51820)
                   ++ attr_bytes WGDEVICE_A_IFNAME (map uchar (str "wg0") ++ [0]) ++ [255; 255; 3; 0] |}.

(** ** What is not checked *)

(** A peer with an IPv4 allowed IP of the given prefix length. *)
Definition peer_with_cidr (cidr : Z) : list Z :=
  nest_bytes 0 (attr_bytes WGPEER_A_PUBLIC_KEY sample_key
    ++ nest_bytes WGPEER_A_ALLOWEDIPS (nest_bytes 0
         (attr_bytes WGALLOWEDIP_A_FAMILY (le_bytes 2 AF_INET)
          ++ attr_bytes WGALLOWEDIP_A_IPADDR [10; 0; 0; 1]
          ++ attr_bytes WGALLOWEDIP_A_CIDR_MASK (le_bytes 1 cidr)))).

(** An allowed IP with a prefix length that is too long makes the parser of
    allowed IPs report an error, but [parse_peers] tests that its nested parse
    did not return zero, so that the error is lost: the callback goes on, and the
    peer is kept with the allowed IP that was refused. *)
Theorem parse_peers_loses_error cidr : 32 < cidr < 256 ->
  let '(ret, (d, _)) := parse_peers (peer_with_cidr cidr) (zero_device, 0) in
  ret = MNL_CB_OK /\ concat (map peer_allowedips (dev_peers d))
    = [{| aip_family := AF_INET; aip_ip := [10; 0; 0; 1] ++ replicate 12 0; aip_cidr := cidr; aip_flags := 0 |}].
Proof.
  intros H.
  assert (E : forall c, is_byte c -> implb (32 <? c)
    (bool_decide ((fun r => (r.1, concat (map peer_allowedips (dev_peers r.2.1))))
       (parse_peers (peer_with_cidr c) (zero_device, 0))
     = (MNL_CB_OK, [{| aip_family := AF_INET; aip_ip := [10; 0; 0; 1] ++ replicate 12 0; aip_cidr := c;
                       aip_flags := 0 |}]))) = true).
  { apply byte_forall. vm_compute. reflexivity. }
  specialize (E cidr ltac:(unfold is_byte; lia)). replace (32 <? cidr) with true in E by lia. cbn [implb] in E.
  apply bool_decide_eq_true in E. destruct (parse_peers _ _) as [ret [d e]]. cbn [fst snd] in E.
  by injection E as -> ->.
Qed.
Lemma parse_peers_loses_error_witness :
  let '(ret, (d, _)) := parse_peers (peer_with_cidr 200) (zero_device, 0) in
  ret = MNL_CB_OK /\ concat (map peer_allowedips (dev_peers d))
    = [{| aip_family := AF_INET; aip_ip := [10; 0; 0; 1] ++ replicate 12 0; aip_cidr := 200; aip_flags := 0 |}].
Proof. apply (parse_peers_loses_error 200). lia. Defined.

(** Joining three fragments of a peer of which the first has allowed IPs and the
    second has none follows a null pointer: after the second one,
    [last_allowedip] is [NULL] while [first_allowedip] is not. *)
Theorem coalesce_empty_fragment d p q r rest :
  dev_peers d = p :: q :: r :: rest ->
  peer_public_key q = peer_public_key p -> peer_public_key r = peer_public_key p ->
  peer_allowedips p <> [] -> peer_allowedips q = [] ->
  coalesce_peers d = NullDeref.
Proof.
  intros E Hq Hr Hp Hqa. unfold coalesce_peers. rewrite E. cbn [coalesce_from].
  rewrite Hq, bool_decide_eq_true_2, Hqa by done. cbn [negb].
  destruct (peer_allowedips p) as [|a l] eqn:Ea; [done|]. cbn [length Nat.eqb negb app].
  cbn [coalesce_from with_allowedips peer_public_key peer_allowedips].
  rewrite Hr, bool_decide_eq_true_2 by done. reflexivity.
Qed.
Lemma coalesce_empty_fragment_witness :
  coalesce_peers (with_peers [sample_peer1; with_allowedips [] sample_peer1; sample_peer1] zero_device)
  = NullDeref.
Proof.
  by apply (coalesce_empty_fragment _ sample_peer1 (with_allowedips [] sample_peer1) sample_peer1 []).
Defined.
End IpcLinuxSafe.
