(* ===== verification/Packed.v ===== *)
(** * Devices packed into one buffer

    OpenBSD and Windows pass a device to the kernel, and get it back, in one
    buffer: the structure of the interface, then for each peer its structure and
    those of its allowed IPs, one after the other. This file has memory that is
    accessed at offsets, the loops that both ipc-openbsd.h and ipc-windows.h
    contain, over what differs between the two, and the theorem that the loops
    that read undo the loops that write. *)
From S2P Require Import Prelude Libc Encoding Containers Names Showconf.
Import Libc Encoding Showconf.

Module Packed.

(** ** Memory *)

(** An access outside the buffer is undefined, as one through [NULL] is. *)
Definition load (off n : nat) (buf : list Z) : outcome (list Z) :=
  if (off + n <=? length buf)%nat then Ret (take n (drop off buf)) else NullDeref.
Definition store (off : nat) (b buf : list Z) : outcome (list Z) :=
  if (off + length b <=? length buf)%nat then Ret (list_inserts off b buf) else NullDeref.
(** Assignments to members of the structure of size [n] at an offset. *)
Definition update (off n : nat) (f : list Z -> list Z) (buf : list Z) : outcome (list Z) :=
  st ← load off n buf; store off (f st) buf.

(** Members of a structure: their bytes, and the integer they are. *)
Definition member (off n : nat) (st : list Z) : list Z := take n (drop off st).
Definition int_member (off n : nat) (st : list Z) : Z := le_number (member off n st).
(** [if (c) st->off = b;] and [if (c) st->off |= m;] *)
Definition set_if (c : bool) (off : nat) (b st : list Z) : list Z := if c then list_inserts off b st else st.
Definition or_if (c : bool) (off n : nat) (m : Z) (st : list Z) : list Z :=
  if c then list_inserts off (le_bytes n (Z.lor (int_member off n st) m)) st else st.

(** ** The loops *)

Section Loops.
Context (sizeof_peer sizeof_aip : nat).
(** What is written for an allowed IP; [inl] is an error that ends the function. *)
Context (put_aip : nat -> wgallowedip -> list Z -> outcome (Z + list Z)).
(** What is written for a peer before its allowed IPs, and their number after. *)
Context (put_peer : nat -> wgpeer -> list Z -> outcome (list Z)).
Context (put_count : nat -> Z -> list Z -> outcome (list Z)).
(** What is read: a peer without its allowed IPs and their number, an allowed IP. *)
Context (get_peer : nat -> list Z -> outcome (wgpeer * Z)).
Context (get_aip : nat -> list Z -> outcome wgallowedip).

Definition known_family (a : wgallowedip) : bool := (aip_family a =? AF_INET) || (aip_family a =? AF_INET6).

(** [for_each_wgallowedip(peer, aip)]: the pointer and the count afterwards. An
    allowed IP of another family leaves both where they are. *)
Fixpoint put_aips (wg_aip : nat) (aip_count : Z) (aips : list wgallowedip) (buf : list Z)
  : outcome (Z + nat * Z * list Z) :=
  match aips with
  | [] => Ret (inr (wg_aip, aip_count, buf))
  | a :: aips =>
      r ← put_aip wg_aip a buf;
      match r with
      | inl errno => Ret (inl errno)
      | inr buf =>
          if known_family a then put_aips (wg_aip + sizeof_aip) (aip_count + 1) aips buf
          else put_aips wg_aip aip_count aips buf
      end
  end.

(** [for_each_wgpeer(dev, peer)] *)
Fixpoint put_peers (wg_peer : nat) (peer_count : Z) (peers : list wgpeer) (buf : list Z)
  : outcome (Z + Z * list Z) :=
  match peers with
  | [] => Ret (inr (peer_count, buf))
  | p :: peers =>
      buf ← put_peer wg_peer p buf;
      r ← put_aips (wg_peer + sizeof_peer) 0 (peer_allowedips p) buf;
      match r with
      | inl errno => Ret (inl errno)
      | inr (wg_aip, aip_count, buf) =>
          buf ← put_count wg_peer aip_count buf;
          put_peers wg_aip (peer_count + 1) peers buf
      end
  end.

(** [for (j = 0; j < n; ++j)] over the allowed IPs. *)
Fixpoint get_aips (n wg_aip : nat) (buf : list Z) : outcome (list wgallowedip) :=
  match n with
  | O => Ret []
  | S n => a ← get_aip wg_aip buf; l ← get_aips n (wg_aip + sizeof_aip) buf; Ret (a :: l)
  end.
(** [for (i = 0; i < n; ++i)] over the peers. *)
Fixpoint get_peers (n wg_peer : nat) (buf : list Z) : outcome (list wgpeer) :=
  match n with
  | O => Ret []
  | S n =>
      '(p, count) ← get_peer wg_peer buf;
      let wg_aip := (wg_peer + sizeof_peer)%nat in
      aips ← get_aips (Z.to_nat count) wg_aip buf;
      l ← get_peers n (wg_aip + Z.to_nat count * sizeof_aip) buf;
      Ret (with_allowedips aips p :: l)
  end.

(** The memory the peers take. *)
Definition peer_size (p : wgpeer) : nat := (sizeof_peer + length (peer_allowedips p) * sizeof_aip)%nat.
Definition peers_size (l : list wgpeer) : nat := list_sum (map peer_size l).
End Loops.

(** ** Reading what was written *)

(** The bytes from [lo] to [hi] are as they were. *)
Definition same_bytes (lo hi : nat) (buf buf' : list Z) : Prop :=
  forall i, (lo <= i < hi)%nat -> buf' !! i = buf !! i.
(** Only the bytes from [lo] to [hi] may differ. *)
Definition frame (lo hi : nat) (buf buf' : list Z) : Prop :=
  length buf' = length buf /\ forall i, (i < lo \/ hi <= i)%nat -> buf' !! i = buf !! i.
Definition zero_from (lo : nat) (buf : list Z) : Prop :=
  forall i, (lo <= i < length buf)%nat -> buf !! i = Some 0.

Lemma frame_refl lo hi buf : frame lo hi buf buf.
Proof. by split. Qed.
Lemma frame_trans lo hi a b c : frame lo hi a b -> frame lo hi b c -> frame lo hi a c.
Proof. intros [L1 H1] [L2 H2]. split; [congruence|]. intros i Hi. by rewrite H2, H1. Qed.
Lemma frame_weaken lo hi lo' hi' a b : (lo' <= lo)%nat -> (hi <= hi')%nat -> frame lo hi a b -> frame lo' hi' a b.
Proof. intros H1 H2 [L H]. split; [done|]. intros i Hi. apply H. lia. Qed.
Lemma frame_same lo hi a b o n : frame lo hi a b -> (o + n <= lo \/ hi <= o)%nat -> same_bytes o (o + n) a b.
Proof. intros [_ H] Ho i Hi. apply H. lia. Qed.
Lemma frame_zero lo hi a b : (lo <= hi)%nat -> frame lo hi a b -> zero_from lo a -> zero_from hi b.
Proof. intros Hl [L H] Hz i Hi. rewrite H by lia. apply Hz. lia. Qed.

Lemma list_inserts_frame off b buf : frame off (off + length b) buf (list_inserts off b buf).
Proof.
  split; [by rewrite length_inserts|]. intros i [Hi|Hi]; [by apply list_lookup_inserts_lt|by apply list_lookup_inserts_ge].
Qed.

Lemma Ret_inj {A} (a b : A) : Ret a = Ret b -> a = b.
Proof. by injection 1. Qed.

Lemma load_ok off n buf : (off + n <= length buf)%nat -> load off n buf = Ret (member off n buf).
Proof. intros H. unfold load. by destruct (Nat.leb_spec (off + n) (length buf)); [|lia]. Qed.

Lemma load_same off n a b : length b = length a -> same_bytes off (off + n) a b -> load off n b = load off n a.
Proof.
  intros Hl Hs. unfold load. rewrite Hl. case_match; [|done]. f_equal. apply list_eq. intros i.
  destruct (decide (i < n)%nat); [rewrite !lookup_take_lt, !lookup_drop by lia; apply Hs; lia|by rewrite !lookup_take_ge by lia].
Qed.

Lemma length_member off n st : (off + n <= length st)%nat -> length (member off n st) = n.
Proof. intros H. unfold member. rewrite length_take, length_drop. lia. Qed.

Lemma lookup_member off n st i : member off n st !! i = if decide (i < n)%nat then st !! (off + i)%nat else None.
Proof.
  unfold member. destruct (decide (i < n)%nat); [by rewrite lookup_take_lt, lookup_drop|by rewrite lookup_take_ge by lia].
Qed.

Lemma member_same off n a b : same_bytes off (off + n) a b -> member off n b = member off n a.
Proof.
  intros H. apply list_eq. intros i. rewrite !lookup_member. destruct (decide (i < n)%nat); [|done]. apply H. lia.
Qed.

Lemma member_zero off n buf : (off + n <= length buf)%nat -> zero_from off buf -> member off n buf = replicate n 0.
Proof.
  intros Hl Hz. apply list_eq. intros i. rewrite lookup_member.
  destruct (decide (i < n)%nat); [rewrite lookup_replicate_2 by lia; apply Hz; lia|].
  symmetry. apply lookup_ge_None. rewrite length_replicate. lia.
Qed.

Lemma length_set_if c off b st : length (set_if c off b st) = length st.
Proof. unfold set_if. destruct c; [apply length_inserts|done]. Qed.
Lemma length_or_if c off n m st : length (or_if c off n m st) = length st.
Proof. unfold or_if. destruct c; [apply length_inserts|done]. Qed.

Lemma member_inserts_same off b st : (off + length b <= length st)%nat ->
  member off (length b) (list_inserts off b st) = b.
Proof.
  intros H. apply list_eq. intros i. rewrite lookup_member. destruct (decide (i < length b)%nat).
  - rewrite list_lookup_inserts by lia. f_equal. lia.
  - symmetry. apply lookup_ge_None. lia.
Qed.
Lemma member_inserts_other o n off b st : (o + n <= off \/ off + length b <= o)%nat ->
  member o n (list_inserts off b st) = member o n st.
Proof. intros H. apply member_same. intros i Hi. apply (list_inserts_frame off b st). lia. Qed.

Lemma set_if_false off b st : set_if false off b st = st.
Proof. done. Qed.
Lemma member_set_same c off b st : (off + length b <= length st)%nat ->
  member off (length b) (set_if c off b st) = if c then b else member off (length b) st.
Proof. intros H. unfold set_if. destruct c; [by apply member_inserts_same|done]. Qed.
Lemma member_set_other o n c off b st : (o + n <= off \/ off + length b <= o)%nat ->
  member o n (set_if c off b st) = member o n st.
Proof. intros H. unfold set_if. destruct c; [by apply member_inserts_other|done]. Qed.
Lemma member_or_other o n c off k m st : (o + n <= off \/ off + k <= o)%nat ->
  member o n (or_if c off k m st) = member o n st.
Proof. intros H. unfold or_if. destruct c; [apply member_inserts_other; by rewrite le_bytes_length|done]. Qed.

(** Flags of a byte, whatever the width of the member. *)
Lemma int_member_or c off n m st : (off + n <= length st)%nat -> (0 < n)%nat ->
  0 <= int_member off n st < 256 -> 0 <= m < 256 ->
  int_member off n (or_if c off n m st) = Z.lor (int_member off n st) (if c then m else 0).
Proof.
  intros Hl Hn Hr Hm. unfold or_if. destruct c; [|by rewrite Z.lor_0_r].
  assert (Hlor : is_byte (Z.lor (int_member off n st) m)) by by apply byte_lor.
  unfold int_member at 1. rewrite <- (le_bytes_length n (Z.lor (int_member off n st) m)) at 1.
  rewrite member_inserts_same by by rewrite le_bytes_length. rewrite le_number_bytes. apply Z.mod_small.
  split; [apply Hlor|]. unfold is_byte in Hlor. assert (256 ^ 1 <= 256 ^ Z.of_nat n) by (apply Z.pow_le_mono_r; lia). lia.
Qed.

Lemma member_set_eq c off b st n : length b = n -> (off + n <= length st)%nat ->
  member off n (set_if c off b st) = if c then b else member off n st.
Proof. intros <-. apply member_set_same. Qed.
Lemma member_replicate off n k : (off + n <= k)%nat -> member off n (replicate k 0) = replicate n 0.
Proof.
  intros H. apply member_zero; [by rewrite length_replicate|].
  intros i Hi. rewrite length_replicate in Hi. apply lookup_replicate_2. lia.
Qed.
Lemma member_prefix off n m st : (n <= m)%nat -> member off n st = take n (member off m st).
Proof. intros H. unfold member. rewrite take_take. f_equal. lia. Qed.
Lemma int_member_set o n c off b st : (o + n <= off \/ off + length b <= o)%nat ->
  int_member o n (set_if c off b st) = int_member o n st.
Proof. intros H. unfold int_member. by rewrite member_set_other. Qed.
Lemma le_number_le_bytes n z : 0 <= z < 256 ^ Z.of_nat n -> le_number (le_bytes n z) = z.
Proof. intros H. rewrite le_number_bytes. by apply Z.mod_small. Qed.

(** The value of a member that is a set of at most eight flags. *)
Definition flags_are (off n : nat) (st : list Z) (v : Z) : Prop :=
  (off + n <= length st)%nat /\ (0 < n)%nat /\ int_member off n st = v /\ is_byte v.

Lemma flags_or off n st v c m : is_byte m -> flags_are off n st v ->
  flags_are off n (or_if c off n m st) (Z.lor v (if c then m else 0)).
Proof.
  intros Hm (Hl & Hn & <- & Hv). unfold flags_are. rewrite length_or_if, int_member_or by done.
  split_and!; try done; apply byte_lor; try done; destruct c; done.
Qed.
Lemma flags_value off n st v : flags_are off n st v -> int_member off n st = v.
Proof. by intros (_ & _ & ? & _). Qed.
Lemma flags_set off n st v c o b : (off + n <= o \/ o + length b <= off)%nat -> flags_are off n st v ->
  flags_are off n (set_if c o b st) v.
Proof. intros H (Hl & Hn & E & Hv). unfold flags_are. by rewrite length_set_if, int_member_set. Qed.
Lemma flags_init off n st v : (off + n <= length st)%nat -> (0 < n)%nat -> is_byte v ->
  flags_are off n (set_if true off (le_bytes n v) st) v.
Proof.
  intros Hl Hn Hv. unfold flags_are, int_member. rewrite length_set_if, member_set_eq by by rewrite ?le_bytes_length.
  split_and!; try done. apply le_number_le_bytes. unfold is_byte in Hv.
  assert (256 ^ 1 <= 256 ^ Z.of_nat n) by (apply Z.pow_le_mono_r; lia). lia.
Qed.
Lemma flags_zero off n k : (off + n <= k)%nat -> (0 < n)%nat -> flags_are off n (replicate k 0) 0.
Proof.
  intros Hl Hn. unfold flags_are, int_member. rewrite length_replicate, member_replicate by done. split_and!; try done.
  clear. induction n as [|n IH]; [done|]. cbn [replicate le_number]. rewrite IH. done.
Qed.

(** Updating a structure. *)
Lemma update_ok off n f buf : (off + n <= length buf)%nat -> (forall st, length st = n -> length (f st) = n) ->
  exists buf', update off n f buf = Ret buf' /\ frame off (off + n) buf buf' /\
    load off n buf' = Ret (f (member off n buf)).
Proof.
  intros Hl Hf. unfold update. rewrite load_ok by done. cbn [mbind outcome_bind].
  pose proof (Hf _ (length_member off n buf Hl)) as Hn. unfold store. rewrite Hn.
  destruct (Nat.leb_spec (off + n) (length buf)); [|lia]. eexists. split; [done|]. split.
  - rewrite <- Hn at 1. apply list_inserts_frame.
  - rewrite load_ok by by rewrite length_inserts. f_equal. rewrite <- Hn at 1. apply member_inserts_same. lia.
Qed.

(** What the two systems promise about their structures: what is written at an
    offset of zeros stays inside the structure and reads back, and what is read
    depends on the bytes of the structure only. *)
Class PackedLaws (sizeof_peer sizeof_aip : nat) (put_aip : nat -> wgallowedip -> list Z -> outcome (Z + list Z))
  (put_peer : nat -> wgpeer -> list Z -> outcome (list Z)) (put_count : nat -> Z -> list Z -> outcome (list Z))
  (get_peer : nat -> list Z -> outcome (wgpeer * Z)) (get_aip : nat -> list Z -> outcome wgallowedip)
  (aip_ok : wgallowedip -> Prop) (aip_reads : wgallowedip -> wgallowedip)
  (peer_ok : wgpeer -> Prop) (peer_reads : wgpeer -> wgpeer) : Prop := {
  aip_known a : aip_ok a -> known_family a = true;
  put_aip_law off a buf : aip_ok a -> (off + sizeof_aip <= length buf)%nat -> zero_from off buf ->
    exists buf', put_aip off a buf = Ret (inr buf') /\ frame off (off + sizeof_aip) buf buf' /\
      get_aip off buf' = Ret (aip_reads a);
  get_aip_law off buf buf' : length buf' = length buf ->
    same_bytes off (off + sizeof_aip) buf buf' -> get_aip off buf' = get_aip off buf;
  put_peer_law off p buf : peer_ok p -> (off + sizeof_peer <= length buf)%nat -> zero_from off buf ->
    exists buf', put_peer off p buf = Ret buf' /\ frame off (off + sizeof_peer) buf buf' /\
      get_peer off buf' = Ret (peer_reads p, 0);
  put_count_law off n buf p m : 0 <= n < 2 ^ 32 -> (off + sizeof_peer <= length buf)%nat ->
    get_peer off buf = Ret (p, m) ->
    exists buf', put_count off n buf = Ret buf' /\ frame off (off + sizeof_peer) buf buf' /\
      get_peer off buf' = Ret (p, n);
  get_peer_law off buf buf' : length buf' = length buf ->
    same_bytes off (off + sizeof_peer) buf buf' -> get_peer off buf' = get_peer off buf
}.

Section Inverse.
Context `{L : PackedLaws sizeof_peer sizeof_aip put_aip put_peer put_count get_peer get_aip aip_ok aip_reads
            peer_ok peer_reads}.
Local Abbreviation peer_size := (peer_size sizeof_peer sizeof_aip).
Local Abbreviation peers_size := (peers_size sizeof_peer sizeof_aip).

Lemma get_aips_same n off buf buf' : length buf' = length buf ->
  same_bytes off (off + n * sizeof_aip) buf buf' ->
  get_aips sizeof_aip get_aip n off buf' = get_aips sizeof_aip get_aip n off buf.
Proof using L.
  revert off. induction n as [|n IH]; intros off Hb Hs; cbn [get_aips]; [done|].
  rewrite (get_aip_law off buf buf' Hb ltac:(intros i Hi; apply Hs; lia)).
  by rewrite (IH (off + sizeof_aip)%nat Hb ltac:(intros i Hi; apply Hs; lia)).
Qed.

Lemma get_peers_same n off buf buf' : length buf' = length buf ->
  (forall i, (off <= i)%nat -> buf' !! i = buf !! i) ->
  get_peers sizeof_peer sizeof_aip get_peer get_aip n off buf' = get_peers sizeof_peer sizeof_aip get_peer get_aip n off buf.
Proof using L.
  revert off. induction n as [|n IH]; intros off Hb Hs; cbn [get_peers]; [done|].
  rewrite (get_peer_law off buf buf' Hb ltac:(intros i Hi; apply Hs; lia)).
  destruct (get_peer off buf) as [[p c]| | |]; cbn [mbind outcome_bind]; try done.
  rewrite (get_aips_same (Z.to_nat c) (off + sizeof_peer)%nat buf buf' Hb ltac:(intros i Hi; apply Hs; lia)).
  by rewrite (IH (off + sizeof_peer + Z.to_nat c * sizeof_aip)%nat Hb ltac:(intros i Hi; apply Hs; lia)).
Qed.

Lemma put_aips_correct l off n buf :
  Forall aip_ok l -> (off + length l * sizeof_aip <= length buf)%nat -> zero_from off buf ->
  exists buf', put_aips sizeof_aip put_aip off n l buf
               = Ret (inr ((off + length l * sizeof_aip)%nat, n + Z.of_nat (length l), buf')) /\
    frame off (off + length l * sizeof_aip) buf buf' /\
    get_aips sizeof_aip get_aip (length l) off buf' = Ret (map aip_reads l).
Proof using L.
  revert off n buf. induction l as [|a l IH]; intros off n buf Hok Hl Hz; cbn [length put_aips map get_aips] in *.
  { exists buf. rewrite Nat.mul_0_l, Nat.add_0_r, Z.add_0_r. split_and!; [done|apply frame_refl|done]. }
  apply Forall_cons in Hok as [Ha Hok].
  destruct (put_aip_law off a buf Ha ltac:(lia) Hz) as (buf1 & -> & F1 & R1). cbn [mbind outcome_bind].
  rewrite (aip_known a Ha).
  destruct (IH (off + sizeof_aip)%nat (n + 1) buf1 Hok) as (buf2 & -> & F2 & R2);
    [rewrite (proj1 F1); lia|by eapply frame_zero; [|exact F1|]; [lia|]|].
  exists buf2. split_and!.
  - do 4 f_equal; lia.
  - eapply frame_trans; (eapply frame_weaken; [| |eassumption]); lia.
  - rewrite (get_aip_law off buf1 buf2); [by rewrite R1; cbn [mbind outcome_bind]; rewrite R2|apply F2|].
    eapply frame_same; [exact F2|lia].
Qed.

Lemma packed_put_peers l off n buf :
  Forall peer_ok l -> Forall (fun p => Forall aip_ok (peer_allowedips p)) l ->
  Forall (fun p => Z.of_nat (length (peer_allowedips p)) < 2 ^ 32) l ->
  (off + peers_size l <= length buf)%nat -> zero_from off buf ->
  exists buf', put_peers sizeof_peer sizeof_aip put_aip put_peer put_count off n l buf
               = Ret (inr (n + Z.of_nat (length l), buf')) /\
    frame off (off + peers_size l) buf buf' /\
    get_peers sizeof_peer sizeof_aip get_peer get_aip (length l) off buf'
    = Ret (map (fun p => with_allowedips (map aip_reads (peer_allowedips p)) (peer_reads p)) l).
Proof using L.
  revert off n buf. induction l as [|p l IH]; intros off n buf Hp Ha Hc Hl Hz.
  { exists buf. rewrite Z.add_0_r. split_and!; [done|apply frame_refl|done]. }
  apply Forall_cons in Hp as [Hp0 Hp], Ha as [Ha0 Ha], Hc as [Hc0 Hc].
  assert (Hsz : peers_size (p :: l) = (sizeof_peer + length (peer_allowedips p) * sizeof_aip + peers_size l)%nat) by done.
  rewrite Hsz in *. set (na := length (peer_allowedips p)) in *. cbn [put_peers length map get_peers].
  destruct (put_peer_law off p buf Hp0 ltac:(lia) Hz) as (buf1 & -> & F1 & R1). cbn [mbind outcome_bind].
  destruct (put_aips_correct (peer_allowedips p) (off + sizeof_peer) 0 buf1 Ha0) as (buf2 & -> & F2 & R2);
    [rewrite (proj1 F1); fold na; lia|by eapply frame_zero; [|exact F1|]; [lia|]|].
  fold na in F2, R2 |- *. cbn [mbind outcome_bind]. rewrite Z.add_0_l.
  destruct (put_count_law off (Z.of_nat na) buf2 (peer_reads p) 0) as (buf3 & -> & F3 & R3);
    [lia|rewrite (proj1 F2), (proj1 F1); lia| |].
  { rewrite (get_peer_law off buf1 buf2); [done|apply F2|].
    eapply frame_same; [exact F2|lia]. }
  cbn [mbind outcome_bind].
  assert (F : frame off (off + sizeof_peer + na * sizeof_aip) buf buf3).
  { eapply frame_trans; [eapply frame_trans|]; (eapply frame_weaken; [| |eassumption]); lia. }
  destruct (IH (off + sizeof_peer + na * sizeof_aip)%nat (n + 1) buf3 Hp Ha Hc) as (buf4 & -> & F4 & R4);
    [rewrite (proj1 F); lia|by eapply frame_zero; [|exact F|]; [lia|]|].
  exists buf4. split_and!.
  - do 3 f_equal. lia.
  - eapply frame_trans; (eapply frame_weaken; [| |eassumption]); lia.
  - rewrite (get_peer_law off buf3 buf4); [|apply F4|eapply frame_same; [exact F4|lia]].
    rewrite R3. cbn [mbind outcome_bind]. rewrite Nat2Z.id.
    rewrite (get_aips_same na (off + sizeof_peer) buf2 buf4).
    + rewrite R2. cbn [mbind outcome_bind]. by rewrite R4.
    + by rewrite (proj1 F4), (proj1 F3).
    + intros i Hi. rewrite (proj2 F4), (proj2 F3) by lia. done.
Qed.

(** The whole buffer: the structure of the interface, the peers, and the number
    of peers, which is written last. *)
Lemma buffer_correct hdr size fill count l :
  (forall st, length (fill st) = length st) -> (forall st, length (count st) = length st) ->
  size = (hdr + peers_size l)%nat -> Forall peer_ok l -> Forall (fun p => Forall aip_ok (peer_allowedips p)) l ->
  Forall (fun p => Z.of_nat (length (peer_allowedips p)) < 2 ^ 32) l ->
  exists buf1 buf2 buf,
    update 0 hdr fill (replicate size 0) = Ret buf1 /\
    put_peers sizeof_peer sizeof_aip put_aip put_peer put_count hdr 0 l buf1
    = Ret (inr (Z.of_nat (length l), buf2)) /\
    update 0 hdr count buf2 = Ret buf /\ length buf = size /\
    load 0 hdr buf = Ret (count (fill (replicate hdr 0))) /\
    get_peers sizeof_peer sizeof_aip get_peer get_aip (length l) hdr buf
    = Ret (map (fun p => with_allowedips (map aip_reads (peer_allowedips p)) (peer_reads p)) l).
Proof using L.
  intros Hfill Hcount -> H1 H2 H3. set (size := (hdr + peers_size l)%nat).
  destruct (update_ok 0 hdr fill (replicate size 0)) as (buf1 & E1 & F1 & R1);
    [rewrite length_replicate; lia|intros; by rewrite Hfill|].
  assert (L1 : length buf1 = size) by by rewrite (proj1 F1), length_replicate.
  assert (Hz : zero_from 0 (replicate size 0))
    by (intros i Hi; rewrite length_replicate in Hi; apply lookup_replicate_2; lia).
  destruct (packed_put_peers l hdr 0 buf1 H1 H2 H3) as (buf2 & E2 & F2 & R2);
    [lia|eapply frame_zero; [|exact F1|exact Hz]; lia|].
  assert (L2 : length buf2 = size) by by rewrite (proj1 F2).
  destruct (update_ok 0 hdr count buf2) as (buf & E3 & F3 & R3); [lia|intros; by rewrite Hcount|].
  exists buf1, buf2, buf. split; [exact E1|]. split; [exact E2|]. split; [exact E3|].
  split; [by rewrite (proj1 F3)|]. split.
  - rewrite R3. do 2 f_equal. rewrite load_ok in R1 by lia. apply Ret_inj in R1.
    rewrite (member_same 0 hdr buf1 buf2), R1 by (eapply frame_same; [exact F2|lia]).
    by rewrite member_replicate by lia.
  - rewrite <- R2. apply get_peers_same; [apply F3|]. intros i Hi. apply F3. lia.
Qed.
End Inverse.

(** The laws follow from what the assignments do to one structure of zeros. *)
Lemma packed_laws sizeof_peer sizeof_aip put_aip (fill_aip : wgallowedip -> list Z -> list Z)
  (fill_peer : wgpeer -> list Z -> list Z) (fill_count : Z -> list Z -> list Z)
  (get_peer_of : list Z -> wgpeer * Z) (get_aip_of : list Z -> wgallowedip)
  (aip_ok : wgallowedip -> Prop) (aip_reads : wgallowedip -> wgallowedip)
  (peer_ok : wgpeer -> Prop) (peer_reads : wgpeer -> wgpeer) :
  (forall a, aip_ok a -> known_family a = true) ->
  (forall off a buf, aip_ok a -> put_aip off a buf = (buf ← update off sizeof_aip (fill_aip a) buf; Ret (inr buf))) ->
  (forall a st, length (fill_aip a st) = length st) -> (forall p st, length (fill_peer p st) = length st) ->
  (forall n st, length (fill_count n st) = length st) ->
  (forall a, aip_ok a -> get_aip_of (fill_aip a (replicate sizeof_aip 0)) = aip_reads a) ->
  (forall p, peer_ok p -> get_peer_of (fill_peer p (replicate sizeof_peer 0)) = (peer_reads p, 0)) ->
  (forall st n, length st = sizeof_peer -> 0 <= n < 2 ^ 32 -> get_peer_of (fill_count n st) = ((get_peer_of st).1, n)) ->
  PackedLaws sizeof_peer sizeof_aip put_aip (fun off p => update off sizeof_peer (fill_peer p))
    (fun off n => update off sizeof_peer (fill_count n)) (fun off buf => st ← load off sizeof_peer buf; Ret (get_peer_of st))
    (fun off buf => st ← load off sizeof_aip buf; Ret (get_aip_of st)) aip_ok aip_reads peer_ok peer_reads.
Proof.
  intros Hk Hput La Lp Lc Ia Ip Ic. split.
  - exact Hk.
  - intros off a buf Ha Hl Hz. rewrite Hput by done.
    destruct (update_ok off sizeof_aip (fill_aip a) buf Hl) as (buf' & -> & F & R); [intros; by rewrite La|].
    exists buf'. split; [reflexivity|]. split; [exact F|].
    rewrite R, (member_zero off sizeof_aip buf Hl Hz). cbn [mbind outcome_bind]. by rewrite Ia.
  - intros off buf buf' E H. by rewrite (load_same off sizeof_aip buf buf').
  - intros off p buf Hp Hl Hz.
    destruct (update_ok off sizeof_peer (fill_peer p) buf Hl) as (buf' & E & F & R); [intros; by rewrite Lp|].
    exists buf'. split; [exact E|]. split; [exact F|].
    rewrite R, (member_zero off sizeof_peer buf Hl Hz). cbn [mbind outcome_bind]. by rewrite Ip.
  - intros off n buf p m Hn Hl. rewrite load_ok by done. cbn [mbind outcome_bind]. intros E%Ret_inj.
    destruct (update_ok off sizeof_peer (fill_count n) buf Hl) as (buf' & E' & F & R); [intros; by rewrite Lc|].
    exists buf'. split; [exact E'|]. split; [exact F|]. rewrite R. cbn [mbind outcome_bind].
    by rewrite Ic, E by (done || by apply length_member).
  - intros off buf buf' E H. by rewrite (load_same off sizeof_peer buf buf').
Qed.

(** ** Evaluating members *)

(** Lengths of structures and of what is written to them. *)
Ltac struct_size :=
  repeat first [rewrite length_set_if | rewrite length_or_if]; rewrite ?le_bytes_length, ?length_replicate;
  cbn [length]; lia.
(** Reads through the writes to other members, to the last write or the zeros. *)
Ltac struct_members :=
  repeat match goal with
  | |- context [member ?o ?n (set_if ?c ?off ?b ?st)] =>
      first [rewrite (member_set_other o n c off b st) by struct_size
            |rewrite (member_set_eq c off b st n) by struct_size]
  | |- context [member ?o ?n (or_if ?c ?off ?k ?m ?st)] => rewrite (member_or_other o n c off k m st) by struct_size
  | |- context [member ?o ?n (replicate ?k 0)] => rewrite (member_replicate o n k) by lia
  end.
(** A member that is a set of flags, through the writes to the structure. *)
Ltac struct_flags :=
  repeat first [apply flags_or; [vm_compute; by split|] | apply flags_set; [struct_size|]];
  first [apply flags_init | apply flags_zero]; first [struct_size | lia | vm_compute; by split].

(** ** What the structures carry *)

(** A peer as it is read back: [ep] is what is left of its endpoint. *)
Definition carried_peer (ep : sockaddr -> sockaddr) (p : wgpeer) : wgpeer :=
  let psk := has_flag (peer_flags p) WGPEER_HAS_PRESHARED_KEY in
  let pka := has_flag (peer_flags p) WGPEER_HAS_PERSISTENT_KEEPALIVE_INTERVAL in
  {| peer_flags :=
       Z.lor (Z.lor WGPEER_HAS_PUBLIC_KEY
         (if psk && negb (key_is_zero (peer_preshared_key p)) then WGPEER_HAS_PRESHARED_KEY else 0))
         (if pka then WGPEER_HAS_PERSISTENT_KEEPALIVE_INTERVAL else 0);
     peer_public_key := peer_public_key p;
     peer_preshared_key := if psk then peer_preshared_key p else zero_key;
     peer_endpoint := ep (peer_endpoint p);
     peer_last_handshake_time := {| tv_sec := 0; tv_nsec := 0 |};
     peer_rx_bytes := 0; peer_tx_bytes := 0;
     peer_persistent_keepalive_interval := if pka then peer_persistent_keepalive_interval p else 0;
     peer_allowedips := map reload_allowedip (peer_allowedips p) |}.

(** A device as it is read back; [marks] says that there is a firewall mark. *)
Definition carried_device (marks : bool) (ep : sockaddr -> sockaddr) (d : wgdevice) : wgdevice :=
  let fwmark := marks && has_flag (dev_flags d) WGDEVICE_HAS_FWMARK in
  let port := has_flag (dev_flags d) WGDEVICE_HAS_LISTEN_PORT in
  let private := has_flag (dev_flags d) WGDEVICE_HAS_PRIVATE_KEY in
  {| dev_name := dev_name d; dev_ifindex := 0;
     dev_flags := Z.lor (Z.lor (if fwmark then WGDEVICE_HAS_FWMARK else 0)
                    (if port then WGDEVICE_HAS_LISTEN_PORT else 0))
                    (if private then WGDEVICE_HAS_PRIVATE_KEY else 0);
     dev_public_key := zero_key;
     dev_private_key := if private then dev_private_key d else zero_key;
     dev_fwmark := if fwmark then dev_fwmark d else 0;
     dev_listen_port := if port then dev_listen_port d else 0;
     dev_peers := map (carried_peer ep) (dev_peers d) |}.

Lemma carried_device_peers marks ep d :
  with_peers (map (fun p => with_allowedips (map reload_allowedip (peer_allowedips p)) (with_allowedips [] (carried_peer ep p)))
    (dev_peers d)) (with_peers [] (carried_device marks ep d)) = carried_device marks ep d.
Proof.
  reflexivity.
Qed.

(** Devices whose addresses are canonical, with numbers that fit their members. *)
Definition packed_aip (a : wgallowedip) : Prop :=
  length (aip_ip a) = 16%nat /\ is_byte (aip_cidr a) /\
  (aip_family a = AF_INET /\ drop 4 (aip_ip a) = replicate 12 0 \/ aip_family a = AF_INET6).
Definition packed_peer (p : wgpeer) : Prop :=
  length (peer_public_key p) = WG_KEY_LEN /\ length (peer_preshared_key p) = WG_KEY_LEN /\
  0 <= peer_persistent_keepalive_interval p < 2 ^ 16 /\
  (endpoint_known (peer_endpoint p) = true -> canonical_sockaddr (peer_endpoint p)) /\
  0 <= sa_scope_id (peer_endpoint p) < 2 ^ 32.
Definition packable (d : wgdevice) : Prop :=
  wf_device d /\ canonical_device d /\
  Forall (fun p => 0 <= sa_scope_id (peer_endpoint p) < 2 ^ 32 /\
                   Z.of_nat (length (peer_allowedips p)) < 2 ^ 32) (dev_peers d) /\
  Z.of_nat (length (dev_peers d)) < 2 ^ 32.

Lemma packable_peers d : packable d ->
  Forall packed_peer (dev_peers d) /\ Forall (fun p => Forall packed_aip (peer_allowedips p)) (dev_peers d) /\
  Forall (fun p => Z.of_nat (length (peer_allowedips p)) < 2 ^ 32) (dev_peers d).
Proof.
  intros ((_ & _ & _ & _ & _ & Hw) & Hc & Hp & _). unfold canonical_device in Hc. rewrite !Forall_forall in *.
  split_and!; intros p Hin; destruct (Hw p Hin) as (_ & Hk1 & Hk2 & Hka & Ha), (Hc p Hin) as [Hca He],
    (Hp p Hin) as (Hs & Hn); [by destruct Hk1, Hk2| |done].
  rewrite Forall_forall in *. intros a Hina. destruct (Ha a Hina) as (Hl & Hb & Hfam & _). specialize (Hca a Hina).
  unfold packed_aip, is_byte. split_and!; [done|destruct Hfam; lia|destruct Hfam; lia|].
  destruct Hfam as [[E _]|[E _]]; [left|right]; auto.
Qed.
End Packed.
