(* ===== verification/IpcOpenbsd.v ===== *)
(** * The OpenBSD back end (src/ipc-openbsd.h)

    The three operations of ipc.h over ioctl, with the structures of
    uapi/openbsd/net/if_wg.h as their bytes on a 64-bit little-endian machine.
    The number of the address family of IPv6, which the code only compares, is that
    of the rest of the library. *)
From S2P Require Import Prelude Libc Encoding Containers IpcUapi Netlink Ipc IpcLinux Packed.
Import Libc Encoding Netlink StringList Packed.

Module IpcOpenbsd.

(** ** Structures of net/if_wg.h *)

Definition sizeof_wg_aip_io : nat := 24.
Definition a_af : nat := 0.
Definition a_cidr : nat := 4.
Definition a_addr : nat := 8.

Definition WG_PEER_HAS_PUBLIC : Z := Z.shiftl 1 0.
Definition WG_PEER_HAS_PSK : Z := Z.shiftl 1 1.
Definition WG_PEER_HAS_PKA : Z := Z.shiftl 1 2.
Definition WG_PEER_HAS_ENDPOINT : Z := Z.shiftl 1 3.
Definition WG_PEER_REPLACE_AIPS : Z := Z.shiftl 1 4.
Definition WG_PEER_REMOVE : Z := Z.shiftl 1 5.

Definition sizeof_wg_peer_io : nat := 144.
Definition p_flags : nat := 0.
Definition p_public : nat := 8.
Definition p_psk : nat := 40.
Definition p_pka : nat := 72.
Definition p_endpoint : nat := 76.
Definition p_txbytes : nat := 104.
Definition p_rxbytes : nat := 112.
Definition p_last_handshake : nat := 120.
Definition p_aips_count : nat := 136.

Definition WG_INTERFACE_HAS_PUBLIC : Z := Z.shiftl 1 0.
Definition WG_INTERFACE_HAS_PRIVATE : Z := Z.shiftl 1 1.
Definition WG_INTERFACE_HAS_PORT : Z := Z.shiftl 1 2.
Definition WG_INTERFACE_HAS_RTABLE : Z := Z.shiftl 1 3.
Definition WG_INTERFACE_REPLACE_PEERS : Z := Z.shiftl 1 4.

Definition sizeof_wg_interface_io : nat := 80.
Definition i_flags : nat := 0.
Definition i_port : nat := 2.
Definition i_rtable : nat := 4.
Definition i_public : nat := 8.
Definition i_private : nat := 40.
Definition i_peers_count : nat := 72.

(** ** Socket addresses *)

(** [union { sockaddr; sockaddr_in; sockaddr_in6 }] of 28 bytes. The length in
    its first byte is the one of the family, as the resolver sets it; the numbers
    of the families are those of Libc. *)
Definition sa_len (sa : sockaddr) : nat :=
  if sa_family sa =? AF_INET then 16 else if sa_family sa =? AF_INET6 then 28 else 0.
Definition sockaddr_bytes (sa : sockaddr) : list Z :=
  [Z.of_nat (sa_len sa); sa_family sa] ++
  (if sa_family sa =? AF_INET
   then IpcLinux.be16 (sa_port sa) ++ take 4 (sa_addr sa) ++ replicate 20 0
   else if sa_family sa =? AF_INET6
   then IpcLinux.be16 (sa_port sa) ++ le_bytes 4 (sa_flowinfo sa) ++ take 16 (sa_addr sa)
        ++ le_bytes 4 (sa_scope_id sa)
   else replicate 26 0).
Definition read_sockaddr (b : list Z) : sockaddr :=
  let family := int_member 1 1 b in
  let port := 256 * int_member 2 1 b + int_member 3 1 b in
  if family =? AF_INET
  then {| sa_family := family; sa_port := port; sa_addr := member 4 4 b; sa_flowinfo := 0; sa_scope_id := 0 |}
  else if family =? AF_INET6
  then {| sa_family := family; sa_port := port; sa_addr := member 8 16 b;
          sa_flowinfo := int_member 4 4 b; sa_scope_id := int_member 24 4 b |}
  else {| sa_family := family; sa_port := sa_port zero_sockaddr; sa_addr := sa_addr zero_sockaddr;
          sa_flowinfo := 0; sa_scope_id := 0 |}.

(** The error number of <errno.h>. *)
Definition EOPNOTSUPP : Z := 45.

(** ** The kernel *)

(** The ioctls: an error number or the structure they fill in. [SIOCGWG] gets the
    size of the buffer, and gives the size it needs and what the buffer holds;
    [SIOCGIFGMEMB] likewise for the members of the group "wg". *)
Class WgIoctl (K : Type) := {
  get_dgram_socket : K -> Z * K;
  siocswg : K -> cstring -> list Z -> Z * K;
  siocgwg : K -> cstring -> nat -> (Z + nat * list Z) * K;
  siocgifgmemb : K -> nat -> (Z + nat * list Z) * K
}.

Section Kernel.
Context `{WI : WgIoctl K}.

(** ** Setting a device *)

Definition fill_aip (aip : wgallowedip) (st : list Z) : list Z :=
  let st := set_if true a_af [u8 (aip_family aip)] st in
  let st := set_if true a_cidr (le_bytes 4 (aip_cidr aip)) st in
  if aip_family aip =? AF_INET then set_if true a_addr (take 4 (aip_ip aip)) st
  else if aip_family aip =? AF_INET6 then set_if true a_addr (aip_ip aip) st
  else st.
Definition put_aip (wg_aip : nat) (aip : wgallowedip) (buf : list Z) : outcome (Z + list Z) :=
  if negb (aip_flags aip =? 0) then Ret (inl EOPNOTSUPP)
  else buf ← update wg_aip sizeof_wg_aip_io (fill_aip aip) buf; Ret (inr buf).

Definition fill_peer (peer : wgpeer) (st : list Z) : list Z :=
  let st := set_if true p_flags (le_bytes 4 WG_PEER_HAS_PUBLIC) st in
  let st := set_if true p_public (peer_public_key peer) st in
  let psk := has_flag (peer_flags peer) WGPEER_HAS_PRESHARED_KEY in
  let st := set_if psk p_psk (peer_preshared_key peer) st in
  let st := or_if psk p_flags 4 WG_PEER_HAS_PSK st in
  let pka := has_flag (peer_flags peer) WGPEER_HAS_PERSISTENT_KEEPALIVE_INTERVAL in
  let st := set_if pka p_pka (le_bytes 2 (peer_persistent_keepalive_interval peer)) st in
  let st := or_if pka p_flags 4 WG_PEER_HAS_PKA st in
  let endpoint := ((sa_family (peer_endpoint peer) =? AF_INET) || (sa_family (peer_endpoint peer) =? AF_INET6))
                  && (sa_len (peer_endpoint peer) <=? 28)%nat in
  let st := set_if endpoint p_endpoint (take (sa_len (peer_endpoint peer)) (sockaddr_bytes (peer_endpoint peer))) st in
  let st := or_if endpoint p_flags 4 WG_PEER_HAS_ENDPOINT st in
  let st := or_if (has_flag (peer_flags peer) WGPEER_REPLACE_ALLOWEDIPS) p_flags 4 WG_PEER_REPLACE_AIPS st in
  or_if (has_flag (peer_flags peer) WGPEER_REMOVE_ME) p_flags 4 WG_PEER_REMOVE st.
Definition put_peer (wg_peer : nat) (peer : wgpeer) (buf : list Z) : outcome (list Z) :=
  update wg_peer sizeof_wg_peer_io (fill_peer peer) buf.
Definition put_count (wg_peer : nat) (aip_count : Z) (buf : list Z) : outcome (list Z) :=
  update wg_peer sizeof_wg_peer_io (set_if true p_aips_count (le_bytes 8 aip_count)) buf.

Definition fill_interface (dev : wgdevice) (st : list Z) : list Z :=
  let private := has_flag (dev_flags dev) WGDEVICE_HAS_PRIVATE_KEY in
  let st := set_if private i_private (dev_private_key dev) st in
  let st := or_if private i_flags 1 WG_INTERFACE_HAS_PRIVATE st in
  let port := has_flag (dev_flags dev) WGDEVICE_HAS_LISTEN_PORT in
  let st := set_if port i_port (le_bytes 2 (dev_listen_port dev)) st in
  let st := or_if port i_flags 1 WG_INTERFACE_HAS_PORT st in
  let rtable := has_flag (dev_flags dev) WGDEVICE_HAS_FWMARK in
  let st := set_if rtable i_rtable (le_bytes 4 (dev_fwmark dev)) st in
  let st := or_if rtable i_flags 1 WG_INTERFACE_HAS_RTABLE st in
  or_if (has_flag (dev_flags dev) WGDEVICE_REPLACE_PEERS) i_flags 1 WG_INTERFACE_REPLACE_PEERS st.

Definition wgd_size (dev : wgdevice) : nat :=
  (sizeof_wg_interface_io + peers_size sizeof_wg_peer_io sizeof_wg_aip_io (dev_peers dev))%nat.

(** [strlcpy] into [char[IFNAMSIZ]] *)
Definition strlcpy_name (name : cstring) : cstring := take (IFNAMSIZ - 1) name.

Definition kernel_set_device (k : K) (dev : wgdevice) : outcome (Z * K) :=
  let '(errno, k) := get_dgram_socket k in
  if negb (errno =? 0) then Ret (- errno, k)
  else
    let buf := replicate (wgd_size dev) 0 in
    buf ← update 0 sizeof_wg_interface_io (fill_interface dev) buf;
    r ← put_peers sizeof_wg_peer_io sizeof_wg_aip_io put_aip put_peer put_count
          sizeof_wg_interface_io 0 (dev_peers dev) buf;
    match r with
    | inl errno => Ret (- errno, k)
    | inr (peer_count, buf) =>
        buf ← update 0 sizeof_wg_interface_io (set_if true i_peers_count (le_bytes 8 peer_count)) buf;
        let '(errno, k) := siocswg k (strlcpy_name (dev_name dev)) buf in
        Ret (- errno, k)
    end.

(** ** Getting a device *)

Definition get_aip_of (st : list Z) : wgallowedip :=
  let family := int_member a_af 1 st in
  {| aip_family := family;
     aip_ip := if family =? AF_INET then member a_addr 4 st ++ replicate 12 0
               else if family =? AF_INET6 then member a_addr 16 st else replicate 16 0;
     aip_cidr := if (family =? AF_INET) || (family =? AF_INET6) then u8 (int_member a_cidr 4 st) else 0;
     aip_flags := 0 |}.
Definition get_aip (wg_aip : nat) (buf : list Z) : outcome wgallowedip :=
  st ← load wg_aip sizeof_wg_aip_io buf; Ret (get_aip_of st).

(** The peer and [p_aips_count]. *)
Definition get_peer_of (st : list Z) : wgpeer * Z :=
  let flags := int_member p_flags 4 st in
  let upd (c : bool) (f : wgpeer -> wgpeer) (p : wgpeer) := if c then f p else p in
  let p := zero_peer in
  let p := upd (has_flag flags WG_PEER_HAS_PUBLIC) (fun p =>
    with_peer_flags (set_flag WGPEER_HAS_PUBLIC_KEY) (with_public_key (member p_public WG_KEY_LEN st) p)) p in
  let p := upd (has_flag flags WG_PEER_HAS_PSK) (fun p =>
    let p := with_preshared_key (member p_psk WG_KEY_LEN st) p in
    if negb (key_is_zero (peer_preshared_key p))
    then with_peer_flags (set_flag WGPEER_HAS_PRESHARED_KEY) p else p) p in
  let p := upd (has_flag flags WG_PEER_HAS_PKA) (fun p =>
    with_peer_flags (set_flag WGPEER_HAS_PERSISTENT_KEEPALIVE_INTERVAL)
      (with_keepalive (int_member p_pka 2 st) p)) p in
  let len := Z.to_nat (int_member p_endpoint 1 st) in
  let p := upd (has_flag flags WG_PEER_HAS_ENDPOINT && (len <=? 16)%nat) (fun p =>
    with_endpoint (read_sockaddr (member p_endpoint len st ++ replicate (28 - len) 0)) p) p in
  let p := with_transfer (int_member p_rxbytes 8 st) (int_member p_txbytes 8 st) p in
  let p := with_handshake {| tv_sec := s64 (int_member p_last_handshake 8 st);
                             tv_nsec := s64 (int_member (p_last_handshake + 8) 8 st) |} p in
  (p, int_member p_aips_count 8 st).
Definition get_peer (wg_peer : nat) (buf : list Z) : outcome (wgpeer * Z) :=
  st ← load wg_peer sizeof_wg_peer_io buf; Ret (get_peer_of st).

Definition get_interface_of (iface : cstring) (st : list Z) : wgdevice :=
  let flags := int_member i_flags 1 st in
  let upd (c : bool) (f : wgdevice -> wgdevice) (d : wgdevice) := if c then f d else d in
  let d := with_dev_name (strlcpy_name iface) zero_device in
  let d := upd (has_flag flags WG_INTERFACE_HAS_RTABLE) (fun d =>
    with_dev_flags (set_flag WGDEVICE_HAS_FWMARK) (with_fwmark (int_member i_rtable 4 st) d)) d in
  let d := upd (has_flag flags WG_INTERFACE_HAS_PORT) (fun d =>
    with_dev_flags (set_flag WGDEVICE_HAS_LISTEN_PORT) (with_listen_port (int_member i_port 2 st) d)) d in
  let d := upd (has_flag flags WG_INTERFACE_HAS_PUBLIC) (fun d =>
    with_dev_flags (set_flag WGDEVICE_HAS_PUBLIC_KEY) (with_dev_public_key (member i_public WG_KEY_LEN st) d)) d in
  upd (has_flag flags WG_INTERFACE_HAS_PRIVATE) (fun d =>
    with_dev_flags (set_flag WGDEVICE_HAS_PRIVATE_KEY) (with_private_key (member i_private WG_KEY_LEN st) d)) d.

(** The loop of [SIOCGWG]: the buffer grows until its size is enough. *)
Fixpoint siocgwg_loop (fuel : nat) (k : K) (name : cstring) (last_size : nat)
  : outcome ((Z + list Z) * K) :=
  match fuel with
  | O => NoFuel
  | S fuel =>
      let '(r, k) := siocgwg k name last_size in
      match r with
      | inl errno => Ret (inl errno, k)
      | inr (size, buf) =>
          if (size <=? last_size)%nat then Ret (inr buf, k) else siocgwg_loop fuel k name size
      end
  end.

Definition kernel_get_device (fuel : nat) (k : K) (iface : cstring) : outcome (Z * option wgdevice * K) :=
  let '(errno, k) := get_dgram_socket k in
  if negb (errno =? 0) then Ret (- errno, None, k)
  else
    '(r, k) ← siocgwg_loop fuel k (strlcpy_name iface) 0;
    match r with
    | inl errno => Ret (- errno, None, k)
    | inr buf =>
        st ← load 0 sizeof_wg_interface_io buf;
        peers ← get_peers sizeof_wg_peer_io sizeof_wg_aip_io get_peer get_aip
                  (Z.to_nat (int_member i_peers_count 8 st)) sizeof_wg_interface_io buf;
        Ret (0, Some (with_peers peers (get_interface_of iface st)), k)
    end.

(** ** Listing the interfaces *)

Definition sizeof_ifg_req : nat := 16.

(** [for (ifg = ifgr.ifgr_groups; ifg && ifgr.ifgr_len > 0; ++ifg)]; [None] when
    adding a name would write out of bounds. The length has 32 bits. Every turn
    moves on in the buffer, so its length is enough fuel. *)
Fixpoint groups_loop (fuel : nat) (ifg : nat) (ifgr_len : Z) (buf : list Z) (list : string_list)
  : outcome string_list :=
  match fuel with
  | O => NoFuel
  | S fuel =>
      if negb (0 <? ifgr_len) then Ret list
      else if (length buf <=? ifg)%nat then NullDeref
      else
        match string_list_add list (cut_nul (map to_char (drop ifg buf))) with
        | None => NullDeref
        | Some list =>
            groups_loop fuel (ifg + sizeof_ifg_req) (u32 (ifgr_len - Z.of_nat sizeof_ifg_req)) buf list
        end
  end.

Definition kernel_get_wireguard_interfaces (k : K) (list : string_list) : outcome (Z * string_list * K) :=
  let '(errno, k) := get_dgram_socket k in
  if negb (errno =? 0) then Ret (- errno, list, k)
  else
    let '(r, k) := siocgifgmemb k 0 in
    match r with
    | inl errno => Ret (if errno =? ENOENT then 0 else - errno, list, k)
    | inr (ifgr_len, _) =>
        let '(r, k) := siocgifgmemb k ifgr_len in
        match r with
        | inl errno => Ret (- errno, list, k)
        | inr (ifgr_len, groups) =>
            list ← groups_loop (S (length groups)) 0 (Z.of_nat ifgr_len) groups list;
            Ret (0, list, k)
        end
    end.

End Kernel.
End IpcOpenbsd.
