(* ===== verification/IpcOpenbsdFacts.v ===== *)
(** * The OpenBSD back end: theorems

    What [kernel_set_device] hands to the kernel is inside the buffer it
    allocates, and [kernel_get_device] reads it back; what of an endpoint is lost;
    the names of the group are listed. *)
From S2P Require Import Prelude Libc Encoding Containers Names Showconf Samples Netlink Ipc IpcLinux IpcLinuxRead.
From S2P Require Import Packed IpcOpenbsd.
Import Libc Encoding Showconf Netlink StringList Packed IpcOpenbsd.

Module IpcOpenbsdFacts.

(** ** Structures read back *)

Lemma length_fill_aip a st : length (fill_aip a st) = length st.
Proof. unfold fill_aip. repeat case_match; by rewrite !length_set_if. Qed.
Lemma length_fill_peer p st : length (fill_peer p st) = length st.
Proof. unfold fill_peer. by repeat first [rewrite length_set_if | rewrite length_or_if]. Qed.
Lemma length_fill_interface d st : length (fill_interface d st) = length st.
Proof. unfold fill_interface. by repeat first [rewrite length_set_if | rewrite length_or_if]. Qed.

Lemma aip_inverse a : packed_aip a -> get_aip_of (fill_aip a (replicate 24 0)) = reload_allowedip a.
Proof.
  intros (Hl & Hc & Hfam). unfold reload_allowedip, fill_aip, get_aip_of, a_af, a_cidr, a_addr, int_member.
  assert (length (take 4 (aip_ip a)) = 4%nat) by (rewrite length_take; lia).
  assert (Hc4 : le_number (le_bytes 4 (aip_cidr a)) = aip_cidr a) by (apply le_number_le_bytes; unfold is_byte in Hc; lia).
  destruct a as [fam ip cidr flags]. cbn [aip_family aip_ip aip_cidr aip_flags] in *.
  destruct Hfam as [[-> Hd]| ->].
  - change (AF_INET =? AF_INET) with true. cbv iota. struct_members. rewrite Hc4, (u8_small cidr) by done.
    change (le_number [u8 AF_INET]) with AF_INET. change (AF_INET =? AF_INET) with true. cbn [orb]. cbv iota.
    by rewrite <- Hd, take_drop.
  - change (AF_INET6 =? AF_INET) with false. change (AF_INET6 =? AF_INET6) with true. cbv iota.
    rewrite (member_set_eq true 8 ip _ 16) by struct_size. struct_members. rewrite Hc4, (u8_small cidr) by done. reflexivity.
Qed.
(** OpenBSD keeps an IPv4 endpoint and loses every other one: the length of an
    IPv6 address is above [sizeof(peer->endpoint.addr)]. *)
Definition openbsd_endpoint (sa : sockaddr) : sockaddr :=
  if sa_family sa =? AF_INET then sa else zero_sockaddr.

Lemma length_sockaddr_bytes sa : canonical_sockaddr sa -> length (sockaddr_bytes sa) = 28%nat.
Proof.
  intros (_ & _ & _ & Hfam). unfold sockaddr_bytes, IpcLinux.be16.
  destruct Hfam as [(E & Hl & _)|(E & Hl)]; rewrite E.
  - change (AF_INET =? AF_INET) with true. cbv iota. rewrite !length_app, length_take, Hl. reflexivity.
  - change (AF_INET6 =? AF_INET) with false. change (AF_INET6 =? AF_INET6) with true. cbv iota.
    rewrite !length_app, length_take, !le_bytes_length, Hl. reflexivity.
Qed.

Lemma read_sockaddr_inverse sa : canonical_sockaddr sa -> sa_family sa = AF_INET ->
  read_sockaddr (take 16 (sockaddr_bytes sa) ++ replicate 12 0) = sa.
Proof.
  intros (Hp & Hf & _ & [(E & Hl & Hs)|(E' & _)]) E0; [|by rewrite E0 in E'].
  destruct sa as [fam port addr flow scope]. cbn [sa_family sa_port sa_addr sa_flowinfo sa_scope_id] in *. subst.
  destruct addr as [|a [|b [|c [|d [|]]]]]; try discriminate Hl.
  unfold read_sockaddr, sockaddr_bytes, sa_len, int_member, member, IpcLinux.be16. cbn. f_equal.
  pose proof (IpcLinuxRead.be16_number port Hp). lia.
Qed.
(** The flags of a peer that is written. *)
Definition peer_io_flags (p : wgpeer) (psk pka endpoint : bool) : Z :=
  Z.lor (Z.lor (Z.lor (Z.lor (Z.lor WG_PEER_HAS_PUBLIC (if psk then WG_PEER_HAS_PSK else 0))
    (if pka then WG_PEER_HAS_PKA else 0)) (if endpoint then WG_PEER_HAS_ENDPOINT else 0))
    (if has_flag (peer_flags p) WGPEER_REPLACE_ALLOWEDIPS then WG_PEER_REPLACE_AIPS else 0))
    (if has_flag (peer_flags p) WGPEER_REMOVE_ME then WG_PEER_REMOVE else 0).

Lemma peer_io_tests p psk pka endpoint :
  has_flag (peer_io_flags p psk pka endpoint) WG_PEER_HAS_PUBLIC = true /\
  has_flag (peer_io_flags p psk pka endpoint) WG_PEER_HAS_PSK = psk /\
  has_flag (peer_io_flags p psk pka endpoint) WG_PEER_HAS_PKA = pka /\
  has_flag (peer_io_flags p psk pka endpoint) WG_PEER_HAS_ENDPOINT = endpoint.
Proof.
  unfold peer_io_flags. by destruct psk, pka, endpoint, (has_flag (peer_flags p) WGPEER_REPLACE_ALLOWEDIPS),
    (has_flag (peer_flags p) WGPEER_REMOVE_ME).
Qed.

Lemma sa_len_small sa : (sa_len sa <= 28)%nat.
Proof. unfold sa_len. repeat case_match; lia. Qed.

(** The members of the structure that is written for a peer. *)
Record peer_io (p : wgpeer) (st : list Z) : Prop := {
  io_flags : int_member p_flags 4 st =
    peer_io_flags p (has_flag (peer_flags p) WGPEER_HAS_PRESHARED_KEY)
      (has_flag (peer_flags p) WGPEER_HAS_PERSISTENT_KEEPALIVE_INTERVAL) (endpoint_known (peer_endpoint p));
  io_public : member p_public WG_KEY_LEN st = peer_public_key p;
  io_psk : member p_psk WG_KEY_LEN st =
    if has_flag (peer_flags p) WGPEER_HAS_PRESHARED_KEY then peer_preshared_key p else zero_key;
  io_pka : int_member p_pka 2 st =
    if has_flag (peer_flags p) WGPEER_HAS_PERSISTENT_KEEPALIVE_INTERVAL then peer_persistent_keepalive_interval p else 0;
  io_endpoint : endpoint_known (peer_endpoint p) = true ->
    member p_endpoint (sa_len (peer_endpoint p)) st
    = take (sa_len (peer_endpoint p)) (sockaddr_bytes (peer_endpoint p));
  io_rest : forall off n, (p_txbytes <= off)%nat -> (off + n <= 144)%nat -> member off n st = replicate n 0
}.

Lemma fill_peer_io p : packed_peer p -> peer_io p (fill_peer p (replicate 144 0)).
Proof.
  intros (Hpub & Hpsk & Hpka & Hend & _).
  assert (Hlen : (length (take (sa_len (peer_endpoint p)) (sockaddr_bytes (peer_endpoint p))) <= 28)%nat)
    by (pose proof (sa_len_small (peer_endpoint p)); rewrite length_take; lia).
  assert (Hep : endpoint_known (peer_endpoint p) = true ->
    length (take (sa_len (peer_endpoint p)) (sockaddr_bytes (peer_endpoint p))) = sa_len (peer_endpoint p)).
  { intros H. pose proof (sa_len_small (peer_endpoint p)). rewrite length_take, length_sockaddr_bytes by auto. lia. }
  unfold fill_peer. fold (endpoint_known (peer_endpoint p)).
  rewrite (proj2 (Nat.leb_le _ _) (sa_len_small _)), andb_true_r.
  unfold p_flags, p_public, p_psk, p_pka, p_endpoint, WG_KEY_LEN in *.
  set (ep := take _ _) in *.
  split; unfold p_flags, p_public, p_psk, p_pka, p_endpoint, p_txbytes, WG_KEY_LEN, int_member.
  - apply flags_value. struct_flags.
  - struct_members. done.
  - struct_members. done.
  - struct_members. case_match; [apply le_number_le_bytes; lia|done].
  - intros H. rewrite H. pose proof (sa_len_small (peer_endpoint p)). specialize (Hep H). struct_members. done.
  - intros off n H1 H2. struct_members. done.
Qed.

Lemma endpoint_reads p st : peer_io p st -> packed_peer p ->
  (if endpoint_known (peer_endpoint p) && (Z.to_nat (int_member p_endpoint 1 st) <=? 16)%nat
   then read_sockaddr (member p_endpoint (Z.to_nat (int_member p_endpoint 1 st)) st
          ++ replicate (28 - Z.to_nat (int_member p_endpoint 1 st)) 0)
   else zero_sockaddr) = openbsd_endpoint (peer_endpoint p).
Proof.
  intros Hio (_ & _ & _ & Hend & _). destruct (endpoint_known (peer_endpoint p)) eqn:Hk; cbn [andb].
  - pose proof (io_endpoint _ _ Hio Hk) as Hep. pose proof (Hend eq_refl) as Hc.
    assert (Hl : int_member p_endpoint 1 st = Z.of_nat (sa_len (peer_endpoint p)) /\ (1 <= sa_len (peer_endpoint p))%nat).
    { pose proof Hc as (_ & _ & _ & Hfam). unfold int_member.
      assert (Hs : (1 <= sa_len (peer_endpoint p))%nat)
        by (unfold sa_len; destruct Hfam as [(-> & _)|(-> & _)]; vm_compute; lia).
      split; [|done]. rewrite (member_prefix p_endpoint 1 (sa_len (peer_endpoint p))), Hep, take_take, Nat.min_l by done.
      unfold sockaddr_bytes. cbn [app take le_number]. lia. }
    destruct Hl as [-> _]. rewrite Nat2Z.id, Hep. pose proof Hc as (_ & _ & _ & Hfam). unfold openbsd_endpoint, sa_len.
    destruct Hfam as [(E & _)|(E & _)]; rewrite E.
    + change (AF_INET =? AF_INET) with true. cbv iota. change (16 <=? 16)%nat with true. cbv iota.
      change (28 - 16)%nat with 12%nat. by apply read_sockaddr_inverse.
    + reflexivity.
  - unfold endpoint_known in Hk. unfold openbsd_endpoint. destruct (sa_family _ =? AF_INET); [done|reflexivity].
Qed.

Lemma peer_io_reads p st : peer_io p st -> packed_peer p ->
  get_peer_of st = (with_allowedips [] (carried_peer openbsd_endpoint p), 0).
Proof.
  intros Hio Hp. pose proof (endpoint_reads p st Hio Hp) as He. destruct Hio as [Hf Hpub Hpsk Hpka _ Hrest].
  unfold get_peer_of. rewrite Hf, Hpub, Hpsk, Hpka.
  assert (Hz : forall off, (p_txbytes <= off)%nat -> (off + 8 <= 144)%nat -> int_member off 8 st = 0)
    by (intros off H1 H2; unfold int_member; by rewrite Hrest).
  rewrite !Hz by (vm_compute; lia). change (s64 0) with 0.
  set (psk := has_flag (peer_flags p) WGPEER_HAS_PRESHARED_KEY) in *.
  set (pka := has_flag (peer_flags p) WGPEER_HAS_PERSISTENT_KEEPALIVE_INTERVAL) in *.
  destruct (peer_io_tests p psk pka (endpoint_known (peer_endpoint p))) as (-> & -> & -> & ->).
  unfold carried_peer. fold psk pka. rewrite <- He. f_equal.
  destruct psk, pka, (endpoint_known (peer_endpoint p) && _), (key_is_zero (peer_preshared_key p)) eqn:Ek;
    cbn; rewrite ?Ek; reflexivity.
Qed.
Lemma count_reads st n : length st = 144%nat -> 0 <= n < 2 ^ 32 ->
  get_peer_of (set_if true p_aips_count (le_bytes 8 n) st) = ((get_peer_of st).1, n).
Proof.
  intros Hl Hn. unfold get_peer_of, p_flags, p_public, p_psk, p_pka, p_endpoint, p_txbytes, p_rxbytes,
    p_last_handshake, p_aips_count, WG_KEY_LEN.
  rewrite !int_member_set by (rewrite le_bytes_length; lia). rewrite !(member_set_other _ 32) by (rewrite le_bytes_length; lia).
  cbn [fst]. f_equal; [|unfold int_member; rewrite member_set_eq by (rewrite ?le_bytes_length; lia); apply le_number_le_bytes; lia].
  destruct (Nat.leb_spec (Z.to_nat (int_member 76 1 st)) 16) as [H|_]; [|by rewrite !andb_false_r].
  by rewrite (member_set_other _ (Z.to_nat (int_member 76 1 st))) by (rewrite le_bytes_length; lia).
Qed.

(** Flags on allowed IPs are refused. *)
Definition unflagged_aip (a : wgallowedip) : Prop := packed_aip a /\ aip_flags a = 0.
Definition unflagged (d : wgdevice) : Prop :=
  Forall (fun p => Forall (fun a => aip_flags a = 0) (peer_allowedips p)) (dev_peers d).

#[export] Instance openbsd_laws : PackedLaws sizeof_wg_peer_io sizeof_wg_aip_io put_aip put_peer put_count get_peer get_aip
  unflagged_aip reload_allowedip packed_peer (fun p => with_allowedips [] (carried_peer openbsd_endpoint p)).
Proof.
  apply (packed_laws sizeof_wg_peer_io sizeof_wg_aip_io put_aip fill_aip fill_peer
    (fun n => set_if true p_aips_count (le_bytes 8 n)) get_peer_of get_aip_of).
  - intros a [(_ & _ & [[E _]|E]) _]; unfold known_family; by rewrite E.
  - intros off a buf [_ E]. unfold put_aip. by rewrite E.
  - apply length_fill_aip.
  - apply length_fill_peer.
  - intros n st. apply length_set_if.
  - intros a [Ha _]. by apply aip_inverse.
  - intros p Hp. apply (peer_io_reads p); [by apply fill_peer_io|exact Hp].
  - apply count_reads.
Qed.

(** The structure of the interface. *)
Definition interface_io_flags (d : wgdevice) (private port rtable : bool) : Z :=
  Z.lor (Z.lor (Z.lor (Z.lor 0 (if private then WG_INTERFACE_HAS_PRIVATE else 0))
    (if port then WG_INTERFACE_HAS_PORT else 0)) (if rtable then WG_INTERFACE_HAS_RTABLE else 0))
    (if has_flag (dev_flags d) WGDEVICE_REPLACE_PEERS then WG_INTERFACE_REPLACE_PEERS else 0).
Lemma interface_io_tests d private port rtable :
  has_flag (interface_io_flags d private port rtable) WG_INTERFACE_HAS_PUBLIC = false /\
  has_flag (interface_io_flags d private port rtable) WG_INTERFACE_HAS_PRIVATE = private /\
  has_flag (interface_io_flags d private port rtable) WG_INTERFACE_HAS_PORT = port /\
  has_flag (interface_io_flags d private port rtable) WG_INTERFACE_HAS_RTABLE = rtable.
Proof.
  unfold interface_io_flags. by destruct private, port, rtable, (has_flag (dev_flags d) WGDEVICE_REPLACE_PEERS).
Qed.

Lemma strlcpy_short name : (length name < IFNAMSIZ)%nat -> strlcpy_name name = name.
Proof. intros H. unfold strlcpy_name. apply take_ge. lia. Qed.

Lemma interface_reads d n : wf_device d -> (length (dev_name d) < IFNAMSIZ)%nat -> 0 <= n < 2 ^ 32 ->
  let st := set_if true i_peers_count (le_bytes 8 n) (fill_interface d (replicate 80 0)) in
  get_interface_of (dev_name d) st = with_peers [] (carried_device true openbsd_endpoint d) /\
  int_member i_peers_count 8 st = n.
Proof.
  intros (_ & _ & [Hk _] & Hfw & Hport & _) Hname Hn st.
  set (private := has_flag (dev_flags d) WGDEVICE_HAS_PRIVATE_KEY).
  set (port := has_flag (dev_flags d) WGDEVICE_HAS_LISTEN_PORT).
  set (rtable := has_flag (dev_flags d) WGDEVICE_HAS_FWMARK).
  assert (Hf : int_member i_flags 1 st = interface_io_flags d private port rtable).
  { apply flags_value. unfold st, fill_interface, i_flags, i_private, i_port, i_rtable, i_peers_count. struct_flags. }
  assert (Hpriv : member i_private WG_KEY_LEN st = if private then dev_private_key d else zero_key)
    by (unfold st, fill_interface, i_flags, i_private, i_port, i_rtable, i_peers_count, WG_KEY_LEN in *; struct_members; done).
  assert (Hp : int_member i_port 2 st = if port then dev_listen_port d else 0).
  { unfold st, fill_interface, i_flags, i_private, i_port, i_rtable, i_peers_count, int_member. struct_members.
    fold port. destruct port; [apply le_number_le_bytes; lia|done]. }
  assert (Hr : int_member i_rtable 4 st = if rtable then dev_fwmark d else 0).
  { unfold st, fill_interface, i_flags, i_private, i_port, i_rtable, i_peers_count, int_member. struct_members.
    fold rtable. destruct rtable; [apply le_number_le_bytes; lia|done]. }
  split.
  - unfold get_interface_of. rewrite Hf, Hpriv, Hp, Hr.
    destruct (interface_io_tests d private port rtable) as (-> & -> & -> & ->).
    rewrite strlcpy_short by done. unfold carried_device. fold private port rtable.
    destruct private, port, rtable; reflexivity.
  - unfold st, i_peers_count, int_member. rewrite member_set_eq; [apply le_number_le_bytes; lia|apply le_bytes_length|].
    rewrite length_fill_interface, length_replicate. lia.
Qed.

(** ** Setting and getting *)

(** A kernel that opens sockets, takes what it is given and gives it back: with
    a buffer that is too small it reports the size, otherwise it fills it in. *)
Class WgKeeps (K : Type) `{!WgIoctl K} := {
  keeps_socket (k : K) : exists k', get_dgram_socket k = (0, k');
  keeps_set (k : K) name buf : exists k', siocswg k name buf = (0, k') /\ get_dgram_socket k' = (0, k') /\
    (exists junk, siocgwg k' name 0 = (inr (length buf, junk), k')) /\
    siocgwg k' name (length buf) = (inr (length buf, buf), k')
}.

(** Setting a device and getting it: every write of [kernel_set_device] is inside
    the buffer it allocated, and from a kernel that keeps what it is given
    [kernel_get_device] reads the configuration back, except for IPv6 endpoints,
    which it does not copy. (C6) *)
Theorem openbsd_set_get `{WK : WgKeeps K} (k : K) d fuel : packable d -> unflagged d -> (length (dev_name d) < IFNAMSIZ)%nat -> (2 <= fuel)%nat ->
  exists k', kernel_set_device k d = Ret (0, k') /\
    kernel_get_device fuel k' (dev_name d) = Ret (0, Some (carried_device true openbsd_endpoint d), k').
Proof.
  intros Hd Hu Hname Hf. destruct (packable_peers d Hd) as (H1 & H2' & H3).
  assert (H2 : Forall (fun p => Forall unflagged_aip (peer_allowedips p)) (dev_peers d)).
  { unfold unflagged in Hu. rewrite Forall_forall in *. intros p Hp. apply Forall_and. auto. }
  destruct (buffer_correct sizeof_wg_interface_io (wgd_size d) (fill_interface d)
    (set_if true i_peers_count (le_bytes 8 (Z.of_nat (length (dev_peers d))))) (dev_peers d)
    (length_fill_interface d) (length_set_if true _ _) eq_refl H1 H2 H3)
    as (buf1 & buf2 & buf & E1 & E2 & E3 & Hl & Hi & Hp).
  pose proof Hd as (Hwf & _ & _ & Hn).
  destruct (keeps_socket k) as [k0 Ek]. unfold kernel_set_device. rewrite Ek. cbn [negb Z.eqb].
  rewrite E1. cbn [mbind outcome_bind]. rewrite E2. cbn [mbind outcome_bind]. rewrite E3. cbn [mbind outcome_bind].
  destruct (keeps_set k0 (strlcpy_name (dev_name d)) buf) as (k' & -> & Ek' & [junk G0] & G1).
  exists k'. split; [reflexivity|]. unfold kernel_get_device. rewrite Ek'. cbn [negb Z.eqb].
  destruct fuel as [|[|fuel]]; [lia|lia|]. cbn [siocgwg_loop]. rewrite G0.
  destruct (Nat.leb_spec (length buf) 0) as [H0|_]; [unfold wgd_size, sizeof_wg_interface_io in Hl; lia|].
  rewrite G1, Nat.leb_refl. cbn [mbind outcome_bind]. rewrite Hi. cbn [mbind outcome_bind].
  destruct (interface_reads d (Z.of_nat (length (dev_peers d))) Hwf Hname ltac:(lia)) as [Hg Hc].
  change (replicate sizeof_wg_interface_io 0) with (replicate 80 0). rewrite Hc, Nat2Z.id, Hp. cbn [mbind outcome_bind]. rewrite Hg. by rewrite carried_device_peers.
Qed.
(** A kernel that keeps one buffer. *)
#[export] Instance buffer_ioctl : WgIoctl (option (list Z)) := {
  get_dgram_socket k := (0, k);
  siocswg k name buf := (0, Some buf);
  siocgwg k name size :=
    match k with
    | None => (inl 6, k)
    | Some buf => (inr (length buf, if (length buf <=? size)%nat then buf else []), k)
    end;
  siocgifgmemb k size := (inl 2, k)
}.
#[export] Instance buffer_keeps : WgKeeps (option (list Z)).
Proof.
  split; [by eexists|]. intros k name buf. exists (Some buf). cbn. rewrite Nat.leb_refl.
  split_and!; try done. by eexists.
Defined.

(** The sample device, with an IPv6 endpoint. *)
Definition sample_v6 : wgdevice :=
  with_peers (map (with_endpoint {| sa_family := AF_INET6; sa_port := 51820; sa_addr := replicate 15 0 ++ [1];
                                    sa_flowinfo := 0; sa_scope_id := 0 |}) (dev_peers sample_device)) sample_device.
Lemma sample_v6_packable : packable sample_v6.
Proof.
  unfold packable. split; [solve_concrete|]. split; [solve_concrete|]. split; [|vm_compute; done].
  repeat constructor; vm_compute; done.
Qed.

Lemma openbsd_set_get_witness : exists k',
  kernel_set_device None sample_v6 = Ret (0, k') /\
  kernel_get_device 2 k' (str "wg0") = Ret (0, Some (carried_device true openbsd_endpoint sample_v6), k') /\
  map peer_endpoint (dev_peers (carried_device true openbsd_endpoint sample_v6)) = [zero_sockaddr; zero_sockaddr].
Proof.
  destruct (openbsd_set_get None sample_v6 2) as (k' & E1 & E2);
    [exact sample_v6_packable|repeat constructor|vm_compute; lia|lia|].
  exists k'. split; [exact E1|]. split; [exact E2|reflexivity].
Defined.
End IpcOpenbsdFacts.
