(* ===== verification/IpcWindows.v ===== *)
(** * The Windows back end (src/ipc-windows.h)

    Setting and getting a device by [DeviceIoControl], with the structures of
    uapi/windows/wireguard.h as their bytes on a 64-bit machine. Finding the
    handle of an interface by the Setup API is a parameter.
    The number of the address family of IPv6, which the code only compares, is that
    of the rest of the library. *)
From S2P Require Import Prelude Libc Encoding Containers IpcUapi Netlink IpcLinux Packed.
Import Libc Encoding Packed.

Module IpcWindows.

(** ** Structures of wireguard.h *)

Definition sizeof_WG_IOCTL_ALLOWED_IP : nat := 24.
Definition Address : nat := 0.
Definition AddressFamily : nat := 16.
Definition Cidr : nat := 18.
Definition AipFlags : nat := 20.

Definition WG_IOCTL_PEER_HAS_PUBLIC_KEY : Z := Z.shiftl 1 0.
Definition WG_IOCTL_PEER_HAS_PRESHARED_KEY : Z := Z.shiftl 1 1.
Definition WG_IOCTL_PEER_HAS_PERSISTENT_KEEPALIVE : Z := Z.shiftl 1 2.
Definition WG_IOCTL_PEER_HAS_ENDPOINT : Z := Z.shiftl 1 3.
Definition WG_IOCTL_PEER_REPLACE_ALLOWED_IPS : Z := Z.shiftl 1 5.
Definition WG_IOCTL_PEER_REMOVE : Z := Z.shiftl 1 6.

Definition sizeof_WG_IOCTL_PEER : nat := 136.
Definition PeerFlags : nat := 0.
Definition PeerPublicKey : nat := 8.
Definition PresharedKey : nat := 40.
Definition PersistentKeepalive : nat := 72.
Definition Endpoint : nat := 76.
Definition TxBytes : nat := 104.
Definition RxBytes : nat := 112.
Definition LastHandshake : nat := 120.
Definition AllowedIPsCount : nat := 128.

Definition WG_IOCTL_INTERFACE_HAS_PUBLIC_KEY : Z := Z.shiftl 1 0.
Definition WG_IOCTL_INTERFACE_HAS_PRIVATE_KEY : Z := Z.shiftl 1 1.
Definition WG_IOCTL_INTERFACE_HAS_LISTEN_PORT : Z := Z.shiftl 1 2.
Definition WG_IOCTL_INTERFACE_REPLACE_PEERS : Z := Z.shiftl 1 3.

Definition sizeof_WG_IOCTL_INTERFACE : nat := 80.
Definition InterfaceFlags : nat := 0.
Definition ListenPort : nat := 4.
Definition PrivateKey : nat := 6.
Definition InterfacePublicKey : nat := 38.
Definition PeersCount : nat := 72.

(** [IFNAMSIZ] of wincompat/compat.h, and error numbers of the C runtime. *)
Definition IFNAMSIZ : nat := 64.
Definition EACCES : Z := 13.
Definition EOVERFLOW : Z := 132.
Definition ERROR_MORE_DATA : Z := 234.
Definition DWORD_MAX : Z := 2 ^ 32 - 1.

(** ** The kernel *)

(** The handle of an interface, or the error number; [WG_IOCTL_GET] with the size
    of the buffer gives its contents, or the value of [GetLastError()] and the
    size it needs; [WG_IOCTL_SET] succeeds or fails. *)
Class WgDevice (K : Type) := {
  kernel_interface_handle : K -> cstring -> (Z + Z) * K;
  wg_ioctl_get : K -> Z -> nat -> (Z * nat + list Z) * K;
  wg_ioctl_set : K -> Z -> list Z -> bool * K
}.

(** ** Setting a device *)

Definition fill_aip (aip : wgallowedip) (st : list Z) : list Z :=
  let st := set_if true AipFlags (le_bytes 4 (aip_flags aip)) st in
  let st := set_if true AddressFamily (le_bytes 2 (aip_family aip)) st in
  let st := set_if true Cidr [aip_cidr aip] st in
  if aip_family aip =? AF_INET then set_if true Address (take 4 (aip_ip aip)) st
  else if aip_family aip =? AF_INET6 then set_if true Address (aip_ip aip) st
  else st.
Definition put_aip (wg_aip : nat) (aip : wgallowedip) (buf : list Z) : outcome (Z + list Z) :=
  buf ← update wg_aip sizeof_WG_IOCTL_ALLOWED_IP (fill_aip aip) buf; Ret (inr buf).

Definition fill_peer (peer : wgpeer) (st : list Z) : list Z :=
  let st := set_if true PeerFlags (le_bytes 4 WG_IOCTL_PEER_HAS_PUBLIC_KEY) st in
  let st := set_if true PeerPublicKey (peer_public_key peer) st in
  let psk := has_flag (peer_flags peer) WGPEER_HAS_PRESHARED_KEY in
  let st := set_if psk PresharedKey (peer_preshared_key peer) st in
  let st := or_if psk PeerFlags 4 WG_IOCTL_PEER_HAS_PRESHARED_KEY st in
  let pka := has_flag (peer_flags peer) WGPEER_HAS_PERSISTENT_KEEPALIVE_INTERVAL in
  let st := set_if pka PersistentKeepalive (le_bytes 2 (peer_persistent_keepalive_interval peer)) st in
  let st := or_if pka PeerFlags 4 WG_IOCTL_PEER_HAS_PERSISTENT_KEEPALIVE st in
  let v4 := sa_family (peer_endpoint peer) =? AF_INET in
  let v6 := negb v4 && (sa_family (peer_endpoint peer) =? AF_INET6) in
  let st := set_if v4 Endpoint (IpcLinux.sockaddr_in_bytes (peer_endpoint peer)) st in
  let st := or_if v4 PeerFlags 4 WG_IOCTL_PEER_HAS_ENDPOINT st in
  let st := set_if v6 Endpoint (IpcLinux.sockaddr_in6_bytes (peer_endpoint peer)) st in
  let st := or_if v6 PeerFlags 4 WG_IOCTL_PEER_HAS_ENDPOINT st in
  let st := or_if (has_flag (peer_flags peer) WGPEER_REPLACE_ALLOWEDIPS) PeerFlags 4
              WG_IOCTL_PEER_REPLACE_ALLOWED_IPS st in
  or_if (has_flag (peer_flags peer) WGPEER_REMOVE_ME) PeerFlags 4 WG_IOCTL_PEER_REMOVE st.
Definition put_peer (wg_peer : nat) (peer : wgpeer) (buf : list Z) : outcome (list Z) :=
  update wg_peer sizeof_WG_IOCTL_PEER (fill_peer peer) buf.
Definition put_count (wg_peer : nat) (aip_count : Z) (buf : list Z) : outcome (list Z) :=
  update wg_peer sizeof_WG_IOCTL_PEER (set_if true AllowedIPsCount (le_bytes 4 aip_count)) buf.

Definition fill_interface (dev : wgdevice) (st : list Z) : list Z :=
  let private := has_flag (dev_flags dev) WGDEVICE_HAS_PRIVATE_KEY in
  let st := set_if private PrivateKey (dev_private_key dev) st in
  let st := or_if private InterfaceFlags 4 WG_IOCTL_INTERFACE_HAS_PRIVATE_KEY st in
  let port := has_flag (dev_flags dev) WGDEVICE_HAS_LISTEN_PORT in
  let st := set_if port ListenPort (le_bytes 2 (dev_listen_port dev)) st in
  let st := or_if port InterfaceFlags 4 WG_IOCTL_INTERFACE_HAS_LISTEN_PORT st in
  or_if (has_flag (dev_flags dev) WGDEVICE_REPLACE_PEERS) InterfaceFlags 4 WG_IOCTL_INTERFACE_REPLACE_PEERS st.

(** The size of the buffer; [None] when a DWORD would overflow. *)
Definition add_size (buf_len : Z) (n : nat) : option Z :=
  if DWORD_MAX - buf_len <? Z.of_nat n then None else Some (buf_len + Z.of_nat n).
Fixpoint aips_len (buf_len : Z) (aips : list wgallowedip) : option Z :=
  match aips with
  | [] => Some buf_len
  | _ :: aips => match add_size buf_len sizeof_WG_IOCTL_ALLOWED_IP with
                 | Some buf_len => aips_len buf_len aips
                 | None => None
                 end
  end.
Fixpoint peers_len (buf_len : Z) (peers : list wgpeer) : option Z :=
  match peers with
  | [] => Some buf_len
  | p :: peers =>
      match add_size buf_len sizeof_WG_IOCTL_PEER with
      | Some buf_len => match aips_len buf_len (peer_allowedips p) with
                        | Some buf_len => peers_len buf_len peers
                        | None => None
                        end
      | None => None
      end
  end.

Section Kernel.
Context `{WD : WgDevice K}.

Definition kernel_set_device (k : K) (dev : wgdevice) : outcome (Z * K) :=
  let '(handle, k) := kernel_interface_handle k (dev_name dev) in
  match handle with
  | inl errno => Ret (- errno, k)
  | inr handle =>
      match peers_len (Z.of_nat sizeof_WG_IOCTL_INTERFACE) (dev_peers dev) with
      | None => Ret (- EOVERFLOW, k)
      | Some buf_len =>
          let buf := replicate (Z.to_nat buf_len) 0 in
          buf ← update 0 sizeof_WG_IOCTL_INTERFACE (fill_interface dev) buf;
          r ← put_peers sizeof_WG_IOCTL_PEER sizeof_WG_IOCTL_ALLOWED_IP put_aip put_peer put_count
                sizeof_WG_IOCTL_INTERFACE 0 (dev_peers dev) buf;
          match r with
          | inl errno => Ret (- errno, k)
          | inr (peer_count, buf) =>
              buf ← update 0 sizeof_WG_IOCTL_INTERFACE (set_if true PeersCount (le_bytes 4 peer_count)) buf;
              let '(ok, k) := wg_ioctl_set k handle buf in
              Ret (if (ok : bool) then 0 else - EACCES, k)
          end
      end
  end.

(** ** Getting a device *)

Definition get_aip_of (st : list Z) : wgallowedip :=
  let family := int_member AddressFamily 2 st in
  {| aip_family := family;
     aip_ip := if family =? AF_INET then member Address 4 st ++ replicate 12 0
               else if family =? AF_INET6 then member Address 16 st else replicate 16 0;
     aip_cidr := if (family =? AF_INET) || (family =? AF_INET6) then int_member Cidr 1 st else 0;
     aip_flags := 0 |}.
Definition get_aip (wg_aip : nat) (buf : list Z) : outcome wgallowedip :=
  st ← load wg_aip sizeof_WG_IOCTL_ALLOWED_IP buf; Ret (get_aip_of st).

(** [LastHandshake] counts units of 100 ns from 1601; the arithmetic is unsigned. *)
Definition handshake_time (t : Z) : timespec64 :=
  if t =? 0 then {| tv_sec := 0; tv_nsec := 0 |}
  else {| tv_sec := s64 (u64 (t / 10000000 - 11644473600)); tv_nsec := t mod 10000000 * 100 |}.

(** The peer and [AllowedIPsCount]. *)
Definition get_peer_of (st : list Z) : wgpeer * Z :=
  let flags := int_member PeerFlags 4 st in
  let upd (c : bool) (f : wgpeer -> wgpeer) (p : wgpeer) := if c then f p else p in
  let p := zero_peer in
  let p := upd (has_flag flags WG_IOCTL_PEER_HAS_PUBLIC_KEY) (fun p =>
    with_peer_flags (set_flag WGPEER_HAS_PUBLIC_KEY) (with_public_key (member PeerPublicKey WG_KEY_LEN st) p)) p in
  let p := upd (has_flag flags WG_IOCTL_PEER_HAS_PRESHARED_KEY) (fun p =>
    let p := with_preshared_key (member PresharedKey WG_KEY_LEN st) p in
    if negb (key_is_zero (peer_preshared_key p))
    then with_peer_flags (set_flag WGPEER_HAS_PRESHARED_KEY) p else p) p in
  let p := upd (has_flag flags WG_IOCTL_PEER_HAS_PERSISTENT_KEEPALIVE) (fun p =>
    with_peer_flags (set_flag WGPEER_HAS_PERSISTENT_KEEPALIVE_INTERVAL)
      (with_keepalive (int_member PersistentKeepalive 2 st) p)) p in
  let si_family := int_member Endpoint 2 st in
  let p := upd (has_flag flags WG_IOCTL_PEER_HAS_ENDPOINT) (fun p =>
    if si_family =? AF_INET then with_endpoint (IpcLinux.read_sockaddr_in (member Endpoint 16 st)) p
    else if si_family =? AF_INET6 then with_endpoint (IpcLinux.read_sockaddr_in6 (member Endpoint 28 st)) p
    else p) p in
  let p := with_transfer (int_member RxBytes 8 st) (int_member TxBytes 8 st) p in
  let p := with_handshake (handshake_time (int_member LastHandshake 8 st)) p in
  (p, int_member AllowedIPsCount 4 st).
Definition get_peer (wg_peer : nat) (buf : list Z) : outcome (wgpeer * Z) :=
  st ← load wg_peer sizeof_WG_IOCTL_PEER buf; Ret (get_peer_of st).

Definition get_interface_of (iface : cstring) (st : list Z) : wgdevice :=
  let flags := int_member InterfaceFlags 4 st in
  let upd (c : bool) (f : wgdevice -> wgdevice) (d : wgdevice) := if c then f d else d in
  let d := with_dev_name (take (IFNAMSIZ - 1) iface) zero_device in
  let d := upd (has_flag flags WG_IOCTL_INTERFACE_HAS_LISTEN_PORT) (fun d =>
    with_dev_flags (set_flag WGDEVICE_HAS_LISTEN_PORT) (with_listen_port (int_member ListenPort 2 st) d)) d in
  let d := upd (has_flag flags WG_IOCTL_INTERFACE_HAS_PUBLIC_KEY) (fun d =>
    with_dev_flags (set_flag WGDEVICE_HAS_PUBLIC_KEY)
      (with_dev_public_key (member InterfacePublicKey WG_KEY_LEN st) d)) d in
  upd (has_flag flags WG_IOCTL_INTERFACE_HAS_PRIVATE_KEY) (fun d =>
    with_dev_flags (set_flag WGDEVICE_HAS_PRIVATE_KEY) (with_private_key (member PrivateKey WG_KEY_LEN st) d)) d.

(** The loop of [DeviceIoControl]: [buf_len] is the size of the buffer. *)
Fixpoint get_loop (fuel : nat) (k : K) (handle : Z) (buf_len : nat) : outcome ((Z + list Z) * K) :=
  match fuel with
  | O => NoFuel
  | S fuel =>
      let '(r, k) := wg_ioctl_get k handle buf_len in
      match r with
      | inr buf => Ret (inr buf, k)
      | inl (last_error, buf_len) =>
          if negb (last_error =? ERROR_MORE_DATA) then Ret (inl EACCES, k) else get_loop fuel k handle buf_len
      end
  end.

Definition kernel_get_device (fuel : nat) (k : K) (iface : cstring) : outcome (Z * option wgdevice * K) :=
  let '(handle, k) := kernel_interface_handle k iface in
  match handle with
  | inl errno => Ret (- errno, None, k)
  | inr handle =>
      '(r, k) ← get_loop fuel k handle 0;
      match r with
      | inl errno => Ret (- errno, None, k)
      | inr buf =>
          st ← load 0 sizeof_WG_IOCTL_INTERFACE buf;
          peers ← get_peers sizeof_WG_IOCTL_PEER sizeof_WG_IOCTL_ALLOWED_IP get_peer get_aip
                    (Z.to_nat (int_member PeersCount 4 st)) sizeof_WG_IOCTL_INTERFACE buf;
          Ret (0, Some (with_peers peers (get_interface_of iface st)), k)
      end
  end.

End Kernel.
End IpcWindows.
