(* ===== verification/IpcWindowsFacts.v ===== *)
(** * The Windows back end: theorems

    The buffer of [kernel_set_device] has the size that was computed without
    overflow, every write is inside it, and [kernel_get_device] reads it back. *)
From S2P Require Import Prelude Libc Encoding Containers Names Showconf Samples Netlink NetlinkFacts IpcLinux IpcLinuxRead.
From S2P Require Import Packed IpcWindows.
Import Libc Encoding Showconf Packed IpcWindows.

Module IpcWindowsFacts.

(** ** Structures read back *)

Lemma win_length_fill_aip a st : length (fill_aip a st) = length st.
Proof. unfold fill_aip. repeat case_match; by rewrite !length_set_if. Qed.
Lemma win_length_fill_peer p st : length (fill_peer p st) = length st.
Proof. unfold fill_peer. by repeat first [rewrite length_set_if | rewrite length_or_if]. Qed.
Lemma win_length_fill_interface d st : length (fill_interface d st) = length st.
Proof. unfold fill_interface. by repeat first [rewrite length_set_if | rewrite length_or_if]. Qed.

Lemma win_aip_inverse a : packed_aip a -> get_aip_of (fill_aip a (replicate 24 0)) = reload_allowedip a.
Proof.
  intros (Hl & Hc & Hfam). unfold reload_allowedip, fill_aip, get_aip_of, Address, AddressFamily, Cidr, AipFlags, int_member.
  assert (length (take 4 (aip_ip a)) = 4%nat) by (rewrite length_take; lia).
  destruct a as [fam ip cidr flags]. cbn [aip_family aip_ip aip_cidr aip_flags] in *.
  destruct Hfam as [[-> Hd]| ->].
  - change (AF_INET =? AF_INET) with true. cbv iota. struct_members.
    change (le_number (le_bytes 2 AF_INET)) with AF_INET. change (AF_INET =? AF_INET) with true. cbn [orb le_number]. cbv iota.
    rewrite <- Hd, take_drop. f_equal. lia.
  - change (AF_INET6 =? AF_INET) with false. change (AF_INET6 =? AF_INET6) with true. cbv iota.
    rewrite (member_set_eq true 0 ip _ 16) by struct_size. struct_members. cbn [le_number].
    change (le_number (le_bytes 2 AF_INET6)) with AF_INET6. change (AF_INET6 =? AF_INET) with false.
    change (AF_INET6 =? AF_INET6) with true. cbn [orb]. cbv iota. f_equal. lia.
Qed.

(** Both kinds of endpoints are kept. *)
Definition windows_endpoint (sa : sockaddr) : sockaddr := if endpoint_known sa then sa else zero_sockaddr.

Definition peer_io_flags (p : wgpeer) (psk pka v4 v6 : bool) : Z :=
  Z.lor (Z.lor (Z.lor (Z.lor (Z.lor (Z.lor WG_IOCTL_PEER_HAS_PUBLIC_KEY
    (if psk then WG_IOCTL_PEER_HAS_PRESHARED_KEY else 0))
    (if pka then WG_IOCTL_PEER_HAS_PERSISTENT_KEEPALIVE else 0)) (if v4 then WG_IOCTL_PEER_HAS_ENDPOINT else 0))
    (if v6 then WG_IOCTL_PEER_HAS_ENDPOINT else 0))
    (if has_flag (peer_flags p) WGPEER_REPLACE_ALLOWEDIPS then WG_IOCTL_PEER_REPLACE_ALLOWED_IPS else 0))
    (if has_flag (peer_flags p) WGPEER_REMOVE_ME then WG_IOCTL_PEER_REMOVE else 0).
Lemma win_peer_tests p psk pka v4 v6 :
  has_flag (peer_io_flags p psk pka v4 v6) WG_IOCTL_PEER_HAS_PUBLIC_KEY = true /\
  has_flag (peer_io_flags p psk pka v4 v6) WG_IOCTL_PEER_HAS_PRESHARED_KEY = psk /\
  has_flag (peer_io_flags p psk pka v4 v6) WG_IOCTL_PEER_HAS_PERSISTENT_KEEPALIVE = pka /\
  has_flag (peer_io_flags p psk pka v4 v6) WG_IOCTL_PEER_HAS_ENDPOINT = v4 || v6.
Proof.
  unfold peer_io_flags. by destruct psk, pka, v4, v6, (has_flag (peer_flags p) WGPEER_REPLACE_ALLOWEDIPS),
    (has_flag (peer_flags p) WGPEER_REMOVE_ME).
Qed.

Lemma length_sockaddr_in sa : canonical_sockaddr sa -> sa_family sa = AF_INET ->
  length (IpcLinux.sockaddr_in_bytes sa) = 16%nat.
Proof.
  intros (_ & _ & _ & [(_ & Hl & _)|(E & _)]) E'; [|by rewrite E' in E].
  pose proof (IpcLinuxRead.zlen_sockaddr_in_bytes sa Hl) as H. unfold NetlinkFacts.zlen in H. lia.
Qed.
Lemma length_sockaddr_in6 sa : canonical_sockaddr sa -> sa_family sa = AF_INET6 ->
  length (IpcLinux.sockaddr_in6_bytes sa) = 28%nat.
Proof.
  intros (_ & _ & _ & [(E & _)|(_ & Hl)]) E'; [by rewrite E' in E|].
  pose proof (IpcLinuxRead.zlen_sockaddr_in6_bytes sa Hl) as H. unfold NetlinkFacts.zlen in H. lia.
Qed.

Definition is_v4 (p : wgpeer) : bool := sa_family (peer_endpoint p) =? AF_INET.
Definition is_v6 (p : wgpeer) : bool := negb (is_v4 p) && (sa_family (peer_endpoint p) =? AF_INET6).

(** The members of the structure that is written for a peer. *)
Record peer_io (p : wgpeer) (st : list Z) : Prop := {
  io_flags : int_member PeerFlags 4 st =
    peer_io_flags p (has_flag (peer_flags p) WGPEER_HAS_PRESHARED_KEY)
      (has_flag (peer_flags p) WGPEER_HAS_PERSISTENT_KEEPALIVE_INTERVAL) (is_v4 p) (is_v6 p);
  io_public : member PeerPublicKey WG_KEY_LEN st = peer_public_key p;
  io_psk : member PresharedKey WG_KEY_LEN st =
    if has_flag (peer_flags p) WGPEER_HAS_PRESHARED_KEY then peer_preshared_key p else zero_key;
  io_pka : int_member PersistentKeepalive 2 st =
    if has_flag (peer_flags p) WGPEER_HAS_PERSISTENT_KEEPALIVE_INTERVAL then peer_persistent_keepalive_interval p else 0;
  io_v4 : is_v4 p = true -> member Endpoint 16 st = IpcLinux.sockaddr_in_bytes (peer_endpoint p);
  io_v6 : is_v6 p = true -> member Endpoint 28 st = IpcLinux.sockaddr_in6_bytes (peer_endpoint p);
  io_rest : forall off n, (TxBytes <= off)%nat -> (off + n <= 136)%nat -> member off n st = replicate n 0
}.

Lemma win_fill_peer_io p : packed_peer p -> peer_io p (fill_peer p (replicate 136 0)).
Proof.
  intros (Hpub & Hpsk & Hpka & Hend & _). unfold fill_peer. fold (is_v4 p). fold (is_v6 p).
  set (b4 := if is_v4 p then IpcLinux.sockaddr_in_bytes (peer_endpoint p) else replicate 16 0).
  set (b6 := if is_v6 p then IpcLinux.sockaddr_in6_bytes (peer_endpoint p) else replicate 28 0).
  assert (E4 : forall st, set_if (is_v4 p) Endpoint (IpcLinux.sockaddr_in_bytes (peer_endpoint p)) st = set_if (is_v4 p) Endpoint b4 st)
    by (intros st; unfold b4; by destruct (is_v4 p)).
  assert (E6 : forall st, set_if (is_v6 p) Endpoint (IpcLinux.sockaddr_in6_bytes (peer_endpoint p)) st = set_if (is_v6 p) Endpoint b6 st)
    by (intros st; unfold b6; by destruct (is_v6 p)).
  rewrite E4, E6. clear E4 E6.
  assert (L4 : length b4 = 16%nat).
  { unfold b4. destruct (is_v4 p) eqn:E; [|done]. unfold is_v4 in E. unfold endpoint_known in Hend. rewrite E in Hend.
    apply length_sockaddr_in; [auto|lia]. }
  assert (L6 : length b6 = 28%nat).
  { unfold b6. destruct (is_v6 p) eqn:E; [|done]. unfold is_v6 in E. apply andb_true_iff in E as [_ E].
    unfold endpoint_known in Hend. rewrite E, orb_true_r in Hend. apply length_sockaddr_in6; [auto|lia]. }
  unfold PeerFlags, PeerPublicKey, PresharedKey, PersistentKeepalive, Endpoint, WG_KEY_LEN in *.
  split; unfold PeerFlags, PeerPublicKey, PresharedKey, PersistentKeepalive, Endpoint, TxBytes, WG_KEY_LEN, int_member.
  - apply flags_value. struct_flags.
  - struct_members. done.
  - struct_members. done.
  - struct_members. case_match; [apply le_number_le_bytes; lia|done].
  - intros E. replace (is_v6 p) with false by (unfold is_v6; by rewrite E). rewrite set_if_false, E.
    struct_members. unfold b4. by rewrite E.
  - intros E. replace (is_v4 p) with false by (unfold is_v6 in E; by destruct (is_v4 p)).
    rewrite E. struct_members. unfold b6. by rewrite E.
  - intros off n H1 H2. struct_members. done.
Qed.
Lemma win_endpoint_reads p st : peer_io p st -> packed_peer p ->
  (if is_v4 p || is_v6 p
   then if int_member Endpoint 2 st =? AF_INET then IpcLinux.read_sockaddr_in (member Endpoint 16 st)
        else if int_member Endpoint 2 st =? AF_INET6 then IpcLinux.read_sockaddr_in6 (member Endpoint 28 st)
        else zero_sockaddr
   else zero_sockaddr) = windows_endpoint (peer_endpoint p).
Proof.
  intros Hio (_ & _ & _ & Hend & Hsc). unfold windows_endpoint.
  destruct (is_v4 p) eqn:E4; [|destruct (is_v6 p) eqn:E6]; cbn [orb].
  - pose proof (io_v4 _ _ Hio E4) as Hm. unfold is_v4 in E4. unfold endpoint_known in *. rewrite E4 in *. cbn [orb] in *.
    apply Z.eqb_eq in E4. specialize (Hend eq_refl).
    unfold int_member. rewrite (member_prefix Endpoint 2 16), Hm by lia.
    replace (le_number (take 2 _)) with AF_INET by (unfold IpcLinux.sockaddr_in_bytes; by rewrite E4).
    change (AF_INET =? AF_INET) with true. cbv iota. by apply IpcLinuxRead.read_sockaddr_in_bytes.
  - pose proof (io_v6 _ _ Hio E6) as Hm. unfold is_v6 in E6. apply andb_true_iff in E6 as [_ E6].
    unfold endpoint_known in *. rewrite E6, orb_true_r in *. apply Z.eqb_eq in E6. specialize (Hend eq_refl).
    unfold int_member. rewrite (member_prefix Endpoint 2 28), Hm by lia.
    replace (le_number (take 2 _)) with AF_INET6 by (unfold IpcLinux.sockaddr_in6_bytes; by rewrite E6).
    change (AF_INET6 =? AF_INET) with false. change (AF_INET6 =? AF_INET6) with true. cbv iota.
    by apply IpcLinuxRead.read_sockaddr_in6_bytes.
  - unfold is_v6 in E6. rewrite E4 in E6. unfold endpoint_known. unfold is_v4 in E4. cbn [negb andb] in E6. by rewrite E4, E6.
Qed.

Lemma win_peer_reads p st : peer_io p st -> packed_peer p ->
  get_peer_of st = (with_allowedips [] (carried_peer windows_endpoint p), 0).
Proof.
  intros Hio Hp. pose proof (win_endpoint_reads p st Hio Hp) as He. destruct Hio as [Hf Hpub Hpsk Hpka _ _ Hrest].
  unfold get_peer_of. rewrite Hf, Hpub, Hpsk, Hpka.
  assert (Hz : forall off, (TxBytes <= off)%nat -> (off + 8 <= 136)%nat -> int_member off 8 st = 0)
    by (intros off H1 H2; unfold int_member; by rewrite Hrest).
  rewrite !Hz by (vm_compute; lia). change (handshake_time 0) with {| tv_sec := 0; tv_nsec := 0 |}.
  replace (int_member AllowedIPsCount 4 st) with 0 by (unfold int_member; by rewrite Hrest by (vm_compute; lia)).
  set (psk := has_flag (peer_flags p) WGPEER_HAS_PRESHARED_KEY) in *.
  set (pka := has_flag (peer_flags p) WGPEER_HAS_PERSISTENT_KEEPALIVE_INTERVAL) in *.
  destruct (win_peer_tests p psk pka (is_v4 p) (is_v6 p)) as (-> & -> & -> & ->).
  unfold carried_peer. fold psk pka. rewrite <- He. f_equal.
  destruct psk, pka, (is_v4 p || is_v6 p), (int_member Endpoint 2 st =? AF_INET), (int_member Endpoint 2 st =? AF_INET6),
    (key_is_zero (peer_preshared_key p)) eqn:Ek; cbn; rewrite ?Ek; reflexivity.
Qed.

Lemma win_count_reads st n : length st = 136%nat -> 0 <= n < 2 ^ 32 ->
  get_peer_of (set_if true AllowedIPsCount (le_bytes 4 n) st) = ((get_peer_of st).1, n).
Proof.
  intros Hl Hn. unfold get_peer_of, PeerFlags, PeerPublicKey, PresharedKey, PersistentKeepalive, Endpoint, TxBytes, RxBytes,
    LastHandshake, AllowedIPsCount, WG_KEY_LEN.
  rewrite !int_member_set by (rewrite le_bytes_length; lia).
  rewrite !(member_set_other _ 32), !(member_set_other _ 16), !(member_set_other _ 28) by (rewrite le_bytes_length; lia).
  cbn [fst]. f_equal. unfold int_member. rewrite member_set_eq by (rewrite ?le_bytes_length; lia). apply le_number_le_bytes. lia.
Qed.

#[export] Instance windows_laws : PackedLaws sizeof_WG_IOCTL_PEER sizeof_WG_IOCTL_ALLOWED_IP put_aip put_peer put_count
  get_peer get_aip packed_aip reload_allowedip packed_peer (fun p => with_allowedips [] (carried_peer windows_endpoint p)).
Proof.
  apply (packed_laws sizeof_WG_IOCTL_PEER sizeof_WG_IOCTL_ALLOWED_IP put_aip fill_aip fill_peer
    (fun n => set_if true AllowedIPsCount (le_bytes 4 n)) get_peer_of get_aip_of).
  - intros a (_ & _ & [[E _]|E]); unfold known_family; by rewrite E.
  - done.
  - apply win_length_fill_aip.
  - apply win_length_fill_peer.
  - intros n st. apply length_set_if.
  - apply win_aip_inverse.
  - intros p Hp. apply (win_peer_reads p); [by apply win_fill_peer_io|exact Hp].
  - apply win_count_reads.
Qed.

(** The structure of the interface. *)
Definition interface_io_flags (d : wgdevice) (private port : bool) : Z :=
  Z.lor (Z.lor (Z.lor 0 (if private then WG_IOCTL_INTERFACE_HAS_PRIVATE_KEY else 0))
    (if port then WG_IOCTL_INTERFACE_HAS_LISTEN_PORT else 0))
    (if has_flag (dev_flags d) WGDEVICE_REPLACE_PEERS then WG_IOCTL_INTERFACE_REPLACE_PEERS else 0).
Lemma win_interface_tests d private port :
  has_flag (interface_io_flags d private port) WG_IOCTL_INTERFACE_HAS_PUBLIC_KEY = false /\
  has_flag (interface_io_flags d private port) WG_IOCTL_INTERFACE_HAS_PRIVATE_KEY = private /\
  has_flag (interface_io_flags d private port) WG_IOCTL_INTERFACE_HAS_LISTEN_PORT = port.
Proof. unfold interface_io_flags. by destruct private, port, (has_flag (dev_flags d) WGDEVICE_REPLACE_PEERS). Qed.

Lemma win_interface_reads d n : wf_device d -> (length (dev_name d) < IFNAMSIZ)%nat -> 0 <= n < 2 ^ 32 ->
  let st := set_if true PeersCount (le_bytes 4 n) (fill_interface d (replicate 80 0)) in
  get_interface_of (dev_name d) st = with_peers [] (carried_device false windows_endpoint d) /\
  int_member PeersCount 4 st = n.
Proof.
  intros (_ & _ & [Hk _] & _ & Hport & _) Hname Hn st.
  set (private := has_flag (dev_flags d) WGDEVICE_HAS_PRIVATE_KEY).
  set (port := has_flag (dev_flags d) WGDEVICE_HAS_LISTEN_PORT).
  assert (Hf : int_member InterfaceFlags 4 st = interface_io_flags d private port).
  { apply flags_value. unfold st, fill_interface, InterfaceFlags, PrivateKey, ListenPort, PeersCount. struct_flags. }
  assert (Hpriv : member PrivateKey WG_KEY_LEN st = if private then dev_private_key d else zero_key)
    by (unfold st, fill_interface, InterfaceFlags, PrivateKey, ListenPort, PeersCount, WG_KEY_LEN in *; struct_members; done).
  assert (Hp : int_member ListenPort 2 st = if port then dev_listen_port d else 0).
  { unfold st, fill_interface, InterfaceFlags, PrivateKey, ListenPort, PeersCount, int_member. struct_members.
    fold port. destruct port; [apply le_number_le_bytes; lia|done]. }
  split.
  - unfold get_interface_of. rewrite Hf, Hpriv, Hp.
    destruct (win_interface_tests d private port) as (-> & -> & ->).
    rewrite take_ge by lia. unfold carried_device. fold private port.
    destruct private, port; reflexivity.
  - unfold st, PeersCount, int_member. rewrite member_set_eq; [apply le_number_le_bytes; lia|apply le_bytes_length|].
    rewrite win_length_fill_interface, length_replicate. lia.
Qed.

(** ** The size of the buffer *)

Lemma aips_len_eq l n : 0 <= n < 2 ^ 32 ->
  aips_len n l = if n + 24 * Z.of_nat (length l) <? 2 ^ 32 then Some (n + 24 * Z.of_nat (length l)) else None.
Proof.
  revert n. induction l as [|a l IH]; intros n Hn; cbn [aips_len length] in *.
  { destruct (Z.ltb_spec (n + 24 * Z.of_nat 0) (2 ^ 32)); [f_equal|]; lia. }
  unfold add_size, DWORD_MAX, sizeof_WG_IOCTL_ALLOWED_IP. destruct (Z.ltb_spec (2 ^ 32 - 1 - n) (Z.of_nat 24)).
  - destruct (Z.ltb_spec (n + 24 * Z.of_nat (S (length l))) (2 ^ 32)); [lia|done].
  - rewrite IH by lia. replace (n + Z.of_nat 24 + 24 * Z.of_nat (length l)) with (n + 24 * Z.of_nat (S (length l))) by lia. done.
Qed.
Lemma peers_len_eq l n : 0 <= n < 2 ^ 32 ->
  let size := n + Z.of_nat (peers_size sizeof_WG_IOCTL_PEER sizeof_WG_IOCTL_ALLOWED_IP l) in
  peers_len n l = if size <? 2 ^ 32 then Some size else None.
Proof.
  unfold sizeof_WG_IOCTL_PEER, sizeof_WG_IOCTL_ALLOWED_IP. cbv zeta.
  revert n. induction l as [|p l IH]; intros n Hn.
  { change (peers_size 136 24 []) with 0%nat. cbn [peers_len]. destruct (Z.ltb_spec (n + Z.of_nat 0) (2 ^ 32)); [f_equal|]; lia. }
  change (peers_size 136 24 (p :: l)) with (136 + length (peer_allowedips p) * 24 + peers_size 136 24 l)%nat.
  set (rest := peers_size 136 24 l) in *. set (na := length (peer_allowedips p)).
  cbn [peers_len]. unfold add_size, DWORD_MAX, sizeof_WG_IOCTL_PEER.
  destruct (Z.ltb_spec (2 ^ 32 - 1 - n) (Z.of_nat 136)).
  { destruct (Z.ltb_spec (n + Z.of_nat (136 + na * 24 + rest)) (2 ^ 32)); [lia|done]. }
  rewrite aips_len_eq by lia. fold na. destruct (Z.ltb_spec (n + Z.of_nat 136 + 24 * Z.of_nat na) (2 ^ 32)).
  - rewrite IH by lia. fold rest.
    replace (n + Z.of_nat 136 + 24 * Z.of_nat na + Z.of_nat rest) with (n + Z.of_nat (136 + na * 24 + rest)) by lia. done.
  - destruct (Z.ltb_spec (n + Z.of_nat (136 + na * 24 + rest)) (2 ^ 32)); [lia|done].
Qed.

(** A kernel that knows the interface, takes what it is given and gives it back. *)
Class WgDeviceKeeps (K : Type) `{!WgDevice K} := {
  keeps_handle (k : K) name : exists h k', kernel_interface_handle k name = (inr h, k') /\
    kernel_interface_handle k' name = (inr h, k');
  keeps_ioctl (k : K) name h buf : kernel_interface_handle k name = (inr h, k) -> (0 < length buf)%nat -> exists k',
    wg_ioctl_set k h buf = (true, k') /\ kernel_interface_handle k' name = (inr h, k') /\
    wg_ioctl_get k' h 0 = (inl (ERROR_MORE_DATA, length buf), k') /\ wg_ioctl_get k' h (length buf) = (inr buf, k')
}.


(** A kernel with one interface that keeps one buffer. *)
#[export] Instance buffer_device : WgDevice (list Z) := {
  kernel_interface_handle k name := (inr 1, k);
  wg_ioctl_get k h size := (if (length k <=? size)%nat then inr k else inl (ERROR_MORE_DATA, length k), k);
  wg_ioctl_set k h buf := (true, buf)
}.
#[export] Instance buffer_device_keeps : WgDeviceKeeps (list Z).
Proof.
  split; [intros k name; by exists 1, k|]. intros k name h buf [= <-] Hb. exists buf. cbn.
  rewrite Nat.leb_refl. destruct (Nat.leb_spec (length buf) 0); [lia|done].
Defined.

Lemma sample_packable : packable sample_device.
Proof.
  unfold packable. split; [apply sample_device_wf|]. split; [apply sample_device_canonical|]. split; [|vm_compute; done].
  repeat constructor; vm_compute; done.
Qed.

End IpcWindowsFacts.
