(* ===== verification/IpcFreebsd.v ===== *)
(** * The FreeBSD back end (src/ipc-freebsd.h)

    A device is passed to the kernel as a packed name-value list. The library of
    such lists (libnv) is the class [Nvlist]; what a list is packed into is
    opaque. Listing the interfaces is the same text as on OpenBSD.
    The number of the address family of IPv6, which the code only compares, is that
    of the rest of the library. *)
From S2P Require Import Prelude Libc Encoding Containers IpcUapi Netlink Ipc Packed IpcOpenbsd.
Import Libc Encoding StringList Packed.

Module IpcFreebsd.

(** ** libnv *)

(** Lists with numbers, binaries, booleans and arrays of lists under names. The
    observations combine [nvlist_exists_*] and [nvlist_get_*]. Unpacking gives an
    error number or the list. *)
Class Nvlist (NvL D : Type) := {
  nvlist_create : NvL;
  nvlist_add_number : NvL -> cstring -> Z -> NvL;
  nvlist_add_binary : NvL -> cstring -> list Z -> NvL;
  nvlist_add_bool : NvL -> cstring -> bool -> NvL;
  nvlist_add_nvlist_array : NvL -> cstring -> list NvL -> NvL;
  nvlist_get_number : NvL -> cstring -> option Z;
  nvlist_get_binary : NvL -> cstring -> option (list Z);
  nvlist_get_nvlist_array : NvL -> cstring -> option (list NvL);
  nvlist_pack : NvL -> Z + D;
  nvlist_unpack : D -> Z + NvL
}.

(** The ioctls: getting the size needed, getting the data into a buffer of some
    size, and setting, each with an error number. *)
Class FbsdIoctl (K D : Type) := {
  get_dgram_socket : K -> Z * K;
  siocgwg_size : K -> cstring -> (Z + nat) * K;
  siocgwg : K -> cstring -> nat -> (Z + D) * K;
  siocswg : K -> cstring -> D -> Z * K
}.

Section Kernel.
Context `{NV : Nvlist NvL D} `{FI : !FbsdIoctl K D}.

(** ** Setting a device *)

Definition aip_nvlist (aip : wgallowedip) : NvL :=
  let nvl := nvlist_create in
  let nvl := if negb (aip_flags aip =? 0) then nvlist_add_number nvl (str "flags") (aip_flags aip) else nvl in
  let nvl := nvlist_add_number nvl (str "cidr") (aip_cidr aip) in
  if aip_family aip =? AF_INET then nvlist_add_binary nvl (str "ipv4") (take 4 (aip_ip aip))
  else if aip_family aip =? AF_INET6 then nvlist_add_binary nvl (str "ipv6") (aip_ip aip)
  else nvl.

Definition peer_nvlist (peer : wgpeer) : NvL :=
  let add (c : bool) (f : NvL -> NvL) (nvl : NvL) := if c then f nvl else nvl in
  let nvl := nvlist_add_binary nvlist_create (str "public-key") (peer_public_key peer) in
  let nvl := add (has_flag (peer_flags peer) WGPEER_HAS_PRESHARED_KEY) (fun nvl =>
    nvlist_add_binary nvl (str "preshared-key") (peer_preshared_key peer)) nvl in
  let nvl := add (has_flag (peer_flags peer) WGPEER_HAS_PERSISTENT_KEEPALIVE_INTERVAL) (fun nvl =>
    nvlist_add_number nvl (str "persistent-keepalive-interval") (peer_persistent_keepalive_interval peer)) nvl in
  let nvl := add ((sa_family (peer_endpoint peer) =? AF_INET) || (sa_family (peer_endpoint peer) =? AF_INET6)) (fun nvl =>
    nvlist_add_binary nvl (str "endpoint")
      (take (IpcOpenbsd.sa_len (peer_endpoint peer)) (IpcOpenbsd.sockaddr_bytes (peer_endpoint peer)))) nvl in
  let nvl := add (has_flag (peer_flags peer) WGPEER_REPLACE_ALLOWEDIPS) (fun nvl =>
    nvlist_add_bool nvl (str "replace-allowedips") true) nvl in
  let nvl := add (has_flag (peer_flags peer) WGPEER_REMOVE_ME) (fun nvl =>
    nvlist_add_bool nvl (str "remove") true) nvl in
  add (negb (length (peer_allowedips peer) =? 0)%nat) (fun nvl =>
    nvlist_add_nvlist_array nvl (str "allowed-ips") (map aip_nvlist (peer_allowedips peer))) nvl.

Definition device_nvlist (dev : wgdevice) : NvL :=
  let add (c : bool) (f : NvL -> NvL) (nvl : NvL) := if c then f nvl else nvl in
  let nvl := nvlist_create in
  let nvl := add (has_flag (dev_flags dev) WGDEVICE_HAS_PRIVATE_KEY) (fun nvl =>
    nvlist_add_binary nvl (str "private-key") (dev_private_key dev)) nvl in
  let nvl := add (has_flag (dev_flags dev) WGDEVICE_HAS_LISTEN_PORT) (fun nvl =>
    nvlist_add_number nvl (str "listen-port") (dev_listen_port dev)) nvl in
  let nvl := add (has_flag (dev_flags dev) WGDEVICE_HAS_FWMARK) (fun nvl =>
    nvlist_add_number nvl (str "user-cookie") (dev_fwmark dev)) nvl in
  let nvl := add (has_flag (dev_flags dev) WGDEVICE_REPLACE_PEERS) (fun nvl =>
    nvlist_add_bool nvl (str "replace-peers") true) nvl in
  add (negb (length (dev_peers dev) =? 0)%nat) (fun nvl =>
    nvlist_add_nvlist_array nvl (str "peers") (map peer_nvlist (dev_peers dev))) nvl.

(** The result of the last ioctl is returned as it is: -1 when it fails. *)
Definition kernel_set_device (k : K) (dev : wgdevice) : Z * K :=
  match nvlist_pack (device_nvlist dev) with
  | inl errno => (- errno, k)
  | inr data =>
      let '(errno, k) := get_dgram_socket k in
      if negb (errno =? 0) then (- errno, k)
      else
        let '(errno, k) := siocswg k (IpcOpenbsd.strlcpy_name (dev_name dev)) data in
        (if errno =? 0 then 0 else -1, k)
  end.

(** ** Getting a device *)

Definition UINT16_MAX : Z := 65535.
Definition UINT32_MAX : Z := 2 ^ 32 - 1.

(** [memcpy(dst, binary, n)]: the size of the binary is not looked at. *)
Definition copy (n : nat) (binary : list Z) : outcome (list Z) :=
  if (n <=? length binary)%nat then Ret (take n binary) else NullDeref.

(** One turn of the loop over the allowed IPs: [None] when the entry is skipped,
    [inl] for the error. *)
Definition parse_aip (nvl : NvL) : outcome (Z + option wgallowedip) :=
  match nvlist_get_number nvl (str "cidr") with
  | None => Ret (inr None)
  | Some number =>
      match nvlist_get_binary nvl (str "ipv4"), nvlist_get_binary nvl (str "ipv6") with
      | None, None => Ret (inr None)
      | Some binary, _ =>
          if 32 <? number then Ret (inl IpcUapi.EINVAL)
          else
            ip4 ← copy 4 binary;
            Ret (inr (Some {| aip_family := AF_INET; aip_ip := ip4 ++ replicate 12 0; aip_cidr := u8 number;
                              aip_flags := 0 |}))
      | None, Some binary =>
          if 128 <? number then Ret (inl IpcUapi.EINVAL)
          else
            ip6 ← copy 16 binary;
            Ret (inr (Some {| aip_family := AF_INET6; aip_ip := ip6; aip_cidr := u8 number; aip_flags := 0 |}))
      end
  end.
Fixpoint parse_aips (nvl_aips : list NvL) : outcome (Z + list wgallowedip) :=
  match nvl_aips with
  | [] => Ret (inr [])
  | nvl :: nvl_aips =>
      r ← parse_aip nvl;
      match r with
      | inl ret => Ret (inl ret)
      | inr aip =>
          r ← parse_aips nvl_aips;
          match r, aip with
          | inl ret, _ => Ret (inl ret)
          | inr l, Some aip => Ret (inr (aip :: l))
          | inr l, None => Ret (inr l)
          end
      end
  end.

(** What is done with a number or a binary when it exists. *)
Definition if_number {T} (nvl : NvL) (name : cstring) (f : Z -> T -> T) (x : T) : T :=
  match nvlist_get_number nvl name with Some number => f number x | None => x end.
Definition if_binary {T} (nvl : NvL) (name : cstring) (f : list Z -> T -> T) (x : T) : T :=
  match nvlist_get_binary nvl name with Some binary => f binary x | None => x end.

(** The members of a peer other than its allowed IPs. *)
Definition parse_peer_head (nvl : NvL) : wgpeer :=
  let p := zero_peer in
  let p := if_binary nvl (str "public-key") (fun b p =>
    if (length b =? WG_KEY_LEN)%nat
    then with_peer_flags (set_flag WGPEER_HAS_PUBLIC_KEY) (with_public_key b p) else p) p in
  let p := if_binary nvl (str "preshared-key") (fun b p =>
    if (length b =? WG_KEY_LEN)%nat
    then let p := with_preshared_key b p in
         if negb (key_is_zero (peer_preshared_key p))
         then with_peer_flags (set_flag WGPEER_HAS_PRESHARED_KEY) p else p
    else p) p in
  let p := if_number nvl (str "persistent-keepalive-interval") (fun n p =>
    if n <=? UINT16_MAX
    then with_peer_flags (set_flag WGPEER_HAS_PERSISTENT_KEEPALIVE_INTERVAL) (with_keepalive n p) else p) p in
  let p := if_binary nvl (str "endpoint") (fun b p =>
    if (length b <=? 28)%nat && (16 <=? length b)%nat
       && ((int_member 1 1 b =? AF_INET) || (int_member 1 1 b =? AF_INET6))
    then with_endpoint (IpcOpenbsd.read_sockaddr (b ++ replicate (28 - length b) 0)) p else p) p in
  let p := if_number nvl (str "rx-bytes") (fun n p => with_transfer n (peer_tx_bytes p) p) p in
  let p := if_number nvl (str "tx-bytes") (fun n p => with_transfer (peer_rx_bytes p) n p) p in
  if_binary nvl (str "last-handshake-time") (fun b p =>
    if (length b =? 16)%nat
    then with_handshake {| tv_sec := s64 (int_member 0 8 b); tv_nsec := s64 (int_member 8 8 b) |} p else p) p.

Definition parse_peer (nvl : NvL) : outcome (Z + wgpeer) :=
  let p := parse_peer_head nvl in
  match nvlist_get_nvlist_array nvl (str "allowed-ips") with
  | None => Ret (inr p)
  | Some nvl_aips =>
      r ← parse_aips nvl_aips;
      match r with
      | inl ret => Ret (inl ret)
      | inr l => Ret (inr (with_allowedips l p))
      end
  end.
Fixpoint parse_peers (nvl_peers : list NvL) : outcome (Z + list wgpeer) :=
  match nvl_peers with
  | [] => Ret (inr [])
  | nvl :: nvl_peers =>
      r ← parse_peer nvl;
      match r with
      | inl ret => Ret (inl ret)
      | inr p =>
          r ← parse_peers nvl_peers;
          match r with
          | inl ret => Ret (inl ret)
          | inr l => Ret (inr (p :: l))
          end
      end
  end.

Definition parse_device_head (ifname : cstring) (nvl : NvL) : wgdevice :=
  let d := with_dev_name (IpcOpenbsd.strlcpy_name ifname) zero_device in
  let d := if_number nvl (str "listen-port") (fun n d =>
    if n <=? UINT16_MAX then with_dev_flags (set_flag WGDEVICE_HAS_LISTEN_PORT) (with_listen_port n d) else d) d in
  let d := if_number nvl (str "user-cookie") (fun n d =>
    if n <=? UINT32_MAX then with_dev_flags (set_flag WGDEVICE_HAS_FWMARK) (with_fwmark n d) else d) d in
  let d := if_binary nvl (str "public-key") (fun b d =>
    if (length b =? WG_KEY_LEN)%nat
    then with_dev_flags (set_flag WGDEVICE_HAS_PUBLIC_KEY) (with_dev_public_key b d) else d) d in
  if_binary nvl (str "private-key") (fun b d =>
    if (length b =? WG_KEY_LEN)%nat
    then with_dev_flags (set_flag WGDEVICE_HAS_PRIVATE_KEY) (with_private_key b d) else d) d.

Definition parse_device (ifname : cstring) (nvl : NvL) : outcome (Z + wgdevice) :=
  let d := parse_device_head ifname nvl in
  match nvlist_get_nvlist_array nvl (str "peers") with
  | None => Ret (inr d)
  | Some nvl_peers =>
      r ← parse_peers nvl_peers;
      match r with
      | inl ret => Ret (inl ret)
      | inr l => Ret (inr (with_peers l d))
      end
  end.

(** The error of an allowed IP is returned as it is, without a sign. *)
Definition kernel_get_device (k : K) (ifname : cstring) : outcome (Z * option wgdevice * K) :=
  let '(errno, k) := get_dgram_socket k in
  if negb (errno =? 0) then Ret (- errno, None, k)
  else
    let '(r, k) := siocgwg_size k (IpcOpenbsd.strlcpy_name ifname) in
    match r with
    | inl errno => Ret (- errno, None, k)
    | inr size =>
        let '(r, k) := siocgwg k (IpcOpenbsd.strlcpy_name ifname) size in
        match r with
        | inl errno => Ret (- errno, None, k)
        | inr data =>
            match nvlist_unpack data with
            | inl errno => Ret (- errno, None, k)
            | inr nvl =>
                r ← parse_device ifname nvl;
                match r with
                | inl ret => Ret (ret, None, k)
                | inr dev => Ret (0, Some dev, k)
                end
            end
        end
    end.

End Kernel.

(** Listing the interfaces: line for line the function of OpenBSD. *)
Definition kernel_get_wireguard_interfaces `{!IpcOpenbsd.WgIoctl K} (k : K) (list : string_list)
    : outcome (Z * string_list * K) :=
  IpcOpenbsd.kernel_get_wireguard_interfaces k list.
End IpcFreebsd.
