(* ===== verification/IpcFreebsdFacts.v ===== *)
(** * The FreeBSD back end: theorems

    The lists [kernel_set_device] builds never use a name twice, and
    [kernel_get_device] reads the configuration back from them; an allowed IP with
    too long a prefix makes it return a positive number and no device. *)
From S2P Require Import Prelude Libc Encoding Containers Names Showconf Samples Netlink Ipc IpcLinux IpcLinuxRead.
From S2P Require Import Packed IpcOpenbsd IpcOpenbsdFacts IpcWindowsFacts IpcFreebsd.
Import Libc Encoding Showconf StringList Packed IpcFreebsd.

Module IpcFreebsdFacts.

(** ** Name-value lists *)

Inductive nv_item (NvL : Type) : Type :=
| NvNumber (n : Z)
| NvBinary (b : list Z)
| NvBool (b : bool)
| NvArray (l : list NvL).
Arguments NvNumber {NvL} n.
Arguments NvBinary {NvL} b.
Arguments NvBool {NvL} b.
Arguments NvArray {NvL} l.

Fixpoint nv_find {NvL} (a : cstring) (l : list (cstring * nv_item NvL)) : option (nv_item NvL) :=
  match l with
  | [] => None
  | (b, i) :: l => if bool_decide (a = b) then Some i else nv_find a l
  end.

(** What the sources rely on in libnv: a list is what was added to it, under names
    that are not there yet, and packing keeps it. *)
Class NvlistLaws (NvL D : Type) `{!Nvlist NvL D} := {
  contents : NvL -> list (cstring * nv_item NvL);
  contents_create : contents nvlist_create = [];
  contents_number n a v : nv_find a (contents n) = None ->
    contents (nvlist_add_number n a v) = contents n ++ [(a, NvNumber v)];
  contents_binary n a v : nv_find a (contents n) = None ->
    contents (nvlist_add_binary n a v) = contents n ++ [(a, NvBinary v)];
  contents_bool n a v : nv_find a (contents n) = None ->
    contents (nvlist_add_bool n a v) = contents n ++ [(a, NvBool v)];
  contents_array n a v : nv_find a (contents n) = None ->
    contents (nvlist_add_nvlist_array n a v) = contents n ++ [(a, NvArray v)];
  get_number n a : nvlist_get_number n a =
    match nv_find a (contents n) with Some (NvNumber v) => Some v | _ => None end;
  get_binary n a : nvlist_get_binary n a =
    match nv_find a (contents n) with Some (NvBinary v) => Some v | _ => None end;
  get_array n a : nvlist_get_nvlist_array n a =
    match nv_find a (contents n) with Some (NvArray v) => Some v | _ => None end;
  pack_unpack n : exists data, nvlist_pack n = inr data /\ nvlist_unpack data = inr n
}.

(** An item that may be there. *)
Definition opt {NvL} (c : bool) (a : cstring) (i : nv_item NvL) : list (cstring * nv_item NvL) := if c then [(a, i)] else [].

Lemma find_app {NvL} a (l1 l2 : list (cstring * nv_item NvL)) :
  nv_find a (l1 ++ l2) = match nv_find a l1 with Some i => Some i | None => nv_find a l2 end.
Proof. induction l1 as [|[b i] l1 IH]; cbn [nv_find app]; [done|]. by case_bool_decide. Qed.
Lemma find_opt {NvL} a c b (i : nv_item NvL) : nv_find a (opt c b i) = if c && bool_decide (a = b) then Some i else None.
Proof. unfold opt. destruct c; [|done]. cbn [nv_find andb]. done. Qed.

(** The names are compared by evaluation. *)
Ltac names :=
  rewrite ?find_app, ?find_opt; cbn [nv_find];
  repeat match goal with
  | |- context [bool_decide (?a = ?b)] =>
      let r := eval vm_compute in (bool_decide (a = b)) in change (bool_decide (a = b)) with r
  end;
  rewrite ?andb_true_r, ?andb_false_r; cbv iota.

Ltac flags :=
  repeat match goal with |- context [if ?c then _ else _] => lazymatch c with context [if _ then _ else _] => fail | _ => destruct c end end;
  reflexivity.

(** ** Addresses and allowed IPs *)

Definition fbsd_aip (a : wgallowedip) : Prop :=
  packed_aip a /\ (aip_family a = AF_INET -> aip_cidr a <= 32) /\ (aip_family a = AF_INET6 -> aip_cidr a <= 128).

Lemma packable_aips d : packable d -> Forall (fun p => Forall fbsd_aip (peer_allowedips p)) (dev_peers d).
Proof.
  intros Hd. destruct (packable_peers d Hd) as (_ & H & _). destruct Hd as ((_ & _ & _ & _ & _ & Hw) & _).
  rewrite Forall_forall in *. intros p Hp. specialize (H p Hp). destruct (Hw p Hp) as (_ & _ & _ & _ & Ha).
  rewrite Forall_forall in *. intros a Hin. destruct (Ha a Hin) as (_ & _ & Hfam & _).
  split; [auto|]. unfold AF_INET, AF_INET6 in *. split; intros E; destruct Hfam; lia.
Qed.

Lemma read_sockaddr_v6 sa : canonical_sockaddr sa -> sa_family sa = AF_INET6 -> 0 <= sa_scope_id sa < 2 ^ 32 ->
  IpcOpenbsd.read_sockaddr (IpcOpenbsd.sockaddr_bytes sa) = sa.
Proof.
  intros (Hp & Hf & _ & [(E' & _)|(_ & Hl)]) E Hsc; [by rewrite E in E'|].
  destruct sa as [fam port addr flow scope]. cbn [sa_family sa_port sa_addr sa_flowinfo sa_scope_id] in *. subst.
  pose proof (le_bytes_length 4 scope) as Hn. pose proof (le_number_le_bytes 4 scope ltac:(lia)) as Hsn.
  pose proof (IpcLinuxRead.be16_number port Hp) as Hport.
  unfold IpcOpenbsd.sockaddr_bytes, IpcOpenbsd.sa_len. cbn [sa_family sa_port sa_addr sa_flowinfo sa_scope_id].
  change (AF_INET6 =? AF_INET) with false. change (AF_INET6 =? AF_INET6) with true. cbv iota.
  rewrite take_ge by lia. change (le_bytes 4 0) with [0; 0; 0; 0].
  do 16 (destruct addr as [|? addr]; [discriminate Hl|]). destruct addr; [|discriminate Hl].
  destruct (le_bytes 4 scope) as [|s0 [|s1 [|s2 [|s3 [|]]]]]; try discriminate Hn.
  unfold IpcOpenbsd.read_sockaddr, int_member, member, IpcLinux.be16 in *. cbn in *. f_equal; lia.
Qed.

(** An endpoint that is added is read back whole. *)
Lemma known_endpoint sa : canonical_sockaddr sa -> 0 <= sa_scope_id sa < 2 ^ 32 ->
  let b := take (IpcOpenbsd.sa_len sa) (IpcOpenbsd.sockaddr_bytes sa) in
  (length b <=? 28)%nat && (16 <=? length b)%nat && ((int_member 1 1 b =? AF_INET) || (int_member 1 1 b =? AF_INET6)) = true /\
  IpcOpenbsd.read_sockaddr (b ++ replicate (28 - length b) 0) = sa.
Proof.
  intros Hc Hsc b. pose proof (IpcOpenbsdFacts.length_sockaddr_bytes sa Hc) as Hl. pose proof Hc as (_ & _ & _ & Hfam).
  assert (Hlb : length b = IpcOpenbsd.sa_len sa)
    by (unfold b; rewrite length_take, Hl; pose proof (IpcOpenbsdFacts.sa_len_small sa); lia).
  rewrite Hlb. destruct Hfam as [(E & _)|(E & _)].
  - unfold b, IpcOpenbsd.sa_len. rewrite E. change (AF_INET =? AF_INET) with true. cbv iota.
    split; [|by apply IpcOpenbsdFacts.read_sockaddr_inverse].
    unfold int_member, member, IpcOpenbsd.sockaddr_bytes. rewrite E. reflexivity.
  - unfold b, IpcOpenbsd.sa_len. rewrite E. change (AF_INET6 =? AF_INET) with false. change (AF_INET6 =? AF_INET6) with true.
    cbv iota. rewrite take_ge by lia. change (28 - 28)%nat with 0%nat. cbn [replicate]. rewrite app_nil_r.
    split; [|by apply read_sockaddr_v6]. unfold int_member, member, IpcOpenbsd.sockaddr_bytes. rewrite E. reflexivity.
Qed.

Section Lists.
Context `{NL : NvlistLaws NvL D}.

Lemma contents_if (c : bool) (n : NvL) a i (f : NvL -> NvL) l : contents n = l ->
  (nv_find a (contents n) = None -> contents (f n) = contents n ++ [(a, i)]) -> nv_find a l = None ->
  contents (if c then f n else n) = l ++ opt c a i.
Proof. intros <- Hf Ha. destruct c; cbn [opt]; [by apply Hf|by rewrite app_nil_r]. Qed.

Lemma add_number (c : bool) (n : NvL) a v l : contents n = l -> nv_find a l = None ->
  contents (if c then nvlist_add_number n a v else n) = l ++ opt c a (NvNumber v).
Proof. intros H. apply (contents_if c n a _ (fun n => nvlist_add_number n a v)); [done|apply contents_number]. Qed.
Lemma add_binary (c : bool) (n : NvL) a v l : contents n = l -> nv_find a l = None ->
  contents (if c then nvlist_add_binary n a v else n) = l ++ opt c a (NvBinary v).
Proof. intros H. apply (contents_if c n a _ (fun n => nvlist_add_binary n a v)); [done|apply contents_binary]. Qed.
Lemma add_bool (c : bool) (n : NvL) a v l : contents n = l -> nv_find a l = None ->
  contents (if c then nvlist_add_bool n a v else n) = l ++ opt c a (NvBool v).
Proof. intros H. apply (contents_if c n a _ (fun n => nvlist_add_bool n a v)); [done|apply contents_bool]. Qed.
Lemma add_array (c : bool) (n : NvL) a v l : contents n = l -> nv_find a l = None ->
  contents (if c then nvlist_add_nvlist_array n a v else n) = l ++ opt c a (NvArray v).
Proof. intros H. apply (contents_if c n a _ (fun n => nvlist_add_nvlist_array n a v)); [done|apply contents_array]. Qed.

Lemma contents_aip a : packed_aip a -> contents (aip_nvlist a) =
  opt (negb (aip_flags a =? 0)) (str "flags") (NvNumber (aip_flags a)) ++ [(str "cidr", NvNumber (aip_cidr a))] ++
  [(str (if aip_family a =? AF_INET then "ipv4" else "ipv6"),
    NvBinary (if aip_family a =? AF_INET then take 4 (aip_ip a) else aip_ip a))].
Proof.
  intros (_ & _ & Hfam). unfold aip_nvlist. cbv zeta.
  set (n := if negb (aip_flags a =? 0) then _ else _).
  assert (E1 : contents n = opt (negb (aip_flags a =? 0)) (str "flags") (NvNumber (aip_flags a))).
  { unfold n. by rewrite (add_number _ _ _ _ [] contents_create). }
  assert (E2 : contents (nvlist_add_number n (str "cidr") (aip_cidr a)) =
    opt (negb (aip_flags a =? 0)) (str "flags") (NvNumber (aip_flags a)) ++ [(str "cidr", NvNumber (aip_cidr a))])
    by (rewrite contents_number; rewrite E1; [done|by names]).
  destruct Hfam as [[-> _]| ->].
  - change (AF_INET =? AF_INET) with true. cbv iota. rewrite contents_binary; rewrite E2; [by rewrite <- app_assoc|by names].
  - change (AF_INET6 =? AF_INET) with false. change (AF_INET6 =? AF_INET6) with true. cbv iota.
    rewrite contents_binary; rewrite E2; [by rewrite <- app_assoc|by names].
Qed.

Lemma contents_peer p : contents (peer_nvlist p) =
  [(str "public-key", NvBinary (peer_public_key p))] ++
  opt (has_flag (peer_flags p) WGPEER_HAS_PRESHARED_KEY) (str "preshared-key") (NvBinary (peer_preshared_key p)) ++
  opt (has_flag (peer_flags p) WGPEER_HAS_PERSISTENT_KEEPALIVE_INTERVAL) (str "persistent-keepalive-interval")
    (NvNumber (peer_persistent_keepalive_interval p)) ++
  opt (endpoint_known (peer_endpoint p)) (str "endpoint")
    (NvBinary (take (IpcOpenbsd.sa_len (peer_endpoint p)) (IpcOpenbsd.sockaddr_bytes (peer_endpoint p)))) ++
  opt (has_flag (peer_flags p) WGPEER_REPLACE_ALLOWEDIPS) (str "replace-allowedips") (NvBool true) ++
  opt (has_flag (peer_flags p) WGPEER_REMOVE_ME) (str "remove") (NvBool true) ++
  opt (negb (length (peer_allowedips p) =? 0)%nat) (str "allowed-ips") (NvArray (map aip_nvlist (peer_allowedips p))).
Proof.
  unfold peer_nvlist. cbv zeta. fold (endpoint_known (peer_endpoint p)). rewrite !app_assoc.
  do 6 (first [apply add_number|apply add_binary|apply add_bool|apply add_array]; [|by names]).
  rewrite contents_binary; by rewrite contents_create.
Qed.

Lemma contents_device d : contents (device_nvlist d) =
  opt (has_flag (dev_flags d) WGDEVICE_HAS_PRIVATE_KEY) (str "private-key") (NvBinary (dev_private_key d)) ++
  opt (has_flag (dev_flags d) WGDEVICE_HAS_LISTEN_PORT) (str "listen-port") (NvNumber (dev_listen_port d)) ++
  opt (has_flag (dev_flags d) WGDEVICE_HAS_FWMARK) (str "user-cookie") (NvNumber (dev_fwmark d)) ++
  opt (has_flag (dev_flags d) WGDEVICE_REPLACE_PEERS) (str "replace-peers") (NvBool true) ++
  opt (negb (length (dev_peers d) =? 0)%nat) (str "peers") (NvArray (map peer_nvlist (dev_peers d))).
Proof.
  unfold device_nvlist. cbv zeta. rewrite !app_assoc.
  do 4 (first [apply add_number|apply add_binary|apply add_bool|apply add_array]; [|by names]).
  by apply (add_binary _ _ _ _ [] contents_create).
Qed.

(** ** Reading back *)

Lemma parse_aip_inverse a : fbsd_aip a -> parse_aip (aip_nvlist a) = Ret (inr (Some (reload_allowedip a))).
Proof.
  intros (Ha & H4 & H6). unfold parse_aip. rewrite get_number, !get_binary, (contents_aip a Ha).
  destruct Ha as (Hl & Hc & Hfam). unfold reload_allowedip.
  destruct a as [fam ip cidr flags]. cbn [aip_family aip_ip aip_cidr aip_flags] in *.
  destruct Hfam as [[-> Hd]| ->].
  - specialize (H4 eq_refl). change (AF_INET =? AF_INET) with true. cbv iota. names.
    destruct (Z.ltb_spec 32 cidr); [lia|]. unfold copy. rewrite length_take, Hl, Nat.leb_refl. cbn [mbind outcome_bind].
    rewrite take_take, u8_small by done. by rewrite <- Hd, take_drop.
  - specialize (H6 eq_refl). change (AF_INET6 =? AF_INET) with false. cbv iota. names.
    destruct (Z.ltb_spec 128 cidr); [lia|]. unfold copy. rewrite Hl, Nat.leb_refl. cbn [mbind outcome_bind].
    by rewrite take_ge, u8_small by (done || lia).
Qed.
Lemma parse_aips_inverse l : Forall fbsd_aip l -> parse_aips (map aip_nvlist l) = Ret (inr (map reload_allowedip l)).
Proof.
  induction 1 as [|a l Ha _ IH]; [done|]. cbn [map parse_aips]. rewrite parse_aip_inverse by done.
  cbn [mbind outcome_bind]. by rewrite IH.
Qed.

(** The names of a peer that are looked up. *)
Lemma peer_lookups p :
  nvlist_get_binary (peer_nvlist p) (str "public-key") = Some (peer_public_key p) /\
  nvlist_get_binary (peer_nvlist p) (str "preshared-key")
    = (if has_flag (peer_flags p) WGPEER_HAS_PRESHARED_KEY then Some (peer_preshared_key p) else None) /\
  nvlist_get_number (peer_nvlist p) (str "persistent-keepalive-interval")
    = (if has_flag (peer_flags p) WGPEER_HAS_PERSISTENT_KEEPALIVE_INTERVAL
       then Some (peer_persistent_keepalive_interval p) else None) /\
  nvlist_get_binary (peer_nvlist p) (str "endpoint")
    = (if endpoint_known (peer_endpoint p)
       then Some (take (IpcOpenbsd.sa_len (peer_endpoint p)) (IpcOpenbsd.sockaddr_bytes (peer_endpoint p))) else None) /\
  nvlist_get_number (peer_nvlist p) (str "rx-bytes") = None /\
  nvlist_get_number (peer_nvlist p) (str "tx-bytes") = None /\
  nvlist_get_binary (peer_nvlist p) (str "last-handshake-time") = None /\
  nvlist_get_nvlist_array (peer_nvlist p) (str "allowed-ips")
    = if negb (length (peer_allowedips p) =? 0)%nat then Some (map aip_nvlist (peer_allowedips p)) else None.
Proof. split_and!; first [rewrite get_number|rewrite get_binary|rewrite get_array]; rewrite contents_peer; names; flags. Qed.

Lemma number_is {T} n a r (f : Z -> T -> T) x : nvlist_get_number n a = r ->
  if_number n a f x = match r with Some v => f v x | None => x end.
Proof. intros <-. done. Qed.
Lemma binary_is {T} n a r (f : list Z -> T -> T) x : nvlist_get_binary n a = r ->
  if_binary n a f x = match r with Some v => f v x | None => x end.
Proof. intros <-. done. Qed.

Lemma head_reads p : packed_peer p ->
  parse_peer_head (peer_nvlist p) = with_allowedips [] (carried_peer IpcWindowsFacts.windows_endpoint p).
Proof.
  intros (Hpub & Hpsk & Hpka & Hend & Hsc). destruct (peer_lookups p) as (L1 & L2 & L3 & L4 & L5 & L6 & L7 & _).
  unfold parse_peer_head. cbv zeta.
  rewrite (binary_is _ _ _ _ _ L1), (binary_is _ _ _ _ _ L2), (number_is _ _ _ _ _ L3), (binary_is _ _ _ _ _ L4),
    (number_is _ _ _ _ _ L5), (number_is _ _ _ _ _ L6), (binary_is _ _ _ _ _ L7).
  clear L1 L2 L3 L4 L5 L6 L7. rewrite Hpub, Nat.eqb_refl.
  pose proof (known_endpoint (peer_endpoint p)) as Hep.
  unfold carried_peer, IpcWindowsFacts.windows_endpoint.
  destruct (has_flag (peer_flags p) WGPEER_HAS_PRESHARED_KEY); [rewrite Hpsk, Nat.eqb_refl|];
  (destruct (has_flag (peer_flags p) WGPEER_HAS_PERSISTENT_KEEPALIVE_INTERVAL);
    [destruct (Z.leb_spec (peer_persistent_keepalive_interval p) UINT16_MAX) as [_|]; [|unfold UINT16_MAX in *; lia]|]);
  (destruct (endpoint_known (peer_endpoint p)); [destruct (Hep (Hend eq_refl) Hsc) as [E1 E2]; rewrite E1, E2; clear E1 E2|]);
  destruct (key_is_zero (peer_preshared_key p)) eqn:Ek; cbn; rewrite ?Ek; reflexivity.
Qed.

Lemma parse_peer_inverse p : packed_peer p -> Forall fbsd_aip (peer_allowedips p) ->
  parse_peer (peer_nvlist p) = Ret (inr (carried_peer IpcWindowsFacts.windows_endpoint p)).
Proof.
  intros Hp Ha. unfold parse_peer. cbv zeta. rewrite head_reads by done.
  destruct (peer_lookups p) as (_ & _ & _ & _ & _ & _ & _ & ->).
  destruct (peer_allowedips p) as [|a l] eqn:E.
  - cbn [length Nat.eqb negb]. cbv iota. unfold carried_peer. rewrite E. reflexivity.
  - cbn [length Nat.eqb negb]. cbv iota. rewrite parse_aips_inverse by done. cbn [mbind outcome_bind].
    unfold carried_peer. rewrite E. reflexivity.
Qed.
Lemma parse_peers_inverse l : Forall packed_peer l -> Forall (fun p => Forall fbsd_aip (peer_allowedips p)) l ->
  parse_peers (map peer_nvlist l) = Ret (inr (map (carried_peer IpcWindowsFacts.windows_endpoint) l)).
Proof.
  induction 1 as [|p l Hp _ IH]; intros Ha; [done|]. apply Forall_cons in Ha as [Ha Hl]. cbn [map parse_peers].
  rewrite parse_peer_inverse by done. cbn [mbind outcome_bind]. by rewrite IH.
Qed.

Lemma device_lookups d :
  nvlist_get_number (device_nvlist d) (str "listen-port")
    = (if has_flag (dev_flags d) WGDEVICE_HAS_LISTEN_PORT then Some (dev_listen_port d) else None) /\
  nvlist_get_number (device_nvlist d) (str "user-cookie")
    = (if has_flag (dev_flags d) WGDEVICE_HAS_FWMARK then Some (dev_fwmark d) else None) /\
  nvlist_get_binary (device_nvlist d) (str "public-key") = None /\
  nvlist_get_binary (device_nvlist d) (str "private-key")
    = (if has_flag (dev_flags d) WGDEVICE_HAS_PRIVATE_KEY then Some (dev_private_key d) else None) /\
  nvlist_get_nvlist_array (device_nvlist d) (str "peers")
    = if negb (length (dev_peers d) =? 0)%nat then Some (map peer_nvlist (dev_peers d)) else None.
Proof. split_and!; first [rewrite get_number|rewrite get_binary|rewrite get_array]; rewrite contents_device; names; flags. Qed.

Lemma parse_device_inverse d : packable d -> (length (dev_name d) < IFNAMSIZ)%nat ->
  parse_device (dev_name d) (device_nvlist d) = Ret (inr (carried_device true IpcWindowsFacts.windows_endpoint d)).
Proof.
  intros Hd Hname. destruct (packable_peers d Hd) as (H1 & _ & _). pose proof (packable_aips d Hd) as H2.
  pose proof Hd as ((_ & _ & [Hk _] & Hfw & Hport & _) & _).
  destruct (device_lookups d) as (L1 & L2 & L3 & L4 & L5). unfold parse_device, parse_device_head. cbv zeta.
  rewrite (number_is _ _ _ _ _ L1), (number_is _ _ _ _ _ L2), (binary_is _ _ _ _ _ L3), (binary_is _ _ _ _ _ L4), L5.
  clear L1 L2 L3 L4 L5. rewrite IpcOpenbsdFacts.strlcpy_short by done.
  pose proof (parse_peers_inverse _ H1 H2) as Hps. unfold carried_device.
  destruct (has_flag (dev_flags d) WGDEVICE_HAS_PRIVATE_KEY); [rewrite Hk, Nat.eqb_refl|];
  (destruct (has_flag (dev_flags d) WGDEVICE_HAS_LISTEN_PORT);
    [destruct (Z.leb_spec (dev_listen_port d) UINT16_MAX) as [_|]; [|unfold UINT16_MAX in *; lia]|]);
  (destruct (has_flag (dev_flags d) WGDEVICE_HAS_FWMARK);
    [destruct (Z.leb_spec (dev_fwmark d) UINT32_MAX) as [_|]; [|unfold UINT32_MAX in *; lia]|]);
  (destruct (dev_peers d) as [|p l]; cbn [length Nat.eqb negb]; [|rewrite Hps; cbn [mbind outcome_bind]]; reflexivity).
Qed.

(** Every error of an allowed IP is [EINVAL], and it becomes the result. *)
Lemma parse_peer_error nvl ret : parse_peer nvl = Ret (inl ret) -> ret = IpcUapi.EINVAL.
Proof.
  unfold parse_peer. destruct (nvlist_get_nvlist_array _ _) as [l|]; [|done].
  assert (Ha : forall l, parse_aips l = Ret (inl ret) -> ret = IpcUapi.EINVAL).
  { clear l. induction l as [|a l IH]; cbn [parse_aips]; [done|]. unfold parse_aip.
    repeat case_match; cbn [mbind outcome_bind]; try (unfold copy; case_match; cbn [mbind outcome_bind]); try done;
      try (by intros [= <-]); destruct (parse_aips l) as [[?|?]| | |]; cbn [mbind outcome_bind]; try done; auto. }
  destruct (parse_aips l) as [[?|?]| | |] eqn:E; cbn [mbind outcome_bind]; try done. intros [= ->]. eauto.
Qed.

End Lists.

(** ** Setting and getting *)

(** A kernel that opens sockets, takes what it is given and gives it back. *)
Class FbsdKeeps (K D : Type) `{!FbsdIoctl K D} := {
  keeps_socket (k : K) : exists k', get_dgram_socket k = (0, k');
  keeps_set (k : K) name data : exists k' size, siocswg k name data = (0, k') /\ get_dgram_socket k' = (0, k') /\
    siocgwg_size k' name = (inr size, k') /\ siocgwg k' name size = (inr data, k')
}.

(** Setting a device and getting it on FreeBSD: no name is added twice to a list,
    and from a kernel that keeps what it is given [kernel_get_device] reads the
    configuration back, endpoints of both families and the firewall mark
    included. (C8) *)
Theorem freebsd_set_get `{NL : NvlistLaws NvL D} `{FK : FbsdKeeps K D} (k : K) d :
  packable d -> (length (dev_name d) < IFNAMSIZ)%nat ->
  exists k', kernel_set_device k d = (0, k') /\
    kernel_get_device k' (dev_name d) = Ret (0, Some (carried_device true IpcWindowsFacts.windows_endpoint d), k').
Proof.
  intros Hd Hname. unfold kernel_set_device. destruct (pack_unpack (device_nvlist d)) as (data & -> & Hu).
  destruct (keeps_socket k) as [k0 ->]. cbn [negb Z.eqb].
  destruct (keeps_set k0 (IpcOpenbsd.strlcpy_name (dev_name d)) data) as (k' & size & -> & Es & Eg & Ed).
  exists k'. split; [reflexivity|]. unfold kernel_get_device. rewrite Es. cbn [negb Z.eqb]. rewrite Eg, Ed, Hu.
  rewrite parse_device_inverse by done. reflexivity.
Qed.

(** Lists as trees, packed as they are, and a kernel that keeps one of them. *)
Inductive nv_tree : Type := NvTree (l : list (cstring * nv_item nv_tree)).
Definition tree_contents (t : nv_tree) : list (cstring * nv_item nv_tree) := let '(NvTree l) := t in l.
Definition tree_add (t : nv_tree) (a : cstring) (i : nv_item nv_tree) : nv_tree := NvTree (tree_contents t ++ [(a, i)]).
#[export] Instance tree_nvlist : Nvlist nv_tree nv_tree := {
  nvlist_create := NvTree [];
  nvlist_add_number t a v := tree_add t a (NvNumber v);
  nvlist_add_binary t a v := tree_add t a (NvBinary v);
  nvlist_add_bool t a v := tree_add t a (NvBool v);
  nvlist_add_nvlist_array t a v := tree_add t a (NvArray v);
  nvlist_get_number t a := match nv_find a (tree_contents t) with Some (NvNumber v) => Some v | _ => None end;
  nvlist_get_binary t a := match nv_find a (tree_contents t) with Some (NvBinary v) => Some v | _ => None end;
  nvlist_get_nvlist_array t a := match nv_find a (tree_contents t) with Some (NvArray v) => Some v | _ => None end;
  nvlist_pack t := inr t;
  nvlist_unpack t := inr t
}.
#[export] Instance tree_laws : NvlistLaws nv_tree nv_tree.
Proof. apply (Build_NvlistLaws _ _ _ tree_contents); try done. intros n. by exists n. Defined.

#[export] Instance tree_ioctl : FbsdIoctl (option nv_tree) nv_tree := {
  get_dgram_socket k := (0, k);
  siocgwg_size k name := (match k with Some t => inr 1%nat | None => inl 6 end, k);
  siocgwg k name size := (match k with Some t => inr t | None => inl 6 end, k);
  siocswg k name t := (0, Some t)
}.
#[export] Instance tree_keeps : FbsdKeeps (option nv_tree) nv_tree.
Proof. split; [by eexists|]. intros k name t. by exists (Some t), 1%nat. Defined.

Lemma freebsd_set_get_witness : exists k' : option nv_tree,
  kernel_set_device None IpcOpenbsdFacts.sample_v6 = (0, k') /\
  kernel_get_device k' (str "wg0")
    = Ret (0, Some (carried_device true IpcWindowsFacts.windows_endpoint IpcOpenbsdFacts.sample_v6), k') /\
  map peer_endpoint (dev_peers (carried_device true IpcWindowsFacts.windows_endpoint IpcOpenbsdFacts.sample_v6))
  = map peer_endpoint (dev_peers IpcOpenbsdFacts.sample_v6).
Proof.
  destruct (freebsd_set_get (None : option nv_tree) IpcOpenbsdFacts.sample_v6 IpcOpenbsdFacts.sample_v6_packable)
    as (k' & E1 & E2); [vm_compute; lia|].
  exists k'. split; [exact E1|]. split; [exact E2|reflexivity].
Defined.

(** Where the kernel sends an IPv4 prefix longer than 32, the caller gets the
    positive number [EINVAL] and no device. *)
Lemma freebsd_positive_error : exists k : option nv_tree,
  kernel_get_device k (str "wg0") = Ret (IpcUapi.EINVAL, None, k) /\ 0 < IpcUapi.EINVAL.
Proof.
  exists (Some (NvTree [(str "peers", NvArray [NvTree [(str "allowed-ips",
    NvArray [NvTree [(str "cidr", NvNumber 33); (str "ipv4", NvBinary [10; 0; 0; 0])]])]])])).
  split; reflexivity.
Qed.
End IpcFreebsdFacts.
