(* ===== verification/Terminal.v ===== *)
(** * Terminal output (src/terminal.c)

    [filter_ansi] formats a string and, unless colours are on, blanks the
    escape sequences in the formatted buffer in place and prints the pieces
    between the blanks. The buffer is modelled as such, with the two loops over
    its indices, and shown equal to a recursive reference. *)
From S2P Require Import Prelude Ctype Libc.
Import Ctype Libc.

Module Terminal.

Definition ESC : ascii := ascii_of_nat 27.

Section Filter.
Context `{P : Platform}.

(** [color_mode]: the environment decides, then whether stdout is a terminal. *)
Definition color_mode `{W : World} (isatty : bool) : bool :=
  match getenv (str "WG_COLOR_MODE") with
  | Some var =>
      if str_eq var (str "always") then true
      else if str_eq var (str "never") then false
      else isatty
  | None => isatty
  end.

(** [for (j = i + 2; j < len; ++j) { if (alpha) break; str[j] = 0; } str[j] = 0;]
    on the part of the buffer from [j] on; the cell at [len] is the terminating
    NUL, which is not part of the list. *)
Fixpoint blank_sequence (s : cstring) : cstring :=
  match s with
  | [] => []
  | c :: r => if char_is_alpha (char_int c) then NUL :: r else NUL :: blank_sequence r
  end.

(** One turn of the first loop at index [i]. *)
Definition blank_step (i : nat) (s : cstring) : cstring :=
  if Ascii.eqb (cget s i) ESC && Ascii.eqb (cget s (i + 1)) "["
  then take i s ++ NUL :: NUL :: blank_sequence (drop (i + 2) s)
  else s.

Definition blank_ansi (s : cstring) : cstring :=
  if (2 <=? length s)%nat then for_upto (length s - 2) blank_step s else s.

(** The second loop: print the string at [i], then skip the NULs after it. *)
Fixpoint skip_nuls (s : cstring) : cstring :=
  match s with
  | [] => []
  | c :: r => if Ascii.eqb c NUL then skip_nuls r else s
  end.
Fixpoint put_pieces (fuel : nat) (s : cstring) : outcome cstring :=
  match s with
  | [] => Ret []
  | _ =>
      match fuel with
      | O => NoFuel
      | S fuel =>
          let piece := cut_nul s in
          rest ← put_pieces fuel (skip_nuls (drop (length piece) s));
          Ret (piece ++ rest)
      end
  end.

(** [filter_ansi] on the formatted string. *)
Definition filter_ansi (color : bool) (s : cstring) : outcome cstring :=
  if color then Ret s
  else let s := blank_ansi s in put_pieces (length s) s.

(** ** Reference *)

Fixpoint after_alpha (s : cstring) : cstring :=
  match s with
  | [] => []
  | c :: r => if char_is_alpha (char_int c) then r else after_alpha r
  end.

(** Dropping [ESC \[ ... letter] sequences; one whose introducer ends the text
    is left. *)
Fixpoint strip_ansi (fuel : nat) (s : cstring) : cstring :=
  match fuel with
  | O => s
  | S fuel =>
      match s with
      | [] => []
      | c :: r =>
          match r with
          | d :: (_ :: _) as r' =>
              if Ascii.eqb c ESC && Ascii.eqb d "["
              then strip_ansi fuel (after_alpha (tl r)) else c :: strip_ansi fuel r
          | _ => s
          end
      end
  end.
Definition strip (s : cstring) : cstring := strip_ansi (length s) s.

(** ** Proof *)

#[local] Opaque char_is_alpha char_int.

Definition not_nul (c : ascii) : bool := negb (Ascii.eqb c NUL).

Lemma cut_nul_split s : s = cut_nul s ++ drop (length (cut_nul s)) s.
Proof.
  induction s as [|c s IH]; simpl; [done|]. destruct (Ascii.eqb c NUL); simpl; [done|]. by f_equal.
Qed.

Lemma cut_nul_not s : List.filter not_nul (cut_nul s) = cut_nul s.
Proof.
  induction s as [|c s IH]; simpl; [done|]. destruct (Ascii.eqb c NUL) eqn:E; simpl; [done|].
  replace (not_nul c) with true by (unfold not_nul; by rewrite E). by rewrite IH.
Qed.

Lemma skip_nuls_filter s : List.filter not_nul (skip_nuls s) = List.filter not_nul s.
Proof.
  induction s as [|c s IH]; simpl; [done|]. destruct (Ascii.eqb c NUL) eqn:E.
  - replace (not_nul c) with false by (unfold not_nul; by rewrite E). done.
  - done.
Qed.

Lemma skip_nuls_length s : (length (skip_nuls s) <= length s)%nat.
Proof. induction s as [|c s IH]; simpl; [lia|]. destruct (Ascii.eqb c NUL); simpl; lia. Qed.

(** The pieces are the characters that were not blanked, and the loop ends
    within one turn per character. *)
Lemma put_pieces_spec : forall fuel s, (length s <= fuel)%nat ->
  put_pieces fuel s = Ret (List.filter not_nul s).
Proof.
  induction fuel as [|fuel IH]; intros s Hf; destruct s as [|c s]; try done; [simpl in Hf; lia|].
  set (t := c :: s) in *. change (put_pieces (S fuel) t) with
    (rest ← put_pieces fuel (skip_nuls (drop (length (cut_nul t)) t)); Ret (cut_nul t ++ rest)).
  rewrite IH.
  - cbn [mbind outcome_bind]. f_equal. rewrite skip_nuls_filter.
    transitivity (List.filter not_nul (cut_nul t ++ drop (length (cut_nul t)) t)).
    + by rewrite List.filter_app, cut_nul_not.
    + by rewrite <- cut_nul_split.
  - subst t. simpl. destruct (Ascii.eqb c NUL) eqn:E; simpl in *.
    + rewrite E. pose proof (skip_nuls_length s). lia.
    + pose proof (skip_nuls_length (drop (length (cut_nul s)) s)) as H.
      rewrite length_drop in H. simpl in Hf. lia.
Qed.

(** The first loop on a suffix, without indices. *)
Fixpoint blank (n : nat) (s : cstring) : cstring :=
  match n with
  | O => s
  | S n =>
      let s := if Ascii.eqb (cget s 0) ESC && Ascii.eqb (cget s 1) "["
               then NUL :: NUL :: blank_sequence (drop 2 s) else s in
      match s with [] => [] | c :: r => c :: blank n r end
  end.

Lemma blank_step_suffix pre suf :
  blank_step (length pre) (pre ++ suf) =
  pre ++ (if Ascii.eqb (cget suf 0) ESC && Ascii.eqb (cget suf 1) "["
          then NUL :: NUL :: blank_sequence (drop 2 suf) else suf).
Proof.
  unfold blank_step, cget. rewrite !app_nth2 by lia.
  replace (length pre - length pre)%nat with 0%nat by lia.
  replace (length pre + 1 - length pre)%nat with 1%nat by lia.
  destruct (_ && _); [|done]. by rewrite take_app_length, drop_app_add.
Qed.

Lemma blank_sequence_length s : length (blank_sequence s) = length s.
Proof. induction s as [|c s IH]; simpl; [done|]. destruct (char_is_alpha _); simpl; auto. Qed.

Lemma for_blank : forall n pre suf, (n <= length suf)%nat ->
  for_from (length pre) n blank_step (pre ++ suf) = pre ++ blank n suf.
Proof.
  induction n as [|n IH]; intros pre suf Hn; simpl; [done|].
  rewrite blank_step_suffix. set (suf' := if _ && _ then _ else _).
  assert (Hl : (S n <= length suf')%nat).
  { subst suf'. destruct (_ && _) eqn:E; [|done].
    apply andb_true_iff in E as [E0 E1]. destruct suf as [|a [|b suf]].
    - done.
    - done.
    - simpl. rewrite drop_0. rewrite blank_sequence_length. simpl in Hn. lia. }
  destruct suf' as [|c r]; [simpl in Hl; lia|].
  replace (pre ++ c :: r) with ((pre ++ [c]) ++ r) by (by rewrite <- app_assoc).
  replace (S (length pre)) with (length (pre ++ [c])) by (rewrite length_app; simpl; lia).
  rewrite IH by (simpl in Hl; lia). by rewrite <- app_assoc.
Qed.

(** A blanked character does not start a sequence. *)
Lemma blank_nul n s : blank (S n) (NUL :: s) = NUL :: blank n s.
Proof. simpl. unfold cget. simpl. change (Ascii.eqb NUL ESC) with false. done. Qed.

Lemma blank_short n s : (length s <= 2)%nat -> (n <= length s - 2)%nat -> blank n s = s.
Proof. intros H1 H2. by replace n with 0%nat by lia. Qed.

Lemma blank_after : forall s n, n = (length s - 2)%nat ->
  exists m, m = (length (after_alpha s) - 2)%nat /\
    List.filter not_nul (blank n (blank_sequence s)) =
    List.filter not_nul (blank m (after_alpha s)).
Proof.
  induction s as [|c s IH]; intros n Hn; [by exists 0%nat; subst|].
  simpl blank_sequence. simpl after_alpha. destruct (char_is_alpha (char_int c)).
  - exists (length s - 2)%nat. split; [done|]. destruct n as [|n].
    + simpl in *. replace (length s - 2)%nat with 0%nat by lia. done.
    + rewrite blank_nul. simpl List.filter. do 2 f_equal. simpl in Hn. lia.
  - destruct n as [|n].
    + destruct (IH 0%nat) as (m & Hm & E); [simpl in Hn; lia|]. exists m. split; [done|].
      simpl in *. by rewrite E.
    + destruct (IH (length s - 2)%nat eq_refl) as (m & Hm & E). exists m. split; [done|].
      rewrite blank_nul. replace n with (length s - 2)%nat by (simpl in Hn; lia). simpl. done.
Qed.

Lemma after_alpha_length s : (length (after_alpha s) <= length s)%nat.
Proof. induction s as [|c s IH]; simpl; [lia|]. destruct (char_is_alpha _); lia. Qed.

Lemma after_alpha_not_nul s : Forall not_nul s -> Forall not_nul (after_alpha s).
Proof.
  induction s as [|c s IH]; intros Hs; simpl; [done|]. inversion_clear Hs.
  destruct (char_is_alpha _); auto.
Qed.

Lemma filter_not_nul_id s : Forall not_nul s -> List.filter not_nul s = s.
Proof. induction 1 as [|c s Hc _ IH]; simpl; [done|]. destruct (not_nul c); [by rewrite IH|done]. Qed.

Lemma blank_strip : forall fuel s, (length s <= fuel)%nat -> Forall not_nul s ->
  List.filter not_nul (blank (length s - 2) s) = strip_ansi fuel s.
Proof.
  induction fuel as [|fuel IH]; intros s Hf Hs.
  { destruct s; [done|simpl in Hf; lia]. }
  destruct s as [|c [|d [|e r]]]; [done|by apply filter_not_nul_id|by apply filter_not_nul_id|].
  inversion_clear Hs as [|? ? Hc Hs']. inversion_clear Hs' as [|? ? Hd Hs].
  cbn [strip_ansi tl].
  replace (length (c :: d :: e :: r) - 2)%nat with (S (length r)) by (simpl; lia).
  cbn [blank]. unfold cget. cbn [nth]. destruct (Ascii.eqb c ESC && Ascii.eqb d "[") eqn:E.
  - cbn [skipn]. rewrite ?drop_0.
    destruct (blank_after (e :: r) (length (e :: r) - 2) eq_refl) as (m & Hm & Eq).
    assert (Hstrip : List.filter not_nul (blank m (after_alpha (e :: r)))
                     = strip_ansi fuel (after_alpha (e :: r))).
    { rewrite Hm. apply IH; [|by apply after_alpha_not_nul].
      pose proof (after_alpha_length (e :: r)). simpl in *. lia. }
    rewrite <- Hstrip, <- Eq. cbn [List.filter]. change (not_nul NUL) with false. cbv iota.
    destruct r as [|g r].
    + simpl (length _). cbn [blank Nat.sub]. cbn [List.filter]. change (not_nul NUL) with false. done.
    + replace (length (g :: r)) with (S (length r)) by done. rewrite blank_nul.
      cbn [List.filter]. change (not_nul NUL) with false. cbv iota.
      replace (length (e :: g :: r) - 2)%nat with (length r) by (simpl; lia). done.
  - cbn [List.filter]. destruct (not_nul c) eqn:Ec; [|done]. f_equal.
    rewrite <- (IH (d :: e :: r)).
    + do 2 f_equal. simpl. lia.
    + simpl in *. lia.
    + by constructor.
Qed.

(** Without colours, printing leaves out exactly the escape sequences of the
    formatted text; it never runs past the buffer and always ends. With colours
    the text is printed as it is. (C29) *)
Theorem filter_ansi_correct color s :
  Forall not_nul s -> filter_ansi color s = Ret (if color then s else strip s).
Proof.
  intros Hs. unfold filter_ansi. destruct color; [done|].
  rewrite put_pieces_spec by lia. f_equal. unfold blank_ansi, strip.
  destruct (Nat.leb_spec 2 (length s)) as [Hl|Hl].
  - unfold for_upto. pose proof (for_blank (length s - 2) [] s) as Hb.
    cbn [length app] in Hb. rewrite Hb by lia. by apply blank_strip.
  - destruct s as [|c [|d s]]; [done| |simpl in Hl; lia]. by apply filter_not_nul_id.
Qed.

End Filter.

Lemma filter_ansi_correct_witness :
  filter_ansi (P := arm64) false (str "a" ++ ESC :: str "[32mb" ++ ESC :: str "[0mc") = Ret (str "abc").
Proof.
  rewrite (filter_ansi_correct (P := arm64) false); [reflexivity|]. by repeat constructor.
Defined.

End Terminal.
