(* ===== verification/Show.v ===== *)
(** * wg show (src/show.c)

    The human-readable and the script outputs of [wg show], the ordering of
    peers by their last handshake, and the command itself over the device
    interface. Output is the text written to stdout; diagnostics on stderr are
    not modelled. *)
From S2P Require Import Prelude Ctype Libc Encoding Containers Config IpcSpec Showconf Setconf Terminal.
Import Libc Encoding Showconf Setconf Terminal.

Module Show.

Definition TAB : ascii := ascii_of_nat 9.
Definition tab : cstring := [TAB].
Definition ansi (s : string) : cstring := ESC :: str "[" ++ str s.
Definition TERMINAL_FG_RED : cstring := ansi "31m".
Definition TERMINAL_FG_GREEN : cstring := ansi "32m".
Definition TERMINAL_FG_YELLOW : cstring := ansi "33m".
Definition TERMINAL_FG_CYAN : cstring := ansi "36m".
Definition TERMINAL_BOLD : cstring := ansi "1m".
Definition TERMINAL_RESET : cstring := ansi "0m".

(** ** Ordering *)

(** Conversion to [time_t], which is a [long]. *)
Definition time_t `{P : Platform} (z : Z) : Z :=
  (z + 2 ^ (ulong_bits - 1)) mod 2 ^ ulong_bits - 2 ^ (ulong_bits - 1).

Definition never (p : wgpeer) : bool :=
  (tv_sec (peer_last_handshake_time p) =? 0) && (tv_nsec (peer_last_handshake_time p) =? 0).

Definition peer_cmp `{P : Platform} (a b : wgpeer) : Z :=
  if never a && negb (never b) then 1
  else if never b && negb (never a) then -1
  else
    let diff := time_t (s64 (tv_sec (peer_last_handshake_time a) - tv_sec (peer_last_handshake_time b))) in
    let diff :=
      if diff =? 0
      then time_t (s64 (tv_nsec (peer_last_handshake_time a) - tv_nsec (peer_last_handshake_time b)))
      else diff in
    if diff <? 0 then 1 else if 0 <? diff then -1 else 0.

(** [sort_peers] on the nodes and their [next_peer] pointers: the array of
    pointers is sorted and the nodes are linked again in that order. *)
Fixpoint relink (peers : list nat) (next : list (option nat)) : list (option nat) :=
  match peers with
  | [] => next
  | [last] => <[last := None]> next
  | p :: (q :: _) as rest => relink rest (<[p := Some q]> next)
  end.
Definition sort_peers `{P : Platform} `{Q : Qsort} (nodes : list wgpeer)
  (first : option nat) (next : list (option nat)) (order : list nat) : option nat * list (option nat) :=
  match order with
  | [] => (first, next)
  | _ =>
      let peers := qsort (fun a b => peer_cmp (nth a nodes zero_peer) (nth b nodes zero_peer)) order in
      (head peers, relink peers next)
  end.

(** Following the links from a node. *)
Fixpoint walk (fuel : nat) (next : list (option nat)) (p : option nat) : option (list nat) :=
  match p with
  | None => Some []
  | Some i =>
      match fuel with
      | O => None
      | S fuel => l ← walk fuel next (nth i next None); Some (i :: l)
      end
  end.

(** ** Fields *)

Section Fields.
Context `{P : Platform} `{W : World}.
(** The text of the error [getnameinfo] reports. *)
Context (gai_strerror : sockaddr -> cstring).

Definition key (k : list Z) : cstring := key_to_base64 k.
Definition maybe_key (k : list Z) (have_it : bool) : cstring :=
  if negb have_it then str "(none)" else key k.
Definition masked_key (k : list Z) : cstring :=
  match getenv (str "WG_HIDE_KEYS") with
  | Some var => if str_eq var (str "never") then key k else str "(hidden)"
  | None => str "(hidden)"
  end.
(** [ip]: the buffer is empty when [inet_ntop] does not fill it. *)
Definition ip (a : wgallowedip) : cstring := default [] (allowedip_addr a).

Definition endpoint (sa : sockaddr) : cstring :=
  match getnameinfo sa with
  | None => gai_strerror sa
  | Some (host, service) =>
      if (sa_family sa =? AF_INET6) && bool_decide (is_Some (strchr host ":"))
      then str "[" ++ host ++ str "]:" ++ service
      else host ++ str ":" ++ service
  end.

(** ** Durations and sizes *)

Definition time_part (offset : cstring) (n : Z) (unit : string) : cstring :=
  if n =? 0 then offset
  else offset ++ match offset with [] => [] | _ => str ", " end
         ++ print_u n ++ str " " ++ TERMINAL_FG_CYAN ++ str unit
         ++ (if n =? 1 then [] else str "s") ++ TERMINAL_RESET.

(** Years, days, hours, minutes and seconds. *)
Definition split_time (left : Z) : Z * Z * Z * Z * Z :=
  let years := left / (365 * 24 * 60 * 60) in
  let left := left mod (365 * 24 * 60 * 60) in
  let days := left / (24 * 60 * 60) in
  let left := left mod (24 * 60 * 60) in
  let hours := left / (60 * 60) in
  let left := left mod (60 * 60) in
  let minutes := left / 60 in
  let seconds := left mod 60 in
  (years, days, hours, minutes, seconds).

Definition pretty_time (left : Z) : cstring :=
  let '(years, days, hours, minutes, seconds) := split_time left in
  let t := time_part [] years "year" in
  let t := time_part t days "day" in
  let t := time_part t hours "hour" in
  let t := time_part t minutes "minute" in
  time_part t seconds "second".

Definition ago (now : Z) (t : timespec64) : cstring :=
  if now =? tv_sec t then str "Now"
  else if now <? tv_sec t then
    str "(" ++ TERMINAL_FG_RED
    ++ str "System clock wound backward; connection problems may ensue." ++ TERMINAL_RESET ++ str ")"
  else pretty_time (u64 (now - tv_sec t)) ++ str " ago".

Definition every (seconds : Z) : cstring := str "every " ++ pretty_time seconds.

(** Conversion to [double]: rounding to 53 significant bits, ties to even. *)
Definition round_even (n d : Z) : Z :=
  let q := n / d in
  let r := n mod d in
  if (2 * r <? d) || ((2 * r =? d) && Z.even q) then q else q + 1.
Definition to_double (n : Z) : Z :=
  let e := Z.log2 n - 52 in
  if e <=? 0 then n else round_even n (2 ^ e) * 2 ^ e.
(** ["%.2f"] of a double divided by a power of two, which is exact. *)
Definition print_2f (n d : Z) : cstring :=
  let c := round_even (to_double n * 100) d in
  print_u (c / 100) ++ str "." ++ print_u (c / 10 mod 10) ++ print_u (c mod 10).

Definition bytes (b : Z) : cstring :=
  let with_unit s u := s ++ str " " ++ TERMINAL_FG_CYAN ++ str u ++ TERMINAL_RESET in
  if b <? 2 ^ 10 then with_unit (print_u b) "B"
  else if b <? 2 ^ 20 then with_unit (print_2f b (2 ^ 10)) "KiB"
  else if b <? 2 ^ 30 then with_unit (print_2f b (2 ^ 20)) "MiB"
  else if b <? 2 ^ 40 then with_unit (print_2f b (2 ^ 30)) "GiB"
  else with_unit (print_2f b (2 ^ 40)) "TiB".

(** ** Pretty output: the strings passed to [terminal_printf], in order *)

Definition bold (s : string) : cstring := str "  " ++ TERMINAL_BOLD ++ str s ++ TERMINAL_RESET.
Definition opt {A} (b : bool) (x : A) : list A := if b then [x] else [].

Fixpoint pretty_allowedips (l : list wgallowedip) : list cstring :=
  match l with
  | [] => []
  | a :: next =>
      (ip a ++ TERMINAL_FG_CYAN ++ str "/" ++ TERMINAL_RESET ++ print_u (aip_cidr a)
       ++ match next with [] => nl | _ => str ", " end) :: pretty_allowedips next
  end.

Definition pretty_peer (now : Z) (p : wgpeer) (next : list wgpeer) : list cstring :=
  [TERMINAL_FG_YELLOW ++ TERMINAL_BOLD ++ str "peer" ++ TERMINAL_RESET ++ str ": "
   ++ TERMINAL_FG_YELLOW ++ key (peer_public_key p) ++ TERMINAL_RESET ++ nl]
  ++ opt (has_flag (peer_flags p) WGPEER_HAS_PRESHARED_KEY)
       (bold "preshared key" ++ str ": " ++ masked_key (peer_preshared_key p) ++ nl)
  ++ opt (endpoint_known (peer_endpoint p))
       (bold "endpoint" ++ str ": " ++ endpoint (peer_endpoint p) ++ nl)
  ++ [bold "allowed ips" ++ str ": "]
  ++ match peer_allowedips p with
     | [] => [str "(none)" ++ nl]
     | l => pretty_allowedips l
     end
  ++ opt (negb (tv_sec (peer_last_handshake_time p) =? 0))
       (bold "latest handshake" ++ str ": " ++ ago now (peer_last_handshake_time p) ++ nl)
  ++ (if negb (peer_rx_bytes p =? 0) || negb (peer_tx_bytes p =? 0)
      then [bold "transfer" ++ str ": "; bytes (peer_rx_bytes p) ++ str " received, ";
            bytes (peer_tx_bytes p) ++ str " sent" ++ nl]
      else [])
  ++ opt (negb (peer_persistent_keepalive_interval p =? 0))
       (bold "persistent keepalive" ++ str ": " ++ every (peer_persistent_keepalive_interval p) ++ nl)
  ++ match next with [] => [] | _ => [nl] end.

Fixpoint pretty_peers (now : Z) (l : list wgpeer) : list cstring :=
  match l with
  | [] => []
  | p :: next => pretty_peer now p next ++ pretty_peers now next
  end.

Definition pretty_print `{Q : Qsort} (now : Z) (d : wgdevice) : list cstring :=
  [TERMINAL_RESET;
   TERMINAL_FG_GREEN ++ TERMINAL_BOLD ++ str "interface" ++ TERMINAL_RESET ++ str ": "
   ++ TERMINAL_FG_GREEN ++ dev_name d ++ TERMINAL_RESET ++ nl]
  ++ opt (has_flag (dev_flags d) WGDEVICE_HAS_PUBLIC_KEY)
       (bold "public key" ++ str ": " ++ key (dev_public_key d) ++ nl)
  ++ opt (has_flag (dev_flags d) WGDEVICE_HAS_PRIVATE_KEY)
       (bold "private key" ++ str ": " ++ masked_key (dev_private_key d) ++ nl)
  ++ opt (negb (dev_listen_port d =? 0))
       (bold "listening port" ++ str ": " ++ print_u (dev_listen_port d) ++ nl)
  ++ opt (negb (dev_fwmark d =? 0))
       (bold "fwmark" ++ str ": 0x" ++ print_x (dev_fwmark d) ++ nl)
  ++ match dev_peers d with
     | [] => []
     | l => [nl] ++ pretty_peers now (qsort peer_cmp l)
     end.

(** What the calls write. *)
Fixpoint terminal_output (color : bool) (calls : list cstring) : outcome cstring :=
  match calls with
  | [] => Ret []
  | s :: calls => a ← filter_ansi color s; b ← terminal_output color calls; Ret (a ++ b)
  end.

(** ** Script output *)

Definition mark_text (m : Z) : cstring := if negb (m =? 0) then str "0x" ++ print_x m else str "off".
Definition interval_text (n : Z) : cstring := if negb (n =? 0) then print_u n else str "off".
Definition endpoint_or_none (sa : sockaddr) : cstring :=
  if endpoint_known sa then endpoint sa else str "(none)".
Definition name_column (with_interface : bool) (d : wgdevice) : cstring :=
  if with_interface then dev_name d ++ tab else [].

(** The allowed IPs with a separator between them and a terminator after. *)
Fixpoint aips_text (sep term : ascii) (l : list wgallowedip) : cstring :=
  match l with
  | [] => []
  | a :: next =>
      ip a ++ str "/" ++ print_u (aip_cidr a) ++ [match next with [] => term | _ => sep end]
      ++ aips_text sep term next
  end.
Definition aips_column (sep term : ascii) (l : list wgallowedip) : cstring :=
  match l with [] => str "(none)" ++ [term] | _ => aips_text sep term l end.

Definition dump_peer (with_interface : bool) (d : wgdevice) (p : wgpeer) : cstring :=
  name_column with_interface d
  ++ key (peer_public_key p) ++ tab
  ++ maybe_key (peer_preshared_key p) (has_flag (peer_flags p) WGPEER_HAS_PRESHARED_KEY) ++ tab
  ++ endpoint_or_none (peer_endpoint p) ++ tab
  ++ aips_column "," TAB (peer_allowedips p)
  ++ print_u (u64 (tv_sec (peer_last_handshake_time p))) ++ tab
  ++ print_u (peer_rx_bytes p) ++ tab ++ print_u (peer_tx_bytes p) ++ tab
  ++ interval_text (peer_persistent_keepalive_interval p) ++ nl.

Definition dump_print (d : wgdevice) (with_interface : bool) : cstring :=
  name_column with_interface d
  ++ maybe_key (dev_private_key d) (has_flag (dev_flags d) WGDEVICE_HAS_PRIVATE_KEY) ++ tab
  ++ maybe_key (dev_public_key d) (has_flag (dev_flags d) WGDEVICE_HAS_PUBLIC_KEY) ++ tab
  ++ print_u (dev_listen_port d) ++ tab ++ mark_text (dev_fwmark d) ++ nl
  ++ concat (map (dump_peer with_interface d) (dev_peers d)).

(** [ugly_print]: [None] when the parameter is not one of the known ones. *)
Definition ugly_print (d : wgdevice) (param : cstring) (with_interface : bool) : option cstring :=
  let param_is s := str_eq param (str s) in
  let name := name_column with_interface d in
  let per_peer (f : wgpeer -> cstring) := Some (concat (map (fun p => name ++ f p) (dev_peers d))) in
  if param_is "public-key" then
    Some (name ++ maybe_key (dev_public_key d) (has_flag (dev_flags d) WGDEVICE_HAS_PUBLIC_KEY) ++ nl)
  else if param_is "private-key" then
    Some (name ++ maybe_key (dev_private_key d) (has_flag (dev_flags d) WGDEVICE_HAS_PRIVATE_KEY) ++ nl)
  else if param_is "listen-port" then Some (name ++ print_u (dev_listen_port d) ++ nl)
  else if param_is "fwmark" then Some (name ++ mark_text (dev_fwmark d) ++ nl)
  else if param_is "endpoints" then
    per_peer (fun p => key (peer_public_key p) ++ tab ++ endpoint_or_none (peer_endpoint p) ++ nl)
  else if param_is "allowed-ips" then
    per_peer (fun p => key (peer_public_key p) ++ tab ++ aips_column " " NL (peer_allowedips p))
  else if param_is "latest-handshakes" then
    per_peer (fun p => key (peer_public_key p) ++ tab
                       ++ print_u (u64 (tv_sec (peer_last_handshake_time p))) ++ nl)
  else if param_is "transfer" then
    per_peer (fun p => key (peer_public_key p) ++ tab ++ print_u (peer_rx_bytes p) ++ tab
                       ++ print_u (peer_tx_bytes p) ++ nl)
  else if param_is "persistent-keepalive" then
    per_peer (fun p => key (peer_public_key p) ++ tab
                       ++ interval_text (peer_persistent_keepalive_interval p) ++ nl)
  else if param_is "preshared-keys" then
    per_peer (fun p => key (peer_public_key p) ++ tab
      ++ maybe_key (peer_preshared_key p) (has_flag (peer_flags p) WGPEER_HAS_PRESHARED_KEY) ++ nl)
  else if param_is "peers" then per_peer (fun p => key (peer_public_key p) ++ nl)
  else if param_is "dump" then Some (dump_print d with_interface)
  else None.

(** ** The command *)

Context `{Q : Qsort} `{I : Ipc Sys} (color : bool) (now : Z).

(** The loop over all interfaces: exit status, output and system. *)
Fixpoint show_all (sys : Sys) (names : list cstring) (param : option cstring) (ret : Z)
  : outcome (Z * cstring * Sys) :=
  match names with
  | [] => Ret (ret, [], sys)
  | interface :: names =>
      '(err, device, sys) ← ipc_get_device sys interface;
      if err <? 0 then show_all sys names param ret
      else match device with
           | None => NullDeref
           | Some device =>
               match param with
               | Some param =>
                   match ugly_print device param true with
                   | None => Ret (1, [], sys)
                   | Some out =>
                       '(ret, rest, sys) ← show_all sys names (Some param) 0;
                       Ret (ret, out ++ rest, sys)
                   end
               | None =>
                   out ← terminal_output color (pretty_print now device);
                   '(ret, rest, sys) ← show_all sys names None 0;
                   Ret (ret, out ++ match names with [] => [] | _ => nl end ++ rest, sys)
               end
           end
  end.

Fixpoint interfaces_text (names : list cstring) : cstring :=
  match names with
  | [] => []
  | n :: next => n ++ match next with [] => nl | _ => str " " end ++ interfaces_text next
  end.

(** [show_main]: [args] is [argv] from [argv[1]] on. *)
Definition show_main (sys : Sys) (args : list cstring) : outcome (Z * cstring * Sys) :=
  if (2 <? length args)%nat then Ret (1, [], sys)
  else
    let all := match args with [] => true | a :: _ => str_eq a (str "all") end in
    if all then
      let '(interfaces, sys) := ipc_list_devices sys in
      match interfaces with
      | None => Ret (1, [], sys)
      | Some names => show_all sys names (nth_error args 1) (if bool_decide (names = []) then 0 else 1)
      end
    else
      match args with
      | [] => Ret (1, [], sys)
      | arg :: rest =>
          if str_eq arg (str "interfaces") then
            match rest with
            | _ :: _ => Ret (1, [], sys)
            | [] =>
                let '(interfaces, sys) := ipc_list_devices sys in
                match interfaces with
                | None => Ret (1, [], sys)
                | Some names => Ret (0, interfaces_text names, sys)
                end
            end
          else if bool_decide (rest = []) && (str_eq arg (str "-h") || str_eq arg (str "--help")
                                              || str_eq arg (str "help"))
          then Ret (0, [], sys)
          else
            '(err, device, sys) ← ipc_get_device sys arg;
            if err <? 0 then Ret (1, [], sys)
            else match device with
                 | None => NullDeref
                 | Some device =>
                     match rest with
                     | param :: _ =>
                         match ugly_print device param false with
                         | None => Ret (1, [], sys)
                         | Some out => Ret (0, out, sys)
                         end
                     | [] => out ← terminal_output color (pretty_print now device); Ret (0, out, sys)
                     end
                 end
      end.

End Fields.
End Show.
