(* ===== verification/ShowFacts.v ===== *)
(** * Correctness of wg show (src/show.c)

    Peers are printed most recent handshake first and none is lost in the
    relinking; durations are split without loss and fit their buffers; the
    dump is a table that can be read back; and the command follows a null
    pointer exactly when [ipc_get_device] fails with a positive value. *)
From stdpp Require Import sorting.
From S2P Require Import Prelude Ctype Libc Encoding Containers Config IpcSpec Showconf Setconf Terminal Show.
From S2P Require Import LibcFacts ConfigFacts ConfigText Names Samples ShowconfFacts SetconfFacts.
From S2P Require Import IpcUapi Ipc.
Import Libc IpcUapi Encoding LibcFacts ConfigText Showconf ShowconfFacts Setconf Terminal Show.

Module ShowFacts.

(** ** Ordering *)

Section Order.
Context `{P : Platform}.

(** Handshake times [time_t] can hold: no overflow in the comparison. *)
Definition time_ok (p : wgpeer) : Prop :=
  0 <= tv_sec (peer_last_handshake_time p) < 2 ^ (ulong_bits - 1) /\
  0 <= tv_nsec (peer_last_handshake_time p) < 10 ^ 9.

(** The handshake time in nanoseconds; zero when there was none. *)
Definition rank (p : wgpeer) : Z :=
  tv_sec (peer_last_handshake_time p) * 10 ^ 9 + tv_nsec (peer_last_handshake_time p).

Lemma time_t_small z : - 2 ^ (ulong_bits - 1) <= z < 2 ^ (ulong_bits - 1) -> time_t (s64 z) = z.
Proof.
  intros Hz. unfold time_t.
  destruct ulong_bits_cases as [Hb|Hb]; rewrite Hb in *; rewrite s64_small by lia;
    rewrite Z.mod_small; lia.
Qed.

Lemma peer_cmp_rank a b : time_ok a -> time_ok b -> peer_cmp a b = Z.sgn (rank b - rank a).
Proof.
  intros [Hsa Hna] [Hsb Hnb]. unfold peer_cmp, never, rank.
  set (sa := tv_sec (peer_last_handshake_time a)) in *. set (na := tv_nsec (peer_last_handshake_time a)) in *.
  set (sb := tv_sec (peer_last_handshake_time b)) in *. set (nb := tv_nsec (peer_last_handshake_time b)) in *.
  assert (Hlim : 2 ^ 31 <= 2 ^ (ulong_bits - 1)) by (destruct ulong_bits_cases as [-> | ->]; lia).
  rewrite !time_t_small by lia. clearbody sa na sb nb. clear -Hsa Hna Hsb Hnb.
  destruct (Z.eqb_spec sa 0), (Z.eqb_spec na 0), (Z.eqb_spec sb 0), (Z.eqb_spec nb 0); simpl;
    destruct (Z.eqb_spec (sa - sb) 0); repeat case_match; lia.
Qed.

(** ** Relinking *)

Lemma relink_notin p : forall peers next, ~ In p peers ->
  nth p (relink peers next) None = nth p next None.
Proof.
  induction peers as [|q [|r rest] IH]; intros next Hp; [done| |].
  - cbn [relink]. rewrite !nth_lookup. rewrite list_lookup_insert_ne; [done|].
    intros ->. apply Hp. by left.
  - change (relink (q :: r :: rest) next) with (relink (r :: rest) (<[q := Some r]> next)).
    rewrite IH by (intros ?; apply Hp; by right). rewrite !nth_lookup.
    rewrite list_lookup_insert_ne; [done|]. intros ->. apply Hp. by left.
Qed.

Lemma relink_length peers : forall next, length (relink peers next) = length next.
Proof.
  induction peers as [|q [|r rest] IH]; intros next; [done|apply length_insert|].
  change (relink (q :: r :: rest) next) with (relink (r :: rest) (<[q := Some r]> next)).
  rewrite IH. apply length_insert.
Qed.

(** After relinking, the list that starts at the first array element is the
    array. *)
Lemma walk_relink : forall peers next fuel,
  NoDup peers -> Forall (fun i => (i < length next)%nat) peers -> (length peers <= fuel)%nat ->
  walk fuel (relink peers next) (head peers) = Some peers.
Proof.
  induction peers as [|p [|q rest] IH]; intros next fuel Hnd Hin Hf; [by destruct fuel| |];
    (destruct fuel as [|fuel]; [simpl in Hf; lia|]); inversion_clear Hin as [|? ? Hp Hin'].
  - cbn [head relink walk]. rewrite nth_lookup, list_lookup_insert_eq by done. simpl.
    by destruct fuel.
  - inversion_clear Hnd as [|? ? Hni Hnd'].
    change (relink (p :: q :: rest) next) with (relink (q :: rest) (<[p := Some q]> next)).
    cbn [head walk].
    replace (nth p (relink (q :: rest) (<[p:=Some q]> next)) None) with (head (q :: rest)).
    + rewrite IH; [done|done| |simpl in *; lia]. by rewrite length_insert.
    + rewrite relink_notin by (by rewrite <- list_elem_of_In).
      rewrite nth_lookup, list_lookup_insert_eq by done. done.
Qed.

Context `{Q : Qsort} `{QOK : !QsortOk}.

Lemma qsort_rank {A} (f : A -> wgpeer) l : Forall (fun x => time_ok (f x)) l ->
  StronglySorted (fun x y => rank (f y) <= rank (f x)) (qsort (fun a b => peer_cmp (f a) (f b)) l).
Proof.
  intros Hok. rewrite Forall_forall in Hok.
  assert (Hr : forall x y, In x l -> In y l -> peer_cmp (f x) (f y) = Z.sgn (rank (f y) - rank (f x))).
  { intros x y Hx Hy. apply peer_cmp_rank; apply Hok; by apply list_elem_of_In. }
  assert (Hs : StronglySorted (fun x y => peer_cmp (f x) (f y) <= 0)
                 (qsort (fun a b => peer_cmp (f a) (f b)) l)).
  { apply qsort_sorted.
    - intros x y z Hx Hy Hz. rewrite !Hr by done. lia.
    - intros x y Hx Hy. rewrite !Hr by done. lia. }
  assert (Hin : forall x, x ∈ qsort (fun a b => peer_cmp (f a) (f b)) l -> In x l).
  { intros x Hx%list_elem_of_In. eapply Permutation_in; [apply qsort_perm|done]. }
  clear Hok. revert Hin. induction Hs as [|x s Hs IH Hx]; intros Hin; constructor.
  - apply IH. intros y Hy. apply Hin. by right.
  - rewrite Forall_forall in Hx |- *. intros y Hy. specialize (Hx y Hy).
    rewrite Hr in Hx; [lia|apply Hin; by left|apply Hin; by right].
Qed.

(** [sort_peers] relinks the nodes of the list into one list that has all of them,
    most recent handshake first and those without a handshake last. (C30) *)
Theorem sort_peers_correct nodes first next order :
  NoDup order -> Forall (fun i => (i < length next)%nat /\ time_ok (nth i nodes zero_peer)) order ->
  order <> [] ->
  let '(first', next') := sort_peers nodes first next order in
  exists l, walk (length order) next' first' = Some l /\ Permutation l order /\
    StronglySorted (fun i j => rank (nth j nodes zero_peer) <= rank (nth i nodes zero_peer)) l.
Proof.
  intros Hnd Hok Hne. unfold sort_peers. destruct order as [|o0 order']; [done|].
  set (order := o0 :: order') in *. set (l := qsort _ order).
  assert (Hp : Permutation l order) by apply qsort_perm.
  exists l. split_and!; [|done|].
  - apply walk_relink; [by rewrite Hp| |by rewrite Hp].
    rewrite Hp. eapply Forall_impl; [exact Hok|]. by intros i [? _].
  - apply (qsort_rank (fun i => nth i nodes zero_peer)). eapply Forall_impl; [exact Hok|].
    by intros i [_ ?].
Qed.

End Order.

(** ** Durations *)

(** The parts of a duration add up to it, each below the next unit. *)
Lemma split_time_spec left : 0 <= left ->
  let '(years, days, hours, minutes, seconds) := split_time left in
  left = (((years * 365 + days) * 24 + hours) * 60 + minutes) * 60 + seconds /\
  0 <= years <= left /\ 0 <= days < 365 /\ 0 <= hours < 24 /\ 0 <= minutes < 60 /\ 0 <= seconds < 60.
Proof. intros Hl. unfold split_time. Z.div_mod_to_equations. lia. Qed.

Lemma print_digits_short base fuel : forall n acc k, 2 <= base -> 0 <= n < base ^ Z.of_nat k ->
  (0 < k)%nat -> (length (print_digits fuel base n acc) <= k + length acc)%nat.
Proof.
  induction fuel as [|fuel IH]; intros n acc k Hb Hn Hk; simpl; [lia|].
  destruct (Z.eqb_spec (n / base) 0); simpl; [lia|].
  destruct k as [|[|k]]; [lia| |].
  - exfalso. change (Z.of_nat 1) with 1 in Hn. rewrite Z.pow_1_r in Hn.
    rewrite Z.div_small in n0; lia.
  - etransitivity; [apply (IH _ _ (S k)); [done| |lia]|simpl; lia].
    split; [apply Z.div_pos; lia|]. apply Z.div_lt_upper_bound; [lia|].
    rewrite <- Z.pow_succ_r by lia. rewrite <- Nat2Z.inj_succ. lia.
Qed.

Lemma time_part_length offset n (unit : string) : 0 <= n < 2 ^ 64 ->
  (length (time_part offset n unit) <= length offset + 33 + length (str unit))%nat.
Proof.
  intros Hn. unfold time_part. destruct (n =? 0); [lia|]. rewrite !length_app.
  assert (Hd : (length (print_u n) <= 20)%nat).
  { unfold print_u. etransitivity; [apply (print_digits_short 10 64 n [] 20); [lia| |lia]|reflexivity].
    change (10 ^ Z.of_nat 20) with 100000000000000000000. lia. }
  assert (Hsep : (length (match offset with [] => [] | _ :: _ => str ", " end) <= 2)%nat)
    by (destruct offset; simpl; lia).
  assert (Hs : (length (if (n =? 1)%Z then [] else str "s") <= 1)%nat) by (destruct (n =? 1)%Z; simpl; lia).
  change (length (str " ")) with 1%nat. change (length TERMINAL_FG_CYAN) with 5%nat.
  change (length TERMINAL_RESET) with 4%nat. lia.
Qed.

(** [pretty_time] splits a duration without loss, and what it prints fits the
    buffers of [ago] and [every], so no [snprintf] truncates and no offset passes
    the end of a buffer. *)
Theorem pretty_time_correct left : 0 <= left < 2 ^ 64 ->
  (let '(years, days, hours, minutes, seconds) := split_time left in
   left = (((years * 365 + days) * 24 + hours) * 60 + minutes) * 60 + seconds /\
   days < 365 /\ hours < 24 /\ minutes < 60 /\ seconds < 60) /\
  (length (pretty_time left) + length (str " ago") < 1024)%nat /\
  (length (str "every ") + length (pretty_time left) < 1024)%nat.
Proof.
  intros Hl. pose proof (split_time_spec left ltac:(lia)) as Hs. unfold pretty_time.
  destruct (split_time left) as [[[[y d] h] m] s]. destruct Hs as (Heq & Hy & Hd & Hh & Hm & Hsec).
  split; [lia|].
  enough ((length (time_part (time_part (time_part (time_part (time_part [] y "year") d "day")
    h "hour") m "minute") s "second") <= 300)%nat) by (simpl (length (str _)); lia).
  pose proof (time_part_length [] y "year" ltac:(lia)) as L1. set (t1 := time_part [] y "year") in *.
  pose proof (time_part_length t1 d "day" ltac:(lia)) as L2. set (t2 := time_part t1 d "day") in *.
  pose proof (time_part_length t2 h "hour" ltac:(lia)) as L3. set (t3 := time_part t2 h "hour") in *.
  pose proof (time_part_length t3 m "minute" ltac:(lia)) as L4. set (t4 := time_part t3 m "minute") in *.
  pose proof (time_part_length t4 s "second" ltac:(lia)) as L5.
  cbn [length str list_ascii_of_string] in L1, L2, L3, L4, L5. lia.
Qed.

Lemma pretty_time_correct_witness : (length (pretty_time 90061) + length (str " ago") < 1024)%nat.
Proof. apply (pretty_time_correct 90061). lia. Defined.

(** ** The dump *)

#[local] Opaque key_to_base64 print_u print_x.

Section Dump.
Context `{P : Platform} `{W : World} `{NN : !NumericNames}.
Context (gai_strerror : sockaddr -> cstring).

(** The fields of the table, row by row. *)
Definition name_field (with_interface : bool) (d : wgdevice) : list cstring :=
  if with_interface then [dev_name d] else [].
Definition aips_field (l : list wgallowedip) : cstring :=
  match l with
  | [] => str "(none)"
  | _ => join (str ",") (map (fun a => ip a ++ str "/" ++ print_u (aip_cidr a)) l)
  end.
Definition peer_row (w : bool) (d : wgdevice) (p : wgpeer) : list cstring :=
  name_field w d ++
  [key (peer_public_key p);
   maybe_key (peer_preshared_key p) (has_flag (peer_flags p) WGPEER_HAS_PRESHARED_KEY);
   endpoint_or_none gai_strerror (peer_endpoint p); aips_field (peer_allowedips p);
   print_u (u64 (tv_sec (peer_last_handshake_time p)));
   print_u (peer_rx_bytes p); print_u (peer_tx_bytes p);
   interval_text (peer_persistent_keepalive_interval p)].
Definition device_row (w : bool) (d : wgdevice) : list cstring :=
  name_field w d ++
  [maybe_key (dev_private_key d) (has_flag (dev_flags d) WGDEVICE_HAS_PRIVATE_KEY);
   maybe_key (dev_public_key d) (has_flag (dev_flags d) WGDEVICE_HAS_PUBLIC_KEY);
   print_u (dev_listen_port d); mark_text (dev_fwmark d)].

(** A reader of the dump: the lines, each cut at its tabs. *)
Definition read_table (text : cstring) : list (list cstring) :=
  map (fun l => tokens (removelast l) TAB) (getlines text).

Definition field_ok (f : cstring) : Prop := ~ In TAB f /\ ~ In NL f.

Lemma read_row fields rest : fields <> [] -> Forall field_ok fields ->
  read_table (join tab fields ++ nl ++ rest) = fields :: read_table rest.
Proof.
  intros Hne Hf. unfold read_table.
  assert (Hnl : ~ In NL (join tab fields)).
  { clear Hne. induction Hf as [|x l [_ Hx] Hf IH]; [intros []|]. destruct l as [|y l]; [done|].
    rewrite join_cons, !in_app_iff. intros [H|[[H|[]]|H]]; [done|discriminate H|auto]. }
  change (nl ++ rest) with (NL :: rest). rewrite getlines_line by done. cbn [map].
  rewrite removelast_last. f_equal. apply tokens_join; [done|].
  eapply Forall_impl; [exact Hf|]. by intros f [? _].
Qed.

Lemma word_field f : Forall word_char f -> field_ok f.
Proof.
  intros Hf. split; intros Hin; rewrite Forall_forall in Hf;
    apply list_elem_of_In, Hf, Is_true_true in Hin; vm_compute in Hin; discriminate.
Qed.

Lemma print_u_field n : 0 <= n < 2 ^ 64 -> field_ok (print_u n).
Proof. intros Hn. apply word_field. destruct (print_words n Hn) as (H & _). exact H. Qed.

Lemma aips_text_join l : l <> [] ->
  aips_text "," TAB l = join (str ",") (map (fun a => ip a ++ str "/" ++ print_u (aip_cidr a)) l) ++ tab.
Proof.
  induction l as [|a [|b l] IH]; intros Hne; [done| |].
  - cbn [aips_text map join]. rewrite <- !app_assoc. done.
  - change (aips_text "," TAB (a :: b :: l)) with
      (ip a ++ str "/" ++ print_u (aip_cidr a) ++ [","%char] ++ aips_text "," TAB (b :: l)).
    cbn [map]. rewrite join_cons, IH by done. rewrite <- !app_assoc. done.
Qed.

Lemma aips_column_field l : aips_column "," TAB l = aips_field l ++ tab.
Proof. destruct l as [|a l]; [done|]. by apply aips_text_join. Qed.

(** Devices whose columns can hold no separator: a name without tab or
    newline, counters of 64 bits, and error texts without separators. *)
Definition dumpable_peer (p : wgpeer) : Prop :=
  wf_peer p /\ canonical_peer p /\
  0 <= peer_rx_bytes p < 2 ^ 64 /\ 0 <= peer_tx_bytes p < 2 ^ 64.
Definition dumpable (d : wgdevice) : Prop :=
  field_ok (dev_name d) /\ wf_device d /\ Forall dumpable_peer (dev_peers d).

Context (gai_ok : forall sa, field_ok (gai_strerror sa)).

Lemma key_field k b : wf_key k -> field_ok (maybe_key k b).
Proof.
  intros Hk. unfold maybe_key, key. destruct b; simpl; [by apply word_field, key_to_base64_word|].
  apply word_field. by repeat constructor.
Qed.

Lemma endpoint_field sa : (endpoint_known sa = true -> canonical_sockaddr sa) ->
  field_ok (endpoint_or_none gai_strerror sa).
Proof.
  intros Hc. unfold endpoint_or_none. destruct (endpoint_known sa) eqn:Ek.
  - unfold endpoint. destruct (getnameinfo sa) as [[h sv]|] eqn:E; [|apply gai_ok].
    apply word_field. set (b := (sa_family sa =? AF_INET6) && bool_decide (is_Some (strchr h ":"))).
    assert (He : endpoint_text sa = Some (if b then str "[" ++ h ++ str "]:" ++ sv
                                          else h ++ str ":" ++ sv)).
    { unfold endpoint_text. by rewrite Ek, E. }
    by apply (endpoint_text_word sa _ (Hc eq_refl)) in He as (? & _).
  - apply word_field. by repeat constructor.
Qed.

Lemma aips_field_ok l : Forall wf_allowedip l -> Forall canonical_allowedip l -> field_ok (aips_field l).
Proof.
  intros Hwf Hcan. apply word_field. unfold aips_field. destruct l as [|a0 l0] eqn:El.
  { by repeat constructor. }
  rewrite <- El in *. apply NumericWorld.join_forall; [by repeat constructor|].
  apply Forall_map, Forall_forall. intros a Ha. rewrite Forall_forall in Hwf, Hcan.
  specialize (Hwf a Ha). destruct (parse_ip_print a Hwf (Hcan a Ha)) as (s & Es & Hs & _).
  unfold ip. rewrite Es. cbn [default].
  assert (Hc : 0 <= aip_cidr a < 2 ^ 64) by (destruct Hwf as (_ & _ & [[_ ?]|[_ ?]] & _); lia).
  destruct (print_words _ Hc) as (Hu & _).
  apply Forall_app_2; [by apply (Forall_chars _ _ _ ip_char_word)|].
  apply Forall_app_2; [by repeat constructor|exact Hu].
Qed.

Lemma name_field_join w d rest : rest <> [] ->
  join tab (name_field w d ++ rest) = name_column w d ++ join tab rest.
Proof.
  intros Hr. destruct w; [|done]. destruct rest as [|x rest]; [done|].
  unfold name_field, name_column. cbn [app]. rewrite join_cons, <- app_assoc. done.
Qed.

Lemma name_field_ok w d : field_ok (dev_name d) -> Forall field_ok (name_field w d).
Proof. intros H. destruct w; [by apply Forall_singleton|constructor]. Qed.

(** The dump of [wg show], with or without the interface column, is a table a
    script can cut at newlines and tabs: one row of the device and one of each
    peer, in order, each with its fixed columns. *)
Theorem dump_print_table w d : dumpable d ->
  read_table (dump_print gai_strerror d w)
  = device_row w d :: map (peer_row w d) (dev_peers d).
Proof.
  intros (Hname & (Hf & Hpub & Hpriv & Hm & Hlp & _) & Hps). unfold dump_print.
  transitivity (read_table (join tab (device_row w d) ++ nl
    ++ concat (map (dump_peer gai_strerror w d) (dev_peers d)))).
  { f_equal. unfold device_row. rewrite name_field_join by done. cbn [join].
    by rewrite <- !app_assoc. }
  rewrite read_row.
  - f_equal. induction Hps as [|p l Hp _ IH]; [done|]. cbn [map concat]. rewrite <- IH. clear IH.
    destruct Hp as ((Hfl & Hk & Hpsk & Hka & Hal) & (Hcal & Hce) & Hrx & Htx).
    transitivity (read_table (join tab (peer_row w d p) ++ nl
      ++ concat (map (dump_peer gai_strerror w d) l))).
    { f_equal. unfold dump_peer. rewrite aips_column_field. unfold peer_row.
      rewrite name_field_join by done. cbn [join]. by rewrite <- !app_assoc. }
    apply read_row; [by destruct w|]. unfold peer_row. apply Forall_app_2; [by apply name_field_ok|].
    assert (Hu64 : 0 <= u64 (tv_sec (peer_last_handshake_time p)) < 2 ^ 64)
      by (apply Z.mod_pos_bound; lia).
    repeat apply Forall_cons_2; auto using print_u_field, key_field, endpoint_field, aips_field_ok.
    + by apply (key_field _ true).
    + unfold interval_text. destruct (negb _); [apply print_u_field; lia|].
      apply word_field. by repeat constructor.
  - by destruct w.
  - unfold device_row. apply Forall_app_2; [by apply name_field_ok|].
    repeat apply Forall_cons_2; auto using key_field.
    + apply print_u_field. lia.
    + unfold mark_text. apply word_field. destruct (negb _); [|by repeat constructor].
      apply Forall_app_2; [by repeat constructor|].
      destruct (print_words (dev_fwmark d)) as (_ & H & _); [lia|exact H].
Qed.

End Dump.

(** ** The command *)

Section Command.
Context `{P : Platform} `{W : World} (gai_strerror : sockaddr -> cstring).
Context `{Q : Qsort} `{I : Ipc Sys} `{IOK : !IpcOk Sys} (color : bool) (now : Z).

Lemma terminal_output_returns calls : exists out, terminal_output color calls = Ret out.
Proof.
  induction calls as [|s calls [out IH]]; [by eexists|]. cbn [terminal_output].
  unfold filter_ansi. destruct color.
  - rewrite IH. by eexists.
  - rewrite put_pieces_spec by lia. rewrite IH. by eexists.
Qed.

(** No device is missing when the call did not fail with a negative value. *)
Definition never_positive : Prop := forall sys iface ret out sys',
  ipc_get_device sys iface = Ret (ret, out, sys') -> ret <= 0.

Lemma get_device_cases sys iface : never_positive ->
  exists ret out sys', ipc_get_device sys iface = Ret (ret, out, sys') /\
    (ret < 0 \/ (ret = 0 /\ is_Some out)).
Proof.
  intros Hnp. destruct (ipc_get_returns sys iface) as (ret & out & sys' & E & Hd).
  exists ret, out, sys'. split; [done|]. apply Hnp in E.
  destruct (Z.eq_dec ret 0) as [->|]; [right; split; [done|by apply Hd]|left; lia].
Qed.

Lemma show_all_returns names param : never_positive -> forall sys ret,
  exists r, show_all gai_strerror color now sys names param ret = Ret r.
Proof.
  intros Hnp. induction names as [|n names IH]; intros sys ret; [by eexists|]. cbn [show_all].
  destruct (get_device_cases sys n Hnp) as (err & out & sys' & E & Hc). rewrite E.
  cbn [mbind outcome_bind]. destruct (Z.ltb_spec err 0) as [Hlt|Hge]; [apply IH|].
  destruct Hc as [?|[_ [d ->]]]; [lia|]. destruct param as [param|].
  - destruct (ugly_print gai_strerror d param true) as [o|]; [|by eexists].
    destruct (IH sys' 0) as [[[r rest] sys''] E']. rewrite E'. by eexists.
  - destruct (terminal_output_returns (pretty_print gai_strerror now d)) as [o Eo]. rewrite Eo.
    cbn [mbind outcome_bind]. destruct (IH sys' 0) as [[[r rest] sys''] E']. rewrite E'. by eexists.
Qed.

(** [wg show] always returns, whatever its arguments, provided the device
    interface reports failures by negative values: it follows no null pointer and
    its loops end. *)
Lemma show_main_returns sys args : never_positive ->
  exists code out sys', show_main gai_strerror color now sys args = Ret (code, out, sys').
Proof.
  intros Hnp. unfold show_main. destruct (2 <? length args)%nat; [by do 3 eexists|].
  destruct (match args with [] => true | a :: _ => str_eq a (str "all") end).
  { destruct (ipc_list_devices sys) as [[names|] sys']; [|by do 3 eexists].
    destruct (show_all_returns names (nth_error args 1) Hnp sys'
      (if bool_decide (names = []) then 0 else 1)) as [[[r o] s] E]. rewrite E. by do 3 eexists. }
  destruct args as [|arg rest]; [by do 3 eexists|].
  destruct (str_eq arg (str "interfaces")).
  { destruct rest; [|by do 3 eexists]. destruct (ipc_list_devices sys) as [[names|] sys'];
      by do 3 eexists. }
  destruct (bool_decide (rest = []) && _); [by do 3 eexists|].
  destruct (get_device_cases sys arg Hnp) as (err & out & sys' & E & Hc). rewrite E.
  cbn [mbind outcome_bind]. destruct (Z.ltb_spec err 0) as [Hlt|Hge]; [by do 3 eexists|].
  destruct Hc as [?|[_ [d ->]]]; [lia|]. destruct rest as [|param rest].
  - destruct (terminal_output_returns (pretty_print gai_strerror now d)) as [o Eo]. rewrite Eo.
    by do 3 eexists.
  - destruct (ugly_print gai_strerror d param false) as [o|]; by do 3 eexists.
Qed.

End Command.

(** ** Instances *)

Lemma one_device_ok : IpcOk wgdevice (Ipc0 := SetconfFacts.one_device).
Proof. split. intros sys iface. do 3 eexists. split; [done|]. split; [eauto|done]. Qed.

Lemma sort_peers_correct_witness :
  let '(first', next') := sort_peers (P := arm64) (Q := SetconfFacts.insertion_sort)
    [sample_peer2; sample_peer1] (Some 0%nat) [Some 1%nat; None] [0%nat; 1%nat] in
  exists l, walk 2 next' first' = Some l /\ Permutation l [0%nat; 1%nat] /\
    StronglySorted (fun i j => rank (nth j [sample_peer2; sample_peer1] zero_peer)
      <= rank (nth i [sample_peer2; sample_peer1] zero_peer)) l.
Proof.
  apply (sort_peers_correct (P := arm64) (Q := SetconfFacts.insertion_sort)
    (QOK := SetconfFacts.insertion_sort_ok)
    [sample_peer2; sample_peer1] (Some 0%nat) [Some 1%nat; None] [0%nat; 1%nat]).
  - refine (bool_decide_unpack _ _). vm_compute. exact Logic.I.
  - repeat constructor; try (vm_compute; congruence).
  - discriminate.
Defined.

Lemma dump_print_table_witness :
  read_table (dump_print (W := NumericWorld.numeric_world) (fun _ => str "error") sample_device true)
  = device_row true sample_device
    :: map (peer_row (W := NumericWorld.numeric_world) (fun _ => str "error") true sample_device)
         (dev_peers sample_device).
Proof.
  apply (dump_print_table (P := arm64) (NN := NumericWorld.numeric_names) (fun _ => str "error")).
  - intros sa. apply word_field. by repeat constructor.
  - unfold dumpable. split; [apply word_field; by repeat constructor|].
    split; [exact sample_device_wf|]. unfold dumpable_peer. solve_concrete.
Defined.


End ShowFacts.
