(* ===== verification/Wg.v ===== *)
(** * wg genkey, genpsk, pubkey, and the command dispatcher
    (src/genkey.c, src/pubkey.c, src/curve25519.h, src/wg.c) *)
From S2P Require Import Prelude Ctype Libc Encoding Containers Config IpcSpec Showconf Setconf Terminal Show.
From S2P Require Import ConfigFacts ConfigText ShowconfFacts.
Import Ctype Libc Encoding Config Setconf.

Module Wg.

Definition clamp_first (b : Z) : Z := Z.land b 248.
Definition clamp_last (b : Z) : Z := Z.lor (Z.land b 127) 64.
Definition curve25519_clamp_secret (secret : list Z) : list Z :=
  let secret := <[0%nat := clamp_first (nth 0 secret 0)]> secret in
  <[31%nat := clamp_last (nth 31 secret 0)]> secret.

(** The sources of randomness, in the order they are tried: [getentropy] and
    the [getrandom] system call, where they are compiled in and succeed, and
    reads of /dev/urandom ([None] when it cannot be opened): what each read of
    up to [n] bytes returns, nothing on error or end of file. *)
Record random_source := {
  rs_getentropy : nat -> option (list Z);
  rs_getrandom : nat -> option (list Z);
  rs_urandom : option (nat -> nat -> list Z)
}.

(** The loop of reads until [len] bytes are there. *)
Fixpoint read_random (fuel : nat) (read : nat -> nat -> list Z) (len : nat) (out : list Z)
  : option (list Z) :=
  match fuel with
  | O => if (length out =? len)%nat then Some out else None
  | S fuel' =>
      if (length out <? len)%nat then
        match read (length out) (len - length out)%nat with
        | [] => None
        | bytes => read_random fuel' read len (out ++ bytes)
        end
      else if (length out =? len)%nat then Some out else None
  end.

Definition get_random_bytes (rs : random_source) (len : nat) : option (list Z) :=
  if (256 <? len)%nat then None
  else match rs_getentropy rs len with
       | Some out => Some out
       | None =>
           match rs_getrandom rs len with
           | Some out => Some out
           | None =>
               match rs_urandom rs with
               | None => None
               | Some read => read_random len read len []
               end
           end
       end.

Section Commands.
Context `{P : Platform} `{W : World}.

(** [genkey_main]: exit status and output. *)
Definition genkey_main (rs : random_source) (argv : list cstring) : Z * cstring :=
  match argv with
  | [name] =>
      match get_random_bytes rs WG_KEY_LEN with
      | None => (1, [])
      | Some key =>
          let key := if str_eq name (str "genkey") then curve25519_clamp_secret key else key in
          (0, key_to_base64 key ++ [NL])
      end
  | _ => (1, [])
  end.

(** The loop over what follows the key on stdin. *)
Fixpoint trailing_ok (input : list ascii) : bool :=
  match input with
  | [] => true
  | c :: input =>
      if (uchar c =? 0) || char_is_space (uchar c) then trailing_ok input else false
  end.

Definition pubkey_main (curve25519_generate_public : list Z -> list Z)
  (stdin : list ascii) (argv : list cstring) : Z * cstring :=
  match argv with
  | [_] =>
      if (length stdin <? WG_KEY_LEN_BASE64 - 1)%nat then (1, [])
      else
        let base64 := take (WG_KEY_LEN_BASE64 - 1) stdin in
        if negb (trailing_ok (drop (WG_KEY_LEN_BASE64 - 1) stdin)) then (1, [])
        else
          let '(ok, key) := key_from_base64 zero_key (cut_nul base64) in
          if negb ok then (1, [])
          else (0, key_to_base64 (curve25519_generate_public key) ++ [NL])
  | _ => (1, [])
  end.

(** ** The dispatcher *)

Context (curve25519_generate_public : list Z -> list Z) (gai_strerror : sockaddr -> cstring).
Context (version usage : cstring).
Context `{Q : Qsort} `{I : Ipc Sys} (color : bool) (now : Z) (rs : random_source) (stdin : list ascii).
Context (fuel : nat).

Inductive subcommand := CmdShow | CmdShowconf | CmdSet | CmdSetconf | CmdGenkey | CmdPubkey.

Definition subcommands : list (cstring * subcommand) :=
  [(str "show", CmdShow); (str "showconf", CmdShowconf); (str "set", CmdSet);
   (str "setconf", CmdSetconf); (str "addconf", CmdSetconf); (str "syncconf", CmdSetconf);
   (str "genkey", CmdGenkey); (str "genpsk", CmdGenkey); (str "pubkey", CmdPubkey)].

Definition find_subcommand (name : cstring) : option subcommand :=
  match List.find (fun e => str_eq name e.1) subcommands with
  | Some (_, c) => Some c
  | None => None
  end.

(** Calling the function of a subcommand with [argv] from its name on. *)
Definition run_subcommand (sys : Sys) (c : subcommand) (argv : list cstring)
  : outcome (Z * cstring * Sys) :=
  match c with
  | CmdShow => Show.show_main gai_strerror color now sys (tail argv)
  | CmdShowconf => Showconf.showconf_main sys argv
  | CmdSet => '(ret, sys) ← set_main fuel sys argv; Ret (ret, [], sys)
  | CmdSetconf => '(ret, sys) ← setconf_main fuel sys argv; Ret (ret, [], sys)
  | CmdGenkey => let '(ret, out) := genkey_main rs argv in Ret (ret, out, sys)
  | CmdPubkey =>
      let '(ret, out) := pubkey_main curve25519_generate_public stdin argv in Ret (ret, out, sys)
  end.

(** [main]: [args] is [argv] from [argv[1]] on. *)
Definition main (sys : Sys) (args : list cstring) : outcome (Z * cstring * Sys) :=
  match args with
  | [] => run_subcommand sys CmdShow [str "show"]
  | arg :: rest =>
      if bool_decide (rest = [])
         && (str_eq arg (str "-v") || str_eq arg (str "--version") || str_eq arg (str "version"))
      then Ret (0, version, sys)
      else if bool_decide (rest = [])
              && (str_eq arg (str "-h") || str_eq arg (str "--help") || str_eq arg (str "help"))
      then Ret (0, usage, sys)
      else match find_subcommand arg with
           | Some c => run_subcommand sys c args
           | None => Ret (1, [], sys)
           end
  end.

End Commands.

(** ** Keys *)

Lemma clamp_bytes b : is_byte b ->
  is_byte (clamp_first b) /\ is_byte (clamp_last b) /\
  clamp_first b mod 8 = 0 /\ 64 <= clamp_last b < 128.
Proof.
  intros Hb.
  assert (H : ((0 <=? clamp_first b) && (clamp_first b <? 256) && (0 <=? clamp_last b)
    && (clamp_last b <? 256) && (clamp_first b mod 8 =? 0) && (64 <=? clamp_last b)
    && (clamp_last b <? 128)) = true).
  { revert b Hb. apply byte_forall. vm_compute. reflexivity. }
  unfold is_byte. rewrite !andb_true_iff in H. lia.
Qed.

Lemma list_split_ends (l : list Z) : length l = 32%nat ->
  exists a mid b, l = a :: mid ++ [b] /\ length mid = 30%nat.
Proof.
  intros Hl. destruct l as [|a l]; [done|]. destruct l as [|x l] using rev_ind; [done|].
  exists a, l, x. rewrite length_cons, length_app in Hl. simpl in Hl. split; [done|lia].
Qed.

Lemma clamp_shape a mid b : length mid = 30%nat ->
  curve25519_clamp_secret (a :: mid ++ [b]) = clamp_first a :: mid ++ [clamp_last b].
Proof.
  intros Hm. unfold curve25519_clamp_secret. cbn [nth].
  change (<[0%nat:=clamp_first a]> (a :: mid ++ [b])) with (clamp_first a :: mid ++ [b]).
  replace (nth 31 (clamp_first a :: mid ++ [b]) 0) with b.
  2: { cbn [nth]. rewrite app_nth2 by lia. by rewrite Hm. }
  change (<[31%nat:=clamp_last b]> (clamp_first a :: mid ++ [b]))
    with (clamp_first a :: <[30%nat:=clamp_last b]> (mid ++ [b])).
  f_equal. rewrite insert_app_r_alt, Hm by lia. done.
Qed.

Lemma clamp_bytes_idem b : is_byte b ->
  clamp_first (clamp_first b) = clamp_first b /\ clamp_last (clamp_last b) = clamp_last b.
Proof.
  intros Hb.
  assert (H : ((clamp_first (clamp_first b) =? clamp_first b)
               && (clamp_last (clamp_last b) =? clamp_last b)) = true).
  { revert b Hb. apply byte_forall. vm_compute. reflexivity. }
  apply andb_true_iff in H. lia.
Qed.

(** A clamped key is a key, and clamping again changes nothing. *)
Lemma clamp_wf_idem k : wf_key k ->
  wf_key (curve25519_clamp_secret k) /\
  curve25519_clamp_secret (curve25519_clamp_secret k) = curve25519_clamp_secret k.
Proof.
  intros [Hl Hb]. destruct (list_split_ends k Hl) as (a & mid & b & -> & Hm).
  rewrite !clamp_shape by done. inversion_clear Hb as [|? ? Ha Hb'].
  apply Forall_app in Hb' as [Hmid Hb']. inversion_clear Hb' as [|? ? Hbb _].
  destruct (clamp_bytes a Ha) as (A1 & _). destruct (clamp_bytes b Hbb) as (_ & B2 & _).
  split.
  - split; [rewrite length_cons, length_app, Hm; done|]. constructor; [done|].
    apply Forall_app_2; [done|]. by constructor.
  - by rewrite (proj1 (clamp_bytes_idem a Ha)), (proj2 (clamp_bytes_idem b Hbb)).
Qed.

(** Clamping makes a private key a valid X25519 scalar, a multiple of 8 between
    2^254 and 2^255, keeping its middle bytes. *)
Theorem clamp_secret_scalar k : wf_key k ->
  let k' := curve25519_clamp_secret k in
  wf_key k' /\ 2 ^ 254 <= le_number k' < 2 ^ 255 /\ le_number k' mod 8 = 0 /\
  take 30 (drop 1 k') = take 30 (drop 1 k) /\ curve25519_clamp_secret k' = k'.
Proof.
  intros Hk. cbv zeta. destruct (clamp_wf_idem k Hk) as [Hwf Hidem].
  split; [done|]. rewrite Hidem. destruct Hk as [Hl Hb]. clear Hwf Hidem.
  destruct (list_split_ends k Hl) as (a & mid & b & -> & Hm). clear Hl.
  rewrite clamp_shape by done. inversion_clear Hb as [|? ? Ha Hb'].
  apply Forall_app in Hb' as [Hmid Hb']. inversion_clear Hb' as [|? ? Hbb _].
  destruct (clamp_bytes a Ha) as (A1 & _ & A3 & _). destruct (clamp_bytes b Hbb) as (_ & B2 & _ & B4).
  assert (Hnum : le_number (clamp_first a :: mid ++ [clamp_last b]) =
    clamp_first a + 256 * (le_number mid + 256 ^ 30 * clamp_last b)).
  { cbn [le_number]. rewrite le_number_app, Hm. cbn [le_number]. change (Z.of_nat 30) with 30. ring. }
  pose proof (le_number_range mid Hmid) as Hr. rewrite Hm in Hr. change (Z.of_nat 30) with 30 in Hr.
  rewrite Hnum. split; [|split; [|split; [|done]]].
  - unfold is_byte in A1.
    replace (2 ^ 254) with (256 * (256 ^ 30 * 64)) by reflexivity.
    replace (2 ^ 255) with (256 * (256 ^ 30 * 128)) by reflexivity. lia.
  - replace (clamp_first a + 256 * (le_number mid + 256 ^ 30 * clamp_last b))
      with (clamp_first a + (32 * (le_number mid + 256 ^ 30 * clamp_last b)) * 8) by ring.
    by rewrite Z_mod_plus_full.
  - cbn [skipn]. rewrite !drop_0, !take_app_le by lia. done.
Qed.

Lemma clamp_secret_scalar_witness :
  2 ^ 254 <= le_number (curve25519_clamp_secret sample_key) < 2 ^ 255.
Proof. apply (clamp_secret_scalar sample_key sample_key_wf). Defined.

(** A read source that makes progress and never overfills. *)
Definition good_read (read : nat -> nat -> list Z) : Prop :=
  forall off n, (0 < n)%nat -> (0 < length (read off n) <= n)%nat /\ Forall is_byte (read off n).

Lemma read_random_spec read : good_read read -> forall fuel len out,
  (length out <= len)%nat -> (len <= fuel + length out)%nat -> Forall is_byte out ->
  exists key, read_random fuel read len out = Some key /\ length key = len /\ Forall is_byte key.
Proof.
  intros Hr. induction fuel as [|fuel IH]; intros len out H1 H2 Hb; cbn [read_random].
  - replace (length out =? len)%nat with true by (symmetry; apply Nat.eqb_eq; lia).
    exists out. split_and!; try done. simpl in H2. lia.
  - destruct (Nat.ltb_spec (length out) len) as [Hlt|Hge].
    + destruct (Hr (length out) (len - length out)%nat) as [Hlen Hby]; [lia|].
      destruct (read (length out) (len - length out)%nat) as [|x l]; [simpl in Hlen; lia|].
      apply IH; [rewrite length_app; lia|rewrite length_app; simpl in *; lia|by apply Forall_app_2].
    + replace (length out =? len)%nat with true by (symmetry; apply Nat.eqb_eq; lia).
      exists out. split_and!; try done. lia.
Qed.

(** [wg genkey] prints, for any randomness the system provides, a key that
    [wg] reads back and that is clamped; with only /dev/urandom its read loop
    collects the 32 bytes however the reads are split. *)
Theorem genkey_prints_key `{P : Platform} rs :
  (forall n k, rs_getentropy rs n = Some k -> length k = n /\ Forall is_byte k) ->
  (forall n k, rs_getrandom rs n = Some k -> length k = n /\ Forall is_byte k) ->
  match rs_urandom rs with Some read => good_read read | None => False end ->
  exists k text, genkey_main rs [str "genkey"] = (0, text ++ [NL]) /\
    key_from_base64 zero_key text = (true, k) /\ wf_key k /\ curve25519_clamp_secret k = k.
Proof.
  intros He Hg Hu.
  assert (Hk : exists key, get_random_bytes rs WG_KEY_LEN = Some key /\ wf_key key).
  { unfold get_random_bytes. change (256 <? WG_KEY_LEN)%nat with false. cbv iota.
    destruct (rs_getentropy rs WG_KEY_LEN) as [k|] eqn:E1; [exists k; split; [done|by apply He]|].
    destruct (rs_getrandom rs WG_KEY_LEN) as [k|] eqn:E2; [exists k; split; [done|by apply Hg]|].
    destruct (rs_urandom rs) as [read|]; [|done].
    destruct (read_random_spec read Hu WG_KEY_LEN WG_KEY_LEN []) as (key & E & Hl & Hb);
      [unfold WG_KEY_LEN; simpl; lia|unfold WG_KEY_LEN; simpl; lia|constructor|]. exists key. by split. }
  destruct Hk as (key & E & Hwf). unfold genkey_main. rewrite E.
  change (str_eq (str "genkey") (str "genkey")) with true. cbv iota.
  pose proof (clamp_wf_idem key Hwf) as Hc.
  destruct Hc as [Hc1 Hc2].
  exists (curve25519_clamp_secret key), (key_to_base64 (curve25519_clamp_secret key)).
  split; [done|]. split; [by apply key_from_base64_complete|]. done.
Qed.

Definition sample_source : random_source :=
  {| rs_getentropy := fun _ => None; rs_getrandom := fun _ => None;
     rs_urandom := Some (fun off n => take (Nat.min 7 n) (replicate 7 (Z.of_nat off mod 256))) |}.

Lemma genkey_prints_key_witness : exists k text,
  genkey_main sample_source [str "genkey"] = (0, text ++ [NL]) /\
  key_from_base64 (P := arm64) zero_key text = (true, k) /\ wf_key k /\ curve25519_clamp_secret k = k.
Proof.
  apply (genkey_prints_key (P := arm64) sample_source); [done|done|].
  intros off n Hn. split.
  - rewrite length_take, length_replicate. lia.
  - apply Forall_take, Forall_replicate. apply (Z.mod_pos_bound _ 256). lia.
Defined.

Lemma base64_ref_length_32 l : length l = 32%nat -> length (base64_ref l) = 44%nat.
Proof.
  intros Hl. do 32 (destruct l as [|? l]; [done|]). destruct l; [|done]. reflexivity.
Qed.

Lemma key_to_base64_length k : wf_key k -> length (key_to_base64 k) = 44%nat.
Proof. intros Hk. rewrite key_to_base64_ref by done. apply base64_ref_length_32, Hk. Qed.

Lemma cut_nul_length s : (length (cut_nul s) <= length s)%nat /\
  (length (cut_nul s) = length s -> cut_nul s = s).
Proof.
  induction s as [|c s [IH1 IH2]]; simpl; [done|].
  destruct (Ascii.eqb c NUL); simpl; [lia|]. split; [lia|]. intros [= H]. by rewrite IH2.
Qed.

Definition trailing_char (c : ascii) : bool := (uchar c =? 0) || char_is_space (uchar c).

Lemma trailing_ok_forall input : trailing_ok input = forallb trailing_char input.
Proof. induction input as [|c l IH]; simpl; [done|]. unfold trailing_char. by destruct (_ || _). Qed.

(** [wg pubkey] succeeds exactly on a key in base64 followed by white space and
    NUL bytes only, and then prints the public key of it; on any other input it
    fails and prints nothing. *)
Theorem pubkey_main_correct `{P : Platform} curve stdin name :
  (forall out, pubkey_main curve stdin [name] = (0, out) <->
     exists k rest, wf_key k /\ stdin = key_to_base64 k ++ rest /\ forallb trailing_char rest = true /\
       out = key_to_base64 (curve k) ++ [NL]) /\
  (pubkey_main curve stdin [name] = (1, []) \/ fst (pubkey_main curve stdin [name]) = 0).
Proof.
  unfold pubkey_main. change (WG_KEY_LEN_BASE64 - 1)%nat with 44%nat.
  rewrite trailing_ok_forall.
  assert (Hrej : forall k rest, wf_key k -> stdin = key_to_base64 k ++ rest ->
    (44 <= length stdin)%nat /\ take 44 stdin = key_to_base64 k /\ drop 44 stdin = rest).
  { intros k rest Hk ->. pose proof (key_to_base64_length k Hk) as Hl. split_and!.
    - rewrite length_app. lia.
    - rewrite <- Hl at 1. apply take_app_length.
    - rewrite <- Hl at 1. apply drop_app_length. }
  destruct (Nat.ltb_spec (length stdin) 44) as [Hlt|Hge].
  { split; [|by left]. intros out. split; [done|]. intros (k & rest & Hk & Hs & _).
    destruct (Hrej k rest Hk Hs). lia. }
  destruct (forallb trailing_char (drop 44 stdin)) eqn:Et; cbn [negb].
  2: { split; [|by left]. intros out. split; [done|]. intros (k & rest & Hk & Hs & Hr & _).
       destruct (Hrej k rest Hk Hs) as (_ & _ & E). rewrite E in Et. congruence. }
  destruct (key_from_base64 zero_key (cut_nul (take 44 stdin))) as [ok key] eqn:E.
  destruct ok; cbn [negb].
  - apply key_from_base64_sound in E as [Hk Hs]; [|done].
    assert (Hcut : cut_nul (take 44 stdin) = take 44 stdin).
    { apply cut_nul_length. rewrite Hs, key_to_base64_length, length_take by done. lia. }
    rewrite Hcut in Hs. split; [|by right]. intros out. split.
    + intros [= <-]. exists key, (drop 44 stdin). split; [done|]. split; [|done].
      rewrite <- Hs. by rewrite take_drop.
    + intros (k & rest & Hk' & Hs' & _ & ->). destruct (Hrej k rest Hk' Hs') as (_ & E' & _).
      rewrite E' in Hs. pose proof (key_from_base64_complete zero_key k eq_refl Hk') as C1.
      rewrite Hs in C1. rewrite (key_from_base64_complete zero_key key eq_refl Hk) in C1.
      by injection C1 as ->.
  - split; [|by left]. intros out. split; [done|]. intros (k & rest & Hk & Hs & _).
    destruct (Hrej k rest Hk Hs) as (_ & E' & _). rewrite E' in E.
    assert (Hcut : cut_nul (key_to_base64 k) = key_to_base64 k).
    { apply ShowconfFacts.cut_nul_id, ConfigText.word_no_nul. by apply ShowconfFacts.key_to_base64_word. }
    rewrite Hcut, key_from_base64_complete in E by done. done.
Qed.

End Wg.
