(* ===== verification/Prime25519.v ===== *)
(** * The prime 2^255 - 19

    Curve25519 is a curve over the integers modulo 2^255 - 19. That this number is
    prime is shown with Pocklington's criterion: a number is prime when primes
    whose product exceeds its square root divide its predecessor, with a witness
    for each. The chain of certificates ends with primes small enough for trial
    division. *)
From Stdlib Require Import ZArith List Lia Bool Zpow_facts.
From Stdlib Require Import Zmod.
Import ListNotations.
#[local] Open Scope Z_scope.

Module Prime25519.

Definition p25519 : Z := 2 ^ 255 - 19.

(** ** Prime divisors *)

Lemma prime_divisor n : 1 < n -> exists r, Z.prime r /\ (r | n).
Proof.
  intros Hn. assert (H : forall k m, (Z.to_nat m <= k)%nat -> 1 < m -> exists r, Z.prime r /\ (r | m)).
  { induction k as [|k IH]; intros m Hk Hm; [lia|].
    destruct (Znumtheory.prime_dec m) as [Hp|Hp].
    - exists m. split; [|apply Z.divide_refl]. apply Znumtheory.prime_alt in Hp. exact Hp.
    - apply Znumtheory.not_prime_divide in Hp as (d & Hd & Hdiv); [|exact Hm].
      destruct (IH d) as (r & Hr & Hrd); [lia|lia|]. exists r. split; [exact Hr|]. exact (Z.divide_trans _ _ _ Hrd Hdiv). }
  exact (H (Z.to_nat n) n (le_n _) Hn).
Qed.

(** A number whose prime divisors are all above its square root is prime. *)
Lemma prime_of_large_divisors n : 1 < n -> (forall r, Z.prime r -> (r | n) -> n < r * r) -> Z.prime n.
Proof.
  intros Hn H. split; [exact Hn|]. intros d Hd [e He].
  assert (1 < e < n) by nia. destruct (prime_divisor d) as (r & Hr & Hrd); [lia|].
  destruct (prime_divisor e) as (s & Hs & Hse); [lia|].
  assert (n < r * r) by (apply H; [exact Hr|]; rewrite He; apply Z.divide_mul_r; exact Hrd).
  assert (n < s * s) by (apply H; [exact Hs|]; rewrite He; apply Z.divide_mul_l; exact Hse).
  pose proof (Z.prime_ge_2 r Hr). pose proof (Z.prime_ge_2 s Hs).
  apply Z.divide_pos_le in Hrd; [|lia]. apply Z.divide_pos_le in Hse; [|lia].
  assert (r * r <= d * d) by nia. assert (s * s <= e * e) by nia. assert (e < d) by nia. nia.
Qed.

(** ** Pocklington's criterion *)

(** The base 2 is a witness for the prime factor [q] of [n - 1]. *)
Definition witness (n q : Z) : bool :=
  (1 <? q) && ((n - 1) mod q =? 0) && (Zpow_mod 2 (n - 1) n =? 1)
  && (Z.gcd (Zpow_mod 2 ((n - 1) / q) n - 1) n =? 1).

Lemma pow_one_mod a k r : 1 < r -> 0 <= k -> a mod r = 1 -> a ^ k mod r = 1.
Proof. intros Hr Hk Ha. rewrite <- Z.mod_pow_l, Ha, Z.pow_1_l, Z.mod_1_l by lia. reflexivity. Qed.

(** An element with two coprime exponents is one. *)
Lemma coprime_exponents b r q k : 1 < r -> 0 < q -> 0 < k -> Z.gcd q k = 1 ->
  b ^ q mod r = 1 -> b ^ k mod r = 1 -> b mod r = 1.
Proof.
  intros Hr Hq Hk Hg Eq Ek. destruct (Z.eq_dec k 1) as [->|Hk1]; [rewrite Z.pow_1_r in Ek; exact Ek|].
  destruct (Z.gcd_bezout q k 1 Hg) as (x & y & E).
  set (x' := x mod k). assert (0 <= x' < k) by (apply Z.mod_pos_bound; lia).
  assert (Hx : exists z, 0 <= z /\ x' * q = 1 + z * k).
  { exists ((x' * q - 1) / k). assert (Hd : (x' * q - 1) mod k = 0).
    { unfold x'. rewrite Zminus_mod, Zmult_mod_idemp_l. replace (x * q) with (1 + (- y) * k) by lia.
      rewrite Z.mod_add by lia. rewrite <- Zminus_mod. reflexivity. }
    apply Z.mod_divide in Hd as [z Hz]; [|lia].
    rewrite Hz, Z.div_mul by lia. split; [|lia].
    destruct (Z.eq_dec x' 0) as [E0|]; [|assert (1 <= x' * q) by nia; nia].
    rewrite E0 in Hz. assert (z * k = -1) by lia. nia. }
  destruct Hx as (z & Hz & Ez).
  assert (E1 : b ^ (x' * q) mod r = 1) by (rewrite Z.mul_comm, Z.pow_mul_r by lia; apply pow_one_mod; lia).
  rewrite Ez, Z.pow_add_r, Z.pow_1_r, Z.mul_comm in E1 by nia.
  assert (E2 : b ^ (z * k) mod r = 1) by (rewrite Z.mul_comm, Z.pow_mul_r by lia; apply pow_one_mod; lia).
  rewrite <- Zmult_mod_idemp_l, E2, Z.mul_1_l in E1. exact E1.
Qed.

Lemma witness_divides n q r : 1 < n -> witness n q = true -> Z.prime q -> Z.prime r -> (r | n) -> (q | r - 1).
Proof.
  intros Hn Hw Hq Hr Hrn. unfold witness in Hw. rewrite !andb_true_iff in Hw. destruct Hw as [[[H1 H2] H3] H4].
  apply Z.ltb_lt in H1. apply Z.eqb_eq in H2, H3, H4. rewrite Zpow_mod_correct in H3, H4 by lia.
  pose proof (Z.prime_ge_2 r Hr). apply Z.mod_divide in H2 as [k Hk]; [|lia].
  assert (Hdiv : (n - 1) / q = k) by (rewrite Hk; apply Z.div_mul; lia). rewrite Hdiv in H4.
  assert (0 < k) by nia.
  (** Modulo [r], since it divides [n]. *)
  assert (Hred : forall a, a mod n = 1 -> a mod r = 1).
  { intros a Ha. rewrite <- (Z.mod_mod_divide a n r Hrn), Ha. apply Z.mod_1_l. lia. }
  assert (E1 : (2 ^ k) ^ q mod r = 1) by (rewrite <- Z.pow_mul_r, <- Hk by lia; apply Hred, H3).
  assert (Hnz : (2 ^ k) mod r <> 0).
  { intros E. rewrite <- Z.mod_pow_l, E, Z.pow_0_l, Z.mod_0_l in E1 by lia. lia. }
  pose proof (Z.fermat_nz r _ Hr Hnz) as E2.
  destruct (Z.eq_dec ((r - 1) mod q) 0) as [E|E]; [apply Z.mod_divide in E; [exact E|lia]|].
  exfalso. assert (Hg : Z.gcd q (r - 1) = 1).
  { apply Z.coprime_prime_l; [exact Hq|]. intros D. apply E. apply Z.mod_divide; [lia|exact D]. }
  pose proof (coprime_exponents (2 ^ k) r q (r - 1) ltac:(lia) ltac:(lia) ltac:(lia) Hg E1 E2) as Eb.
  assert (D : (r | (2 ^ k mod n) - 1)).
  { apply Z.mod_divide; [lia|]. rewrite Zminus_mod.
    rewrite Z.mod_mod_divide, Eb, Z.mod_1_l by (lia || exact Hrn). reflexivity. }
  assert (D1 : (r | 1)) by (rewrite <- H4; apply Z.gcd_greatest; [exact D|exact Hrn]).
  apply Z.divide_1_r in D1. lia.
Qed.

(** Primes that differ and divide a number: so does their product. *)
Lemma product_divides qs m : NoDup qs -> Forall Z.prime qs -> Forall (fun q => (q | m)) qs ->
  (fold_right Z.mul 1 qs | m).
Proof.
  intros Hnd Hp Hd. induction qs as [|q qs IH]; [apply Z.divide_1_l|]. cbn [fold_right].
  inversion_clear Hnd. inversion_clear Hp. inversion_clear Hd.
  assert (Hc : Z.gcd q (fold_right Z.mul 1 qs) = 1).
  { apply Z.coprime_prime_l; [assumption|]. intros D.
    assert (Hin : forall l, Forall Z.prime l -> (q | fold_right Z.mul 1 l) -> In q l).
    { induction l as [|x l IHl]; intros Hl Dl; cbn [fold_right] in Dl.
      - apply Z.divide_1_r in Dl. pose proof (Z.prime_ge_2 q ltac:(assumption)). lia.
      - inversion_clear Hl. apply Z.divide_prime_mul in Dl as [Dl|Dl]; [left|right; auto|assumption].
        symmetry. apply Z.divide_prime_prime in Dl; assumption. }
    auto. }
  destruct (IH ltac:(assumption) ltac:(assumption) ltac:(assumption)) as [k Hk].
  rewrite Hk in *. match goal with H : (q | k * _) |- _ => rename H into Dq end.
  rewrite Z.mul_comm in Dq. apply Z.gauss in Dq; [|exact Hc]. destruct Dq as [j Hj]. exists j. rewrite Hj. ring.
Qed.

Lemma pocklington n qs : 1 < n -> NoDup qs -> Forall Z.prime qs -> forallb (witness n) qs = true ->
  n < fold_right Z.mul 1 qs * fold_right Z.mul 1 qs -> Z.prime n.
Proof.
  intros Hn Hnd Hp Hw Hf. apply prime_of_large_divisors; [exact Hn|]. intros r Hr Hrn.
  assert (D : (fold_right Z.mul 1 qs | r - 1)).
  { apply product_divides; [assumption..|]. rewrite Forall_forall in *. rewrite forallb_forall in Hw.
    intros q Hq. exact (witness_divides n q r Hn (Hw q Hq) (Hp q Hq) Hr Hrn). }
  pose proof (Z.prime_ge_2 r Hr). apply Z.divide_pos_le in D; [|lia].
  assert (0 <= fold_right Z.mul 1 qs).
  { clear -Hp. induction Hp as [|q l Hq _ IH]; cbn [fold_right]; [lia|]. pose proof (Z.prime_ge_2 q Hq). nia. }
  nia.
Qed.

(** ** Certificates *)

(** Trial division up to [k]. *)
Definition no_divisor (k : nat) (n : Z) : bool := forallb (fun d => negb (n mod Z.of_nat d =? 0)) (seq 2 k).

Lemma trial_division k n : 1 < n -> n < (Z.of_nat k + 2) * (Z.of_nat k + 2) -> no_divisor k n = true -> Z.prime n.
Proof.
  intros Hn Hk H. apply prime_of_large_divisors; [exact Hn|]. intros r Hr Hrn. pose proof (Z.prime_ge_2 r Hr).
  destruct (Z.lt_ge_cases r (Z.of_nat k + 2)) as [Hlt|]; [|nia]. exfalso.
  unfold no_divisor in H. rewrite forallb_forall in H. specialize (H (Z.to_nat r)).
  rewrite Z2Nat.id, in_seq in H by lia. specialize (H ltac:(lia)).
  apply negb_true_iff, Z.eqb_neq in H. apply H. apply Z.mod_divide; [lia|exact Hrn].
Qed.

Ltac small_prime k := apply (trial_division k); [lia|vm_compute; reflexivity|vm_compute; reflexivity].
Ltac certificate qs :=
  apply (pocklington _ qs);
  [lia|repeat (apply NoDup_cons; [cbn [In]; intuition discriminate|]); apply NoDup_nil
  |repeat (apply Forall_cons; [assumption|]); apply Forall_nil
  |vm_compute; reflexivity|vm_compute; reflexivity].

Lemma prime_25519 : Z.prime p25519.
Proof.
  assert (Z.prime 103) by small_prime 9%nat. assert (Z.prime 127) by small_prime 10%nat.
  assert (Z.prime 991) by small_prime 30%nat. assert (Z.prime 4153) by small_prime 63%nat.
  assert (Z.prime 430751) by small_prime 655%nat. assert (Z.prime 569003) by small_prime 753%nat.
  assert (Z.prime 8574133) by certificate [991; 103].
  assert (Z.prime 1919519569386763) by certificate [8574133; 127].
  assert (Z.prime 2773320623) by certificate [569003].
  assert (Z.prime 72106336199) by certificate [2773320623].
  assert (Z.prime 75445702479781427272750846543864801) by certificate [1919519569386763; 72106336199].
  assert (Z.prime 31757755568855353) by certificate [430751; 4153].
  assert (Z.prime 74058212732561358302231226437062788676166966415465897661863160754340907)
    by certificate [75445702479781427272750846543864801; 31757755568855353].
  change p25519 with 57896044618658097711785492504343953926634992332820282019728792003956564819949.
  certificate [74058212732561358302231226437062788676166966415465897661863160754340907].
Qed.
End Prime25519.
