(* ===== verification/X25519.v ===== *)
(** * X25519, the specification (RFC 7748)

    The function on the Montgomery curve that both implementations of
    src/curve25519.c compute: the ladder on the integers modulo 2^255 - 19, on the
    x-coordinate of a point. The ladder starts with the neutral element, and
    leading zeros of the scalar do not change its result. *)
From Stdlib Require Import Zpow_facts.
From Stdlib Require ZmodInv.
From S2P Require Import Prelude Encoding Wg Prime25519.
Import Encoding Wg Prime25519.

Module X25519.

(** ** The field *)

Definition p : Z := p25519.
Definition fadd (a b : Z) : Z := (a + b) mod p.
Definition fsub (a b : Z) : Z := (a - b) mod p.
Definition fmul (a b : Z) : Z := (a * b) mod p.
Definition fsqr (a : Z) : Z := fmul a a.
Definition finv (a : Z) : Z := Zpow_mod a (p - 2) p.
Definition a24 : Z := 121665.

(** ** The ladder *)

(** The x-coordinates of two points, each as a fraction. *)
Record state := { x2 : Z; z2 : Z; x3 : Z; z3 : Z }.

Definition cswap (b : bool) (s : state) : state :=
  if b then {| x2 := x3 s; z2 := z3 s; x3 := x2 s; z3 := z2 s |} else s.

(** One step: double the first point, add the second, whose difference has the
    x-coordinate [u]. *)
Definition step (u : Z) (s : state) : state :=
  let a := fadd (x2 s) (z2 s) in
  let aa := fsqr a in
  let b := fsub (x2 s) (z2 s) in
  let bb := fsqr b in
  let e := fsub aa bb in
  let c := fadd (x3 s) (z3 s) in
  let d := fsub (x3 s) (z3 s) in
  let da := fmul d a in
  let cb := fmul c b in
  {| x2 := fmul aa bb; z2 := fmul e (fadd aa (fmul a24 e));
     x3 := fsqr (fadd da cb); z3 := fmul u (fsqr (fsub da cb)) |}.

(** The step for a bit of the scalar. *)
Definition bit_step (u : Z) (b : bool) (s : state) : state := cswap b (step u (cswap b s)).

(** Bits [n - 1] down to 0 of the scalar [k]. *)
Fixpoint ladder (u k : Z) (n : nat) (s : state) : state :=
  match n with
  | O => s
  | S n => ladder u k n (bit_step u (Z.testbit k (Z.of_nat n)) s)
  end.

Definition start (u : Z) : state := {| x2 := 1; z2 := 0; x3 := u; z3 := 1 |}.

Definition x25519 (k u : Z) : Z :=
  let s := ladder u k 255 (start u) in fmul (x2 s) (finv (z2 s)).

(** On byte strings: the scalar is clamped, the top bit of the coordinate is
    ignored. *)
Definition decode_scalar (k : list Z) : Z := Z.lor (Z.land (le_number k) (2 ^ 254 - 8)) (2 ^ 254).
Definition decode_u (u : list Z) : Z := (le_number u mod 2 ^ 255) mod p.
Definition X25519 (k u : list Z) : list Z := le_bytes 32 (x25519 (decode_scalar k) (decode_u u)).

Lemma X25519_reduced k u : 0 <= le_number (X25519 k u) < p.
Proof.
  unfold X25519. assert (H : 0 <= x25519 (decode_scalar k) (decode_u u) < p) by (apply Z.mod_pos_bound; reflexivity).
  rewrite le_number_bytes, Z.mod_small; [done|]. assert (p < 256 ^ Z.of_nat 32) by reflexivity. lia.
Qed.

(** ** Words *)

Lemma lxor_range n a b : 0 <= n -> 0 <= a < 2 ^ n -> 0 <= b < 2 ^ n -> 0 <= Z.lxor a b < 2 ^ n.
Proof.
  intros Hn Ha Hb. replace (Z.lxor a b) with (Z.lxor a b mod 2 ^ n); [apply Z.mod_pos_bound; lia|].
  apply Z.bits_inj'. intros i Hi. destruct (Z.lt_ge_cases i n); [by apply Z.mod_pow2_bits_low|].
  rewrite Z.mod_pow2_bits_high, Z.lxor_spec by lia.
  by rewrite <- (Z.mod_small a (2 ^ n)), <- (Z.mod_small b (2 ^ n)), !Z.mod_pow2_bits_high by lia.
Qed.
(** Exchanging two words under a mask of zeros or of ones. *)
Definition swap_words (mask a b : Z) : Z * Z :=
  let x := Z.land mask (Z.lxor a b) in (Z.lxor a x, Z.lxor b x).
Lemma swap_words_0 a b : swap_words 0 a b = (a, b).
Proof. unfold swap_words. by rewrite Z.land_0_l, !Z.lxor_0_r. Qed.
Lemma swap_words_ones n a b : 0 <= n -> 0 <= a < 2 ^ n -> 0 <= b < 2 ^ n -> swap_words (2 ^ n - 1) a b = (b, a).
Proof.
  intros Hn Ha Hb. unfold swap_words. replace (2 ^ n - 1) with (Z.ones n) by (rewrite Z.ones_equiv; lia).
  rewrite Z.land_comm, Z.land_ones, Z.mod_small by (try apply lxor_range; lia). f_equal.
  - by rewrite <- Z.lxor_assoc, Z.lxor_nilpotent, Z.lxor_0_l.
  - by rewrite (Z.lxor_comm a b), <- Z.lxor_assoc, Z.lxor_nilpotent, Z.lxor_0_l.
Qed.

(** A bit of a number is a bit of one of its bytes. *)
Lemma le_number_testbit l i j : Forall is_byte l -> 0 <= j < 8 ->
  Z.testbit (le_number l) (8 * Z.of_nat i + j) = Z.testbit (nth i l 0) j.
Proof.
  intros Hl Hj. revert i. induction Hl as [|b l Hb Hl IH]; intros i.
  - destruct i; by rewrite !Z.testbit_0_l.
  - cbn [le_number]. unfold is_byte in Hb. pose proof (le_number_range l Hl) as Hr.
    destruct i as [|i]; cbn [nth].
    + replace (8 * Z.of_nat 0 + j) with j by lia.
      rewrite <- (Z.mod_pow2_bits_low (b + 256 * le_number l) 8 j) by lia.
      change (2 ^ 8) with 256. rewrite Z.mul_comm, Z.mod_add, Z.mod_small by lia. done.
    + rewrite <- IH. replace (8 * Z.of_nat (S i) + j) with (8 + (8 * Z.of_nat i + j)) by lia.
      rewrite (Z.add_comm 8), <- Z.shiftr_spec, Z.shiftr_div_pow2 by lia. f_equal. change (2 ^ 8) with 256.
      rewrite (Z.mul_comm 256), Z.div_add, Z.div_small by lia. done.
Qed.

(** Bytes in the middle of a number. *)
Lemma le_number_slice l k n : Forall is_byte l -> (k + n <= length l)%nat ->
  le_number (take n (drop k l)) = (le_number l / 256 ^ Z.of_nat k) mod 256 ^ Z.of_nat n.
Proof.
  intros Hl Hlen. rewrite <- (take_drop k l) at 2. rewrite <- (take_drop n (drop k l)) at 2.
  rewrite !le_number_app, !length_take, length_drop.
  replace (k `min` length l)%nat with k by lia. replace (n `min` (length l - k))%nat with n by lia.
  pose proof (le_number_range (take k l) (Forall_take _ k l Hl)) as H1.
  pose proof (le_number_range (take n (drop k l)) (Forall_take _ n _ (Forall_drop _ k l Hl))) as H2.
  rewrite !length_take, ?length_drop in *. replace (k `min` length l)%nat with k in H1 by lia.
  replace (n `min` (length l - k))%nat with n in H2 by lia.
  assert (Hk : 0 < 256 ^ Z.of_nat k) by (apply Z.pow_pos_nonneg; lia).
  assert (Hn : 0 < 256 ^ Z.of_nat n) by (apply Z.pow_pos_nonneg; lia).
  rewrite (Z.mul_comm (256 ^ Z.of_nat k)), Z.div_add, Z.div_small, Z.add_0_l by lia.
  by rewrite (Z.mul_comm (256 ^ Z.of_nat n)), Z.mod_add, Z.mod_small by lia.
Qed.
(** Bits in the middle of a word that holds bits of a number. *)
Lemma word_slice a i w j n : 0 <= i -> 0 <= j -> 0 <= n -> j + n <= w ->
  ((a / 2 ^ i) mod 2 ^ w / 2 ^ j) mod 2 ^ n = (a / 2 ^ (i + j)) mod 2 ^ n.
Proof.
  intros Hi Hj Hn Hw. apply Z.bits_inj'. intros b Hb.
  destruct (Z.lt_ge_cases b n); [|by rewrite !Z.mod_pow2_bits_high by lia].
  rewrite !Z.mod_pow2_bits_low, !Z.div_pow2_bits, Z.mod_pow2_bits_low, Z.div_pow2_bits by lia. f_equal. lia.
Qed.

(** A number on top of the low bits of a word. *)
Lemma lor_above t h k : 0 <= k -> 0 <= t < 2 ^ k -> Z.lor (2 ^ k * h) t = t + 2 ^ k * h.
Proof.
  intros Hk Ht. apply Z.bits_inj'. intros i Hi. rewrite Z.lor_spec.
  destruct (Z.lt_ge_cases i k) as [H|H].
  - rewrite <- (Z.mod_pow2_bits_low (t + _) k i), (Z.mul_comm (2 ^ k)), Z.mod_add, Z.mod_small by lia.
    by rewrite Z.mul_pow2_bits_low.
  - replace i with ((i - k) + k) by lia.
    rewrite <- (Z.div_pow2_bits (t + _) k), (Z.mul_comm (2 ^ k)), Z.div_add, Z.div_small, Z.add_0_l by lia.
    rewrite (Z.add_comm (i - k)), Z.mul_pow2_bits_add by lia. rewrite <- (Z.mod_small t (2 ^ k)), Z.mod_pow2_bits_high by lia.
    by rewrite orb_false_r.
Qed.
(** A number as its low bits and the rest. *)
Lemma split_bits z n : 0 <= n -> exists r c, z mod 2 ^ n = r /\ z / 2 ^ n = c /\ z = r + 2 ^ n * c /\ 0 <= r < 2 ^ n.
Proof.
  intros Hn. exists (z mod 2 ^ n), (z / 2 ^ n). pose proof (Z.mod_pos_bound z (2 ^ n)). pose proof (Z.div_mod z (2 ^ n)). lia.
Qed.
(** The bytes of a number in two parts. *)
Lemma le_bytes_join n m a b : 0 <= a < 256 ^ Z.of_nat n -> le_bytes (n + m) (a + 256 ^ Z.of_nat n * b) = le_bytes n a ++ le_bytes m b.
Proof.
  revert a. induction n as [|n IH]; intros a Ha.
  - change (256 ^ Z.of_nat 0) with 1 in *. replace (a + 1 * b) with b by lia. done.
  - rewrite Nat2Z.inj_succ, Z.pow_succ_r in * by lia. cbn [Nat.add le_bytes app].
    replace (a + 256 * 256 ^ Z.of_nat n * b) with (a + (256 ^ Z.of_nat n * b) * 256) by lia.
    rewrite Z.mod_add, Z.div_add by lia. f_equal. apply IH.
    split; [apply Z.div_pos; lia|]. apply Z.div_lt_upper_bound; lia.
Qed.

(** ** The clamped scalar *)

Lemma nth_clamp k i : length k = 32%nat -> nth i (curve25519_clamp_secret k) 0 =
  if (i =? 0)%nat then clamp_first (nth 0 k 0) else if (i =? 31)%nat then clamp_last (nth 31 k 0) else nth i k 0.
Proof.
  intros Hl. unfold curve25519_clamp_secret. rewrite !nth_lookup.
  destruct (Nat.eqb_spec i 0) as [->|H0]; [|destruct (Nat.eqb_spec i 31) as [->|H31]].
  - by rewrite list_lookup_insert_ne, list_lookup_insert_eq by lia.
  - rewrite list_lookup_insert_eq by (rewrite length_insert; lia). by rewrite list_lookup_insert_ne by lia.
  - by rewrite !list_lookup_insert_ne by lia.
Qed.
Lemma scalar_mask i : 0 <= i < 256 -> Z.testbit (2 ^ 254 - 8) i = (3 <=? i) && (i <? 254).
Proof.
  intros Hi. change (2 ^ 254 - 8) with (Z.shiftl (Z.ones 251) 3). destruct (Z.leb_spec 3 i).
  - rewrite Z.shiftl_spec by lia. rewrite Z.testbit_ones by lia. apply eq_iff_eq_true. rewrite !andb_true_iff. lia.
  - by rewrite Z.shiftl_spec_low.
Qed.
(** The eight bits of a byte, one by one. *)
Ltac below8 j :=
  assert (E : j = 0 \/ j = 1 \/ j = 2 \/ j = 3 \/ j = 4 \/ j = 5 \/ j = 6 \/ j = 7) by lia;
  destruct E as [->|[->|[->|[->|[->|[->|[->| ->]]]]]]].
Lemma scalar_bit i j b : (i < 32)%nat -> 0 <= j < 8 ->
  Z.testbit (if (i =? 0)%nat then clamp_first b else if (i =? 31)%nat then clamp_last b else b) j =
  (Z.testbit b j && Z.testbit (2 ^ 254 - 8) (8 * Z.of_nat i + j)) || (8 * Z.of_nat i + j =? 254).
Proof.
  intros Hi Hj. rewrite scalar_mask by lia. destruct (Nat.eqb_spec i 0) as [->|H0]; [|destruct (Nat.eqb_spec i 31) as [->|H31]].
  - unfold clamp_first. rewrite Z.land_spec.
    below8 j; lazymatch goal with |- context [Z.testbit b ?j] => by destruct (Z.testbit b j) end.
  - unfold clamp_last. rewrite Z.lor_spec, Z.land_spec.
    below8 j; lazymatch goal with |- context [Z.testbit b ?j] => by destruct (Z.testbit b j) end.
  - rewrite (proj2 (Z.leb_le _ _)), (proj2 (Z.ltb_lt _ _)), (proj2 (Z.eqb_neq _ _)) by lia. by rewrite andb_true_r, orb_false_r.
Qed.
Lemma decode_scalar_clamp k : wf_key k -> decode_scalar k = le_number (curve25519_clamp_secret k).
Proof.
  intros Hk. pose proof (proj1 (clamp_wf_idem k Hk)) as [Hl' Hb']. destruct Hk as [Hl Hb]. unfold WG_KEY_LEN in *.
  apply Z.bits_inj'. intros n Hn. unfold decode_scalar. rewrite Z.lor_spec, Z.land_spec, Z.pow2_bits_eqb by lia.
  pose proof (Z.div_mod n 8). pose proof (Z.mod_pos_bound n 8).
  replace n with (8 * Z.of_nat (Z.to_nat (n / 8)) + n mod 8) by lia. set (i := Z.to_nat (n / 8)). set (j := n mod 8) in *.
  rewrite !le_number_testbit, nth_clamp by (done || lia).
  destruct (decide (i < 32)%nat) as [Hi|Hi].
  - rewrite (Z.eqb_sym 254), <- scalar_bit by lia.
    destruct (Nat.eqb_spec i 0) as [->|]; [done|]. by destruct (Nat.eqb_spec i 31) as [->|].
  - rewrite (nth_overflow k) by lia. rewrite Z.testbit_0_l, (proj2 (Nat.eqb_neq i 0)), (proj2 (Nat.eqb_neq i 31)) by lia.
    rewrite Z.testbit_0_l. apply Z.eqb_neq. lia.
Qed.

Lemma decode_scalar_range k : 0 <= decode_scalar k < 2 ^ 255.
Proof.
  unfold decode_scalar. assert (Hm : 0 <= Z.land (le_number k) (2 ^ 254 - 8) < 2 ^ 254).
  { change (2 ^ 254 - 8) with (Z.land (2 ^ 254 - 8) (Z.ones 254)). rewrite Z.land_assoc, Z.land_ones by lia.
    apply Z.mod_pos_bound. lia. }
  rewrite Z.lor_comm. pose proof (lor_above _ 1 254 ltac:(lia) Hm) as E. rewrite Z.mul_1_r in E. rewrite E. lia.
Qed.

(** Steps for the bits of a byte, from the top. *)
Fixpoint byte_steps (u byte : Z) (n : nat) (s : state) : state :=
  match n with O => s | S n => byte_steps u byte n (bit_step u (Z.testbit byte (Z.of_nat n)) s) end.

Lemma ladder_byte u l i s : Forall is_byte l ->
  ladder u (le_number l) (8 * S i) s = ladder u (le_number l) (8 * i) (byte_steps u (nth i l 0) 8 s).
Proof.
  intros Hl. assert (H : forall j s, (j <= 8)%nat -> ladder u (le_number l) (j + 8 * i) s =
    ladder u (le_number l) (8 * i) (byte_steps u (nth i l 0) j s)).
  { induction j as [|j IH]; intros s' Hj; [done|]. cbn [Nat.add ladder byte_steps]. rewrite IH by lia.
    rewrite <- (le_number_testbit l i) by (done || lia).
    by replace (8 * Z.of_nat i + Z.of_nat j) with (Z.of_nat (j + 8 * i)) by lia. }
  replace (8 * S i)%nat with (8 + 8 * i)%nat by lia. by apply H.
Qed.

(** ** Leading zeros *)

Lemma p_prime : Z.prime p.
Proof. exact prime_25519. Qed.
Lemma p_big : 2 ^ 254 < p < 2 ^ 255.
Proof. split; reflexivity. Qed.

(** Moves the reductions modulo [p] outwards, the innermost first. *)
Ltac mod_free t := lazymatch t with context [Z.modulo _ _] => fail | _ => idtac end.
Ltac pull_mod := repeat match goal with
  | |- context [(?a mod p + ?b) mod p] => mod_free a; rewrite (Zplus_mod_idemp_l a b p)
  | |- context [(?b + ?a mod p) mod p] => mod_free a; rewrite (Zplus_mod_idemp_r a b p)
  | |- context [(?a mod p - ?b) mod p] => mod_free a; rewrite (Zminus_mod_idemp_l a b p)
  | |- context [(?b - ?a mod p) mod p] => mod_free a; rewrite (Zminus_mod_idemp_r b a p)
  | |- context [(?a mod p * ?b) mod p] => mod_free a; rewrite (Zmult_mod_idemp_l a b p)
  | |- context [(?b * (?a mod p)) mod p] => mod_free a; rewrite (Zmult_mod_idemp_r a b p)
  end.
(** Equations of polynomials modulo [p]. *)
Ltac field_eq := unfold fsqr, fadd, fsub, fmul; pull_mod; f_equal; ring.

(** Two states that stand for the same fractions: each point is multiplied by a
    number that is not zero. *)
Definition scaled (l m : Z) (s s' : state) : Prop :=
  x2 s' = (l * x2 s) mod p /\ z2 s' = (l * z2 s) mod p /\ x3 s' = (m * x3 s) mod p /\ z3 s' = (m * z3 s) mod p.

Lemma scaled_step u l m s s' : scaled l m s s' -> scaled (l * l * (l * l)) (l * l * (m * m)) (step u s) (step u s').
Proof.
  intros (E1 & E2 & E3 & E4). unfold scaled, step. cbn [x2 z2 x3 z3]. rewrite E1, E2, E3, E4.
  split_and!; field_eq.
Qed.
Lemma scaled_cswap (b : bool) l m s s' : scaled l m s s' ->
  scaled (if b then m else l) (if b then l else m) (cswap b s) (cswap b s').
Proof. intros (E1 & E2 & E3 & E4). destruct b; unfold scaled; by split_and!. Qed.

Definition nonzero (a : Z) : Prop := a mod p <> 0.

Lemma nonzero_mul a b : nonzero a -> nonzero b -> nonzero (a * b).
Proof.
  unfold nonzero. intros Ha Hb H. apply Z.mod_divide in H; [|by pose proof p_big; lia].
  apply (Z.divide_prime_mul _ _ _ p_prime) in H as [H|H]; [apply Ha|apply Hb];
    (apply Z.mod_divide; [pose proof p_big; lia|done]).
Qed.

Lemma scaled_ladder u k n l m s s' : nonzero l -> nonzero m -> scaled l m s s' ->
  exists l' m', nonzero l' /\ nonzero m' /\ scaled l' m' (ladder u k n s) (ladder u k n s').
Proof.
  revert l m s s'. induction n as [|n IH]; intros l m s s' Hl Hm H; [by exists l, m|]. cbn [ladder].
  set (b := Z.testbit k (Z.of_nat n)). unfold bit_step.
  eapply IH; [| |apply scaled_cswap, scaled_step, scaled_cswap, H]; destruct b; auto using nonzero_mul.
Qed.

Lemma finv_pow a : finv a = a ^ (p - 2) mod p.
Proof. unfold finv. apply Zpow_mod_correct. by pose proof p_big; lia. Qed.

(** Fermat: the power p - 2 is the inverse. *)
Lemma fermat_inverse a e : a mod p = a -> e = a ^ (p - 2) mod p -> fmul a e = if decide (a = 0) then 0 else 1.
Proof.
  intros Ha ->. pose proof p_big. destruct (decide (a = 0)) as [->|Hne]; [done|]. unfold fmul. rewrite Zmult_mod_idemp_r.
  rewrite <- (Z.pow_1_r a) at 1. rewrite <- Z.pow_add_r by lia. replace (1 + (p - 2)) with (p - 1) by lia.
  apply (ZmodInv.Z.fermat_nz p a p_prime). by rewrite Ha.
Qed.

Lemma scaled_quotient l m s s' : nonzero l -> scaled l m s s' ->
  fmul (x2 s') (finv (z2 s')) = fmul (x2 s) (finv (z2 s)).
Proof.
  intros Hl (E1 & E2 & _). pose proof p_big. rewrite E1, E2, !finv_pow, Z.mod_pow_l by lia. unfold fmul. pull_mod.
  rewrite Z.pow_mul_l. replace (l * x2 s * (l ^ (p - 2) * z2 s ^ (p - 2)))
    with (l ^ 1 * l ^ (p - 2) * (x2 s * z2 s ^ (p - 2))) by ring.
  rewrite <- Z.pow_add_r by lia. replace (1 + (p - 2)) with (p - 1) by lia.
  rewrite <- Zmult_mod_idemp_l, (ZmodInv.Z.fermat_nz p l p_prime Hl). by rewrite Z.mul_1_l.
Qed.

(** With the coordinate 0 both fractions keep a zero, and the result is 0. *)
Definition degenerate (s : state) : Prop := (x2 s * z2 s) mod p = 0 /\ (x3 s * z3 s) mod p = 0.

Lemma degenerate_step s : degenerate s -> z2 (step 0 s) = 0 /\ z3 (step 0 s) = 0.
Proof.
  intros [H _]. split.
  - cbn [step z2]. assert (E : fsub (fsqr (fadd (x2 s) (z2 s))) (fsqr (fsub (x2 s) (z2 s))) = 0).
    { transitivity ((4 * (x2 s * z2 s)) mod p); [field_eq|]. by rewrite <- Zmult_mod_idemp_r, H. }
    rewrite E. reflexivity.
  - reflexivity.
Qed.
Lemma degenerate_cswap b s : degenerate s -> degenerate (cswap b s).
Proof. intros [H1 H2]. by destruct b. Qed.
Lemma degenerate_ladder k n s : degenerate s -> (0 < n)%nat -> z2 (ladder 0 k n s) = 0.
Proof.
  revert s. induction n as [|n IH]; intros s Hs Hn; [lia|]. cbn [ladder].
  destruct (degenerate_step _ (degenerate_cswap (Z.testbit k (Z.of_nat n)) s Hs)) as [E1 E2].
  set (s1 := step 0 _) in *. assert (Hd : degenerate s1) by (unfold degenerate; by rewrite E1, E2, !Z.mul_0_r).
  unfold bit_step. fold s1. destruct n as [|n]; [cbn [ladder]; by destruct (Z.testbit _ _)|].
  apply IH; [by apply degenerate_cswap|lia].
Qed.
Lemma degenerate_quotient s : z2 s = 0 -> fmul (x2 s) (finv (z2 s)) = 0.
Proof. intros ->. unfold fmul. replace (finv 0) with 0 by reflexivity. by rewrite Z.mul_0_r. Qed.

(** A leading zero bit does not change the result. *)
Lemma leading_zero k u : 0 <= u < p ->
  let s := ladder u k 255 (bit_step u false (start u)) in fmul (x2 s) (finv (z2 s)) = x25519 k u.
Proof.
  intros Hu. unfold x25519. pose proof p_big. destruct (decide (u = 0)) as [->|Hne].
  - rewrite !degenerate_quotient; [done|..]; apply degenerate_ladder; (lia || by vm_compute).
  - assert (Hs : scaled 1 (4 * u) (start u) (bit_step u false (start u))).
    { unfold scaled, bit_step, cswap, start, step. cbn [x2 z2 x3 z3]. split_and!; field_eq. }
    assert (Hn : nonzero (4 * u)).
    { apply nonzero_mul; unfold nonzero; [by vm_compute|]. rewrite Z.mod_small; lia. }
    destruct (scaled_ladder u k 255 1 (4 * u) _ _ ltac:(by vm_compute) Hn Hs) as (l & m & Hl & _ & Hsc).
    exact (scaled_quotient l m _ _ Hl Hsc).
Qed.
End X25519.
