(* ===== verification/FieldRep.v ===== *)
(** * Representations of the field, and the inversion chain

    Both implementations of Curve25519 represent a number modulo 2^255 - 19 by a
    list of limbs, and both invert it with the same chain of squarings and
    products. What the chain needs of an implementation is an interface; each
    implementation discharges it with the laws of its own multiplication. *)
From S2P Require Import Prelude Prime25519 X25519.

Module FieldRep.

(** Limbs with the number they stand for, a bound that multiplication
    re-establishes, and the laws of the multiplication and the squaring. *)
Class FieldRep {T : Type} (val : T -> Z) (tight : T -> Prop) (mul : T -> T -> T) (sqr : T -> T) : Prop := {
  rep_mul a b : tight a -> tight b -> tight (mul a b) /\ val (mul a b) = X25519.fmul (val a) (val b);
  rep_sqr a : tight a -> tight (sqr a) /\ val (sqr a) = X25519.fsqr (val a);
  rep_reduced a : val a mod X25519.p = val a }.

(** A tight element that stands for a power of [z]. *)
Definition power {T : Type} (val : T -> Z) (tight : T -> Prop) (z e : Z) (l : T) : Prop :=
  tight l /\ val l = z ^ e mod X25519.p.

Section Power.
Context {T : Type} {val : T -> Z} {tight : T -> Prop} {mul : T -> T -> T} {sqr : T -> T}.
Context {R : FieldRep val tight mul sqr}.

Lemma power_one l : tight l -> power val tight (val l) 1 l.
Proof using R. intros Hl. split; [done|]. by rewrite Z.pow_1_r, rep_reduced. Qed.

Lemma power_mul z d e a b : 0 <= d -> 0 <= e -> power val tight z d a -> power val tight z e b ->
  power val tight z (d + e) (mul a b).
Proof using R.
  intros Hd He [Ha Va] [Hb Vb]. destruct (rep_mul a b Ha Hb) as [H V]. split; [exact H|].
  rewrite V, Va, Vb, Z.pow_add_r by lia. unfold X25519.fmul. by rewrite <- Zmult_mod.
Qed.

Lemma power_square z e a : 0 <= e -> power val tight z e a -> power val tight z (2 * e) (sqr a).
Proof using R.
  intros He [Ha Va]. destruct (rep_sqr a Ha) as [H V]. split; [exact H|].
  rewrite V, Va. replace (2 * e) with (e + e) by lia. rewrite Z.pow_add_r by lia.
  unfold X25519.fsqr, X25519.fmul. by rewrite <- Zmult_mod.
Qed.

Lemma power_iter z e a n : 0 <= e -> power val tight z e a -> power val tight z (2 ^ Z.of_nat n * e) (Nat.iter n sqr a).
Proof using R.
  intros He Ha. induction n as [|n IH]; [by rewrite Z.mul_1_l|].
  rewrite Nat2Z.inj_succ, Z.pow_succ_r, <- Z.mul_assoc by lia. apply power_square; [|exact IH].
  apply Z.mul_nonneg_nonneg; [apply Z.pow_nonneg; lia|done].
Qed.

Lemma power_eq z d e l : d = e -> power val tight z d l -> power val tight z e l.
Proof using. by intros ->. Qed.
End Power.
End FieldRep.

(** The power a term of the chain stands for: a variable, a product, squarings, or
    a square. *)
Ltac power_term :=
  lazymatch goal with
  | |- FieldRep.power _ _ _ _ (Nat.iter ?n ?f ?a) =>
      eapply (FieldRep.power_iter (sqr := f) _ _ a n); cycle 1; [power_term|by vm_compute]
  | |- FieldRep.power _ _ _ _ (?f ?a ?b) =>
      eapply (FieldRep.power_mul (mul := f) _ _ _ a b); cycle 2; [power_term|power_term|by vm_compute|by vm_compute]
  | |- FieldRep.power _ _ _ _ (?f ?a) =>
      eapply (FieldRep.power_square (sqr := f) _ _ a); cycle 1; [power_term|by vm_compute]
  | |- _ => eassumption
  end.
Ltac power_solve := eapply FieldRep.power_eq; cycle 1; [power_term|vm_compute; reflexivity].

(** One assignment of the chain, with its exponent. *)
Ltac power_let e :=
  lazymatch goal with |- FieldRep.power ?val ?tight ?v ?k (let x := ?t in @?b x) =>
    let H := fresh "H" in
    assert (H : FieldRep.power val tight v e t) by power_solve;
    change (FieldRep.power val tight v k (b t)); revert H; generalize t; intros ? H; cbv beta
  end.
