(* ===== verification/Hacl64.v ===== *)
(** * Curve25519 with 64-bit limbs (src/curve25519-hacl64.h, src/curve25519.c)

    The implementation that is used where the compiler has 128-bit integers. A
    field element is five limbs of 51 bits in 64-bit words, a product is five
    128-bit words. Functions that store through a pointer return the new array;
    where the arrays of a caller overlap, the function reads all of its inputs
    before it writes. Every operation wraps at its width. Clearing memory after
    use is not modelled. *)
From S2P Require Import Prelude Wg.
Import Wg.

Module Hacl64.

Definition u128 (z : Z) : Z := z mod 2 ^ 128.
Definition shr (z n : Z) : Z := Z.shiftr z n.
(** [~x] on 64 bits. *)
Definition not64 (x : Z) : Z := u64 (Z.lnot x).

Definition get_unaligned_le64 (a : list Z) : Z := le_number (take 8 a).
Definition put_unaligned_le64 (s : Z) : list Z := le_bytes 8 s.

Definition u64_eq_mask (a b : Z) : Z :=
  let x := Z.lxor a b in
  let minus_x := u64 (not64 x + 1) in
  let x_or_minus_x := Z.lor x minus_x in
  let xnx := shr x_or_minus_x 63 in
  u64 (xnx - 1).

Definition u64_gte_mask (a b : Z) : Z :=
  let x := a in
  let y := b in
  let x_xor_y := Z.lxor x y in
  let x_sub_y := u64 (x - y) in
  let x_sub_y_xor_y := Z.lxor x_sub_y y in
  let q := Z.lor x_xor_y x_sub_y_xor_y in
  let x_xor_q := Z.lxor x q in
  let x_xor_q_ := shr x_xor_q 63 in
  u64 (x_xor_q_ - 1).

Definition mask51 : Z := 0x7ffffffffffff.

(** Five words, of 64 or of 128 bits. *)
Inductive limbs := F5 (l0 l1 l2 l3 l4 : Z).

Definition modulo_carry_top (b : limbs) : limbs :=
  let '(F5 b0 b1 b2 b3 b4) := b in
  let b4_ := Z.land b4 mask51 in
  let b0_ := u64 (b0 + u64 (19 * shr b4 51)) in
  F5 b0_ b1 b2 b3 b4_.

Definition fproduct_copy_from_wide_ (input : limbs) : limbs :=
  let '(F5 i0 i1 i2 i3 i4) := input in F5 (u64 i0) (u64 i1) (u64 i2) (u64 i3) (u64 i4).

Definition fproduct_sum_scalar_multiplication_ (output input : limbs) (s : Z) : limbs :=
  let '(F5 o0 o1 o2 o3 o4) := output in
  let '(F5 i0 i1 i2 i3 i4) := input in
  F5 (u128 (o0 + u128 (i0 * s))) (u128 (o1 + u128 (i1 * s))) (u128 (o2 + u128 (i2 * s)))
     (u128 (o3 + u128 (i3 * s))) (u128 (o4 + u128 (i4 * s))).

(** One block of [fproduct_carry_wide_]: a word and the next one. *)
Definition carry_step (tctr tctrp1 : Z) : Z * Z :=
  let r0 := Z.land (u64 tctr) mask51 in
  let c := shr tctr 51 in
  (r0, u128 (tctrp1 + c)).

Definition fproduct_carry_wide_ (tmp : limbs) : limbs :=
  let '(F5 t0 t1 t2 t3 t4) := tmp in
  let '(t0, t1) := carry_step t0 t1 in
  let '(t1, t2) := carry_step t1 t2 in
  let '(t2, t3) := carry_step t2 t3 in
  let '(t3, t4) := carry_step t3 t4 in
  F5 t0 t1 t2 t3 t4.

Definition fmul_shift_reduce (output : limbs) : limbs :=
  let '(F5 o0 o1 o2 o3 o4) := output in F5 (u64 (19 * o4)) o0 o1 o2 o3.

Definition fmul_mul_shift_reduce_ (output input input21 : limbs) : limbs :=
  let '(F5 b0 b1 b2 b3 b4) := input21 in
  let output := fproduct_sum_scalar_multiplication_ output input b0 in
  let input := fmul_shift_reduce input in
  let output := fproduct_sum_scalar_multiplication_ output input b1 in
  let input := fmul_shift_reduce input in
  let output := fproduct_sum_scalar_multiplication_ output input b2 in
  let input := fmul_shift_reduce input in
  let output := fproduct_sum_scalar_multiplication_ output input b3 in
  let input := fmul_shift_reduce input in
  fproduct_sum_scalar_multiplication_ output input b4.

(** The reduction of the top word, which [fmul_fmul], [fsquare_fsquare_] and
    [fscalar] do after the carries. *)
Definition wide_carry_top (t : limbs) : limbs :=
  let '(F5 b0 b1 b2 b3 b4) := t in
  let b4_ := Z.land b4 mask51 in
  let b0_ := u128 (b0 + u128 (19 * u64 (shr b4 51))) in
  F5 b0_ b1 b2 b3 b4_.
(** The last carry, from the first limb to the second. *)
Definition carry_0_to_1 (t : limbs) : limbs :=
  let '(F5 i0 i1 i2 i3 i4) := t in
  let i0_ := Z.land i0 mask51 in
  let i1_ := u64 (i1 + shr i0 51) in
  F5 i0_ i1_ i2 i3 i4.

Definition zero5 : limbs := F5 0 0 0 0 0.

Definition fmul_fmul (input input21 : limbs) : limbs :=
  let t := fmul_mul_shift_reduce_ zero5 input input21 in
  let t := fproduct_carry_wide_ t in
  let t := wide_carry_top t in
  carry_0_to_1 (fproduct_copy_from_wide_ t).

Definition fsquare_fsquare__ (output : limbs) : limbs :=
  let '(F5 r0 r1 r2 r3 r4) := output in
  let d0 := u64 (r0 * 2) in
  let d1 := u64 (r1 * 2) in
  let d2 := u64 (u64 (r2 * 2) * 19) in
  let d419 := u64 (r4 * 19) in
  let d4 := u64 (d419 * 2) in
  let s0 := u128 (u128 (u128 (r0 * r0) + u128 (d4 * r1)) + u128 (d2 * r3)) in
  let s1 := u128 (u128 (u128 (d0 * r1) + u128 (d4 * r2)) + u128 (u64 (r3 * 19) * r3)) in
  let s2 := u128 (u128 (u128 (d0 * r2) + u128 (r1 * r1)) + u128 (d4 * r3)) in
  let s3 := u128 (u128 (u128 (d0 * r3) + u128 (d1 * r2)) + u128 (r4 * d419)) in
  let s4 := u128 (u128 (u128 (d0 * r4) + u128 (d1 * r3)) + u128 (r2 * r2)) in
  F5 s0 s1 s2 s3 s4.

Definition fsquare_fsquare_ (output : limbs) : limbs :=
  let tmp := fsquare_fsquare__ output in
  let tmp := fproduct_carry_wide_ tmp in
  let tmp := wide_carry_top tmp in
  carry_0_to_1 (fproduct_copy_from_wide_ tmp).

(** [for (i = 1; i < count1; ++i)], after a first one. *)
Definition fsquare_fsquare_times_ (output : limbs) (count1 : nat) : limbs :=
  Nat.iter (count1 - 1) fsquare_fsquare_ (fsquare_fsquare_ output).
Definition fsquare_fsquare_times (input : limbs) (count1 : nat) : limbs := fsquare_fsquare_times_ input count1.
Definition fsquare_fsquare_times_inplace (output : limbs) (count1 : nat) : limbs :=
  fsquare_fsquare_times_ output count1.

Definition crecip_crecip (z : limbs) : limbs :=
  let a := fsquare_fsquare_times z 1 in
  let t0 := fsquare_fsquare_times a 2 in
  let b := fmul_fmul t0 z in
  let a := fmul_fmul b a in
  let t0 := fsquare_fsquare_times a 1 in
  let b := fmul_fmul t0 b in
  let t0 := fsquare_fsquare_times b 5 in
  let b := fmul_fmul t0 b in
  let t0 := fsquare_fsquare_times b 10 in
  let c := fmul_fmul t0 b in
  let t0 := fsquare_fsquare_times c 20 in
  let t0 := fmul_fmul t0 c in
  let t0 := fsquare_fsquare_times_inplace t0 10 in
  let b := fmul_fmul t0 b in
  let t0 := fsquare_fsquare_times b 50 in
  let c := fmul_fmul t0 b in
  let t0 := fsquare_fsquare_times c 100 in
  let t0 := fmul_fmul t0 c in
  let t0 := fsquare_fsquare_times_inplace t0 50 in
  let t0 := fmul_fmul t0 b in
  let t0 := fsquare_fsquare_times_inplace t0 5 in
  fmul_fmul t0 a.

Definition fsum (a b : limbs) : limbs :=
  let '(F5 a0 a1 a2 a3 a4) := a in
  let '(F5 b0 b1 b2 b3 b4) := b in
  F5 (u64 (a0 + b0)) (u64 (a1 + b1)) (u64 (a2 + b2)) (u64 (a3 + b3)) (u64 (a4 + b4)).

(** [a] becomes [b - a]. *)
Definition fdifference (a b : limbs) : limbs :=
  let '(F5 b0 b1 b2 b3 b4) := b in
  let t0 := u64 (b0 + 0x3fffffffffff68) in
  let t1 := u64 (b1 + 0x3ffffffffffff8) in
  let t2 := u64 (b2 + 0x3ffffffffffff8) in
  let t3 := u64 (b3 + 0x3ffffffffffff8) in
  let t4 := u64 (b4 + 0x3ffffffffffff8) in
  let '(F5 a0 a1 a2 a3 a4) := a in
  F5 (u64 (t0 - a0)) (u64 (t1 - a1)) (u64 (t2 - a2)) (u64 (t3 - a3)) (u64 (t4 - a4)).

Definition fscalar (b : limbs) (s : Z) : limbs :=
  let '(F5 b0 b1 b2 b3 b4) := b in
  let tmp := F5 (u128 (b0 * s)) (u128 (b1 * s)) (u128 (b2 * s)) (u128 (b3 * s)) (u128 (b4 * s)) in
  let tmp := fproduct_carry_wide_ tmp in
  let tmp := wide_carry_top tmp in
  fproduct_copy_from_wide_ tmp.

Definition fmul (a b : limbs) : limbs := fmul_fmul a b.
Definition crecip (input : limbs) : limbs := crecip_crecip input.

(** ** Points *)

Definition point_swap_conditional_step (ai bi swap1 : Z) : Z * Z :=
  let x := Z.land swap1 (Z.lxor ai bi) in
  (Z.lxor ai x, Z.lxor bi x).

Definition point_swap_conditional5 (a b : limbs) (swap1 : Z) : limbs * limbs :=
  let '(F5 a0 a1 a2 a3 a4) := a in
  let '(F5 b0 b1 b2 b3 b4) := b in
  let '(a4, b4) := point_swap_conditional_step a4 b4 swap1 in
  let '(a3, b3) := point_swap_conditional_step a3 b3 swap1 in
  let '(a2, b2) := point_swap_conditional_step a2 b2 swap1 in
  let '(a1, b1) := point_swap_conditional_step a1 b1 swap1 in
  let '(a0, b0) := point_swap_conditional_step a0 b0 swap1 in
  (F5 a0 a1 a2 a3 a4, F5 b0 b1 b2 b3 b4).

(** Ten words: the numerator and the denominator of an x-coordinate. *)
Definition point : Type := limbs * limbs.

Definition point_swap_conditional (a b : point) (iswap : Z) : point * point :=
  let swap1 := u64 (0 - iswap) in
  let '(ax, bx) := point_swap_conditional5 a.1 b.1 swap1 in
  let '(az, bz) := point_swap_conditional5 a.2 b.2 swap1 in
  ((ax, az), (bx, bz)).

Definition point_copy (input : point) : point := input.

(** The points written to [pp] and [ppq]. What is left in [p] and [pq] is not
    read again: the next step overwrites them. *)
Definition addanddouble_fmonty (p pq : point) (qx : limbs) : point * point :=
  let '(x, z) := p in
  let '(xprime, zprime) := pq in
  let origx := x in
  let x := fsum x z in
  let z := fdifference z origx in
  let origxprime := xprime in
  let xprime := fsum xprime zprime in
  let zprime := fdifference zprime origxprime in
  let xxprime := fmul xprime z in
  let zzprime := fmul x zprime in
  let origxprime := xxprime in
  let xxprime := fsum xxprime zzprime in
  let zzprime := fdifference zzprime origxprime in
  let x3 := fsquare_fsquare_times xxprime 1 in
  let zzzprime := fsquare_fsquare_times zzprime 1 in
  let z3 := fmul zzzprime qx in
  let xx := fsquare_fsquare_times x 1 in
  let zz := fsquare_fsquare_times z 1 in
  let x2 := fmul xx zz in
  let zz := fdifference zz xx in
  let zzz := fscalar zz 121665 in
  let zzz := fsum zzz xx in
  let z2 := fmul zzz zz in
  ((x2, z2), (x3, z3)).

(** ** The ladder *)

Definition ladder_smallloop_cmult_small_loop_step (nq nqpq : point) (q : limbs) (byt : Z) : point * point :=
  let bit := shr byt 7 in
  let '(nq, nqpq) := point_swap_conditional nq nqpq bit in
  let '(nq2, nqpq2) := addanddouble_fmonty nq nqpq q in
  point_swap_conditional nq2 nqpq2 bit.

Definition ladder_smallloop_cmult_small_loop_double_step (nq nqpq : point) (q : limbs) (byt : Z) : point * point :=
  let '(nq2, nqpq2) := ladder_smallloop_cmult_small_loop_step nq nqpq q byt in
  let byt1 := u8 (Z.shiftl byt 1) in
  ladder_smallloop_cmult_small_loop_step nq2 nqpq2 q byt1.

Fixpoint ladder_smallloop_cmult_small_loop (i : nat) (nq nqpq : point) (q : limbs) (byt : Z) : point * point :=
  match i with
  | O => (nq, nqpq)
  | S i =>
      let '(nq, nqpq) := ladder_smallloop_cmult_small_loop_double_step nq nqpq q byt in
      ladder_smallloop_cmult_small_loop i nq nqpq q (u8 (Z.shiftl byt 2))
  end.

Fixpoint ladder_bigloop_cmult_big_loop (i : nat) (n1 : list Z) (nq nqpq : point) (q : limbs) : point * point :=
  match i with
  | O => (nq, nqpq)
  | S i =>
      let byte := nth i n1 0 in
      let '(nq, nqpq) := ladder_smallloop_cmult_small_loop 4 nq nqpq q byte in
      ladder_bigloop_cmult_big_loop i n1 nq nqpq q
  end.

Definition one5 : limbs := F5 1 0 0 0 0.

Definition ladder_cmult (n1 : list Z) (q : point) : point :=
  let nqpq := point_copy q in
  point_copy (ladder_bigloop_cmult_big_loop 32 n1 (one5, zero5) nqpq q.1).1.

(** ** Bytes *)

Definition format_fexpand (input : list Z) : limbs :=
  let i0 := get_unaligned_le64 input in
  let i1 := get_unaligned_le64 (drop 6 input) in
  let i2 := get_unaligned_le64 (drop 12 input) in
  let i3 := get_unaligned_le64 (drop 19 input) in
  let i4 := get_unaligned_le64 (drop 24 input) in
  F5 (Z.land i0 mask51) (Z.land (shr i1 3) mask51) (Z.land (shr i2 6) mask51)
     (Z.land (shr i3 1) mask51) (Z.land (shr i4 12) mask51).

Definition format_fcontract_first_carry_pass (input : limbs) : limbs :=
  let '(F5 t0 t1 t2 t3 t4) := input in
  let t1_ := u64 (t1 + shr t0 51) in
  let t0_ := Z.land t0 mask51 in
  let t2_ := u64 (t2 + shr t1_ 51) in
  let t1__ := Z.land t1_ mask51 in
  let t3_ := u64 (t3 + shr t2_ 51) in
  let t2__ := Z.land t2_ mask51 in
  let t4_ := u64 (t4 + shr t3_ 51) in
  let t3__ := Z.land t3_ mask51 in
  F5 t0_ t1__ t2__ t3__ t4_.
Definition format_fcontract_first_carry_full (input : limbs) : limbs :=
  modulo_carry_top (format_fcontract_first_carry_pass input).

(** The text of the second pass is that of the first. *)
Definition format_fcontract_second_carry_pass (input : limbs) : limbs := format_fcontract_first_carry_pass input.
Definition format_fcontract_second_carry_full (input : limbs) : limbs :=
  carry_0_to_1 (modulo_carry_top (format_fcontract_second_carry_pass input)).

Definition format_fcontract_trim (input : limbs) : limbs :=
  let '(F5 a0 a1 a2 a3 a4) := input in
  let mask0 := u64_gte_mask a0 0x7ffffffffffed in
  let mask1 := u64_eq_mask a1 0x7ffffffffffff in
  let mask2 := u64_eq_mask a2 0x7ffffffffffff in
  let mask3 := u64_eq_mask a3 0x7ffffffffffff in
  let mask4 := u64_eq_mask a4 0x7ffffffffffff in
  let mask := Z.land (Z.land (Z.land (Z.land mask0 mask1) mask2) mask3) mask4 in
  F5 (u64 (a0 - Z.land 0x7ffffffffffed mask)) (u64 (a1 - Z.land 0x7ffffffffffff mask))
     (u64 (a2 - Z.land 0x7ffffffffffff mask)) (u64 (a3 - Z.land 0x7ffffffffffff mask))
     (u64 (a4 - Z.land 0x7ffffffffffff mask)).

Definition format_fcontract_store (input : limbs) : list Z :=
  let '(F5 t0 t1 t2 t3 t4) := input in
  let o0 := Z.lor (u64 (Z.shiftl t1 51)) t0 in
  let o1 := Z.lor (u64 (Z.shiftl t2 38)) (shr t1 13) in
  let o2 := Z.lor (u64 (Z.shiftl t3 25)) (shr t2 26) in
  let o3 := Z.lor (u64 (Z.shiftl t4 12)) (shr t3 39) in
  put_unaligned_le64 o0 ++ put_unaligned_le64 o1 ++ put_unaligned_le64 o2 ++ put_unaligned_le64 o3.

Definition format_fcontract (input : limbs) : list Z :=
  let input := format_fcontract_first_carry_full input in
  let input := format_fcontract_second_carry_full input in
  let input := format_fcontract_trim input in
  format_fcontract_store input.

Definition format_scalar_of_point (point : point) : list Z :=
  let '(x, z) := point in
  let zmone := crecip z in
  let sc := fmul x zmone in
  format_fcontract sc.

Definition curve25519_generic (secret basepoint : list Z) : list Z :=
  let x0 := format_fexpand basepoint in
  let q := (x0, one5) in
  let e := curve25519_clamp_secret secret in
  let nq := ladder_cmult e q in
  format_scalar_of_point nq.
End Hacl64.
