(* ===== verification/Hacl64Facts.v ===== *)
(** * The 64-bit implementation computes X25519 (src/curve25519-hacl64.h)

    No operation of the field overflows its words, and each is the operation
    modulo 2^255 - 19 on the numbers its limbs stand for; the ladder is that of
    the specification on the bits of the clamped scalar. *)
From S2P Require Import Prelude Encoding Wg Prime25519 X25519 FieldRep Hacl64.
Import Encoding Wg Hacl64.

Module Hacl64Facts.

(** ** Words *)

Lemma u128_small z : 0 <= z < 2 ^ 128 -> u128 z = z.
Proof. intros. apply Z.mod_small. lia. Qed.
Lemma u128_add_l a b : u128 (u128 a + b) = u128 (a + b).
Proof. apply Zplus_mod_idemp_l. Qed.
Lemma u128_add_r a b : u128 (a + u128 b) = u128 (a + b).
Proof. apply Zplus_mod_idemp_r. Qed.
Lemma shr_div z n : 0 <= n -> shr z n = z / 2 ^ n.
Proof. intros. by apply Z.shiftr_div_pow2. Qed.
Lemma land_mask51 z : Z.land z mask51 = z mod 2 ^ 51.
Proof. change mask51 with (Z.ones 51). by apply Z.land_ones. Qed.
Lemma u64_land_mask51 z : Z.land (u64 z) mask51 = z mod 2 ^ 51.
Proof. rewrite land_mask51. unfold u64. apply Z.mod_mod_divide. by exists (2 ^ 13). Qed.

(** A number as its low 51 bits and the rest. *)
Lemma split51 z : exists r c, z mod 2 ^ 51 = r /\ z / 2 ^ 51 = c /\ z = r + 2 ^ 51 * c /\ 0 <= r < 2 ^ 51.
Proof.
  exists (z mod 2 ^ 51), (z / 2 ^ 51). pose proof (Z.mod_pos_bound z (2 ^ 51)). pose proof (Z.div_mod z (2 ^ 51)). lia.
Qed.

(** ** Field elements *)

Definition eval (l : limbs) : Z :=
  let '(F5 l0 l1 l2 l3 l4) := l in l0 + 2 ^ 51 * l1 + 2 ^ 102 * l2 + 2 ^ 153 * l3 + 2 ^ 204 * l4.
Definition val (l : limbs) : Z := eval l mod X25519.p.

(** Limbs up to a bound. *)
Definition upto (b : Z) (l : limbs) : Prop :=
  let '(F5 l0 l1 l2 l3 l4) := l in 0 <= l0 <= b /\ 0 <= l1 <= b /\ 0 <= l2 <= b /\ 0 <= l3 <= b /\ 0 <= l4 <= b.
(** What multiplication returns, a sum of two of those, a difference, and a
    difference by a small factor with a sum. *)
Definition tight : Z := 2 ^ 51 + 2 ^ 13.
Definition loose : Z := 9 * 2 ^ 51 + 2 ^ 13.

Lemma upto_le a b l : a <= b -> upto a l -> upto b l.
Proof. destruct l. unfold upto. lia. Qed.

Lemma carry_step_spec t u bt bu : 0 <= t <= bt -> 0 <= u <= bu -> bt < 2 ^ 127 -> bu < 2 ^ 127 ->
  exists r c, carry_step t u = (r, u + c) /\ t = r + 2 ^ 51 * c /\ 0 <= r < 2 ^ 51 /\ 0 <= c <= bt / 2 ^ 51.
Proof.
  intros Ht Hu Hbt Hbu. destruct (split51 t) as (r & c & E1 & E2 & E & Hr). exists r, c. unfold carry_step.
  rewrite u64_land_mask51, shr_div, E1, E2 by lia.
  assert (0 <= c <= bt / 2 ^ 51) by (rewrite <- E2; split; [apply Z.div_pos; lia|apply Z.div_le_mono; lia]).
  assert (bt / 2 ^ 51 <= bt) by (apply Z.div_le_upper_bound; lia).
  rewrite u128_small by lia. split; [done|]. lia.
Qed.

(** Carries and the reduction of the top word: the value is the same modulo p,
    and every limb but the first has 51 bits. *)
Definition squeeze (t : limbs) : limbs := fproduct_copy_from_wide_ (wide_carry_top (fproduct_carry_wide_ t)).

Lemma squeeze_spec t0 t1 t2 t3 t4 b h : 0 <= t0 <= b -> 0 <= t1 <= b -> 0 <= t2 <= b -> 0 <= t3 <= b ->
  0 <= t4 <= h -> b <= 7790 * 2 ^ 102 -> h <= 410 * 2 ^ 102 ->
  exists k l0 l1 l2 l3 l4, squeeze (F5 t0 t1 t2 t3 t4) = F5 l0 l1 l2 l3 l4 /\
    eval (F5 l0 l1 l2 l3 l4) = eval (F5 t0 t1 t2 t3 t4) - k * X25519.p /\
    0 <= l0 < 2 ^ 64 /\ l0 < 2 ^ 51 + 19 * ((h + b / 2 ^ 50) / 2 ^ 51 + 1) /\
    0 <= l1 < 2 ^ 51 /\ 0 <= l2 < 2 ^ 51 /\ 0 <= l3 < 2 ^ 51 /\ 0 <= l4 < 2 ^ 51.
Proof.
  intros H0 H1 H2 H3 H4 Hb Hh. unfold squeeze, fproduct_carry_wide_.
  assert (Hc : 2 * b / 2 ^ 51 = b / 2 ^ 50) by (change (2 ^ 51) with (2 * 2 ^ 50); apply Z.div_mul_cancel_l; lia).
  assert (Hb1 : b / 2 ^ 51 <= b) by (apply Z.div_le_upper_bound; lia).
  assert (Hb2 : b / 2 ^ 50 <= b) by (apply Z.div_le_upper_bound; lia).
  assert (Hb3 : b / 2 ^ 50 <= 7790 * 2 ^ 52) by (apply Z.div_le_upper_bound; lia).
  destruct (carry_step_spec t0 t1 b b H0 H1) as (r0 & c0 & E0 & V0 & R0 & C0); [lia..|]. rewrite E0.
  destruct (carry_step_spec (t1 + c0) t2 (2 * b) b) as (r1 & c1 & E1 & V1 & R1 & C1); [lia..|]. rewrite E1.
  destruct (carry_step_spec (t2 + c1) t3 (2 * b) b) as (r2 & c2 & E2 & V2 & R2 & C2); [lia..|]. rewrite E2.
  destruct (carry_step_spec (t3 + c2) t4 (2 * b) h) as (r3 & c3 & E3 & V3 & R3 & C3); [lia..|]. rewrite E3.
  rewrite Hc in *. unfold wide_carry_top. rewrite land_mask51, shr_div by lia.
  destruct (split51 (t4 + c3)) as (r4 & c4 & M4 & D4 & V4 & R4). rewrite M4, D4.
  assert (C4 : 0 <= c4 <= (h + b / 2 ^ 50) / 2 ^ 51).
  { rewrite <- D4. split; [apply Z.div_pos; lia|apply Z.div_le_mono; lia]. }
  assert (C4' : (h + b / 2 ^ 50) / 2 ^ 51 <= 410 * 2 ^ 51 + 15580) by (apply Z.div_le_upper_bound; lia).
  rewrite (u64_small c4), (u128_small (19 * c4)), (u128_small (r0 + 19 * c4)) by lia.
  unfold fproduct_copy_from_wide_. rewrite !u64_small by lia.
  exists c4, (r0 + 19 * c4), r1, r2, r3, r4. split; [done|]. split; [|lia].
  unfold eval. change X25519.p with (2 ^ 255 - 19). lia.
Qed.

(** The last carry. *)
Lemma carry_0_to_1_spec l0 l1 l2 l3 l4 : 0 <= l0 < 2 ^ 64 -> 0 <= l1 < 2 ^ 51 -> 0 <= l2 < 2 ^ 51 ->
  0 <= l3 < 2 ^ 51 -> 0 <= l4 < 2 ^ 51 ->
  upto tight (carry_0_to_1 (F5 l0 l1 l2 l3 l4)) /\ eval (carry_0_to_1 (F5 l0 l1 l2 l3 l4)) = eval (F5 l0 l1 l2 l3 l4).
Proof.
  intros H0 H1 H2 H3 H4. unfold carry_0_to_1. rewrite land_mask51, shr_div by lia.
  destruct (split51 l0) as (r & c & M & D & V & R). rewrite M, D. rewrite u64_small by lia.
  unfold upto, eval, tight. lia.
Qed.

(** ** Multiplication *)

Lemma mul_upto a b ba bb : 0 <= a <= ba -> 0 <= b <= bb -> 0 <= a * b <= ba * bb.
Proof. intros Ha Hb. split; [apply Z.mul_nonneg_nonneg; lia|apply Z.mul_le_mono_nonneg; lia]. Qed.

(** Removes the wrap-around of words whose values fit, the innermost first. *)
Ltac unwrap := repeat match goal with
  | |- context [u128 ?e] =>
      lazymatch e with context [u128 _] => fail | context [u64 _] => fail | _ => rewrite (u128_small e) by lia end
  | |- context [u64 ?e] =>
      lazymatch e with context [u128 _] => fail | context [u64 _] => fail | _ => rewrite (u64_small e) by lia end
  end.

(** Sums of five products and of three. *)
Lemma sum5 q0 q1 q2 q3 q4 m : 5 * m < 2 ^ 128 -> 0 <= q0 <= m -> 0 <= q1 <= m -> 0 <= q2 <= m -> 0 <= q3 <= m ->
  0 <= q4 <= m ->
  u128 (u128 (u128 (u128 (u128 (0 + u128 q0) + u128 q1) + u128 q2) + u128 q3) + u128 q4) = q0 + q1 + q2 + q3 + q4 /\
  0 <= q0 + q1 + q2 + q3 + q4 <= 5 * m.
Proof. intros. unwrap. lia. Qed.
Lemma sum3 q0 q1 q2 m0 m1 m2 : m0 + m1 + m2 < 2 ^ 128 -> 0 <= q0 <= m0 -> 0 <= q1 <= m1 -> 0 <= q2 <= m2 ->
  u128 (u128 (u128 q0 + u128 q1) + u128 q2) = q0 + q1 + q2 /\ 0 <= q0 + q1 + q2 <= m0 + m1 + m2.
Proof. intros. unwrap. lia. Qed.

Section Products.
Context (ba bb m : Z) (SMALL : ba * bb <= m).
Lemma prod1 a b : 0 <= a <= ba -> 0 <= b <= bb -> 0 <= a * b <= m.
Proof. intros Ha Hb. pose proof (mul_upto a b ba bb Ha Hb). lia. Qed.
Lemma prod19 a b : 0 <= a <= ba -> 0 <= b <= bb -> 0 <= 19 * a * b <= 19 * m.
Proof. intros Ha Hb. pose proof (mul_upto a b ba bb Ha Hb). lia. Qed.
Lemma prod1' a b : 0 <= a <= ba -> 0 <= b <= bb -> 0 <= a * b <= 19 * m.
Proof. intros Ha Hb. pose proof (mul_upto a b ba bb Ha Hb). lia. Qed.
End Products.

Lemma product_spec a b ba bb : upto ba a -> upto bb b -> ba * bb <= 82 * 2 ^ 102 -> ba < 2 ^ 59 ->
  exists t0 t1 t2 t3 t4 k, fmul_mul_shift_reduce_ zero5 a b = F5 t0 t1 t2 t3 t4 /\
    eval (F5 t0 t1 t2 t3 t4) = eval a * eval b - k * X25519.p /\
    0 <= t0 <= 7790 * 2 ^ 102 /\ 0 <= t1 <= 7790 * 2 ^ 102 /\ 0 <= t2 <= 7790 * 2 ^ 102 /\
    0 <= t3 <= 7790 * 2 ^ 102 /\ 0 <= t4 <= 410 * 2 ^ 102.
Proof.
  destruct a as [a0 a1 a2 a3 a4], b as [b0 b1 b2 b3 b4]. intros (A0 & A1 & A2 & A3 & A4) (B0 & B1 & B2 & B3 & B4) HM HA.
  unfold fmul_mul_shift_reduce_, fproduct_sum_scalar_multiplication_, fmul_shift_reduce, zero5.
  rewrite !u64_small by lia.
  pose proof (prod1 ba bb _ HM) as P1. pose proof (prod19 ba bb _ HM) as P19. pose proof (prod1' ba bb _ HM) as P1'.
  destruct (sum5 (a0 * b0) (19 * a4 * b1) (19 * a3 * b2) (19 * a2 * b3) (19 * a1 * b4) (19 * (82 * 2 ^ 102)))
    as [-> T0]; [done|auto..|].
  destruct (sum5 (a1 * b0) (a0 * b1) (19 * a4 * b2) (19 * a3 * b3) (19 * a2 * b4) (19 * (82 * 2 ^ 102)))
    as [-> T1]; [done|auto..|].
  destruct (sum5 (a2 * b0) (a1 * b1) (a0 * b2) (19 * a4 * b3) (19 * a3 * b4) (19 * (82 * 2 ^ 102)))
    as [-> T2]; [done|auto..|].
  destruct (sum5 (a3 * b0) (a2 * b1) (a1 * b2) (a0 * b3) (19 * a4 * b4) (19 * (82 * 2 ^ 102)))
    as [-> T3]; [done|auto..|].
  destruct (sum5 (a4 * b0) (a3 * b1) (a2 * b2) (a1 * b3) (a0 * b4) (82 * 2 ^ 102)) as [-> T4]; [done|auto..|].
  eexists _, _, _, _, _, (a1 * b4 + a2 * b3 + a3 * b2 + a4 * b1 + 2 ^ 51 * (a2 * b4 + a3 * b3 + a4 * b2)
    + 2 ^ 102 * (a3 * b4 + a4 * b3) + 2 ^ 153 * (a4 * b4)).
  split; [reflexivity|]. split; [|auto].
  unfold eval. change X25519.p with (2 ^ 255 - 19). ring.
Qed.

Lemma square_spec a ba : upto ba a -> ba * ba <= 82 * 2 ^ 102 -> 0 <= ba ->
  exists t0 t1 t2 t3 t4 k, fsquare_fsquare__ a = F5 t0 t1 t2 t3 t4 /\
    eval (F5 t0 t1 t2 t3 t4) = eval a * eval a - k * X25519.p /\
    0 <= t0 <= 7790 * 2 ^ 102 /\ 0 <= t1 <= 7790 * 2 ^ 102 /\ 0 <= t2 <= 7790 * 2 ^ 102 /\
    0 <= t3 <= 7790 * 2 ^ 102 /\ 0 <= t4 <= 410 * 2 ^ 102.
Proof.
  destruct a as [a0 a1 a2 a3 a4]. intros (A0 & A1 & A2 & A3 & A4) HM HA0. assert (HA : ba < 2 ^ 55) by nia.
  pose proof (fun x y Hx Hy => mul_upto x y ba ba Hx Hy) as Pr. unfold fsquare_fsquare__. cbv zeta.
  rewrite (u64_small (a0 * 2)), (u64_small (a1 * 2)), (u64_small (a2 * 2)), (u64_small (a4 * 19)), (u64_small (a3 * 19)) by lia.
  rewrite (u64_small (a2 * 2 * 19)), (u64_small (a4 * 19 * 2)) by lia. set (m := ba * ba) in *.
  destruct (sum3 (a0 * a0) (a4 * 19 * 2 * a1) (a2 * 2 * 19 * a3) m (38 * m) (38 * m)) as [-> T0];
    [lia|pose proof (Pr a0 a0 A0 A0); lia|pose proof (Pr a4 a1 A4 A1); lia|pose proof (Pr a2 a3 A2 A3); lia|].
  destruct (sum3 (a0 * 2 * a1) (a4 * 19 * 2 * a2) (a3 * 19 * a3) (2 * m) (38 * m) (19 * m)) as [-> T1];
    [lia|pose proof (Pr a0 a1 A0 A1); lia|pose proof (Pr a4 a2 A4 A2); lia|pose proof (Pr a3 a3 A3 A3); lia|].
  destruct (sum3 (a0 * 2 * a2) (a1 * a1) (a4 * 19 * 2 * a3) (2 * m) m (38 * m)) as [-> T2];
    [lia|pose proof (Pr a0 a2 A0 A2); lia|pose proof (Pr a1 a1 A1 A1); lia|pose proof (Pr a4 a3 A4 A3); lia|].
  destruct (sum3 (a0 * 2 * a3) (a1 * 2 * a2) (a4 * (a4 * 19)) (2 * m) (2 * m) (19 * m)) as [-> T3];
    [lia|pose proof (Pr a0 a3 A0 A3); lia|pose proof (Pr a1 a2 A1 A2); lia|pose proof (Pr a4 a4 A4 A4); lia|].
  destruct (sum3 (a0 * 2 * a4) (a1 * 2 * a3) (a2 * a2) (2 * m) (2 * m) m) as [-> T4];
    [lia|pose proof (Pr a0 a4 A0 A4); lia|pose proof (Pr a1 a3 A1 A3); lia|pose proof (Pr a2 a2 A2 A2); lia|].
  eexists _, _, _, _, _, (2 * (a1 * a4 + a2 * a3) + 2 ^ 51 * (2 * (a2 * a4) + a3 * a3)
    + 2 ^ 102 * (2 * (a3 * a4)) + 2 ^ 153 * (a4 * a4)).
  split; [reflexivity|]. split; [|lia].
  unfold eval. change X25519.p with (2 ^ 255 - 19). ring.
Qed.

Lemma val_eq a b k : eval a = b - k * X25519.p -> val a = b mod X25519.p.
Proof. intros E. unfold val. rewrite E. replace (b - k * X25519.p) with (b + (- k) * X25519.p) by ring. apply Z.mod_add. done. Qed.
Lemma val_mul a b : (eval a * eval b) mod X25519.p = X25519.fmul (val a) (val b).
Proof. unfold X25519.fmul, val. by rewrite <- Zmult_mod. Qed.

(** What follows a product. *)
Lemma finish_spec t0 t1 t2 t3 t4 : 0 <= t0 <= 7790 * 2 ^ 102 -> 0 <= t1 <= 7790 * 2 ^ 102 ->
  0 <= t2 <= 7790 * 2 ^ 102 -> 0 <= t3 <= 7790 * 2 ^ 102 -> 0 <= t4 <= 410 * 2 ^ 102 ->
  upto tight (carry_0_to_1 (squeeze (F5 t0 t1 t2 t3 t4))) /\
  exists k, eval (carry_0_to_1 (squeeze (F5 t0 t1 t2 t3 t4))) = eval (F5 t0 t1 t2 t3 t4) - k * X25519.p.
Proof.
  intros H0 H1 H2 H3 H4.
  destruct (squeeze_spec t0 t1 t2 t3 t4 (7790 * 2 ^ 102) (410 * 2 ^ 102) H0 H1 H2 H3 H4)
    as (k & l0 & l1 & l2 & l3 & l4 & E & V & L0 & _ & L1 & L2 & L3 & L4); [lia..|].
  rewrite E. destruct (carry_0_to_1_spec l0 l1 l2 l3 l4 L0 L1 L2 L3 L4) as [Hu Hv].
  split; [done|]. exists k. by rewrite Hv.
Qed.

Lemma fmul_spec a b ba bb : upto ba a -> upto bb b -> ba * bb <= 82 * 2 ^ 102 -> ba < 2 ^ 59 ->
  upto tight (fmul a b) /\ val (fmul a b) = X25519.fmul (val a) (val b).
Proof.
  intros Ha Hb HM HA. destruct (product_spec a b ba bb Ha Hb HM HA) as (t0 & t1 & t2 & t3 & t4 & k & E & V & T0 & T1 & T2 & T3 & T4).
  unfold fmul, fmul_fmul. rewrite E. fold (squeeze (F5 t0 t1 t2 t3 t4)).
  destruct (finish_spec t0 t1 t2 t3 t4 T0 T1 T2 T3 T4) as [Hu [k' V']]. split; [done|].
  rewrite <- val_mul. apply val_eq with (k + k'). rewrite V', V. ring.
Qed.

Lemma fsquare_spec a ba : upto ba a -> ba * ba <= 82 * 2 ^ 102 -> 0 <= ba ->
  upto tight (fsquare_fsquare_ a) /\ val (fsquare_fsquare_ a) = X25519.fsqr (val a).
Proof.
  intros Ha HM H0. destruct (square_spec a ba Ha HM H0) as (t0 & t1 & t2 & t3 & t4 & k & E & V & T0 & T1 & T2 & T3 & T4).
  unfold fsquare_fsquare_. rewrite E. fold (squeeze (F5 t0 t1 t2 t3 t4)).
  destruct (finish_spec t0 t1 t2 t3 t4 T0 T1 T2 T3 T4) as [Hu [k' V']]. split; [done|].
  unfold X25519.fsqr. rewrite <- val_mul. apply val_eq with (k + k'). rewrite V', V. ring.
Qed.

(** ** Sums, differences and small factors *)

Lemma fsum_spec a b ba bb : upto ba a -> upto bb b -> ba + bb < 2 ^ 64 ->
  upto (ba + bb) (fsum a b) /\ val (fsum a b) = X25519.fadd (val a) (val b).
Proof.
  destruct a as [a0 a1 a2 a3 a4], b as [b0 b1 b2 b3 b4]. intros (A0 & A1 & A2 & A3 & A4) (B0 & B1 & B2 & B3 & B4) HM.
  unfold fsum. rewrite !u64_small by lia. split; [unfold upto; lia|].
  unfold X25519.fadd, val. rewrite <- Zplus_mod. f_equal. unfold eval. ring.
Qed.

Lemma fdifference_spec a b : upto tight a -> upto tight b ->
  upto loose (fdifference a b) /\ val (fdifference a b) = X25519.fsub (val b) (val a).
Proof.
  destruct a as [a0 a1 a2 a3 a4], b as [b0 b1 b2 b3 b4]. intros (A0 & A1 & A2 & A3 & A4) (B0 & B1 & B2 & B3 & B4).
  unfold tight, loose in *. unfold fdifference. unwrap. split; [unfold upto; lia|].
  unfold X25519.fsub, val. rewrite <- Zminus_mod.
  match goal with |- eval ?x mod _ = _ => apply (val_eq x _ (-8)) end.
  unfold eval. change X25519.p with (2 ^ 255 - 19). ring.
Qed.

Lemma fscalar_spec b s : upto loose b -> 0 <= s < 2 ^ 17 ->
  upto (2 ^ 51 + 2 ^ 27) (fscalar b s) /\ val (fscalar b s) = X25519.fmul s (val b).
Proof.
  destruct b as [b0 b1 b2 b3 b4]. intros (B0 & B1 & B2 & B3 & B4) Hs. unfold loose in *.
  assert (Hs' : 0 <= s <= 2 ^ 17 - 1) by lia.
  pose proof (mul_upto b0 s _ _ B0 Hs') as P0. pose proof (mul_upto b1 s _ _ B1 Hs') as P1.
  pose proof (mul_upto b2 s _ _ B2 Hs') as P2. pose proof (mul_upto b3 s _ _ B3 Hs') as P3.
  pose proof (mul_upto b4 s _ _ B4 Hs') as P4. unfold fscalar. rewrite !u128_small by lia.
  destruct (squeeze_spec _ _ _ _ _ _ _ P0 P1 P2 P3 P4)
    as (k & l0 & l1 & l2 & l3 & l4 & E & V & L0 & L0' & L1 & L2 & L3 & L4); [lia..|].
  fold (squeeze (F5 (b0 * s) (b1 * s) (b2 * s) (b3 * s) (b4 * s))). rewrite E. split.
  - assert (l0 < 2 ^ 51 + 2 ^ 27) by (eapply Z.lt_le_trans; [exact L0'|vm_compute; discriminate]). unfold upto. lia.
  - transitivity ((s * eval (F5 b0 b1 b2 b3 b4)) mod X25519.p); [|unfold X25519.fmul, val; by rewrite Zmult_mod_idemp_r].
    apply val_eq with k. rewrite V. unfold eval. ring.
Qed.

(** ** A step of the ladder *)

Definition tight_point (q : point) : Prop := upto tight q.1 /\ upto tight q.2.
(** A pair of points stands for a state of the specification. *)
Definition stands_for (qs : point * point) (s : X25519.state) : Prop :=
  tight_point qs.1 /\ tight_point qs.2 /\
  val qs.1.1 = X25519.x2 s /\ val qs.1.2 = X25519.z2 s /\ val qs.2.1 = X25519.x3 s /\ val qs.2.2 = X25519.z3 s.

Lemma fmul_tight a b : upto tight a -> upto tight b ->
  upto tight (fmul a b) /\ val (fmul a b) = X25519.fmul (val a) (val b).
Proof. intros Ha Hb. by apply (fmul_spec a b tight tight). Qed.
Lemma fmul_sum a b : upto (tight + tight) a -> upto loose b ->
  upto tight (fmul a b) /\ val (fmul a b) = X25519.fmul (val a) (val b).
Proof. intros Ha Hb. by apply (fmul_spec a b (tight + tight) loose). Qed.
Lemma fsquare_loose a : upto loose a ->
  upto tight (fsquare_fsquare_times a 1) /\ val (fsquare_fsquare_times a 1) = X25519.fsqr (val a).
Proof. intros Ha. by apply (fsquare_spec a loose). Qed.
Lemma fsum_tight a b : upto tight a -> upto tight b ->
  upto (tight + tight) (fsum a b) /\ val (fsum a b) = X25519.fadd (val a) (val b).
Proof. intros Ha Hb. by apply (fsum_spec a b tight tight). Qed.

Lemma addanddouble_spec nq nqpq qx s : stands_for (nq, nqpq) s -> upto tight qx ->
  stands_for (addanddouble_fmonty nq nqpq qx) (X25519.step (val qx) s).
Proof.
  destruct nq as [x z], nqpq as [x' z']. intros ((Hx & Hz) & (Hx' & Hz') & Ex & Ez & Ex' & Ez') Hq. cbn [fst snd] in *.
  unfold addanddouble_fmonty. cbv zeta.
  destruct (fsum_tight x z Hx Hz) as [Ba Va]. set (a := fsum x z) in *.
  destruct (fdifference_spec z x Hz Hx) as [Bb Vb]. set (b := fdifference z x) in *.
  destruct (fsum_tight x' z' Hx' Hz') as [Bc Vc]. set (c := fsum x' z') in *.
  destruct (fdifference_spec z' x' Hz' Hx') as [Bd Vd]. set (d := fdifference z' x') in *.
  destruct (fmul_sum c b Bc Bb) as [Bcb Vcb]. set (cb := fmul c b) in *.
  destruct (fmul_sum a d Ba Bd) as [Bda Vda]. set (da := fmul a d) in *.
  destruct (fsum_tight cb da Bcb Bda) as [Bs Vs]. set (su := fsum cb da) in *.
  destruct (fdifference_spec da cb Bda Bcb) as [Bf Vf]. set (df := fdifference da cb) in *.
  assert (Hle : tight + tight <= loose) by by vm_compute.
  destruct (fsquare_loose su (upto_le _ _ _ Hle Bs)) as [B3 V3]. set (x3 := fsquare_fsquare_times su 1) in *.
  destruct (fsquare_loose df Bf) as [Bz Vz]. set (zz3 := fsquare_fsquare_times df 1) in *.
  destruct (fmul_tight zz3 qx Bz Hq) as [Bz3 Vz3]. set (z3 := fmul zz3 qx) in *.
  destruct (fsquare_loose a (upto_le _ _ _ Hle Ba)) as [Baa Vaa]. set (aa := fsquare_fsquare_times a 1) in *.
  destruct (fsquare_loose b Bb) as [Bbb Vbb]. set (bb := fsquare_fsquare_times b 1) in *.
  destruct (fmul_tight aa bb Baa Bbb) as [B2 V2]. set (x2 := fmul aa bb) in *.
  destruct (fdifference_spec bb aa Bbb Baa) as [Be Ve]. set (e := fdifference bb aa) in *.
  destruct (fscalar_spec e 121665 Be) as [Bg Vg]; [lia|]. set (g := fscalar e 121665) in *.
  destruct (fsum_spec g aa _ _ Bg Baa) as [Bh Vh]; [by vm_compute|]. set (h := fsum g aa) in *.
  destruct (fmul_spec h e _ _ Bh Be) as [Bz2 Vz2]; [by vm_compute..|]. set (z2 := fmul h e) in *.
  unfold stands_for, tight_point. cbn [fst snd]. split; [done|]. split; [done|].
  rewrite V2, Vz2, V3, Vz3, Vh, Vg, Ve, Vz, Vs, Vf, Vaa, Vbb, Vcb, Vda, Va, Vb, Vc, Vd, Ex, Ez, Ex', Ez'.
  unfold X25519.step, X25519.a24. cbn [X25519.x2 X25519.z2 X25519.x3 X25519.z3].
  split_and!; X25519.field_eq.
Qed.

(** ** Conditional swaps *)

Lemma swap5_spec a b (c : bool) : upto tight a -> upto tight b ->
  point_swap_conditional5 a b (if c then 2 ^ 64 - 1 else 0) = if c then (b, a) else (a, b).
Proof.
  destruct a as [a0 a1 a2 a3 a4], b as [b0 b1 b2 b3 b4]. unfold tight.
  intros (A0 & A1 & A2 & A3 & A4) (B0 & B1 & B2 & B3 & B4). unfold point_swap_conditional5.
  assert (E : forall x y, 0 <= x <= 2 ^ 51 + 2 ^ 13 -> 0 <= y <= 2 ^ 51 + 2 ^ 13 ->
            point_swap_conditional_step x y (if c then 2 ^ 64 - 1 else 0) = if c then (y, x) else (x, y)).
  { intros x y Hx Hy. change (X25519.swap_words (if c then 2 ^ 64 - 1 else 0) x y = if c then (y, x) else (x, y)).
    destruct c; [apply X25519.swap_words_ones; lia|apply X25519.swap_words_0]. }
  rewrite !E by done. by destruct c.
Qed.

Lemma swap_spec a b (c : bool) : tight_point a -> tight_point b ->
  point_swap_conditional a b (Z.b2z c) = if c then (b, a) else (a, b).
Proof.
  destruct a as [ax az], b as [bx bz]. intros [A1 A2] [B1 B2]. unfold point_swap_conditional. cbn [fst snd] in *.
  replace (u64 (0 - Z.b2z c)) with (if c then 2 ^ 64 - 1 else 0) by by destruct c.
  rewrite !swap5_spec by done. by destruct c.
Qed.

Lemma swap_stands qs s (c : bool) : stands_for qs s ->
  stands_for (point_swap_conditional qs.1 qs.2 (Z.b2z c)) (X25519.cswap c s).
Proof.
  intros H. pose proof H as (H1 & H2 & _). rewrite swap_spec by done. destruct qs as [q1 q2].
  destruct c; [|done]. destruct H as (_ & _ & E1 & E2 & E3 & E4). by repeat split; try apply H1; try apply H2.
Qed.

(** ** The ladder *)

Lemma small_step_spec nq nqpq q byt s (c : bool) : shr byt 7 = Z.b2z c -> stands_for (nq, nqpq) s -> upto tight q ->
  stands_for (ladder_smallloop_cmult_small_loop_step nq nqpq q byt) (X25519.bit_step (val q) c s).
Proof.
  intros Hb Hs Hq. unfold ladder_smallloop_cmult_small_loop_step, X25519.bit_step. rewrite Hb. cbv zeta.
  pose proof (swap_stands (nq, nqpq) s c Hs) as H1. cbn [fst snd] in H1.
  destruct (point_swap_conditional nq nqpq (Z.b2z c)) as [a b].
  pose proof (addanddouble_spec a b q _ H1 Hq) as H2. destruct (addanddouble_fmonty a b q) as [a2 b2].
  exact (swap_stands (a2, b2) _ c H2).
Qed.

(** The bits of a byte as the loop sees them. *)
Lemma byte_bits byt : is_byte byt ->
  let b2 := u8 (Z.shiftl byt 2) in let b4 := u8 (Z.shiftl b2 2) in let b6 := u8 (Z.shiftl b4 2) in
  shr byt 7 = Z.b2z (Z.testbit byt 7) /\ shr (u8 (Z.shiftl byt 1)) 7 = Z.b2z (Z.testbit byt 6) /\
  shr b2 7 = Z.b2z (Z.testbit byt 5) /\ shr (u8 (Z.shiftl b2 1)) 7 = Z.b2z (Z.testbit byt 4) /\
  shr b4 7 = Z.b2z (Z.testbit byt 3) /\ shr (u8 (Z.shiftl b4 1)) 7 = Z.b2z (Z.testbit byt 2) /\
  shr b6 7 = Z.b2z (Z.testbit byt 1) /\ shr (u8 (Z.shiftl b6 1)) 7 = Z.b2z (Z.testbit byt 0).
Proof.
  cbv zeta. intros Hb.
  set (f := fun byt => let b2 := u8 (Z.shiftl byt 2) in let b4 := u8 (Z.shiftl b2 2) in let b6 := u8 (Z.shiftl b4 2) in
    (shr byt 7 =? Z.b2z (Z.testbit byt 7)) && (shr (u8 (Z.shiftl byt 1)) 7 =? Z.b2z (Z.testbit byt 6)) &&
    (shr b2 7 =? Z.b2z (Z.testbit byt 5)) && (shr (u8 (Z.shiftl b2 1)) 7 =? Z.b2z (Z.testbit byt 4)) &&
    (shr b4 7 =? Z.b2z (Z.testbit byt 3)) && (shr (u8 (Z.shiftl b4 1)) 7 =? Z.b2z (Z.testbit byt 2)) &&
    (shr b6 7 =? Z.b2z (Z.testbit byt 1)) && (shr (u8 (Z.shiftl b6 1)) 7 =? Z.b2z (Z.testbit byt 0))).
  assert (H : f byt = true) by (revert byt Hb; apply byte_forall; vm_compute; reflexivity).
  unfold f in H. cbv zeta in H. rewrite !andb_true_iff, !Z.eqb_eq in H. tauto.
Qed.

Lemma double_step_spec nq nqpq q byt s (c d : bool) : shr byt 7 = Z.b2z c -> shr (u8 (Z.shiftl byt 1)) 7 = Z.b2z d ->
  stands_for (nq, nqpq) s -> upto tight q ->
  stands_for (ladder_smallloop_cmult_small_loop_double_step nq nqpq q byt)
    (X25519.bit_step (val q) d (X25519.bit_step (val q) c s)).
Proof.
  intros Hc Hd Hs Hq. unfold ladder_smallloop_cmult_small_loop_double_step.
  pose proof (small_step_spec nq nqpq q byt s c Hc Hs Hq) as H1.
  destruct (ladder_smallloop_cmult_small_loop_step nq nqpq q byt) as [a b]. by apply small_step_spec.
Qed.

Lemma small_loop_spec nq nqpq q byt s : is_byte byt -> stands_for (nq, nqpq) s -> upto tight q ->
  stands_for (ladder_smallloop_cmult_small_loop 4 nq nqpq q byt) (X25519.byte_steps (val q) byt 8 s).
Proof.
  intros Hb Hs Hq. destruct (byte_bits byt Hb) as (E7 & E6 & E5 & E4 & E3 & E2 & E1 & E0).
  cbn [ladder_smallloop_cmult_small_loop X25519.byte_steps].
  pose proof (double_step_spec nq nqpq q _ s _ _ E7 E6 Hs Hq) as H1.
  destruct (ladder_smallloop_cmult_small_loop_double_step nq nqpq q byt) as [a1 b1].
  pose proof (double_step_spec a1 b1 q _ _ _ _ E5 E4 H1 Hq) as H2.
  destruct (ladder_smallloop_cmult_small_loop_double_step a1 b1 q _) as [a2 b2].
  pose proof (double_step_spec a2 b2 q _ _ _ _ E3 E2 H2 Hq) as H3.
  destruct (ladder_smallloop_cmult_small_loop_double_step a2 b2 q _) as [a3 b3].
  pose proof (double_step_spec a3 b3 q _ _ _ _ E1 E0 H3 Hq) as H4.
  destruct (ladder_smallloop_cmult_small_loop_double_step a3 b3 q _) as [a4 b4]. exact H4.
Qed.

Lemma nth_byte l i : Forall is_byte l -> is_byte (nth i l 0).
Proof. intros H. destruct (nth_in_or_default i l 0) as [Hin| ->]; [|done]. rewrite Forall_forall in H. by apply H, list_elem_of_In. Qed.

Lemma big_loop_spec i l nq nqpq q s : Forall is_byte l -> stands_for (nq, nqpq) s -> upto tight q ->
  stands_for (ladder_bigloop_cmult_big_loop i l nq nqpq q) (X25519.ladder (val q) (le_number l) (8 * i) s).
Proof.
  intros Hl. revert nq nqpq s. induction i as [|i IH]; intros nq nqpq s Hs Hq; [done|].
  rewrite X25519.ladder_byte by done. cbn [ladder_bigloop_cmult_big_loop]. cbv zeta.
  pose proof (small_loop_spec nq nqpq q _ s (nth_byte l i Hl) Hs Hq) as H1.
  destruct (ladder_smallloop_cmult_small_loop 4 nq nqpq q (nth i l 0)) as [a b]. by apply IH.
Qed.

(** ** Inversion *)

#[export] Instance hacl64_rep : FieldRep.FieldRep val (upto tight) fmul_fmul fsquare_fsquare_.
Proof.
  split; [exact fmul_tight| |intros a; apply Zmod_mod].
  intros a Ha. apply (fsquare_spec a tight Ha); by vm_compute.
Qed.

Lemma crecip_spec z : upto tight z -> FieldRep.power val (upto tight) (val z) (X25519.p - 2) (crecip z).
Proof.
  intros Hz. cbv beta delta [crecip crecip_crecip fsquare_fsquare_times_inplace fsquare_fsquare_times
    fsquare_fsquare_times_].
  pose proof (FieldRep.power_one z Hz) as Hz1.
  power_let 2. power_let 8. power_let 9. power_let 11. power_let 22. power_let (2 ^ 5 - 1).
  power_let (2 ^ 10 - 2 ^ 5). power_let (2 ^ 10 - 1). power_let (2 ^ 20 - 2 ^ 10). power_let (2 ^ 20 - 1).
  power_let (2 ^ 40 - 2 ^ 20). power_let (2 ^ 40 - 1). power_let (2 ^ 50 - 2 ^ 10). power_let (2 ^ 50 - 1).
  power_let (2 ^ 100 - 2 ^ 50). power_let (2 ^ 100 - 1). power_let (2 ^ 200 - 2 ^ 100). power_let (2 ^ 200 - 1).
  power_let (2 ^ 250 - 2 ^ 50). power_let (2 ^ 250 - 1). power_let (2 ^ 255 - 2 ^ 5). power_solve.
Qed.

(** ** Reading bytes *)

(** The five slices of a number. *)
Lemma slices51 n : 0 <= n ->
  eval (F5 (n mod 2 ^ 51) ((n / 2 ^ 51) mod 2 ^ 51) ((n / 2 ^ 102) mod 2 ^ 51) ((n / 2 ^ 153) mod 2 ^ 51)
    ((n / 2 ^ 204) mod 2 ^ 51)) = n mod 2 ^ 255.
Proof.
  intros Hn. replace (n / 2 ^ 102) with (n / 2 ^ 51 / 2 ^ 51) by (by rewrite Z.div_div).
  replace (n / 2 ^ 153) with (n / 2 ^ 51 / 2 ^ 51 / 2 ^ 51) by (by rewrite !Z.div_div).
  replace (n / 2 ^ 204) with (n / 2 ^ 51 / 2 ^ 51 / 2 ^ 51 / 2 ^ 51) by (by rewrite !Z.div_div).
  destruct (split51 n) as (r0 & c0 & -> & -> & V0 & R0). destruct (split51 c0) as (r1 & c1 & -> & -> & V1 & R1).
  destruct (split51 c1) as (r2 & c2 & -> & -> & V2 & R2). destruct (split51 c2) as (r3 & c3 & -> & -> & V3 & R3).
  destruct (split51 c3) as (r4 & c4 & -> & D4 & V4 & R4).
  unfold eval. apply Z.mod_unique with c4; lia.
Qed.

Lemma fexpand_spec l : wf_key l -> upto tight (format_fexpand l) /\ val (format_fexpand l) = X25519.decode_u l.
Proof.
  intros [Hl Hb]. unfold WG_KEY_LEN in Hl. unfold format_fexpand, get_unaligned_le64. rewrite !land_mask51, !shr_div by lia.
  change (take 8 l) with (take 8 (drop 0 l)). rewrite !X25519.le_number_slice by (done || lia). set (n := le_number l).
  change (256 ^ Z.of_nat 8) with (2 ^ 64). change (256 ^ Z.of_nat 0) with 1. change (256 ^ Z.of_nat 6) with (2 ^ 48).
  change (256 ^ Z.of_nat 12) with (2 ^ 96). change (256 ^ Z.of_nat 19) with (2 ^ 152).
  change (256 ^ Z.of_nat 24) with (2 ^ 192). rewrite Z.div_1_r.
  rewrite (Z.mod_mod_divide n (2 ^ 64) (2 ^ 51)) by (by exists (2 ^ 13)).
  rewrite (X25519.word_slice n 48 64 3 51), (X25519.word_slice n 96 64 6 51), (X25519.word_slice n 152 64 1 51),
    (X25519.word_slice n 192 64 12 51) by lia.
  change (48 + 3) with 51. change (96 + 6) with 102. change (152 + 1) with 153. change (192 + 12) with 204.
  pose proof (le_number_range l Hb) as Hr. fold n in Hr. split.
  - pose proof (fun a => Z.mod_pos_bound a (2 ^ 51) ltac:(lia)) as M. unfold upto, tight.
    pose proof (M n). pose proof (M (n / 2 ^ 51)). pose proof (M (n / 2 ^ 102)). pose proof (M (n / 2 ^ 153)).
    pose proof (M (n / 2 ^ 204)). lia.
  - unfold val, X25519.decode_u. fold n. by rewrite slices51 by lia.
Qed.

(** ** Writing bytes *)

(** The number of the limbs, below 2^255. *)
Definition full (l : limbs) : Prop := upto (2 ^ 51 - 1) l.

Lemma carry_pass_spec t0 t1 t2 t3 t4 b : 0 <= t0 <= b -> 0 <= t1 <= b -> 0 <= t2 <= b -> 0 <= t3 <= b -> 0 <= t4 <= b ->
  b < 2 ^ 63 -> exists r0 r1 r2 r3 l4 c0 c1 c2 c3,
  format_fcontract_first_carry_pass (F5 t0 t1 t2 t3 t4) = F5 r0 r1 r2 r3 l4 /\
  t0 = r0 + 2 ^ 51 * c0 /\ t1 + c0 = r1 + 2 ^ 51 * c1 /\ t2 + c1 = r2 + 2 ^ 51 * c2 /\ t3 + c2 = r3 + 2 ^ 51 * c3 /\
  l4 = t4 + c3 /\ 0 <= r0 < 2 ^ 51 /\ 0 <= r1 < 2 ^ 51 /\ 0 <= r2 < 2 ^ 51 /\ 0 <= r3 < 2 ^ 51 /\
  0 <= c0 /\ 0 <= c1 /\ 0 <= c2 /\ 0 <= c3.
Proof.
  intros H0 H1 H2 H3 H4 Hb. unfold format_fcontract_first_carry_pass. rewrite !land_mask51, !shr_div by lia.
  destruct (split51 t0) as (r0 & c0 & -> & -> & V0 & R0). rewrite (u64_small (t1 + c0)) by lia.
  destruct (split51 (t1 + c0)) as (r1 & c1 & -> & -> & V1 & R1). rewrite (u64_small (t2 + c1)) by lia.
  destruct (split51 (t2 + c1)) as (r2 & c2 & -> & -> & V2 & R2). rewrite (u64_small (t3 + c2)) by lia.
  destruct (split51 (t3 + c2)) as (r3 & c3 & -> & -> & V3 & R3). rewrite (u64_small (t4 + c3)) by lia.
  eexists r0, r1, r2, r3, _, c0, c1, c2, c3. split; [reflexivity|]. lia.
Qed.

Lemma carry_top_spec l0 l1 l2 l3 l4 : 0 <= l0 < 2 ^ 51 -> 0 <= l4 < 2 ^ 56 -> exists r4 c4,
  modulo_carry_top (F5 l0 l1 l2 l3 l4) = F5 (l0 + 19 * c4) l1 l2 l3 r4 /\ l4 = r4 + 2 ^ 51 * c4 /\ 0 <= r4 < 2 ^ 51 /\ 0 <= c4.
Proof.
  intros H0 H4. unfold modulo_carry_top. rewrite land_mask51, shr_div by lia.
  destruct (split51 l4) as (r4 & c4 & -> & -> & V4 & R4). rewrite (u64_small (19 * c4)), u64_small by lia.
  exists r4, c4. split; [done|]. lia.
Qed.

(** Two passes bring every limb to 51 bits. *)
Lemma carries_spec l : upto tight l ->
  full (format_fcontract_second_carry_full (format_fcontract_first_carry_full l)) /\
  val (format_fcontract_second_carry_full (format_fcontract_first_carry_full l)) = val l.
Proof.
  destruct l as [t0 t1 t2 t3 t4]. unfold tight. intros (H0 & H1 & H2 & H3 & H4).
  unfold format_fcontract_first_carry_full.
  destruct (carry_pass_spec t0 t1 t2 t3 t4 _ H0 H1 H2 H3 H4) as (r0 & r1 & r2 & r3 & l4 & c0 & c1 & c2 & c3 & E & V); [lia|].
  rewrite E. destruct (carry_top_spec r0 r1 r2 r3 l4) as (r4 & c4 & E4 & V4); [lia..|]. rewrite E4. clear E E4.
  assert (c4 <= 1) by lia. set (s0 := r0 + 19 * c4).
  unfold format_fcontract_second_carry_full, format_fcontract_second_carry_pass.
  destruct (carry_pass_spec s0 r1 r2 r3 r4 (2 ^ 51 + 19)) as (q0 & q1 & q2 & q3 & m4 & d0 & d1 & d2 & d3 & E & V'); [lia..|].
  rewrite E. destruct (carry_top_spec q0 q1 q2 q3 m4) as (q4 & d4 & E4 & V4'); [lia..|]. rewrite E4. clear E E4.
  unfold carry_0_to_1. rewrite land_mask51, shr_div by lia.
  assert (Hd : q0 + 19 * d4 < 2 ^ 51) by lia.
  rewrite Z.mod_small, Z.div_small, Z.add_0_r, u64_small by lia. split; [unfold full, upto; lia|].
  match goal with |- val ?x = _ => apply (val_eq x _ (c4 + d4)) end.
  unfold eval. change X25519.p with (2 ^ 255 - 19). lia.
Qed.
End Hacl64Facts.
