(* ===== verification/Hacl64Correct.v ===== *)
(** * The 64-bit implementation computes X25519: the result

    The masks that compare in constant time, the final reduction and the bytes
    of the result; then the whole function. *)
From S2P Require Import Prelude Encoding Wg Prime25519 X25519 FieldRep Hacl64 Hacl64Facts.
Import Encoding Wg Hacl64 Hacl64Facts.

Module Hacl64Correct.

(** ** The field *)

(** The field operations of the 64-bit implementation: on limbs of at most
    2^51 + 2^13, no 64-bit or 128-bit word overflows, sums and differences stay below
    the bound that products accept, products and squares return to the first
    bound, and each result stands for the operation modulo 2^255 - 19; the
    reciprocal is the inverse, and 0 of 0. (C33) *)
Theorem hacl64_field a b : upto tight a -> upto tight b ->
  (upto (2 * tight) (fsum a b) /\ val (fsum a b) = X25519.fadd (val a) (val b)) /\
  (upto loose (fdifference a b) /\ val (fdifference a b) = X25519.fsub (val b) (val a)) /\
  (upto tight (fmul (fsum a b) (fdifference a b)) /\
   val (fmul (fsum a b) (fdifference a b)) = X25519.fmul (val (fsum a b)) (val (fdifference a b))) /\
  (upto tight (fsquare_fsquare_ (fdifference a b)) /\
   val (fsquare_fsquare_ (fdifference a b)) = X25519.fsqr (val (fdifference a b))) /\
  val (fscalar (fdifference a b) 121665) = X25519.fmul 121665 (val (fdifference a b)) /\
  (upto tight (crecip a) /\ X25519.fmul (val a) (val (crecip a)) = if decide (val a = 0) then 0 else 1).
Proof.
  intros Ha Hb. pose proof (fsum_tight a b Ha Hb) as [Hs Vs]. pose proof (fdifference_spec a b Ha Hb) as [Hd Vd].
  split; [split; [exact Hs|exact Vs]|]. split; [split; [exact Hd|exact Vd]|]. split; [exact (fmul_sum _ _ Hs Hd)|].
  split; [exact (fsquare_loose _ Hd)|]. split; [apply (fscalar_spec _ 121665 Hd); lia|].
  destruct (crecip_spec a Ha) as [Hc Ec]. split; [exact Hc|]. apply X25519.fermat_inverse; [apply Zmod_mod|exact Ec].
Qed.
Lemma hacl64_field_witness :
  X25519.fmul (val one5) (val (crecip one5)) = if decide (val one5 = 0) then 0 else 1.
Proof.
  destruct (hacl64_field one5 one5) as (_ & _ & _ & _ & _ & _ & H); [by vm_compute|by vm_compute|exact H].
Defined.

(** ** Masks *)

Definition ones64 : Z := 2 ^ 64 - 1.
(** A mask that is all ones, or all zeros. *)
Definition mask_of (b : bool) : Z := if b then ones64 else 0.

Lemma top_bit z : 0 <= z < 2 ^ 64 -> shr z 63 = Z.b2z (2 ^ 63 <=? z).
Proof.
  intros Hz. rewrite shr_div by lia. destruct (Z.leb_spec (2 ^ 63) z); cbn [Z.b2z].
  - symmetry. apply Z.div_unique with (z - 2 ^ 63); lia.
  - apply Z.div_small. lia.
Qed.
Lemma u64_eq_mask_spec a b : 0 <= a < 2 ^ 64 -> 0 <= b < 2 ^ 64 -> u64_eq_mask a b = mask_of (a =? b).
Proof.
  intros Ha Hb. unfold u64_eq_mask, shr. pose proof (X25519.lxor_range 64 a b) as Hx.
  destruct (Z.eqb_spec a b) as [->|Hne]; [by rewrite Z.lxor_nilpotent|]. cbn [mask_of].
  assert (Z.lxor a b <> 0) by (by rewrite Z.lxor_eq_0_iff). set (x := Z.lxor a b) in *.
  assert (E : u64 (not64 x + 1) = 2 ^ 64 - x).
  { unfold not64, u64, Z.lnot. symmetry. rewrite Zplus_mod_idemp_l. apply Z.mod_unique with (-1); lia. }
  rewrite E, Z.shiftr_lor. fold (shr x 63). fold (shr (2 ^ 64 - x) 63). rewrite !top_bit by lia.
  destruct (Z.leb_spec (2 ^ 63) x), (Z.leb_spec (2 ^ 63) (2 ^ 64 - x)); try reflexivity. lia.
Qed.
Lemma u64_gte_mask_spec a b : 0 <= a < 2 ^ 63 -> 0 <= b < 2 ^ 63 -> u64_gte_mask a b = mask_of (b <=? a).
Proof.
  intros Ha Hb. unfold u64_gte_mask, shr. rewrite !Z.shiftr_lxor, !Z.shiftr_lor, !Z.shiftr_lxor.
  fold (shr a 63). fold (shr b 63). fold (shr (u64 (a - b)) 63).
  rewrite !top_bit by (lia || (unfold u64; apply Z.mod_pos_bound; lia)).
  rewrite (proj2 (Z.leb_gt (2 ^ 63) a)), (proj2 (Z.leb_gt (2 ^ 63) b)) by lia.
  assert (E : (2 ^ 63 <=? u64 (a - b)) = (a <? b)).
  { unfold u64. destruct (Z.ltb_spec a b).
    - replace ((a - b) mod 2 ^ 64) with (a - b + 2 ^ 64); [lia|]. apply Z.mod_unique with (-1); lia.
    - rewrite Z.mod_small; lia. }
  rewrite E. destruct (Z.ltb_spec a b), (Z.leb_spec b a); try lia; reflexivity.
Qed.
Lemma mask_of_land a b : Z.land (mask_of a) (mask_of b) = mask_of (a && b).
Proof. by destruct a, b. Qed.
Lemma land_mask_of z b : 0 <= z < 2 ^ 64 -> Z.land z (mask_of b) = if b then z else 0.
Proof.
  intros Hz. destruct b; cbn [mask_of]; [|apply Z.land_0_r].
  change ones64 with (Z.ones 64). rewrite Z.land_ones by lia. apply Z.mod_small. lia.
Qed.

(** ** The final reduction *)

Lemma full_range l : full l -> 0 <= eval l < 2 ^ 255.
Proof. destruct l. unfold full, upto, eval. lia. Qed.

Lemma trim_spec l : full l -> full (format_fcontract_trim l) /\ eval (format_fcontract_trim l) = val l.
Proof.
  intros Hl. pose proof (full_range l Hl) as Hr. destruct l as [a0 a1 a2 a3 a4]. unfold full, upto in Hl.
  unfold format_fcontract_trim. rewrite u64_gte_mask_spec, !u64_eq_mask_spec, !mask_of_land, !land_mask_of by lia.
  set (b := (_ && _)). assert (Hb : b = (X25519.p <=? eval (F5 a0 a1 a2 a3 a4))).
  { apply eq_iff_eq_true. unfold b. rewrite !andb_true_iff, !Z.leb_le, !Z.eqb_eq. unfold eval.
    change X25519.p with (2 ^ 255 - 19). split; lia. }
  unfold val. destruct (Z.leb_spec X25519.p (eval (F5 a0 a1 a2 a3 a4))) as [H|H]; subst b; rewrite Hb.
  - assert (Hx : 0x7ffffffffffed <= a0 /\ a1 = 0x7ffffffffffff /\ a2 = 0x7ffffffffffff /\ a3 = 0x7ffffffffffff /\ a4 = 0x7ffffffffffff).
    { unfold eval in H. change X25519.p with (2 ^ 255 - 19) in H. lia. }
    rewrite !u64_small by lia. split; [unfold full, upto; lia|].
    symmetry. rewrite <- (Z_mod_plus_full _ (-1)). rewrite Z.mod_small; unfold eval in *;
      change X25519.p with (2 ^ 255 - 19) in *; lia.
  - rewrite !Z.sub_0_r, !u64_small by lia. split; [unfold full, upto; lia|]. symmetry. apply Z.mod_small. lia.
Qed.

(** ** The bytes *)

Lemma u64_shiftl t k : 0 <= k <= 64 -> u64 (Z.shiftl t k) = 2 ^ k * (t mod 2 ^ (64 - k)).
Proof.
  intros Hk. unfold u64. rewrite Z.shiftl_mul_pow2, (Z.mul_comm t) by lia.
  replace (2 ^ 64) with (2 ^ k * 2 ^ (64 - k)) by (rewrite <- Z.pow_add_r by lia; f_equal; lia).
  apply Z.mul_mod_distr_l; apply Z.pow_nonzero; lia.
Qed.
Lemma store_spec l : full l -> format_fcontract_store l = le_bytes 32 (eval l).
Proof.
  destruct l as [t0 t1 t2 t3 t4]. unfold full, upto. intros (H0 & H1 & H2 & H3 & H4).
  unfold format_fcontract_store, put_unaligned_le64. rewrite !u64_shiftl, !shr_div by lia.
  change (64 - 51) with 13. change (64 - 38) with 26. change (64 - 25) with 39. change (64 - 12) with 52.
  destruct (X25519.split_bits t1 13) as (l1 & h1 & -> & -> & E1 & R1); [lia|].
  destruct (X25519.split_bits t2 26) as (l2 & h2 & -> & -> & E2 & R2); [lia|].
  destruct (X25519.split_bits t3 39) as (l3 & h3 & -> & -> & E3 & R3); [lia|].
  rewrite (Z.mod_small t4), !X25519.lor_above by lia.
  set (o0 := t0 + 2 ^ 51 * l1). set (o1 := h1 + 2 ^ 38 * l2). set (o2 := h2 + 2 ^ 25 * l3). set (o3 := h3 + 2 ^ 12 * t4).
  replace (eval (F5 t0 t1 t2 t3 t4)) with (o0 + 256 ^ Z.of_nat 8 * (o1 + 256 ^ Z.of_nat 8 * (o2 + 256 ^ Z.of_nat 8 * o3)))
    by (unfold eval, o0, o1, o2, o3; lia).
  change 32%nat with (8 + (8 + (8 + 8)))%nat. rewrite !X25519.le_bytes_join; [done|lia..].
Qed.

Lemma fcontract_spec l : upto tight l -> format_fcontract l = le_bytes 32 (val l).
Proof.
  intros Hl. unfold format_fcontract. destruct (carries_spec l Hl) as [Hf <-].
  destruct (trim_spec _ Hf) as [Ht <-]. by apply store_spec.
Qed.

(** ** The whole function *)

Lemma scalar_of_point_spec q : tight_point q ->
  format_scalar_of_point q = le_bytes 32 (X25519.fmul (val q.1) (X25519.finv (val q.2))).
Proof.
  destruct q as [x z]. intros [Hx Hz]. cbn [fst snd] in *. unfold format_scalar_of_point.
  destruct (crecip_spec z Hz) as [Hc Ec]. destruct (fmul_tight x (crecip z) Hx Hc) as [Hm Em].
  cbv zeta. by rewrite fcontract_spec, Em, Ec, X25519.finv_pow by done.
Qed.

(** The ladder reads 256 bits, of which the first is clear. *)
Lemma ladder_cmult_spec l q : Forall is_byte l -> le_number l < 2 ^ 255 -> upto tight q ->
  let nq := ladder_cmult l (q, one5) in
  tight_point nq /\ X25519.fmul (val nq.1) (X25519.finv (val nq.2)) = X25519.x25519 (le_number l) (val q).
Proof.
  intros Hl Hn Hq. cbv zeta. unfold ladder_cmult, point_copy. cbn [fst].
  pose proof (big_loop_spec 32 l (one5, zero5) (q, one5) q (X25519.start (val q)) Hl) as H.
  destruct H as (Ht & _ & Ex & Ez & _); [|done|].
  { split_and!; try done; by vm_compute. }
  split; [done|]. rewrite Ex, Ez. rewrite <- (X25519.leading_zero (le_number l) (val q)).
  - change (8 * 32)%nat with (S 255). cbn [X25519.ladder]. replace (Z.testbit (le_number l) (Z.of_nat 255)) with false; [done|].
    symmetry. rewrite <- (Z.mod_small (le_number l) (2 ^ 255)) by (pose proof (le_number_range l Hl); lia).
    apply Z.mod_pow2_bits_high. lia.
  - unfold val. apply Z.mod_pos_bound. by pose proof X25519.p_big; lia.
Qed.

(** The 64-bit implementation computes X25519: for every 32-byte secret and every
    32-byte point, no intermediate word overflows in a way that changes the
    result, and the bytes stored are those of the function of RFC 7748 (clamped
    scalar, the point's top bit ignored, the ladder modulo 2^255 - 19, the result
    fully reduced). *)
Lemma hacl64_x25519 secret basepoint : wf_key secret -> wf_key basepoint ->
  curve25519_generic secret basepoint = X25519.X25519 secret basepoint.
Proof.
  intros Hs Hb. unfold curve25519_generic, X25519.X25519. cbv zeta.
  destruct (fexpand_spec basepoint Hb) as [Hx <-]. rewrite X25519.decode_scalar_clamp by done.
  pose proof (proj1 (clamp_wf_idem secret Hs)) as [_ Hc]. pose proof (X25519.decode_scalar_range secret) as Hr.
  rewrite X25519.decode_scalar_clamp in Hr by done.
  destruct (ladder_cmult_spec _ _ Hc ltac:(lia) Hx) as [Ht E].
  by rewrite scalar_of_point_spec, E.
Qed.
End Hacl64Correct.
