(* ===== verification/Fiat32.v ===== *)
(** * Curve25519 with 32-bit limbs (src/curve25519-fiat32.h, src/curve25519.c)

    The implementation that is used where the compiler has no 128-bit integers. A
    field element is ten limbs of 26 and 25 bits in 32-bit words; products and
    their sums are 64-bit words. Every operation wraps at its width: an operator
    with [!] is the one on [u64], an operator with [~] the one on [u32]. Functions
    that store through a pointer return the new array; every function reads its
    inputs before it writes, so overlapping arguments need no separate case.
    Clearing memory after use is not modelled. *)
From S2P Require Import Prelude Wg.
Import Wg.

Module Fiat32.

Declare Scope fiat_scope.
Notation "x +! y" := (u64 (x + y)) (at level 50, left associativity, only parsing) : fiat_scope.
Notation "x *! y" := (u64 (x * y)) (at level 40, left associativity, only parsing) : fiat_scope.
Notation "x <<! n" := (u64 (Z.shiftl x n)) (at level 35, only parsing) : fiat_scope.
Notation "x +~ y" := (u32 (x + y)) (at level 50, left associativity, only parsing) : fiat_scope.
Notation "x -~ y" := (u32 (x - y)) (at level 50, left associativity, only parsing) : fiat_scope.
Notation "x *~ y" := (u32 (x * y)) (at level 40, left associativity, only parsing) : fiat_scope.
Notation "x <<~ n" := (u32 (Z.shiftl x n)) (at level 35, only parsing) : fiat_scope.
Local Open Scope fiat_scope.

Definition shr (z n : Z) : Z := Z.shiftr z n.
(** [(1 << n) - 1] *)
Definition low (n : Z) : Z := Z.shiftl 1 n - 1.

Definition get_unaligned_le32 (a : list Z) : Z := le_number (take 4 a).

(** Ten words: [fe] and [fe_loose], which differ in the bounds of their limbs, and
    the ten 64-bit sums of a product. *)
Inductive fe := Fe (v0 v1 v2 v3 v4 v5 v6 v7 v8 v9 : Z).

Definition fe_frombytes_impl (s : list Z) : fe :=
  let a0 := get_unaligned_le32 s in
  let a1 := get_unaligned_le32 (drop 4 s) in
  let a2 := get_unaligned_le32 (drop 8 s) in
  let a3 := get_unaligned_le32 (drop 12 s) in
  let a4 := get_unaligned_le32 (drop 16 s) in
  let a5 := get_unaligned_le32 (drop 20 s) in
  let a6 := get_unaligned_le32 (drop 24 s) in
  let a7 := get_unaligned_le32 (drop 28 s) in
  Fe (Z.land a0 (low 26))
     (Z.lor (shr a0 26) (Z.land a1 (low 19) <<~ 6))
     (Z.lor (shr a1 19) (Z.land a2 (low 13) <<~ 13))
     (Z.lor (shr a2 13) (Z.land a3 (low 6) <<~ 19))
     (shr a3 6)
     (Z.land a4 (low 25))
     (Z.lor (shr a4 25) (Z.land a5 (low 19) <<~ 7))
     (Z.lor (shr a5 19) (Z.land a6 (low 12) <<~ 13))
     (Z.lor (shr a6 12) (Z.land a7 (low 6) <<~ 20))
     (Z.land (shr a7 6) (low 25)).
Definition fe_frombytes (s : list Z) : fe := fe_frombytes_impl s.

(** ** The final reduction: the carry or borrow, and the low bits *)

Definition addcarryx_u25 (c a b : Z) : Z * Z :=
  let x := a +~ b +~ c in
  (Z.land (shr x 25) 1, Z.land x (low 25)).
Definition addcarryx_u26 (c a b : Z) : Z * Z :=
  let x := a +~ b +~ c in
  (Z.land (shr x 26) 1, Z.land x (low 26)).
Definition subborrow_u25 (c a b : Z) : Z * Z :=
  let x := a -~ b -~ c in
  (shr x 31, Z.land x (low 25)).
Definition subborrow_u26 (c a b : Z) : Z * Z :=
  let x := a -~ b -~ c in
  (shr x 31, Z.land x (low 26)).

Definition cmovznz32 (t z nz : Z) : Z :=
  let t := u32 (- (if t =? 0 then 0 else 1)) in
  Z.lor (Z.land t nz) (Z.land (u32 (Z.lnot t)) z).

Definition fe_freeze (in1 : fe) : fe :=
  let '(Fe x2 x4 x6 x8 x10 x12 x14 x16 x18 x17) := in1 in
  let '(x21, x20) := subborrow_u26 0 x2 0x3ffffed in
  let '(x24, x23) := subborrow_u25 x21 x4 0x1ffffff in
  let '(x27, x26) := subborrow_u26 x24 x6 0x3ffffff in
  let '(x30, x29) := subborrow_u25 x27 x8 0x1ffffff in
  let '(x33, x32) := subborrow_u26 x30 x10 0x3ffffff in
  let '(x36, x35) := subborrow_u25 x33 x12 0x1ffffff in
  let '(x39, x38) := subborrow_u26 x36 x14 0x3ffffff in
  let '(x42, x41) := subborrow_u25 x39 x16 0x1ffffff in
  let '(x45, x44) := subborrow_u26 x42 x18 0x3ffffff in
  let '(x48, x47) := subborrow_u25 x45 x17 0x1ffffff in
  let x49 := cmovznz32 x48 0 0xffffffff in
  let x50 := Z.land x49 0x3ffffed in
  let '(x53, x52) := addcarryx_u26 0 x20 x50 in
  let x54 := Z.land x49 0x1ffffff in
  let '(x57, x56) := addcarryx_u25 x53 x23 x54 in
  let x58 := Z.land x49 0x3ffffff in
  let '(x61, x60) := addcarryx_u26 x57 x26 x58 in
  let x62 := Z.land x49 0x1ffffff in
  let '(x65, x64) := addcarryx_u25 x61 x29 x62 in
  let x66 := Z.land x49 0x3ffffff in
  let '(x69, x68) := addcarryx_u26 x65 x32 x66 in
  let x70 := Z.land x49 0x1ffffff in
  let '(x73, x72) := addcarryx_u25 x69 x35 x70 in
  let x74 := Z.land x49 0x3ffffff in
  let '(x77, x76) := addcarryx_u26 x73 x38 x74 in
  let x78 := Z.land x49 0x1ffffff in
  let '(x81, x80) := addcarryx_u25 x77 x41 x78 in
  let x82 := Z.land x49 0x3ffffff in
  let '(x85, x84) := addcarryx_u26 x81 x44 x82 in
  let x86 := Z.land x49 0x1ffffff in
  let '(_, x88) := addcarryx_u25 x85 x47 x86 in
  Fe x52 x56 x60 x64 x68 x72 x76 x80 x84 x88.
Definition fe_tobytes (f : fe) : list Z :=
  let '(Fe h0 h1 h2 h3 h4 h5 h6 h7 h8 h9) := fe_freeze f in
  [u8 (shr h0 0); u8 (shr h0 8); u8 (shr h0 16); u8 (Z.lor (shr h0 24) (h1 <<~ 2)); u8 (shr h1 6);
   u8 (shr h1 14); u8 (Z.lor (shr h1 22) (h2 <<~ 3)); u8 (shr h2 5); u8 (shr h2 13);
   u8 (Z.lor (shr h2 21) (h3 <<~ 5)); u8 (shr h3 3); u8 (shr h3 11); u8 (Z.lor (shr h3 19) (h4 <<~ 6));
   u8 (shr h4 2); u8 (shr h4 10); u8 (shr h4 18); u8 (shr h5 0); u8 (shr h5 8); u8 (shr h5 16);
   u8 (Z.lor (shr h5 24) (h6 <<~ 1)); u8 (shr h6 7); u8 (shr h6 15); u8 (Z.lor (shr h6 23) (h7 <<~ 3));
   u8 (shr h7 5); u8 (shr h7 13); u8 (Z.lor (shr h7 21) (h8 <<~ 4)); u8 (shr h8 4); u8 (shr h8 12);
   u8 (Z.lor (shr h8 20) (h9 <<~ 6)); u8 (shr h9 2); u8 (shr h9 10); u8 (shr h9 18)].
Definition fe_copy (f : fe) : fe := f.
Definition fe_copy_lt (f : fe) : fe := f.
Definition fe_0 : fe := Fe 0 0 0 0 0 0 0 0 0 0.
Definition fe_1 : fe := Fe 1 0 0 0 0 0 0 0 0 0.

(** ** Arithmetic *)

Definition fe_add_impl (in1 in2 : fe) : fe :=
  let '(Fe x5 x7 x9 x11 x13 x15 x17 x19 x21 x20) := in1 in
  let '(Fe x23 x25 x27 x29 x31 x33 x35 x37 x39 x38) := in2 in
  Fe (x5 +~ x23) (x7 +~ x25) (x9 +~ x27) (x11 +~ x29) (x13 +~ x31)
     (x15 +~ x33) (x17 +~ x35) (x19 +~ x37) (x21 +~ x39) (x20 +~ x38).
Definition fe_add (f g : fe) : fe := fe_add_impl f g.

Definition fe_sub_impl (in1 in2 : fe) : fe :=
  let '(Fe x5 x7 x9 x11 x13 x15 x17 x19 x21 x20) := in1 in
  let '(Fe x23 x25 x27 x29 x31 x33 x35 x37 x39 x38) := in2 in
  Fe (0x7ffffda +~ x5 -~ x23) (0x3fffffe +~ x7 -~ x25) (0x7fffffe +~ x9 -~ x27) (0x3fffffe +~ x11 -~ x29) (0x7fffffe +~ x13 -~ x31)
     (0x3fffffe +~ x15 -~ x33) (0x7fffffe +~ x17 -~ x35) (0x3fffffe +~ x19 -~ x37) (0x7fffffe +~ x21 -~ x39) (0x3fffffe +~ x20 -~ x38).
Definition fe_sub (f g : fe) : fe := fe_sub_impl f g.

(** The sums of products of [fe_mul_impl], with the upper ones folded into the
    lower ones by the factor 19. *)
Definition fe_mul_columns (in1 in2 : fe) : fe :=
  let '(Fe x5 x7 x9 x11 x13 x15 x17 x19 x21 x20) := in1 in
  let '(Fe x23 x25 x27 x29 x31 x33 x35 x37 x39 x38) := in2 in
  let x40 := x23 *! x5 in
  let x41 := x23 *! x7 +! x25 *! x5 in
  let x42 := 2 *~ x25 *! x7 +! x23 *! x9 +! x27 *! x5 in
  let x43 := x25 *! x9 +! x27 *! x7 +! x23 *! x11 +! x29 *! x5 in
  let x44 := x27 *! x9 +! 2 *! (x25 *! x11 +! x29 *! x7) +! x23 *! x13 +! x31 *! x5 in
  let x45 := x27 *! x11 +! x29 *! x9 +! x25 *! x13 +! x31 *! x7 +! x23 *! x15 +! x33 *! x5 in
  let x46 := 2 *! (x29 *! x11 +! x25 *! x15 +! x33 *! x7) +! x27 *! x13 +! x31 *! x9 +! x23 *! x17 +! x35 *! x5 in
  let x47 := x29 *! x13 +! x31 *! x11 +! x27 *! x15 +! x33 *! x9 +! x25 *! x17 +! x35 *! x7 +! x23 *! x19
    +! x37 *! x5 in
  let x48 := x31 *! x13 +! 2 *! (x29 *! x15 +! x33 *! x11 +! x25 *! x19 +! x37 *! x7) +! x27 *! x17 +! x35 *! x9
    +! x23 *! x21 +! x39 *! x5 in
  let x49 := x31 *! x15 +! x33 *! x13 +! x29 *! x17 +! x35 *! x11 +! x27 *! x19 +! x37 *! x9 +! x25 *! x21
    +! x39 *! x7 +! x23 *! x20 +! x38 *! x5 in
  let x50 := 2 *! (x33 *! x15 +! x29 *! x19 +! x37 *! x11 +! x25 *! x20 +! x38 *! x7) +! x31 *! x17 +! x35 *! x13
    +! x27 *! x21 +! x39 *! x9 in
  let x51 := x33 *! x17 +! x35 *! x15 +! x31 *! x19 +! x37 *! x13 +! x29 *! x21 +! x39 *! x11 +! x27 *! x20
    +! x38 *! x9 in
  let x52 := x35 *! x17 +! 2 *! (x33 *! x19 +! x37 *! x15 +! x29 *! x20 +! x38 *! x11) +! x31 *! x21 +! x39 *! x13 in
  let x53 := x35 *! x19 +! x37 *! x17 +! x33 *! x21 +! x39 *! x15 +! x31 *! x20 +! x38 *! x13 in
  let x54 := 2 *! (x37 *! x19 +! x33 *! x20 +! x38 *! x15) +! x35 *! x21 +! x39 *! x17 in
  let x55 := x37 *! x21 +! x39 *! x19 +! x35 *! x20 +! x38 *! x17 in
  let x56 := x39 *! x21 +! 2 *! (x37 *! x20 +! x38 *! x19) in
  let x57 := x39 *! x20 +! x38 *! x21 in
  let x58 := 2 *~ x38 *! x20 in
  let x59 := x48 +! x58 <<! 4 in
  let x60 := x59 +! x58 <<! 1 in
  let x61 := x60 +! x58 in
  let x62 := x47 +! x57 <<! 4 in
  let x63 := x62 +! x57 <<! 1 in
  let x64 := x63 +! x57 in
  let x65 := x46 +! x56 <<! 4 in
  let x66 := x65 +! x56 <<! 1 in
  let x67 := x66 +! x56 in
  let x68 := x45 +! x55 <<! 4 in
  let x69 := x68 +! x55 <<! 1 in
  let x70 := x69 +! x55 in
  let x71 := x44 +! x54 <<! 4 in
  let x72 := x71 +! x54 <<! 1 in
  let x73 := x72 +! x54 in
  let x74 := x43 +! x53 <<! 4 in
  let x75 := x74 +! x53 <<! 1 in
  let x76 := x75 +! x53 in
  let x77 := x42 +! x52 <<! 4 in
  let x78 := x77 +! x52 <<! 1 in
  let x79 := x78 +! x52 in
  let x80 := x41 +! x51 <<! 4 in
  let x81 := x80 +! x51 <<! 1 in
  let x82 := x81 +! x51 in
  let x83 := x40 +! x50 <<! 4 in
  let x84 := x83 +! x50 <<! 1 in
  let x85 := x84 +! x50 in
  Fe x85 x82 x79 x76 x73 x70 x67 x64 x61 x49.
(** The carries of [fe_mul_impl]; those of [fe_sqr_impl] and
    [fe_mul_121666_impl] are the same. *)
Definition fe_carry (columns : fe) : fe :=
  let '(Fe x85 x82 x79 x76 x73 x70 x67 x64 x61 x49) := columns in
  let x86 := shr x85 26 in
  let x87 := Z.land (u32 x85) 0x3ffffff in
  let x88 := x86 +! x82 in
  let x89 := shr x88 25 in
  let x90 := Z.land (u32 x88) 0x1ffffff in
  let x91 := x89 +! x79 in
  let x92 := shr x91 26 in
  let x93 := Z.land (u32 x91) 0x3ffffff in
  let x94 := x92 +! x76 in
  let x95 := shr x94 25 in
  let x96 := Z.land (u32 x94) 0x1ffffff in
  let x97 := x95 +! x73 in
  let x98 := shr x97 26 in
  let x99 := Z.land (u32 x97) 0x3ffffff in
  let x100 := x98 +! x70 in
  let x101 := shr x100 25 in
  let x102 := Z.land (u32 x100) 0x1ffffff in
  let x103 := x101 +! x67 in
  let x104 := shr x103 26 in
  let x105 := Z.land (u32 x103) 0x3ffffff in
  let x106 := x104 +! x64 in
  let x107 := shr x106 25 in
  let x108 := Z.land (u32 x106) 0x1ffffff in
  let x109 := x107 +! x61 in
  let x110 := shr x109 26 in
  let x111 := Z.land (u32 x109) 0x3ffffff in
  let x112 := x110 +! x49 in
  let x113 := shr x112 25 in
  let x114 := Z.land (u32 x112) 0x1ffffff in
  let x115 := x87 +! 19 *! x113 in
  let x116 := u32 (shr x115 26) in
  let x117 := Z.land (u32 x115) 0x3ffffff in
  let x118 := x116 +~ x90 in
  let x119 := shr x118 25 in
  let x120 := Z.land x118 0x1ffffff in
  Fe x117 x120 (x119 +~ x93) x96 x99 x102 x105 x108 x111 x114.
Definition fe_mul_impl (in1 in2 : fe) : fe := fe_carry (fe_mul_columns in1 in2).
Definition fe_mul_ttt (f g : fe) : fe := fe_mul_impl f g.
Definition fe_mul_tlt (f g : fe) : fe := fe_mul_impl f g.
Definition fe_mul_tll (f g : fe) : fe := fe_mul_impl f g.

Definition fe_sqr_columns (in1 : fe) : fe :=
  let '(Fe x2 x4 x6 x8 x10 x12 x14 x16 x18 x17) := in1 in
  let x19 := x2 *! x2 in
  let x20 := 2 *~ x2 *! x4 in
  let x21 := 2 *! (x4 *! x4 +! x2 *! x6) in
  let x22 := 2 *! (x4 *! x6 +! x2 *! x8) in
  let x23 := x6 *! x6 +! 4 *~ x4 *! x8 +! 2 *~ x2 *! x10 in
  let x24 := 2 *! (x6 *! x8 +! x4 *! x10 +! x2 *! x12) in
  let x25 := 2 *! (x8 *! x8 +! x6 *! x10 +! x2 *! x14 +! 2 *~ x4 *! x12) in
  let x26 := 2 *! (x8 *! x10 +! x6 *! x12 +! x4 *! x14 +! x2 *! x16) in
  let x27 := x10 *! x10 +! 2 *! (x6 *! x14 +! x2 *! x18 +! 2 *! (x4 *! x16 +! x8 *! x12)) in
  let x28 := 2 *! (x10 *! x12 +! x8 *! x14 +! x6 *! x16 +! x4 *! x18 +! x2 *! x17) in
  let x29 := 2 *! (x12 *! x12 +! x10 *! x14 +! x6 *! x18 +! 2 *! (x8 *! x16 +! x4 *! x17)) in
  let x30 := 2 *! (x12 *! x14 +! x10 *! x16 +! x8 *! x18 +! x6 *! x17) in
  let x31 := x14 *! x14 +! 2 *! (x10 *! x18 +! 2 *! (x12 *! x16 +! x8 *! x17)) in
  let x32 := 2 *! (x14 *! x16 +! x12 *! x18 +! x10 *! x17) in
  let x33 := 2 *! (x16 *! x16 +! x14 *! x18 +! 2 *~ x12 *! x17) in
  let x34 := 2 *! (x16 *! x18 +! x14 *! x17) in
  let x35 := x18 *! x18 +! 4 *~ x16 *! x17 in
  let x36 := 2 *~ x18 *! x17 in
  let x37 := 2 *~ x17 *! x17 in
  let x38 := x27 +! x37 <<! 4 in
  let x39 := x38 +! x37 <<! 1 in
  let x40 := x39 +! x37 in
  let x41 := x26 +! x36 <<! 4 in
  let x42 := x41 +! x36 <<! 1 in
  let x43 := x42 +! x36 in
  let x44 := x25 +! x35 <<! 4 in
  let x45 := x44 +! x35 <<! 1 in
  let x46 := x45 +! x35 in
  let x47 := x24 +! x34 <<! 4 in
  let x48 := x47 +! x34 <<! 1 in
  let x49 := x48 +! x34 in
  let x50 := x23 +! x33 <<! 4 in
  let x51 := x50 +! x33 <<! 1 in
  let x52 := x51 +! x33 in
  let x53 := x22 +! x32 <<! 4 in
  let x54 := x53 +! x32 <<! 1 in
  let x55 := x54 +! x32 in
  let x56 := x21 +! x31 <<! 4 in
  let x57 := x56 +! x31 <<! 1 in
  let x58 := x57 +! x31 in
  let x59 := x20 +! x30 <<! 4 in
  let x60 := x59 +! x30 <<! 1 in
  let x61 := x60 +! x30 in
  let x62 := x19 +! x29 <<! 4 in
  let x63 := x62 +! x29 <<! 1 in
  let x64 := x63 +! x29 in
  Fe x64 x61 x58 x55 x52 x49 x46 x43 x40 x28.
Definition fe_sqr_impl (in1 : fe) : fe := fe_carry (fe_sqr_columns in1).
Definition fe_sq_tl (f : fe) : fe := fe_sqr_impl f.
Definition fe_sq_tt (f : fe) : fe := fe_sqr_impl f.

(** [for (i = 1; i < n; ++i) fe_sq_tt(&t, &t)] *)
Definition fe_sq_loop (n : nat) (t : fe) : fe := Nat.iter (n - 1) fe_sq_tt t.

Definition fe_loose_invert (z : fe) : fe :=
  let t0 := fe_sq_tl z in
  let t1 := fe_sq_tt t0 in
  let t1 := fe_sq_loop 2 t1 in
  let t1 := fe_mul_tlt z t1 in
  let t0 := fe_mul_ttt t0 t1 in
  let t2 := fe_sq_tt t0 in
  let t1 := fe_mul_ttt t1 t2 in
  let t2 := fe_sq_tt t1 in
  let t2 := fe_sq_loop 5 t2 in
  let t1 := fe_mul_ttt t2 t1 in
  let t2 := fe_sq_tt t1 in
  let t2 := fe_sq_loop 10 t2 in
  let t2 := fe_mul_ttt t2 t1 in
  let t3 := fe_sq_tt t2 in
  let t3 := fe_sq_loop 20 t3 in
  let t2 := fe_mul_ttt t3 t2 in
  let t2 := fe_sq_tt t2 in
  let t2 := fe_sq_loop 10 t2 in
  let t1 := fe_mul_ttt t2 t1 in
  let t2 := fe_sq_tt t1 in
  let t2 := fe_sq_loop 50 t2 in
  let t2 := fe_mul_ttt t2 t1 in
  let t3 := fe_sq_tt t2 in
  let t3 := fe_sq_loop 100 t3 in
  let t2 := fe_mul_ttt t3 t2 in
  let t2 := fe_sq_tt t2 in
  let t2 := fe_sq_loop 50 t2 in
  let t1 := fe_mul_ttt t2 t1 in
  let t1 := fe_sq_tt t1 in
  let t1 := fe_sq_loop 5 t1 in
  fe_mul_ttt t1 t0.

Definition fe_invert (z : fe) : fe :=
  let l := fe_copy_lt z in
  fe_loose_invert l.

(** The body of the loop of [fe_cswap], for one index. *)
Definition fe_cswap_step (fi gi b : Z) : Z * Z :=
  let x := Z.lxor fi gi in
  let x := Z.land x b in
  (Z.lxor fi x, Z.lxor gi x).
Definition fe_cswap (f g : fe) (b : Z) : fe * fe :=
  let b := u32 (0 - b) in
  let '(Fe f0 f1 f2 f3 f4 f5 f6 f7 f8 f9) := f in
  let '(Fe g0 g1 g2 g3 g4 g5 g6 g7 g8 g9) := g in
  let '(f0, g0) := fe_cswap_step f0 g0 b in
  let '(f1, g1) := fe_cswap_step f1 g1 b in
  let '(f2, g2) := fe_cswap_step f2 g2 b in
  let '(f3, g3) := fe_cswap_step f3 g3 b in
  let '(f4, g4) := fe_cswap_step f4 g4 b in
  let '(f5, g5) := fe_cswap_step f5 g5 b in
  let '(f6, g6) := fe_cswap_step f6 g6 b in
  let '(f7, g7) := fe_cswap_step f7 g7 b in
  let '(f8, g8) := fe_cswap_step f8 g8 b in
  let '(f9, g9) := fe_cswap_step f9 g9 b in
  (Fe f0 f1 f2 f3 f4 f5 f6 f7 f8 f9, Fe g0 g1 g2 g3 g4 g5 g6 g7 g8 g9).

(** After the constants [x38 ... x23] the text of [fe_mul_121666_impl] is that of
    [fe_mul_impl]. *)
Definition fe_mul_121666_impl (in1 : fe) : fe := fe_mul_impl in1 (Fe 121666 0 0 0 0 0 0 0 0 0).
Definition fe_mul121666 (f : fe) : fe := fe_mul_121666_impl f.

(** ** The ladder *)

(** The variables of [curve25519_generic] that live across iterations. *)
Record vars := { x2 : fe; z2 : fe; x3 : fe; z3 : fe; swap : Z }.

(** An iteration, for the bit [pos] of [e]. *)
Definition ladder_body (x1 : fe) (e : list Z) (pos : Z) (s : vars) : vars :=
  let b := Z.land 1 (shr (nth (Z.to_nat (pos / 8)) e 0) (Z.land pos 7)) in
  let swap := Z.lxor (swap s) b in
  let '(x2, x3) := fe_cswap (x2 s) (x3 s) swap in
  let '(z2, z3) := fe_cswap (z2 s) (z3 s) swap in
  let swap := b in
  let tmp0l := fe_sub x3 z3 in
  let tmp1l := fe_sub x2 z2 in
  let x2l := fe_add x2 z2 in
  let z2l := fe_add x3 z3 in
  let z3 := fe_mul_tll tmp0l x2l in
  let z2 := fe_mul_tll z2l tmp1l in
  let tmp0 := fe_sq_tl tmp1l in
  let tmp1 := fe_sq_tl x2l in
  let x3l := fe_add z3 z2 in
  let z2l := fe_sub z3 z2 in
  let x2 := fe_mul_ttt tmp1 tmp0 in
  let tmp1l := fe_sub tmp1 tmp0 in
  let z2 := fe_sq_tl z2l in
  let z3 := fe_mul121666 tmp1l in
  let x3 := fe_sq_tl x3l in
  let tmp0l := fe_add tmp0 z3 in
  let z3 := fe_mul_ttt x1 z2 in
  let z2 := fe_mul_tll tmp1l tmp0l in
  {| x2 := x2; z2 := z2; x3 := x3; z3 := z3; swap := swap |}.

(** [for (pos = n - 1; pos >= 0; --pos)] *)
Fixpoint ladder_loop (x1 : fe) (e : list Z) (n : nat) (s : vars) : vars :=
  match n with
  | O => s
  | S pos => ladder_loop x1 e pos (ladder_body x1 e (Z.of_nat pos) s)
  end.

Definition curve25519_generic (scalar point : list Z) : list Z :=
  let e := curve25519_clamp_secret scalar in
  let x1 := fe_frombytes point in
  let s := ladder_loop x1 e 255 {| x2 := fe_1; z2 := fe_0; x3 := fe_copy x1; z3 := fe_1; swap := 0 |} in
  let '(x2, x3) := fe_cswap (x2 s) (x3 s) (swap s) in
  let '(z2, z3) := fe_cswap (z2 s) (z3 s) (swap s) in
  let z2 := fe_invert z2 in
  let x2 := fe_mul_ttt x2 z2 in
  fe_tobytes x2.
End Fiat32.
