(* ===== verification/Fiat32Facts.v ===== *)
(** * The field of the 32-bit implementation (src/curve25519-fiat32.h)

    No operation of the field overflows its words, and each is the operation
    modulo 2^255 - 19 on the numbers its limbs stand for. *)
From S2P Require Import Prelude Encoding Wg Prime25519 X25519 FieldRep Fiat32.
Import Encoding Wg Fiat32.

Module Fiat32Facts.

(** ** Words *)

Lemma fe_shr_div z n : 0 <= n -> shr z n = z / 2 ^ n.
Proof. intros. by apply Z.shiftr_div_pow2. Qed.
Lemma land_low z n : 0 <= n -> Z.land z (low n) = z mod 2 ^ n.
Proof. intros. unfold low. rewrite Z.shiftl_1_l. change (2 ^ n - 1) with (Z.pred (2 ^ n)). rewrite <- Z.ones_equiv. by apply Z.land_ones. Qed.
Lemma land_low26 z : Z.land z 0x3ffffff = z mod 2 ^ 26.
Proof. by apply (land_low z 26). Qed.
Lemma land_low25 z : Z.land z 0x1ffffff = z mod 2 ^ 25.
Proof. by apply (land_low z 25). Qed.
Lemma u32_low26 z : Z.land (u32 z) 0x3ffffff = z mod 2 ^ 26.
Proof. rewrite land_low26. apply Z.mod_mod_divide. by exists (2 ^ 6). Qed.
Lemma u32_low25 z : Z.land (u32 z) 0x1ffffff = z mod 2 ^ 25.
Proof. rewrite land_low25. apply Z.mod_mod_divide. by exists (2 ^ 7). Qed.

(** Equality of 64-bit words. Sums, products and left shifts respect it, so the
    wraps inside a polynomial can be dropped. *)
Definition eq64 (a b : Z) : Prop := u64 a = u64 b.
Lemma eq64_refl a : eq64 a a.
Proof. done. Qed.
Lemma eq64_wrap a b : eq64 a b -> eq64 (u64 a) b.
Proof. unfold eq64, u64. by rewrite Zmod_mod. Qed.
Lemma eq64_add a a' b b' : eq64 a a' -> eq64 b b' -> eq64 (a + b) (a' + b').
Proof. unfold eq64, u64. intros Ha Hb. by rewrite Zplus_mod, Ha, Hb, <- Zplus_mod. Qed.
Lemma eq64_mul a a' b b' : eq64 a a' -> eq64 b b' -> eq64 (a * b) (a' * b').
Proof. unfold eq64, u64. intros Ha Hb. by rewrite Zmult_mod, Ha, Hb, <- Zmult_mod. Qed.
Lemma eq64_shiftl a a' n : 0 <= n -> eq64 a a' -> eq64 (Z.shiftl a n) (a' * 2 ^ n).
Proof. intros Hn Ha. rewrite Z.shiftl_mul_pow2 by done. by apply eq64_mul. Qed.
Ltac eq64_solve := repeat lazymatch goal with
  | |- eq64 (u64 _) _ => apply eq64_wrap
  | |- eq64 (_ + _) _ => apply eq64_add
  | |- eq64 (_ * _) _ => apply eq64_mul
  | |- eq64 (Z.shiftl _ _) _ => apply eq64_shiftl; [lia|]
  | |- eq64 _ _ => apply eq64_refl
  end.
Lemma word_is a e q : eq64 a e -> e = q -> 0 <= q < 2 ^ 64 -> u64 a = q.
Proof. intros Ha -> Hq. unfold eq64 in Ha. rewrite Ha. by apply u64_small. Qed.

(** ** Field elements *)

Definition eval (f : fe) : Z :=
  let '(Fe a0 a1 a2 a3 a4 a5 a6 a7 a8 a9) := f in
  a0 + 2 ^ 26 * a1 + 2 ^ 51 * a2 + 2 ^ 77 * a3 + 2 ^ 102 * a4 + 2 ^ 128 * a5 + 2 ^ 153 * a6 + 2 ^ 179 * a7 +
  2 ^ 204 * a8 + 2 ^ 230 * a9.
Definition val (f : fe) : Z := eval f mod X25519.p.

(** Limbs up to a bound, twice the bound for those of 26 bits. *)
Definition upto (b : Z) (f : fe) : Prop :=
  let '(Fe a0 a1 a2 a3 a4 a5 a6 a7 a8 a9) := f in
  0 <= a0 <= 2 * b /\ 0 <= a1 <= b /\ 0 <= a2 <= 2 * b /\ 0 <= a3 <= b /\ 0 <= a4 <= 2 * b /\ 0 <= a5 <= b /\
  0 <= a6 <= 2 * b /\ 0 <= a7 <= b /\ 0 <= a8 <= 2 * b /\ 0 <= a9 <= b.
(** The bounds of [fe] and of [fe_loose]: 1.125 and 3.375 times 2^25. *)
Definition tight : Z := 9 * 2 ^ 22.
Definition loose : Z := 27 * 2 ^ 22.

Lemma tight_loose f : upto tight f -> upto loose f.
Proof. destruct f. unfold upto, tight, loose. lia. Qed.

Lemma fe_val_eq a b k : eval a = b - k * X25519.p -> val a = b mod X25519.p.
Proof. intros E. unfold val. rewrite E. replace (b - k * X25519.p) with (b + (- k) * X25519.p) by ring. apply Z.mod_add. done. Qed.

(** ** Sums and differences *)

Lemma fe_add_spec a b : upto tight a -> upto tight b ->
  upto loose (fe_add a b) /\ val (fe_add a b) = X25519.fadd (val a) (val b).
Proof.
  destruct a, b. unfold upto, tight, loose, fe_add, fe_add_impl. intros Ha Hb.
  rewrite !u32_small by lia. split; [lia|]. unfold X25519.fadd, val. rewrite <- Zplus_mod. f_equal. unfold eval. ring.
Qed.

Lemma fe_sub_spec a b : upto tight a -> upto tight b ->
  upto loose (fe_sub a b) /\ val (fe_sub a b) = X25519.fsub (val a) (val b).
Proof.
  destruct a, b. unfold upto, tight, loose, fe_sub, fe_sub_impl. intros Ha Hb.
  rewrite !u32_small by (rewrite ?u32_small; lia). split; [lia|].
  unfold X25519.fsub. unfold val at 2 3. rewrite <- Zminus_mod.
  match goal with |- val ?x = _ => apply (fe_val_eq x _ (-2)) end.
  unfold eval. change X25519.p with (2 ^ 255 - 19). ring.
Qed.

(** ** Products *)

(** The product as ten sums, before carries. *)
Definition product10 (a b : fe) : fe :=
  let '(Fe a0 a1 a2 a3 a4 a5 a6 a7 a8 a9) := a in
  let '(Fe b0 b1 b2 b3 b4 b5 b6 b7 b8 b9) := b in
  Fe (1 * (a0 * b0) + 38 * (a1 * b9) + 19 * (a2 * b8) + 38 * (a3 * b7) + 19 * (a4 * b6) + 38 * (a5 * b5) + 19 * (a6 * b4) + 38 * (a7 * b3) + 19 * (a8 * b2) + 38 * (a9 * b1))
     (1 * (a0 * b1) + 1 * (a1 * b0) + 19 * (a2 * b9) + 19 * (a3 * b8) + 19 * (a4 * b7) + 19 * (a5 * b6) + 19 * (a6 * b5) + 19 * (a7 * b4) + 19 * (a8 * b3) + 19 * (a9 * b2))
     (1 * (a0 * b2) + 2 * (a1 * b1) + 1 * (a2 * b0) + 38 * (a3 * b9) + 19 * (a4 * b8) + 38 * (a5 * b7) + 19 * (a6 * b6) + 38 * (a7 * b5) + 19 * (a8 * b4) + 38 * (a9 * b3))
     (1 * (a0 * b3) + 1 * (a1 * b2) + 1 * (a2 * b1) + 1 * (a3 * b0) + 19 * (a4 * b9) + 19 * (a5 * b8) + 19 * (a6 * b7) + 19 * (a7 * b6) + 19 * (a8 * b5) + 19 * (a9 * b4))
     (1 * (a0 * b4) + 2 * (a1 * b3) + 1 * (a2 * b2) + 2 * (a3 * b1) + 1 * (a4 * b0) + 38 * (a5 * b9) + 19 * (a6 * b8) + 38 * (a7 * b7) + 19 * (a8 * b6) + 38 * (a9 * b5))
     (1 * (a0 * b5) + 1 * (a1 * b4) + 1 * (a2 * b3) + 1 * (a3 * b2) + 1 * (a4 * b1) + 1 * (a5 * b0) + 19 * (a6 * b9) + 19 * (a7 * b8) + 19 * (a8 * b7) + 19 * (a9 * b6))
     (1 * (a0 * b6) + 2 * (a1 * b5) + 1 * (a2 * b4) + 2 * (a3 * b3) + 1 * (a4 * b2) + 2 * (a5 * b1) + 1 * (a6 * b0) + 38 * (a7 * b9) + 19 * (a8 * b8) + 38 * (a9 * b7))
     (1 * (a0 * b7) + 1 * (a1 * b6) + 1 * (a2 * b5) + 1 * (a3 * b4) + 1 * (a4 * b3) + 1 * (a5 * b2) + 1 * (a6 * b1) + 1 * (a7 * b0) + 19 * (a8 * b9) + 19 * (a9 * b8))
     (1 * (a0 * b8) + 2 * (a1 * b7) + 1 * (a2 * b6) + 2 * (a3 * b5) + 1 * (a4 * b4) + 2 * (a5 * b3) + 1 * (a6 * b2) + 2 * (a7 * b1) + 1 * (a8 * b0) + 38 * (a9 * b9))
     (1 * (a0 * b9) + 1 * (a1 * b8) + 1 * (a2 * b7) + 1 * (a3 * b6) + 1 * (a4 * b5) + 1 * (a5 * b4) + 1 * (a6 * b3) + 1 * (a7 * b2) + 1 * (a8 * b1) + 1 * (a9 * b0)).

(** No sum exceeds this bound. *)
Definition term_max : Z := 76 * (loose * loose).
Definition column_max : Z := 10 * term_max.

Lemma term_le c a b ba bb : 0 <= a <= ba -> 0 <= b <= bb -> 0 <= c -> c * (ba * bb) <= term_max -> 0 <= c * (a * b) <= term_max.
Proof. intros Ha Hb Hc HM. assert (0 <= a * b <= ba * bb) by nia. nia. Qed.
Lemma sum10 m q0 q1 q2 q3 q4 q5 q6 q7 q8 q9 : 0 <= q0 <= m -> 0 <= q1 <= m -> 0 <= q2 <= m -> 0 <= q3 <= m ->
  0 <= q4 <= m -> 0 <= q5 <= m -> 0 <= q6 <= m -> 0 <= q7 <= m -> 0 <= q8 <= m -> 0 <= q9 <= m ->
  0 <= q0 + q1 + q2 + q3 + q4 + q5 + q6 + q7 + q8 + q9 <= 10 * m.
Proof. lia. Qed.

(** Ten words up to a bound. *)
Definition words (m : Z) (f : fe) : Prop :=
  let '(Fe a0 a1 a2 a3 a4 a5 a6 a7 a8 a9) := f in
  0 <= a0 <= m /\ 0 <= a1 <= m /\ 0 <= a2 <= m /\ 0 <= a3 <= m /\ 0 <= a4 <= m /\ 0 <= a5 <= m /\
  0 <= a6 <= m /\ 0 <= a7 <= m /\ 0 <= a8 <= m /\ 0 <= a9 <= m.

Lemma product10_words a b : upto loose a -> upto loose b -> words column_max (product10 a b).
Proof.
  destruct a as [a0 a1 a2 a3 a4 a5 a6 a7 a8 a9], b as [b0 b1 b2 b3 b4 b5 b6 b7 b8 b9].
  intros (A0 & A1 & A2 & A3 & A4 & A5 & A6 & A7 & A8 & A9) (B0 & B1 & B2 & B3 & B4 & B5 & B6 & B7 & B8 & B9).
  unfold words, product10, column_max.
  repeat (split; [apply sum10; (eapply term_le; [eassumption|eassumption|done|by vm_compute])|]).
  apply sum10; (eapply term_le; [eassumption|eassumption|done|by vm_compute]).
Qed.

(** Modulo p it is the product. *)
Lemma product10_eval a b : exists k, eval (product10 a b) = eval a * eval b - k * X25519.p.
Proof.
  destruct a as [a0 a1 a2 a3 a4 a5 a6 a7 a8 a9], b as [b0 b1 b2 b3 b4 b5 b6 b7 b8 b9]. change X25519.p with (2 ^ 255 - 19).
  exists ((2 * (a1 * b9) + a2 * b8 + 2 * (a3 * b7) + a4 * b6 + 2 * (a5 * b5) + a6 * b4 + 2 * (a7 * b3) + a8 * b2 + 2 * (a9 * b1)) +
    2 ^ 26 * (a2 * b9 + a3 * b8 + a4 * b7 + a5 * b6 + a6 * b5 + a7 * b4 + a8 * b3 + a9 * b2) +
    2 ^ 51 * (2 * (a3 * b9) + a4 * b8 + 2 * (a5 * b7) + a6 * b6 + 2 * (a7 * b5) + a8 * b4 + 2 * (a9 * b3)) +
    2 ^ 77 * (a4 * b9 + a5 * b8 + a6 * b7 + a7 * b6 + a8 * b5 + a9 * b4) +
    2 ^ 102 * (2 * (a5 * b9) + a6 * b8 + 2 * (a7 * b7) + a8 * b6 + 2 * (a9 * b5)) +
    2 ^ 128 * (a6 * b9 + a7 * b8 + a8 * b7 + a9 * b6) +
    2 ^ 153 * (2 * (a7 * b9) + a8 * b8 + 2 * (a9 * b7)) + 2 ^ 179 * (a8 * b9 + a9 * b8) + 2 ^ 204 * (2 * (a9 * b9))).
  unfold eval, product10. ring.
Qed.

(** One sum: the wraps are dropped, what remains is the sum of the product. *)
Ltac column HM W := eapply word_is; [eq64_solve|ring|split; [apply W|eapply Z.le_lt_trans; [apply W|exact HM]]].
Lemma column_fits : column_max < 2 ^ 64.
Proof. reflexivity. Qed.
Lemma fe_eq a0 a1 a2 a3 a4 a5 a6 a7 a8 a9 b0 b1 b2 b3 b4 b5 b6 b7 b8 b9 :
  a0 = b0 -> a1 = b1 -> a2 = b2 -> a3 = b3 -> a4 = b4 -> a5 = b5 -> a6 = b6 -> a7 = b7 -> a8 = b8 -> a9 = b9 ->
  Fe a0 a1 a2 a3 a4 a5 a6 a7 a8 a9 = Fe b0 b1 b2 b3 b4 b5 b6 b7 b8 b9.
Proof. by intros -> -> -> -> -> -> -> -> -> ->. Qed.

Lemma mul_columns_spec a b : upto loose a -> upto loose b -> fe_mul_columns a b = product10 a b.
Proof.
  intros Ha Hb. pose proof (product10_words a b Ha Hb) as W. revert Ha Hb W.
  destruct a as [a0 a1 a2 a3 a4 a5 a6 a7 a8 a9], b as [b0 b1 b2 b3 b4 b5 b6 b7 b8 b9].
  intros (A0 & A1 & A2 & A3 & A4 & A5 & A6 & A7 & A8 & A9) (B0 & B1 & B2 & B3 & B4 & B5 & B6 & B7 & B8 & B9).
  unfold product10, words. intros (W0 & W1 & W2 & W3 & W4 & W5 & W6 & W7 & W8 & W9).
  unfold fe_mul_columns. rewrite !(u32_small (2 * _)) by (unfold loose in *; lia). pose proof column_fits as HM.
  apply fe_eq; [column HM W0|column HM W1|column HM W2|column HM W3|column HM W4|column HM W5|column HM W6
               |column HM W7|column HM W8|column HM W9].
Qed.

(** The sums of a square are those of the product of a number with itself. *)
Lemma sqr_columns_spec a : upto loose a -> fe_sqr_columns a = product10 a a.
Proof.
  intros Ha. pose proof (product10_words a a Ha Ha) as W. revert Ha W. destruct a as [a0 a1 a2 a3 a4 a5 a6 a7 a8 a9].
  intros (A0 & A1 & A2 & A3 & A4 & A5 & A6 & A7 & A8 & A9).
  unfold product10, words. intros (W0 & W1 & W2 & W3 & W4 & W5 & W6 & W7 & W8 & W9).
  unfold fe_sqr_columns. rewrite !(u32_small (2 * _)), !(u32_small (4 * _)) by (unfold loose in *; lia).
  pose proof column_fits as HM.
  apply fe_eq; [column HM W0|column HM W1|column HM W2|column HM W3|column HM W4|column HM W5|column HM W6
               |column HM W7|column HM W8|column HM W9].
Qed.

(** ** Carries *)

(** One carry of the chain: the sum [t] with the carry [c] gives a limb of [n] bits
    and the next carry. *)
Lemma carry_spec t c n : 0 <= t <= column_max -> 0 <= c <= 2 ^ 39 -> 25 <= n -> exists r c',
  u64 (c + t) mod 2 ^ n = r /\ u64 (c + t) / 2 ^ n = c' /\ t + c = r + 2 ^ n * c' /\ 0 <= r < 2 ^ n /\ 0 <= c' <= 2 ^ 39.
Proof.
  intros Ht Hc Hn. assert (HM : column_max + 2 ^ 39 < 2 ^ 64) by by vm_compute.
  rewrite u64_small by lia. destruct (X25519.split_bits (c + t) n) as (r & c' & E1 & E2 & E & Hr); [lia|].
  exists r, c'. split; [done|]. split; [done|]. split; [lia|]. split; [done|]. rewrite <- E2. split; [apply Z.div_pos; lia|].
  apply Z.div_le_upper_bound; [lia|]. assert (2 ^ 25 <= 2 ^ n) by (apply Z.pow_le_mono_r; lia). nia.
Qed.

Lemma fe_carry_spec t : words column_max t ->
  upto tight (fe_carry t) /\ exists k, eval (fe_carry t) = eval t - k * X25519.p.
Proof.
  destruct t as [t0 t1 t2 t3 t4 t5 t6 t7 t8 t9]. intros (T0 & T1 & T2 & T3 & T4 & T5 & T6 & T7 & T8 & T9).
  unfold fe_carry. rewrite !u32_low26, !u32_low25, !fe_shr_div by lia.
  destruct (X25519.split_bits t0 26) as (r0 & c0 & -> & -> & V0 & R0); [lia|].
  assert (C0 : 0 <= c0 <= 2 ^ 39) by (pose proof column_fits; lia).
  destruct (carry_spec t1 c0 25 T1) as (r1 & c1 & -> & -> & V1 & R1 & C1); [lia..|].
  destruct (carry_spec t2 c1 26 T2) as (r2 & c2 & -> & -> & V2 & R2 & C2); [lia..|].
  destruct (carry_spec t3 c2 25 T3) as (r3 & c3 & -> & -> & V3 & R3 & C3); [lia..|].
  destruct (carry_spec t4 c3 26 T4) as (r4 & c4 & -> & -> & V4 & R4 & C4); [lia..|].
  destruct (carry_spec t5 c4 25 T5) as (r5 & c5 & -> & -> & V5 & R5 & C5); [lia..|].
  destruct (carry_spec t6 c5 26 T6) as (r6 & c6 & -> & -> & V6 & R6 & C6); [lia..|].
  destruct (carry_spec t7 c6 25 T7) as (r7 & c7 & -> & -> & V7 & R7 & C7); [lia..|].
  destruct (carry_spec t8 c7 26 T8) as (r8 & c8 & -> & -> & V8 & R8 & C8); [lia..|].
  destruct (carry_spec t9 c8 25 T9) as (r9 & c9 & -> & -> & V9 & R9 & C9); [lia..|].
  rewrite (u64_small (19 * c9)), (u64_small (r0 + _)) by lia.
  destruct (X25519.split_bits (r0 + 19 * c9) 26) as (q0 & d0 & -> & -> & W0 & Q0); [lia|].
  rewrite (u32_small d0), (u32_small (d0 + r1)) by lia.
  destruct (X25519.split_bits (d0 + r1) 25) as (q1 & d1 & -> & -> & W1 & Q1); [lia|].
  rewrite u32_small by lia. split; [unfold upto, tight; lia|].
  exists c9. unfold eval. change X25519.p with (2 ^ 255 - 19). lia.
Qed.

(** ** The field *)

Lemma carried_spec a b : upto loose a -> upto loose b ->
  upto tight (fe_carry (product10 a b)) /\ val (fe_carry (product10 a b)) = X25519.fmul (val a) (val b).
Proof.
  intros Ha Hb. destruct (fe_carry_spec _ (product10_words a b Ha Hb)) as [Ht [k E]]. split; [done|].
  destruct (product10_eval a b) as [k' E']. unfold X25519.fmul, val at 2 3. rewrite <- Zmult_mod.
  apply fe_val_eq with (k + k'). rewrite E, E'. ring.
Qed.
Lemma fe_mul_spec a b : upto loose a -> upto loose b ->
  upto tight (fe_mul_impl a b) /\ val (fe_mul_impl a b) = X25519.fmul (val a) (val b).
Proof. intros Ha Hb. unfold fe_mul_impl. rewrite mul_columns_spec by done. by apply carried_spec. Qed.
Lemma fe_sqr_spec a : upto loose a ->
  upto tight (fe_sqr_impl a) /\ val (fe_sqr_impl a) = X25519.fsqr (val a).
Proof. intros Ha. unfold fe_sqr_impl. rewrite sqr_columns_spec by done. by apply carried_spec. Qed.
Lemma fe_mul121666_spec a : upto loose a ->
  upto tight (fe_mul121666 a) /\ val (fe_mul121666 a) = X25519.fmul (val a) 121666.
Proof. intros Ha. apply (fe_mul_spec a (Fe 121666 0 0 0 0 0 0 0 0 0) Ha). by vm_compute. Qed.

#[export] Instance fiat32_rep : FieldRep.FieldRep val (upto tight) fe_mul_impl fe_sqr_impl.
Proof.
  split; [|intros a Ha; by apply fe_sqr_spec, tight_loose|intros a; apply Zmod_mod].
  intros a b Ha Hb. apply fe_mul_spec; by apply tight_loose.
Qed.

Lemma fe_invert_spec z : upto tight z -> FieldRep.power val (upto tight) (val z) (X25519.p - 2) (fe_invert z).
Proof.
  intros Hz. cbv beta delta [fe_invert fe_loose_invert fe_sq_loop fe_sq_tl fe_sq_tt fe_mul_tlt fe_mul_ttt fe_copy_lt].
  pose proof (FieldRep.power_one z Hz) as Hz1.
  power_let 1. power_let 2. power_let 4. power_let 8. power_let 9. power_let 11. power_let 22. power_let (2 ^ 5 - 1).
  power_let (2 ^ 6 - 2). power_let (2 ^ 10 - 2 ^ 5). power_let (2 ^ 10 - 1). power_let (2 ^ 11 - 2).
  power_let (2 ^ 20 - 2 ^ 10). power_let (2 ^ 20 - 1). power_let (2 ^ 21 - 2).
  power_let (2 ^ 40 - 2 ^ 20). power_let (2 ^ 40 - 1). power_let (2 ^ 41 - 2). power_let (2 ^ 50 - 2 ^ 10).
  power_let (2 ^ 50 - 1). power_let (2 ^ 51 - 2). power_let (2 ^ 100 - 2 ^ 50). power_let (2 ^ 100 - 1).
  power_let (2 ^ 101 - 2). power_let (2 ^ 200 - 2 ^ 100). power_let (2 ^ 200 - 1). power_let (2 ^ 201 - 2).
  power_let (2 ^ 250 - 2 ^ 50). power_let (2 ^ 250 - 1). power_let (2 ^ 251 - 2). power_let (2 ^ 255 - 2 ^ 5).
  power_solve.
Qed.
End Fiat32Facts.
