(* ===== verification/Fiat32Bytes.v ===== *)
(** * Bytes of the 32-bit implementation (src/curve25519-fiat32.h)

    Reading 32 bytes into limbs, the final reduction modulo 2^255 - 19, and
    writing the limbs as 32 bytes. *)
From S2P Require Import Prelude Encoding Wg Prime25519 X25519 Fiat32 Fiat32Facts.
Import Encoding Wg Fiat32 Fiat32Facts.

Module Fiat32Bytes.

(** ** Reading bytes *)

Lemma lor_shift t h k : 0 <= k -> 0 <= t < 2 ^ k -> 0 <= h -> 2 ^ k * h < 2 ^ 32 -> Z.lor t (u32 (Z.shiftl h k)) = t + 2 ^ k * h.
Proof.
  intros Hk Ht Hh HM. rewrite Z.shiftl_mul_pow2, (Z.mul_comm h), u32_small, Z.lor_comm by lia. by apply X25519.lor_above.
Qed.

(** Four bytes of a number. *)
Lemma word_spec k l : wf_key l -> (k <= 28)%nat -> exists a,
  get_unaligned_le32 (drop k l) = a /\ 0 <= a < 2 ^ 32 /\ le_number (drop k l) = a + 2 ^ 32 * le_number (drop (4 + k) l).
Proof.
  intros [Hl Hb] Hk. unfold WG_KEY_LEN in Hl. eexists. split; [reflexivity|]. unfold get_unaligned_le32.
  assert (Hlen : length (take 4 (drop k l)) = 4%nat) by (rewrite length_take, length_drop; lia). split.
  - pose proof (le_number_range _ (Forall_take _ 4 _ (Forall_drop _ k l Hb))) as Hr. by rewrite Hlen in Hr.
  - rewrite <- (take_drop 4 (drop k l)) at 1. rewrite le_number_app, Hlen, drop_drop. do 4 f_equal. lia.
Qed.

(** A word as the part for one limb and the part for the next. *)
Lemma frombytes_spec l : wf_key l -> upto tight (fe_frombytes l) /\ val (fe_frombytes l) = X25519.decode_u l.
Proof.
  intros Hl. unfold fe_frombytes, fe_frombytes_impl. change (get_unaligned_le32 l) with (get_unaligned_le32 (drop 0 l)).
  destruct (word_spec 0 l Hl) as (a0 & -> & R0 & E0); [lia|]. destruct (word_spec 4 l Hl) as (a1 & -> & R1 & E1); [lia|].
  destruct (word_spec 8 l Hl) as (a2 & -> & R2 & E2); [lia|]. destruct (word_spec 12 l Hl) as (a3 & -> & R3 & E3); [lia|].
  destruct (word_spec 16 l Hl) as (a4 & -> & R4 & E4); [lia|]. destruct (word_spec 20 l Hl) as (a5 & -> & R5 & E5); [lia|].
  destruct (word_spec 24 l Hl) as (a6 & -> & R6 & E6); [lia|]. destruct (word_spec 28 l Hl) as (a7 & -> & R7 & E7); [lia|].
  cbn [Nat.add] in *. rewrite (drop_ge l 32) in E7 by (destruct Hl as [-> _]; unfold WG_KEY_LEN; lia).
  unfold X25519.decode_u. change (le_number l) with (le_number (drop 0 l)).
  cbn [le_number] in E7. rewrite E0, E1, E2, E3, E4, E5, E6, E7. clear E0 E1 E2 E3 E4 E5 E6 E7 Hl.
  rewrite !land_low, !fe_shr_div by lia.
  destruct (X25519.split_bits a0 26) as (l0 & h0 & -> & -> & V0 & S0); [lia|].
  destruct (X25519.split_bits a1 19) as (l1 & h1 & -> & -> & V1 & S1); [lia|].
  destruct (X25519.split_bits a2 13) as (l2 & h2 & -> & -> & V2 & S2); [lia|].
  destruct (X25519.split_bits a3 6) as (l3 & h3 & -> & -> & V3 & S3); [lia|].
  destruct (X25519.split_bits a4 25) as (l4 & h4 & -> & -> & V4 & S4); [lia|].
  destruct (X25519.split_bits a5 19) as (l5 & h5 & -> & -> & V5 & S5); [lia|].
  destruct (X25519.split_bits a6 12) as (l6 & h6 & -> & -> & V6 & S6); [lia|].
  destruct (X25519.split_bits a7 6) as (l7 & h7 & -> & -> & V7 & S7); [lia|].
  destruct (X25519.split_bits h7 25) as (m7 & t7 & -> & _ & V8 & S8); [lia|].
  rewrite !lor_shift by lia. split; [unfold upto, tight; lia|]. unfold val. f_equal.
  apply Z.mod_unique with t7; unfold eval; lia.
Qed.

(** ** The final reduction *)

(** A difference below zero borrows. *)
Lemma borrow_spec x n : 25 <= n <= 26 -> - 2 ^ n <= x < 2 ^ n -> exists bo lo,
  shr (u32 x) 31 = bo /\ Z.land (u32 x) (low n) = lo /\ x = lo - 2 ^ n * bo /\ 0 <= lo < 2 ^ n /\ (bo = 0 \/ bo = 1).
Proof.
  intros Hn Hx. assert (2 ^ n <= 2 ^ 26) by (apply Z.pow_le_mono_r; lia). rewrite land_low, fe_shr_div by lia.
  assert (El : u32 x mod 2 ^ n = x mod 2 ^ n).
  { unfold u32. apply Z.mod_mod_divide. exists (2 ^ (32 - n)). rewrite <- Z.pow_add_r by lia. f_equal. lia. }
  eexists _, _. split; [reflexivity|]. split; [reflexivity|]. rewrite El. destruct (Z.lt_ge_cases x 0).
  - replace (u32 x) with (x + 2 ^ 32) by (apply Z.mod_unique with (-1); lia).
    replace ((x + 2 ^ 32) / 2 ^ 31) with 1 by (apply Z.div_unique with (x + 2 ^ 31); lia).
    replace (x mod 2 ^ n) with (x + 2 ^ n) by (apply Z.mod_unique with (-1); lia). lia.
  - rewrite u32_small, Z.div_small, Z.mod_small by lia. lia.
Qed.
Lemma subborrow_u26_spec c a b : (c = 0 \/ c = 1) -> 0 <= a <= 2 * tight -> 2 ^ 24 <= b < 2 ^ 26 -> exists bo lo,
  subborrow_u26 c a b = (bo, lo) /\ a - b - c = lo - 2 ^ 26 * bo /\ 0 <= lo < 2 ^ 26 /\ (bo = 0 \/ bo = 1).
Proof.
  unfold tight. intros Hc Ha Hb. destruct (borrow_spec (a - b - c) 26) as (bo & lo & E1 & E2 & E); [lia..|].
  exists bo, lo. split; [|done]. unfold subborrow_u26. cbv zeta.
  replace (u32 (u32 (a - b) - c)) with (u32 (a - b - c)); [by rewrite E1, E2|]. symmetry. apply Zminus_mod_idemp_l.
Qed.
Lemma subborrow_u25_spec c a b : (c = 0 \/ c = 1) -> 0 <= a <= tight -> 2 ^ 23 <= b < 2 ^ 25 -> exists bo lo,
  subborrow_u25 c a b = (bo, lo) /\ a - b - c = lo - 2 ^ 25 * bo /\ 0 <= lo < 2 ^ 25 /\ (bo = 0 \/ bo = 1).
Proof.
  unfold tight. intros Hc Ha Hb. destruct (borrow_spec (a - b - c) 25) as (bo & lo & E1 & E2 & E); [lia..|].
  exists bo, lo. split; [|done]. unfold subborrow_u25. cbv zeta.
  replace (u32 (u32 (a - b) - c)) with (u32 (a - b - c)); [by rewrite E1, E2|]. symmetry. apply Zminus_mod_idemp_l.
Qed.

(** A sum above the limb carries. *)
Lemma land_1 z : 0 <= z < 2 -> Z.land z 1 = z.
Proof. intros Hz. assert (z = 0 \/ z = 1) as [-> | ->] by lia; done. Qed.
Lemma addcarryx_u26_spec c a b : (c = 0 \/ c = 1) -> 0 <= a < 2 ^ 26 -> 0 <= b < 2 ^ 26 -> exists ca lo,
  addcarryx_u26 c a b = (ca, lo) /\ a + b + c = lo + 2 ^ 26 * ca /\ 0 <= lo < 2 ^ 26 /\ (ca = 0 \/ ca = 1).
Proof.
  intros Hc Ha Hb. unfold addcarryx_u26. rewrite !u32_small by (rewrite ?u32_small; lia). rewrite land_low, fe_shr_div by lia.
  destruct (X25519.split_bits (a + b + c) 26) as (lo & ca & -> & -> & E & R); [lia|].
  exists ca, lo. rewrite land_1 by lia. split; [done|]. lia.
Qed.
Lemma addcarryx_u25_spec c a b : (c = 0 \/ c = 1) -> 0 <= a < 2 ^ 25 -> 0 <= b < 2 ^ 25 -> exists ca lo,
  addcarryx_u25 c a b = (ca, lo) /\ a + b + c = lo + 2 ^ 25 * ca /\ 0 <= lo < 2 ^ 25 /\ (ca = 0 \/ ca = 1).
Proof.
  intros Hc Ha Hb. unfold addcarryx_u25. rewrite !u32_small by (rewrite ?u32_small; lia). rewrite land_low, fe_shr_div by lia.
  destruct (X25519.split_bits (a + b + c) 25) as (lo & ca & -> & -> & E & R); [lia|].
  exists ca, lo. rewrite land_1 by lia. split; [done|]. lia.
Qed.
Definition full (f : fe) : Prop :=
  let '(Fe a0 a1 a2 a3 a4 a5 a6 a7 a8 a9) := f in
  0 <= a0 < 2 ^ 26 /\ 0 <= a1 < 2 ^ 25 /\ 0 <= a2 < 2 ^ 26 /\ 0 <= a3 < 2 ^ 25 /\ 0 <= a4 < 2 ^ 26 /\ 0 <= a5 < 2 ^ 25 /\
  0 <= a6 < 2 ^ 26 /\ 0 <= a7 < 2 ^ 25 /\ 0 <= a8 < 2 ^ 26 /\ 0 <= a9 < 2 ^ 25.
Lemma fe_full_range f : full f -> 0 <= eval f < 2 ^ 255.
Proof. destruct f. unfold full, eval. lia. Qed.
Lemma mask_spec bo c : (bo = 0 \/ bo = 1) -> 0 <= c < 2 ^ 32 -> Z.land (cmovznz32 bo 0 0xffffffff) c = bo * c.
Proof.
  intros [-> | ->] Hc; [done|]. change (cmovznz32 1 0 0xffffffff) with (Z.ones 32).
  rewrite Z.land_comm, Z.land_ones, Z.mod_small by lia. lia.
Qed.

(** The conditions of one limb: known carries and bounds, and constants. *)
Ltac limb := first [assumption|by left|by vm_compute].
(** The reduction subtracts p, and adds it again when the difference borrows. *)
Lemma freeze_spec f : upto tight f -> full (fe_freeze f) /\ eval (fe_freeze f) = val f.
Proof.
  destruct f as [a0 a1 a2 a3 a4 a5 a6 a7 a8 a9]. intros (A0 & A1 & A2 & A3 & A4 & A5 & A6 & A7 & A8 & A9).
  unfold fe_freeze.
  destruct (subborrow_u26_spec 0 a0 0x3ffffed) as (b0 & l0 & -> & E0 & R0 & B0); [limb..|].
  destruct (subborrow_u25_spec b0 a1 0x1ffffff) as (b1 & l1 & -> & E1 & R1 & B1); [limb..|].
  destruct (subborrow_u26_spec b1 a2 0x3ffffff) as (b2 & l2 & -> & E2 & R2 & B2); [limb..|].
  destruct (subborrow_u25_spec b2 a3 0x1ffffff) as (b3 & l3 & -> & E3 & R3 & B3); [limb..|].
  destruct (subborrow_u26_spec b3 a4 0x3ffffff) as (b4 & l4 & -> & E4 & R4 & B4); [limb..|].
  destruct (subborrow_u25_spec b4 a5 0x1ffffff) as (b5 & l5 & -> & E5 & R5 & B5); [limb..|].
  destruct (subborrow_u26_spec b5 a6 0x3ffffff) as (b6 & l6 & -> & E6 & R6 & B6); [limb..|].
  destruct (subborrow_u25_spec b6 a7 0x1ffffff) as (b7 & l7 & -> & E7 & R7 & B7); [limb..|].
  destruct (subborrow_u26_spec b7 a8 0x3ffffff) as (b8 & l8 & -> & E8 & R8 & B8); [limb..|].
  destruct (subborrow_u25_spec b8 a9 0x1ffffff) as (b9 & l9 & -> & E9 & R9 & B9); [limb..|].
  assert (HV : eval (Fe a0 a1 a2 a3 a4 a5 a6 a7 a8 a9) - X25519.p = eval (Fe l0 l1 l2 l3 l4 l5 l6 l7 l8 l9) - 2 ^ 255 * b9).
  { unfold eval. change X25519.p with (2 ^ 255 - 19). clear -E0 E1 E2 E3 E4 E5 E6 E7 E8 E9. lia. }
  assert (HR : 0 <= eval (Fe a0 a1 a2 a3 a4 a5 a6 a7 a8 a9) < 2 * X25519.p).
  { unfold eval, tight in *. change X25519.p with (2 ^ 255 - 19). clear E0 E1 E2 E3 E4 E5 E6 E7 E8 E9. lia. }
  assert (HL : full (Fe l0 l1 l2 l3 l4 l5 l6 l7 l8 l9)) by (unfold full; lia).
  clear E0 E1 E2 E3 E4 E5 E6 E7 E8 E9 A0 A1 A2 A3 A4 A5 A6 A7 A8 A9 B0 B1 B2 B3 B4 B5 B6 B7 B8. rewrite !mask_spec by (done || lia).
  assert (M0 : 0 <= b9 * 0x3ffffed < 2 ^ 26) by lia. assert (M1 : 0 <= b9 * 0x1ffffff < 2 ^ 25) by lia.
  assert (M2 : 0 <= b9 * 0x3ffffff < 2 ^ 26) by lia.
  destruct (addcarryx_u26_spec 0 l0 (b9 * 0x3ffffed)) as (c0 & o0 & -> & E0 & O0 & C0); [limb..|].
  destruct (addcarryx_u25_spec c0 l1 (b9 * 0x1ffffff)) as (c1 & o1 & -> & E1 & O1 & C1); [limb..|].
  destruct (addcarryx_u26_spec c1 l2 (b9 * 0x3ffffff)) as (c2 & o2 & -> & E2 & O2 & C2); [limb..|].
  destruct (addcarryx_u25_spec c2 l3 (b9 * 0x1ffffff)) as (c3 & o3 & -> & E3 & O3 & C3); [limb..|].
  destruct (addcarryx_u26_spec c3 l4 (b9 * 0x3ffffff)) as (c4 & o4 & -> & E4 & O4 & C4); [limb..|].
  destruct (addcarryx_u25_spec c4 l5 (b9 * 0x1ffffff)) as (c5 & o5 & -> & E5 & O5 & C5); [limb..|].
  destruct (addcarryx_u26_spec c5 l6 (b9 * 0x3ffffff)) as (c6 & o6 & -> & E6 & O6 & C6); [limb..|].
  destruct (addcarryx_u25_spec c6 l7 (b9 * 0x1ffffff)) as (c7 & o7 & -> & E7 & O7 & C7); [limb..|].
  destruct (addcarryx_u26_spec c7 l8 (b9 * 0x3ffffff)) as (c8 & o8 & -> & E8 & O8 & C8); [limb..|].
  destruct (addcarryx_u25_spec c8 l9 (b9 * 0x1ffffff)) as (c9 & o9 & -> & E9 & O9 & C9); [limb..|].
  assert (HW : eval (Fe l0 l1 l2 l3 l4 l5 l6 l7 l8 l9) + b9 * X25519.p = eval (Fe o0 o1 o2 o3 o4 o5 o6 o7 o8 o9) + 2 ^ 255 * c9).
  { unfold eval. change X25519.p with (2 ^ 255 - 19). clear -E0 E1 E2 E3 E4 E5 E6 E7 E8 E9. lia. }
  assert (HO : full (Fe o0 o1 o2 o3 o4 o5 o6 o7 o8 o9)) by (unfold full; lia). split; [done|].
  pose proof (fe_full_range _ HL). pose proof (fe_full_range _ HO). unfold val.
  apply Z.mod_unique with (1 - b9); change X25519.p with (2 ^ 255 - 19) in *; clear -HV HR HW B9 C9 H H0; lia.
Qed.

(** ** Writing bytes *)

(** A byte made of the top of a limb and the bottom of the next one. *)
Lemma byte_join t h k : 0 <= k <= 8 -> 0 <= t < 2 ^ k -> u8 (Z.lor t (u32 (Z.shiftl h k))) = t + 2 ^ k * (h mod 2 ^ (8 - k)).
Proof.
  intros Hk Ht. unfold u8. rewrite <- Z.land_ones, Z.land_lor_distr_l, !Z.land_ones by lia.
  assert (2 ^ k <= 2 ^ 8) by (apply Z.pow_le_mono_r; lia). rewrite (Z.mod_small t) by lia. unfold u32.
  rewrite Z.mod_mod_divide by (by exists (2 ^ 24)). rewrite Z.shiftl_mul_pow2, (Z.mul_comm h) by lia.
  replace (2 ^ 8) with (2 ^ k * 2 ^ (8 - k)) by (rewrite <- Z.pow_add_r by lia; f_equal; lia).
  rewrite Z.mul_mod_distr_l by (apply Z.pow_nonzero; lia). rewrite Z.lor_comm. apply X25519.lor_above; lia.
Qed.
(** A limb from bit [k] on: two bytes, and the rest. *)
Lemma limb_bytes h k k8 k16 : 0 <= k -> k8 = k + 8 -> k16 = k + 16 -> exists l b1 b2 t,
  h mod 2 ^ k = l /\ u8 (shr h k) = b1 /\ u8 (shr h k8) = b2 /\ shr h k16 = t /\ h = l + 2 ^ k * (b1 + 256 * (b2 + 256 * t)) /\ 0 <= l < 2 ^ k /\ 0 <= b1 < 256 /\ 0 <= b2 < 256.
Proof.
  intros Hk -> ->. assert (0 < 2 ^ k) by (apply Z.pow_pos_nonneg; lia).
  eexists _, _, _, _. do 4 (split; [reflexivity|]). unfold u8. rewrite !fe_shr_div by lia. rewrite !Z.pow_add_r by lia.
  change (2 ^ 8) with 256. change (2 ^ 16) with (256 * 256). rewrite Z.mul_assoc, <- !Z.div_div by lia.
  destruct (X25519.split_bits h k Hk) as (l & m & -> & -> & E & R). pose proof (Z.div_mod m 256). pose proof (Z.mod_pos_bound m 256).
  pose proof (Z.div_mod (m / 256) 256). pose proof (Z.mod_pos_bound (m / 256) 256). split; [|lia]. rewrite E at 1. f_equal. f_equal. lia.
Qed.
(** A third byte. *)
Lemma limb_byte3 h : exists b t, u8 (shr h 16) = b /\ shr h 24 = t /\ shr h 16 = b + 256 * t /\ 0 <= b < 256.
Proof.
  eexists _, _. split; [reflexivity|]. split; [reflexivity|]. unfold u8. rewrite !fe_shr_div by lia.
  replace (h / 2 ^ 24) with (h / 2 ^ 16 / 256) by (by rewrite Z.div_div). set (m := h / 2 ^ 16).
  change (2 ^ 8) with 256. pose proof (Z.div_mod m 256). pose proof (Z.mod_pos_bound m 256). lia.
Qed.
Lemma le_bytes_number l : Forall is_byte l -> le_bytes (length l) (le_number l) = l.
Proof.
  induction 1 as [|b l Hb _ IH]; [done|]. cbn [length le_bytes le_number]. unfold is_byte in Hb.
  rewrite (Z.mul_comm 256), Z.mod_add, Z.div_add, Z.mod_small, Z.div_small, Z.add_0_l by lia. by rewrite IH.
Qed.

Lemma tobytes_spec f : upto tight f -> fe_tobytes f = le_bytes 32 (val f).
Proof.
  intros Hf. destruct (freeze_spec f Hf) as [HF <-]. unfold fe_tobytes. revert HF.
  destruct (fe_freeze f) as [h0 h1 h2 h3 h4 h5 h6 h7 h8 h9]. intros (H0 & H1 & H2 & H3 & H4 & H5 & H6 & H7 & H8 & H9).
  destruct (limb_bytes h0 0 8 16) as (l0 & b0 & b0' & t0 & F0 & E0 & E0' & G0 & V0 & R0 & R0'); [done..|].
  destruct (limb_bytes h1 6 14 22) as (l1 & b1 & b1' & t1 & F1 & E1 & E1' & G1 & V1 & R1 & R1'); [done..|].
  destruct (limb_bytes h2 5 13 21) as (l2 & b2 & b2' & t2 & F2 & E2 & E2' & G2 & V2 & R2 & R2'); [done..|].
  destruct (limb_bytes h3 3 11 19) as (l3 & b3 & b3' & t3 & F3 & E3 & E3' & G3 & V3 & R3 & R3'); [done..|].
  destruct (limb_bytes h4 2 10 18) as (l4 & b4 & b4' & t4 & F4 & E4 & E4' & G4 & V4 & R4 & R4'); [done..|].
  destruct (limb_bytes h5 0 8 16) as (l5 & b5 & b5' & t5 & F5 & E5 & E5' & G5 & V5 & R5 & R5'); [done..|].
  destruct (limb_bytes h6 7 15 23) as (l6 & b6 & b6' & t6 & F6 & E6 & E6' & G6 & V6 & R6 & R6'); [done..|].
  destruct (limb_bytes h7 5 13 21) as (l7 & b7 & b7' & t7 & F7 & E7 & E7' & G7 & V7 & R7 & R7'); [done..|].
  destruct (limb_bytes h8 4 12 20) as (l8 & b8 & b8' & t8 & F8 & E8 & E8' & G8 & V8 & R8 & R8'); [done..|].
  destruct (limb_bytes h9 2 10 18) as (l9 & b9 & b9' & t9 & F9 & E9 & E9' & G9 & V9 & R9 & R9'); [done..|].
  destruct (limb_byte3 h0) as (c0 & d0 & S0 & T0 & W0 & Q0). destruct (limb_byte3 h5) as (c5 & d5 & S5 & T5 & W5 & Q5).
  rewrite E0, E0', E1, E1', E2, E2', E3, E3', E4, E4', E5, E5', E6, E6', E7, E7', E8, E8', E9, E9', S0, S5, T0, T5, G1, G2, G3,
    G4, G6, G7, G8, G9.
  rewrite !byte_join by lia. change (8 - 2) with 6. change (8 - 3) with 5. change (8 - 5) with 3. change (8 - 6) with 2.
  change (8 - 1) with 7. change (8 - 4) with 4. rewrite F1, F2, F3, F4, F6, F7, F8, F9, (u8_small t4), (u8_small t9) by lia.
  clear E0 E0' E1 E1' E2 E2' E3 E3' E4 E4' E5 E5' E6 E6' E7 E7' E8 E8' E9 E9' S0 S5 T0 T5 F0 F1 F2 F3 F4 F5 F6 F7 F8 F9.
  lazymatch goal with |- ?l = _ => assert (EL : eval (Fe h0 h1 h2 h3 h4 h5 h6 h7 h8 h9) = le_number l) end.
  { unfold eval. cbn [le_number]. rewrite W0 in G0. rewrite W5 in G5. clear W0 W5 Hf. subst t0 t5. lia. }
  rewrite EL. symmetry. lazymatch goal with |- _ = ?l => apply (le_bytes_number l) end.
  rewrite W0 in G0. rewrite W5 in G5. repeat constructor; unfold is_byte; lia.
Qed.
End Fiat32Bytes.
