(* ===== verification/Fiat32Correct.v ===== *)
(** * The 32-bit implementation computes X25519 (src/curve25519-fiat32.h)

    The ladder swaps late: it exchanges the points before a step when the bit
    differs from the one before, and after the last step. Its state stands for the
    state of the specification with the swap still to be done. *)
From S2P Require Import Prelude Encoding Wg Prime25519 X25519 FieldRep Fiat32 Fiat32Facts Fiat32Bytes.
Import Encoding Wg Fiat32 Fiat32Facts Fiat32Bytes.

Module Fiat32Correct.

(** ** The field *)


(** ** Conditional swaps *)

Lemma cswap_spec f g (c : bool) : upto tight f -> upto tight g ->
  fe_cswap f g (Z.b2z c) = if c then (g, f) else (f, g).
Proof.
  destruct f as [f0 f1 f2 f3 f4 f5 f6 f7 f8 f9], g as [g0 g1 g2 g3 g4 g5 g6 g7 g8 g9]. unfold upto, tight. intros Hf Hg.
  unfold fe_cswap. replace (u32 (0 - Z.b2z c)) with (if c then 2 ^ 32 - 1 else 0) by by destruct c.
  assert (E : forall x y, 0 <= x < 2 ^ 32 -> 0 <= y < 2 ^ 32 ->
    fe_cswap_step x y (if c then 2 ^ 32 - 1 else 0) = if c then (y, x) else (x, y)).
  { intros x y Hx Hy. unfold fe_cswap_step. rewrite Z.land_comm.
    change (X25519.swap_words (if c then 2 ^ 32 - 1 else 0) x y = if c then (y, x) else (x, y)).
    destruct c; [by apply X25519.swap_words_ones|apply X25519.swap_words_0]. }
  rewrite !E by lia. by destruct c.
Qed.

(** ** The ladder *)

Record tight_vars (s : vars) : Prop := {
  tight_x2 : upto tight (x2 s); tight_z2 : upto tight (z2 s);
  tight_x3 : upto tight (x3 s); tight_z3 : upto tight (z3 s) }.
(** The numbers of the variables. *)
Definition vals (s : vars) : X25519.state :=
  {| X25519.x2 := val (x2 s); X25519.z2 := val (z2 s); X25519.x3 := val (x3 s); X25519.z3 := val (z3 s) |}.
(** The variables stand for a state of the specification, up to the pending swap. *)
Definition stands_for (s : vars) (t : X25519.state) : Prop :=
  tight_vars s /\ exists c : bool, swap s = Z.b2z c /\ X25519.cswap c (vals s) = t.

Definition swapped (c : bool) (s : vars) : vars :=
  if c then {| x2 := x3 s; z2 := z3 s; x3 := x2 s; z3 := z2 s; swap := swap s |} else s.
Lemma swapped_tight c s : tight_vars s -> tight_vars (swapped c s).
Proof. intros []. by destruct c. Qed.
Lemma swapped_vals c s : vals (swapped c s) = X25519.cswap c (vals s).
Proof. by destruct c. Qed.
Lemma cswap_xor c b t : X25519.cswap (xorb c b) t = X25519.cswap b (X25519.cswap c t).
Proof. by destruct t, c, b. Qed.

(** The arithmetic of an iteration. *)
Definition ladder_step (x1 : fe) (b : Z) (s : vars) : vars :=
  let tmp0l := fe_sub (x3 s) (z3 s) in
  let tmp1l := fe_sub (x2 s) (z2 s) in
  let x2l := fe_add (x2 s) (z2 s) in
  let z2l := fe_add (x3 s) (z3 s) in
  let z3 := fe_mul_tll tmp0l x2l in
  let z2 := fe_mul_tll z2l tmp1l in
  let tmp0 := fe_sq_tl tmp1l in
  let tmp1 := fe_sq_tl x2l in
  let x3l := fe_add z3 z2 in
  let z2l := fe_sub z3 z2 in
  let e := fe_sub tmp1 tmp0 in
  {| x2 := fe_mul_ttt tmp1 tmp0; z2 := fe_mul_tll e (fe_add tmp0 (fe_mul121666 e));
     x3 := fe_sq_tl x3l; z3 := fe_mul_ttt x1 (fe_sq_tl z2l); swap := b |}.

Lemma ladder_step_spec x1 b s : tight_vars s -> upto tight x1 ->
  tight_vars (ladder_step x1 b s) /\ vals (ladder_step x1 b s) = X25519.step (val x1) (vals s).
Proof.
  destruct s as [x z x' z' sw]. intros [Hx Hz Hx' Hz'] H1. cbn [x2 z2 x3 z3] in *. unfold ladder_step. cbn [x2 z2 x3 z3].
  destruct (fe_sub_spec x' z' Hx' Hz') as [Bd Vd]. set (d := fe_sub x' z') in *.
  destruct (fe_sub_spec x z Hx Hz) as [Bb Vb]. set (b' := fe_sub x z) in *.
  destruct (fe_add_spec x z Hx Hz) as [Ba Va]. set (a := fe_add x z) in *.
  destruct (fe_add_spec x' z' Hx' Hz') as [Bc Vc]. set (c := fe_add x' z') in *.
  unfold fe_mul_tll, fe_mul_ttt, fe_sq_tl.
  destruct (fe_mul_spec d a Bd Ba) as [Bda Vda]. set (da := fe_mul_impl d a) in *.
  destruct (fe_mul_spec c b' Bc Bb) as [Bcb Vcb]. set (cb := fe_mul_impl c b') in *.
  destruct (fe_sqr_spec b' Bb) as [Bbb Vbb]. set (bb := fe_sqr_impl b') in *.
  destruct (fe_sqr_spec a Ba) as [Baa Vaa]. set (aa := fe_sqr_impl a) in *.
  destruct (fe_add_spec da cb Bda Bcb) as [Bs Vs]. set (su := fe_add da cb) in *.
  destruct (fe_sub_spec da cb Bda Bcb) as [Bf Vf]. set (df := fe_sub da cb) in *.
  destruct (fe_sub_spec aa bb Baa Bbb) as [Be Ve]. set (e := fe_sub aa bb) in *.
  destruct (fe_mul121666_spec e Be) as [Bg Vg]. set (g := fe_mul121666 e) in *.
  destruct (fe_add_spec bb g Bbb Bg) as [Bh Vh]. set (h := fe_add bb g) in *.
  destruct (fe_mul_spec aa bb (tight_loose _ Baa) (tight_loose _ Bbb)) as [B2 V2].
  destruct (fe_mul_spec e h Be Bh) as [Bz2 Vz2]. destruct (fe_sqr_spec su Bs) as [B3 V3].
  destruct (fe_sqr_spec df Bf) as [Bq Vq]. destruct (fe_mul_spec x1 _ (tight_loose _ H1) (tight_loose _ Bq)) as [Bz3 Vz3].
  split; [done|]. unfold vals. cbn [x2 z2 x3 z3].
  rewrite V2, Vz2, V3, Vz3, Vq, Vh, Vg, Ve, Vs, Vf, Vaa, Vbb, Vcb, Vda, Va, Vb, Vc, Vd.
  unfold X25519.step, X25519.a24. cbn [X25519.x2 X25519.z2 X25519.x3 X25519.z3]. f_equal; X25519.field_eq.
Qed.

(** An iteration swaps, and does the arithmetic. *)
Lemma ladder_body_eq x1 e pos s (c b : bool) : tight_vars s -> swap s = Z.b2z c ->
  Z.land 1 (shr (nth (Z.to_nat (pos / 8)) e 0) (Z.land pos 7)) = Z.b2z b ->
  ladder_body x1 e pos s = ladder_step x1 (Z.b2z b) (swapped (xorb c b) s).
Proof.
  intros [] Hc Hb. unfold ladder_body. rewrite Hb, Hc.
  replace (Z.lxor (Z.b2z c) (Z.b2z b)) with (Z.b2z (xorb c b)) by by destruct c, b.
  rewrite !cswap_spec by done. by destruct (xorb c b).
Qed.

(** The bit of the scalar an iteration reads. *)
Lemma loop_bit l (n : nat) : Forall is_byte l ->
  Z.land 1 (shr (nth (Z.to_nat (Z.of_nat n / 8)) l 0) (Z.land (Z.of_nat n) 7)) = Z.b2z (Z.testbit (le_number l) (Z.of_nat n)).
Proof.
  intros Hl. set (k := Z.of_nat n). change 7 with (Z.ones 3). rewrite Z.land_ones by lia. change (2 ^ 3) with 8.
  pose proof (Z.div_mod k 8). pose proof (Z.mod_pos_bound k 8). assert (0 <= k / 8) by (apply Z.div_pos; lia).
  replace k with (8 * Z.of_nat (Z.to_nat (k / 8)) + k mod 8) at 3 by lia.
  rewrite X25519.le_number_testbit by (done || lia). set (b := nth _ l 0). rewrite Z.land_comm. change 1 with (Z.ones 1).
  rewrite Z.land_ones by lia. change (2 ^ 1) with 2. rewrite <- Z.bit0_mod. unfold shr. by rewrite Z.shiftr_spec.
Qed.

Lemma ladder_loop_spec x1 l n s t : Forall is_byte l -> upto tight x1 -> stands_for s t ->
  stands_for (ladder_loop x1 l n s) (X25519.ladder (val x1) (le_number l) n t).
Proof.
  intros Hl H1. revert s t. induction n as [|n IH]; intros s t Hs; [done|]. cbn [ladder_loop X25519.ladder]. apply IH.
  destruct Hs as [Ht (c & Hc & <-)]. set (b := Z.testbit (le_number l) (Z.of_nat n)).
  rewrite (ladder_body_eq x1 l _ s c b Ht Hc (loop_bit l n Hl)).
  destruct (ladder_step_spec x1 (Z.b2z b) _ (swapped_tight (xorb c b) s Ht) H1) as [Ht' Hv].
  split; [done|]. exists b. split; [done|]. by rewrite Hv, swapped_vals, cswap_xor.
Qed.

(** ** The whole function *)

(** The 32-bit implementation computes X25519: for every 32-byte secret and every
    32-byte point, no 32-bit or 64-bit word of the field arithmetic overflows in a
    way that changes the result, the ladder with its late swaps is the ladder of
    RFC 7748, and the bytes stored are those of the fully reduced result. *)
Lemma fiat32_x25519 scalar point : wf_key scalar -> wf_key point ->
  curve25519_generic scalar point = X25519.X25519 scalar point.
Proof.
  intros Hs Hp. unfold curve25519_generic, X25519.X25519. cbv zeta. destruct (frombytes_spec point Hp) as [Hx <-].
  rewrite X25519.decode_scalar_clamp by done. pose proof (proj1 (clamp_wf_idem scalar Hs)) as [_ Hc].
  set (x1 := fe_frombytes point) in *. set (e := curve25519_clamp_secret scalar) in *.
  destruct (ladder_loop_spec x1 e 255 {| x2 := fe_1; z2 := fe_0; x3 := fe_copy x1; z3 := fe_1; swap := 0 |}
    (X25519.start (val x1)) Hc Hx) as [[H2 Hz2 H3 Hz3] (c & Ec & Et)].
  { split; [split; [by vm_compute|by vm_compute|exact Hx|by vm_compute]|]. by exists false. }
  unfold X25519.x25519. rewrite <- Et. clear Et. generalize dependent (ladder_loop x1 e 255 {|
    x2 := fe_1; z2 := fe_0; x3 := fe_copy x1; z3 := fe_1; swap := 0 |}). intros s H2 Hz2 H3 Hz3 Ec.
  rewrite Ec, !cswap_spec by done. set (q := swapped c s).
  transitivity (fe_tobytes (fe_mul_ttt (x2 q) (fe_invert (z2 q)))); [destruct c; reflexivity|].
  assert (Hq : tight_vars q) by (by apply swapped_tight). destruct Hq as [Q2 Q2' _ _].
  destruct (fe_invert_spec _ Q2') as [Hi Ei].
  destruct (fe_mul_spec _ _ (tight_loose _ Q2) (tight_loose _ Hi)) as [Hm Em]. unfold fe_mul_ttt.
  rewrite tobytes_spec, Em, Ei by done. rewrite <- X25519.finv_pow. unfold q. destruct c; reflexivity.
Qed.
End Fiat32Correct.
