(* ===== verification/Curve25519.v ===== *)
(** * Curve25519 as the commands use it (src/curve25519.c, src/pubkey.c, src/genkey.c)

    The compiler chooses one of the two implementations. What the commands need of
    it is an interface, which both discharge: on 32-byte strings it is X25519. *)
From S2P Require Import Prelude Libc Encoding Wg Prime25519 X25519 Hacl64 Hacl64Correct Fiat32 Fiat32Correct.
Import Libc Encoding Wg.

Module Curve25519.

(** An implementation, with what it promises. *)
Class Curve25519Impl := {
  curve25519_generic : list Z -> list Z -> list Z;
  curve25519_generic_x25519 secret basepoint : wf_key secret -> wf_key basepoint ->
    curve25519_generic secret basepoint = X25519.X25519 secret basepoint }.

#[export] Instance hacl64 : Curve25519Impl | 1 := {|
  curve25519_generic := Hacl64.curve25519_generic; curve25519_generic_x25519 := Hacl64Correct.hacl64_x25519 |}.
#[export] Instance fiat32 : Curve25519Impl | 2 := {|
  curve25519_generic := Fiat32.curve25519_generic; curve25519_generic_x25519 := Fiat32Correct.fiat32_x25519 |}.

(** [#ifdef __SIZEOF_INT128__] *)
Definition implementation (sizeof_int128 : bool) : Curve25519Impl := if sizeof_int128 then hacl64 else fiat32.

Section Functions.
Context `{C : Curve25519Impl}.

Definition curve25519 (secret basepoint : list Z) : list Z := curve25519_generic secret basepoint.

Definition basepoint : list Z := 9 :: replicate 31 0.
Definition curve25519_generate_public (secret : list Z) : list Z := curve25519 secret basepoint.
End Functions.

(** ** The key of RFC 7748 *)

Lemma basepoint_wf : wf_key basepoint.
Proof. split; [done|]. by repeat constructor. Qed.

Lemma X25519_wf k u : wf_key (X25519.X25519 k u).
Proof. split; [apply le_bytes_length|apply le_bytes_range]. Qed.

Lemma generate_public_x25519 `{C : Curve25519Impl} k : wf_key k ->
  curve25519_generate_public k = X25519.X25519 k basepoint.
Proof. intros Hk. by apply curve25519_generic_x25519, basepoint_wf. Qed.

(** Clamping does not change the scalar a secret stands for. *)
Lemma X25519_clamp k u : wf_key k -> X25519.X25519 (curve25519_clamp_secret k) u = X25519.X25519 k u.
Proof.
  intros Hk. destruct (clamp_wf_idem k Hk) as [Hc E]. unfold X25519.X25519.
  by rewrite !X25519.decode_scalar_clamp, E.
Qed.

(** Both implementations of Curve25519 compute X25519 of RFC 7748, for every
    32-byte secret and every 32-byte point: the secret is clamped, the top bit of
    the point is ignored, the ladder runs modulo 2^255 - 19 with no word overflow
    that changes the result, and the 32 bytes stored are the fully reduced
    number. So the two agree, and clamping the secret beforehand changes nothing. (C3) *)
Theorem curve25519_correct secret point : wf_key secret -> wf_key point ->
  Hacl64.curve25519_generic secret point = X25519.X25519 secret point /\
  Fiat32.curve25519_generic secret point = X25519.X25519 secret point /\
  Hacl64.curve25519_generic (curve25519_clamp_secret secret) point = Fiat32.curve25519_generic secret point /\
  wf_key (Hacl64.curve25519_generic secret point) /\
  0 <= le_number (Hacl64.curve25519_generic secret point) < 2 ^ 255 - 19.
Proof.
  intros Hs Hp. pose proof (proj1 (clamp_wf_idem secret Hs)) as Hc.
  rewrite (Hacl64Correct.hacl64_x25519 secret point Hs Hp), (Hacl64Correct.hacl64_x25519 _ point Hc Hp),
    (Fiat32Correct.fiat32_x25519 secret point Hs Hp), (X25519_clamp secret point Hs).
  do 3 (split; [done|]). split; [apply X25519_wf|apply X25519.X25519_reduced].
Qed.
Lemma curve25519_correct_witness :
  Hacl64.curve25519_generic sample_key sample_key = X25519.X25519 sample_key sample_key /\
  Fiat32.curve25519_generic sample_key sample_key = X25519.X25519 sample_key sample_key.
Proof.
  destruct (curve25519_correct sample_key sample_key sample_key_wf sample_key_wf) as (H1 & H2 & _).
  split; [exact H1|exact H2].
Defined.

(** [wg pubkey], with either implementation, succeeds exactly on a key in base64
    followed by white space and NUL bytes only, and then prints in base64 X25519 of
    that key and the base point 9; on any other input it fails and prints nothing. *)
Theorem pubkey_x25519 `{P : Platform} (sizeof_int128 : bool) stdin name :
  let generate := curve25519_generate_public (C := implementation sizeof_int128) in
  (forall out, pubkey_main generate stdin [name] = (0, out) <->
     exists k rest, wf_key k /\ stdin = key_to_base64 k ++ rest /\ forallb trailing_char rest = true /\
       out = key_to_base64 (X25519.X25519 k basepoint) ++ [NL]) /\
  (pubkey_main generate stdin [name] = (1, []) \/ fst (pubkey_main generate stdin [name]) = 0).
Proof.
  cbv zeta. pose proof (generate_public_x25519 (C := implementation sizeof_int128)) as Hg.
  set (g := curve25519_generate_public) in *. clearbody g. destruct (pubkey_main_correct g stdin name) as [Hok Hbad]. split; [|done]. intros out. rewrite Hok.
  split; intros (k & rest & Hk & Hstdin & Hrest & ->); exists k, rest; by rewrite (Hg k Hk).
Qed.

(** [wg genkey | wg pubkey]: for any randomness the system provides, the first
    prints a key that [wg] reads back and that is clamped, and the second, with
    either implementation, prints the public key of it, which [wg] reads back as
    X25519 of that key and the base point. (C31) *)
Theorem genkey_pubkey `{P : Platform} (sizeof_int128 : bool) rs name :
  (forall n k, rs_getentropy rs n = Some k -> length k = n /\ Forall is_byte k) ->
  (forall n k, rs_getrandom rs n = Some k -> length k = n /\ Forall is_byte k) ->
  match rs_urandom rs with Some read => good_read read | None => False end ->
  exists k private public, genkey_main rs [str "genkey"] = (0, private ++ [NL]) /\
    key_from_base64 zero_key private = (true, k) /\ wf_key k /\ curve25519_clamp_secret k = k /\
    pubkey_main (curve25519_generate_public (C := implementation sizeof_int128)) (private ++ [NL]) [name]
      = (0, public ++ [NL]) /\
    key_from_base64 zero_key public = (true, X25519.X25519 k basepoint).
Proof.
  intros He Hg Hu. destruct (genkey_prints_key rs He Hg Hu) as (k & private & Hgen & Hread & Hk & Hc).
  exists k, private, (key_to_base64 (X25519.X25519 k basepoint)). do 4 (split; [done|]). split.
  - pose proof (generate_public_x25519 (C := implementation sizeof_int128) k Hk) as Hp.
    set (g := curve25519_generate_public) in *. clearbody g. apply (proj1 (pubkey_main_correct g (private ++ [NL]) name)). exists k, [NL].
    split; [done|]. split; [by rewrite (proj2 (key_from_base64_sound zero_key private k eq_refl Hread)) at 1|]. split; [done|].
    by rewrite Hp.
  - apply key_from_base64_complete; [done|apply X25519_wf].
Qed.
Lemma genkey_pubkey_witness : exists k private public,
  genkey_main sample_source [str "genkey"] = (0, private ++ [NL]) /\
  key_from_base64 (P := arm64) zero_key private = (true, k) /\ wf_key k /\ curve25519_clamp_secret k = k /\
  pubkey_main (P := arm64) (curve25519_generate_public (C := implementation true)) (private ++ [NL]) [str "pubkey"] = (0, public ++ [NL]) /\
  key_from_base64 (P := arm64) zero_key public = (true, X25519.X25519 k basepoint).
Proof.
  apply (genkey_pubkey (P := arm64) true sample_source (str "pubkey")); [done|done|].
  intros off n Hn. split.
  - rewrite length_take, length_replicate. lia.
  - apply Forall_take, Forall_replicate. apply (Z.mod_pos_bound _ 256). lia.
Defined.
End Curve25519.
