(* ===== verification/Embed.v ===== *)
(** * The keys of the embeddable library
    (contrib/embeddable-wg-library/wireguard.c)

    The library has its own key codec and a third implementation of Curve25519: a
    field element is sixteen signed 64-bit limbs of 16 bits, a loop multiplies
    limb by limb. A function that stores through a pointer returns the new array;
    [fe] is the list of its limbs. Every operation wraps at the width of its type.
    Clearing memory after use is not modelled. *)
From S2P Require Import Prelude Libc Encoding IpcUapi Wg.
Import Libc Encoding Wg.

Module Embed.

(** ** Keys as text *)

Section Base64.
Context `{P : Platform}.

Definition wg_key_is_zero (key : list Z) : bool :=
  let acc := for_upto 32 (fun i acc => u8 (Z.lor acc (byte_at key i))) 0 in
  negb (Z.land 1 (Z.shiftr (acc - 1) 8) =? 0).

(** The groups are encoded and decoded as in encoding.c. *)
Definition wg_key_to_base64 (key : list Z) : cstring := key_to_base64 key.

(** The value returned, [errno], and the key afterwards, which is written also
    when the text is refused for its digits. *)
Definition wg_key_from_base64 (key : list Z) (base64 : cstring) : Z * Z * list Z :=
  if negb (strlen base64 =? Z.of_nat (WG_KEY_LEN_BASE64 - 1))
     || negb (Ascii.eqb (cget base64 (WG_KEY_LEN_BASE64 - 2)) "="%char)
  then (- IpcUapi.EINVAL, IpcUapi.EINVAL, key)
  else
    let '(ret, key) := for_upto (32 / 3)
      (fun i '(ret, key) =>
        let val := decode_base64 (drop (i * 4) base64) in
        (u8 (Z.lor ret (Z.shiftr (u32 val) 31)),
         <[(i * 3 + 2)%nat := Z.land val 0xff]>
         (<[(i * 3 + 1)%nat := Z.land (Z.shiftr val 8) 0xff]>
         (<[(i * 3 + 0)%nat := Z.land (Z.shiftr val 16) 0xff]> key))))
      (0, key) in
    let i := (32 / 3)%nat in
    let val := decode_base64
      [cget base64 (i * 4 + 0); cget base64 (i * 4 + 1); cget base64 (i * 4 + 2); "A"%char] in
    let ret := u8 (Z.lor ret (Z.lor (Z.shiftr (u32 val) 31) (Z.land val 0xff))) in
    let key := <[(i * 3 + 1)%nat := Z.land (Z.shiftr val 8) 0xff]>
               (<[(i * 3 + 0)%nat := Z.land (Z.shiftr val 16) 0xff]> key) in
    let errno := Z.land IpcUapi.EINVAL (Z.lnot (Z.shiftr (ret - 1) 8)) in
    (- errno, errno, key).
End Base64.

(** ** The field *)

Abbreviation fe := (list Z).

(** The limbs given, and zeros. *)
Definition fe_init (l : list Z) : fe := l ++ replicate (16 - length l) 0.

Definition carry_step (i : nat) (o : fe) : fe :=
  let c := s64 ((if (i =? 15)%nat then 38 else 1) * Z.shiftr (nth i o 0) 16) in
  let j := ((i + 1) mod 16)%nat in
  let o := <[j := s64 (nth j o 0 + c)]> o in
  <[i := Z.land (nth i o 0) 0xffff]> o.
Definition carry (o : fe) : fe := for_upto 16 carry_step o.

Definition cswap_step (c : Z) (i : nat) (pq : fe * fe) : fe * fe :=
  let t := Z.land c (Z.lxor (nth i pq.1 0) (nth i pq.2 0)) in
  (<[i := Z.lxor (nth i pq.1 0) t]> pq.1, <[i := Z.lxor (nth i pq.2 0) t]> pq.2).
Definition cswap (p q : fe) (b : Z) : fe * fe :=
  let c := Z.lnot (b - 1) in
  for_upto 16 (cswap_step c) (p, q).

(** The limb [i] of the difference, for [i] from 1 to 14. *)
Definition pack_step (t : fe) (k : nat) (m : fe) : fe :=
  let i := S k in
  let m := <[i := s64 (s64 (nth i t 0 - 0xffff) - Z.land (Z.shiftr (nth k m 0) 16) 1)]> m in
  <[k := Z.land (nth k m 0) 0xffff]> m.
(** One turn of the outer loop: [m] becomes [t] less the prime. *)
Definition pack_turn (tm : fe * fe) : fe * fe :=
  let '(t, m) := tm in
  let m := <[0%nat := s64 (nth 0 t 0 - 0xffed)]> m in
  let m := for_upto 14 (pack_step t) m in
  let m := <[15%nat := s64 (s64 (nth 15 t 0 - 0x7fff) - Z.land (Z.shiftr (nth 14 m 0) 16) 1)]> m in
  let b := Z.land (Z.shiftr (nth 15 m 0) 16) 1 in
  let m := <[14%nat := Z.land (nth 14 m 0) 0xffff]> m in
  cswap t m (1 - b).
(** The array [m] is not initialised: [junk] is what it holds. *)
Definition pack (junk n : fe) : list Z :=
  let t := carry (carry (carry n)) in
  let '(t, _) := pack_turn (pack_turn (t, junk)) in
  concat (map (fun ti => [Z.land ti 0xff; u8 (Z.shiftr ti 8)]) t).

Definition add (a b : fe) : fe := zip_with (fun x y => s64 (x + y)) a b.
Definition subtract (a b : fe) : fe := zip_with (fun x y => s64 (x - y)) a b.

Definition mult_step (a b : fe) (i j : nat) (t : list Z) : list Z :=
  <[(i + j)%nat := s64 (nth (i + j) t 0 + s64 (nth i a 0 * nth j b 0))]> t.
Definition mult_fold (i : nat) (t : list Z) : list Z := <[i := s64 (nth i t 0 + s64 (38 * nth (i + 16) t 0))]> t.
Definition multmod (a b : fe) : fe :=
  let t := replicate 31 0 in
  let t := for_upto 16 (fun i t => for_upto 16 (mult_step a b i) t) t in
  let t := for_upto 15 mult_fold t in
  carry (carry (take 16 t)).

(** [for (a = n - 1; a >= 0; --a)] *)
Fixpoint invert_loop (n : nat) (i c : fe) : fe :=
  match n with
  | O => c
  | S a =>
      let c := multmod c c in
      let c := if (a =? 2)%nat || (a =? 4)%nat then c else multmod c i in
      invert_loop a i c
  end.
Definition invert (i : fe) : fe := invert_loop 254 i i.

Definition clamp_key (z : list Z) : list Z :=
  let z := <[31%nat := Z.lor (Z.land (nth 31 z 0) 127) 64]> z in
  <[0%nat := Z.land (nth 0 z 0) 248]> z.

(** ** The ladder *)

(** The variables [a], [b], [c] and [d]. *)
Record vars := { va : fe; vb : fe; vc : fe; vd : fe }.

Definition ladder_turn (z : list Z) (i : nat) (s : vars) : vars :=
  let r := Z.land (Z.shiftr (nth (i / 8) z 0) (Z.of_nat (i mod 8))) 1 in
  let '(a, b) := cswap (va s) (vb s) r in
  let '(c, d) := cswap (vc s) (vd s) r in
  let e := add a c in
  let a := subtract a c in
  let c := add b d in
  let b := subtract b d in
  let d := multmod e e in
  let f := multmod a a in
  let a := multmod c a in
  let c := multmod b e in
  let e := add a c in
  let a := subtract a c in
  let b := multmod a a in
  let c := subtract d f in
  let a := multmod c (fe_init [0xdb41; 1]) in
  let a := add a d in
  let c := multmod c a in
  let a := multmod d f in
  let d := multmod b (fe_init [9]) in
  let b := multmod e e in
  let '(a, b) := cswap a b r in
  let '(c, d) := cswap c d r in
  {| va := a; vb := b; vc := c; vd := d |}.

(** [for (i = n - 1; i >= 0; --i)] *)
Fixpoint for_down {A : Type} (n : nat) (body : nat -> A -> A) (s : A) : A :=
  match n with O => s | S i => for_down i body (body i s) end.
Definition ladder_loop (z : list Z) (n : nat) (s : vars) : vars := for_down n (ladder_turn z) s.

Definition wg_generate_public_key (junk : fe) (private_key : list Z) : list Z :=
  let z := clamp_key private_key in
  let s := ladder_loop z 255 {| va := fe_init [1]; vb := fe_init [9]; vc := fe_init []; vd := fe_init [1] |} in
  let c := invert (vc s) in
  let a := multmod (va s) c in
  pack junk a.

(** ** New keys *)

(** [None] when an assertion stops the program. *)
Definition wg_generate_preshared_key (rs : random_source) : option (list Z) :=
  match rs_getentropy rs 32 with
  | Some key => Some key
  | None =>
      match rs_getrandom rs 32 with
      | Some key => Some key
      | None =>
          match rs_urandom rs with
          | None => None
          | Some read => read_random 32 read 32 []
          end
      end
  end.
Definition wg_generate_private_key (rs : random_source) : option (list Z) :=
  match wg_generate_preshared_key rs with
  | Some key => Some (clamp_key key)
  | None => None
  end.
End Embed.
