(* ===== verification/EmbedField.v ===== *)
(** * The field of the embeddable library (contrib/embeddable-wg-library/wireguard.c)

    Numbers in base 2^16 with signed digits. A carry pass leaves the digits of the
    number and adds 38 times what is above 2^256, so two passes after a product
    bound every limb; no signed 64-bit operation overflows. *)
From S2P Require Import Prelude Encoding Wg Prime25519 X25519 FieldRep Embed.
Import Encoding Wg Embed.

Module EmbedField.

(** ** Numbers in base 2^16 *)

Fixpoint eval (l : list Z) : Z := match l with [] => 0 | x :: l => x + 2 ^ 16 * eval l end.
Definition digit (x : Z) : Prop := 0 <= x < 2 ^ 16.
Definition within (b x : Z) : Prop := - b <= x <= b.

Definition pow16 (n : nat) : Z := 2 ^ (16 * Z.of_nat n).
Lemma pow16_S n : pow16 (S n) = 2 ^ 16 * pow16 n.
Proof. unfold pow16. rewrite <- Z.pow_add_r by lia. f_equal. lia. Qed.
Lemma pow16_pos n : 0 < pow16 n.
Proof. apply Z.pow_pos_nonneg; lia. Qed.

Lemma eval_app a b : eval (a ++ b) = eval a + pow16 (length a) * eval b.
Proof. induction a as [|x a IH]; cbn [app eval length]; [unfold pow16; simpl; lia|]. rewrite IH, pow16_S. lia. Qed.
Lemma eval_insert k v l : (k < length l)%nat -> eval (<[k := v]> l) = eval l + pow16 k * (v - nth k l 0).
Proof.
  revert k. induction l as [|x l IH]; intros k Hk; [simpl in Hk; lia|]. destruct k as [|k]; cbn [insert list_insert eval nth].
  - change (pow16 0) with 1. lia.
  - change (list_insert k v l) with (<[k := v]> l). rewrite IH by (simpl in Hk; lia). rewrite pow16_S. lia.
Qed.
Lemma eval_take_S k l : (k < length l)%nat -> eval (take (S k) l) = eval (take k l) + pow16 k * nth k l 0.
Proof.
  intros Hk. rewrite (take_S_r l k (nth k l 0)) by (rewrite nth_lookup; by apply lookup_lt_is_Some_2 in Hk as [? ->]).
  rewrite eval_app, length_take, Nat.min_l by lia. cbn [eval]. lia.
Qed.
Lemma eval_within b l : 0 <= b -> Forall (within b) l -> within (b * (pow16 (length l) - 1)) ((2 ^ 16 - 1) * eval l).
Proof.
  intros Hb. unfold within. induction 1 as [|x l Hx _ IH]; cbn [eval length]; [unfold pow16; simpl; lia|].
  rewrite pow16_S. lia.
Qed.
Lemma eval_digits l : Forall digit l -> 0 <= eval l < pow16 (length l).
Proof.
  unfold digit. induction 1 as [|x l Hx _ IH]; cbn [eval length]; [unfold pow16; simpl; lia|]. rewrite pow16_S. lia.
Qed.

(** Reading a list after a write. *)
Lemma nth_insert_eq k v (l : list Z) : (k < length l)%nat -> nth k (<[k := v]> l) 0 = v.
Proof. intros Hk. by rewrite nth_lookup, list_lookup_insert_eq. Qed.
Lemma nth_insert_ne k j v (l : list Z) : k <> j -> nth j (<[k := v]> l) 0 = nth j l 0.
Proof. intros Hk. by rewrite !nth_lookup, list_lookup_insert_ne. Qed.
Lemma Forall_nth_Z (Q : Z -> Prop) l : Forall Q l <-> forall i, (i < length l)%nat -> Q (nth i l 0).
Proof.
  rewrite Forall_lookup. split; intros H i.
  - intros Hi. apply (H i). rewrite nth_lookup. by apply lookup_lt_is_Some_2 in Hi as [? ->].
  - intros x Hx. specialize (H i (lookup_lt_Some _ _ _ Hx)). by rewrite nth_lookup, Hx in H.
Qed.

(** A signed limb as its digit and the carry. *)
Lemma split16 z : exists r c, Z.land z 0xffff = r /\ Z.shiftr z 16 = c /\ z = r + 2 ^ 16 * c /\ digit r.
Proof.
  exists (z mod 2 ^ 16), (z / 2 ^ 16). change 0xffff with (Z.ones 16). rewrite Z.land_ones, Z.shiftr_div_pow2 by lia.
  unfold digit. pose proof (Z.mod_pos_bound z (2 ^ 16)). pose proof (Z.div_mod z (2 ^ 16)). lia.
Qed.

(** ** A carry pass *)

(** After [k] steps: the number is the same, the first [k] limbs are digits, those
    after the current one are untouched. *)
Record carried (o : fe) (k : nat) (s : fe) : Prop := {
  carried_length : length s = 16%nat;
  carried_eval : eval s = eval o;
  carried_low : forall i, (i < k)%nat -> digit (nth i s 0);
  carried_high : forall i, (k < i < 16)%nat -> nth i s 0 = nth i o 0;
  carried_here : within (2 ^ 61 + 2 ^ 46) (nth k s 0) }.

Lemma carried_step o k s : Forall (within (2 ^ 61)) o -> length o = 16%nat -> (k < 15)%nat ->
  carried o k s -> carried o (S k) (carry_step k s).
Proof.
  intros Ho Hl Hk [Hs He Hlow Hhigh Hhere]. unfold carry_step. rewrite (proj2 (Nat.eqb_neq k 15)) by lia.
  rewrite (Nat.mod_small (k + 1)) by lia. replace (k + 1)%nat with (S k) by lia. rewrite Z.mul_1_l.
  rewrite (nth_insert_ne (S k) k) by lia. unfold within in *.
  destruct (split16 (nth k s 0)) as (r & c & -> & -> & E & R). unfold digit in R.
  assert (Hn : - 2 ^ 61 <= nth (S k) s 0 <= 2 ^ 61) by (rewrite Hhigh by lia; apply (proj1 (Forall_nth_Z _ o) Ho); lia).
  assert (Hc : - 2 ^ 46 <= c <= 2 ^ 46) by lia. rewrite !s64_small by (rewrite ?s64_small; lia).
  split; rewrite ?length_insert; try done.
  - rewrite !eval_insert, nth_insert_ne by (rewrite ?length_insert; lia). rewrite He, pow16_S. nia.
  - intros i Hi. destruct (decide (i = k)) as [->|]; [by rewrite nth_insert_eq by (rewrite length_insert; lia)|].
    rewrite !nth_insert_ne by lia. apply Hlow. lia.
  - intros i Hi. rewrite !nth_insert_ne by lia. apply Hhigh. lia.
  - rewrite nth_insert_ne, nth_insert_eq by lia. unfold within. lia.
Qed.

Lemma for_upto_S {A} n (f : nat -> A -> A) s : for_upto (S n) f s = f n (for_upto n f s).
Proof.
  unfold for_upto. assert (H : forall k i s, for_from i (S k) f s = f (i + k)%nat (for_from i k f s)); [|apply (H n 0%nat)].
  induction k as [|k IH]; intros i t; [by rewrite Nat.add_0_r|].
  change (for_from i (S (S k)) f t) with (for_from (S i) (S k) f (f i t)). rewrite IH.
  by replace (S i + k)%nat with (i + S k)%nat by lia.
Qed.

(** A pass: the digits of the number, and 38 times the rest added to the first. *)
Lemma fe16_carry_spec o : Forall (within (2 ^ 61)) o -> length o = 16%nat -> exists r c,
  length r = 16%nat /\ Forall digit r /\ carry o = <[0%nat := nth 0 r 0 + 38 * c]> r /\ eval o = eval r + 2 ^ 256 * c.
Proof.
  intros Ho Hl. unfold carry. rewrite for_upto_S.
  assert (H : carried o 15 (for_upto 15 carry_step o)).
  { apply (for_upto_ind (carried o)); [|intros i s Hi Hs; by apply carried_step].
    split; try done; [intros i Hi; lia|]. pose proof (proj1 (Forall_nth_Z _ o) Ho 0%nat ltac:(lia)) as H0. unfold within in *. lia. }
  destruct H as [Hs He Hlow _ Hhere]. set (s := for_upto 15 carry_step o) in *.
  unfold carry_step. change (15 =? 15)%nat with true. change ((15 + 1) mod 16)%nat with 0%nat. cbv iota.
  rewrite (nth_insert_ne 0 15) by lia. destruct (split16 (nth 15 s 0)) as (r & c & -> & -> & E & R).
  pose proof (Hlow 0%nat ltac:(lia)) as H0. unfold digit, within in *.
  rewrite !s64_small by (rewrite ?s64_small; lia). exists (<[15%nat := r]> s), c. split_and!.
  - by rewrite length_insert.
  - apply Forall_nth_Z. rewrite length_insert, Hs. intros i Hi. destruct (decide (i = 15%nat)) as [->|].
    + rewrite nth_insert_eq by lia. done.
    + rewrite nth_insert_ne by lia. apply Hlow. lia.
  - rewrite nth_insert_ne by lia. by rewrite list_insert_insert_ne by lia.
  - rewrite eval_insert, He, E by lia. change (pow16 15) with (2 ^ 240). lia.
Qed.

(** ** Products *)

Definition wide (b : Z) (l : list Z) : Prop := Forall (within b) l.

(** Adding a product to one sum. *)
Lemma mult_step_spec a b i j t m : length t = 31%nat -> (i < 16)%nat -> (j < 16)%nat -> 0 <= m <= 2 ^ 60 ->
  wide m t -> within (2 ^ 40) (nth i a 0 * nth j b 0) ->
  length (mult_step a b i j t) = 31%nat /\ wide (m + 2 ^ 40) (mult_step a b i j t) /\
  eval (mult_step a b i j t) = eval t + pow16 (i + j) * (nth i a 0 * nth j b 0).
Proof.
  intros Hl Hi Hj Hm Ht Hab. unfold mult_step. set (q := nth i a 0 * nth j b 0) in *. unfold within in Hab.
  pose proof (proj1 (Forall_nth_Z _ t) Ht) as Ht'. pose proof (Ht' (i + j)%nat ltac:(lia)) as Hk. unfold within in Hk.
  rewrite !s64_small by (rewrite ?s64_small; lia). split_and!.
  - by rewrite length_insert.
  - apply Forall_nth_Z. rewrite length_insert. intros k Hk'. destruct (decide (k = (i + j)%nat)) as [->|].
    + rewrite nth_insert_eq by lia. unfold within. lia.
    + rewrite nth_insert_ne by lia. pose proof (Ht' k ltac:(lia)) as Hx. unfold within in *. lia.
  - rewrite eval_insert by lia. f_equal. f_equal. lia.
Qed.

Lemma pow16_add a b : pow16 (a + b) = pow16 a * pow16 b.
Proof. unfold pow16. rewrite <- Z.pow_add_r by lia. f_equal. lia. Qed.

(** The sums of the schoolbook product. *)
Lemma mult_sums a b : length a = 16%nat -> length b = 16%nat ->
  (forall i j, (i < 16)%nat -> (j < 16)%nat -> within (2 ^ 40) (nth i a 0 * nth j b 0)) ->
  let t := for_upto 16 (fun i t => for_upto 16 (mult_step a b i) t) (replicate 31 0) in
  length t = 31%nat /\ wide (2 ^ 48) t /\ eval t = eval a * eval b.
Proof.
  intros Ha Hb Hp. cbv zeta.
  set (Inv := fun i j t => length t = 31%nat /\ wide (Z.of_nat (16 * i + j) * 2 ^ 40) t /\
    eval t = eval (take i a) * eval b + pow16 i * nth i a 0 * eval (take j b)).
  assert (H : Inv 16%nat 0%nat (for_upto 16 (fun i t => for_upto 16 (mult_step a b i) t) (replicate 31 0))).
  { apply (for_upto_ind (fun i => Inv i 0%nat)).
    - split; [done|]. split; [apply Forall_replicate; unfold within; lia|]. simpl. lia.
    - intros i t Hi Ht. assert (Hin : Inv i 16%nat (for_upto 16 (mult_step a b i) t)).
      { apply (for_upto_ind (fun j => Inv i j)); [done|]. clear t Ht. intros j t Hj (Hl & Hw & He).
        destruct (mult_step_spec a b i j t (Z.of_nat (16 * i + j) * 2 ^ 40) Hl Hi Hj ltac:(lia) Hw (Hp i j Hi Hj)) as (Hl' & Hw' & He').
        split; [done|]. split; [eapply Forall_impl; [exact Hw'|]; unfold within; intros x Hx; lia|].
        rewrite He', He, eval_take_S, pow16_add by lia. lia. }
      destruct Hin as (Hl & Hw & He). split; [done|].
      split; [eapply Forall_impl; [exact Hw|]; unfold within; intros x Hx; lia|].
      rewrite He, (eval_take_S i a), (firstn_all2 b) by lia. change (take 0 b) with (@nil Z). cbn [eval]. ring. }
  destruct H as (Hl & Hw & He). split; [done|]. split; [exact Hw|].
  rewrite He, firstn_all2 by lia. change (take 0 b) with (@nil Z). cbn [eval]. ring.
Qed.

(** Folding the upper sums: 2^256 is 38 modulo the prime. *)
Lemma fold_sums t : length t = 31%nat -> wide (2 ^ 48) t ->
  let f := for_upto 15 mult_fold t in
  length f = 31%nat /\ wide (2 ^ 54) f /\ eval (take 16 f) = eval (take 16 t) + 38 * eval (drop 16 t).
Proof.
  intros Hl Hw. cbv zeta. pose proof (proj1 (Forall_nth_Z _ t) Hw) as Ht. unfold within in Ht.
  set (Inv := fun k f => length f = 31%nat /\ (forall i, (k <= i < 31)%nat -> nth i f 0 = nth i t 0) /\
    (forall i, (i < k)%nat -> within (2 ^ 54) (nth i f 0)) /\
    eval (take 16 f) = eval (take 16 t) + 38 * eval (take k (drop 16 t))).
  assert (H : Inv 15%nat (for_upto 15 mult_fold t)).
  { apply (for_upto_ind Inv).
    - split_and!; try done; [intros i Hi; lia|]. change (take 0 (drop 16 t)) with (@nil Z). cbn [eval]. lia.
    - intros i f Hi (Hf & Hhi & Hlo & He). unfold mult_fold. rewrite !Hhi by lia.
      pose proof (Ht i ltac:(lia)) as H0. pose proof (Ht (i + 16)%nat ltac:(lia)) as H1.
      rewrite !s64_small by (rewrite ?s64_small; lia). split_and!.
      + by rewrite length_insert.
      + intros k Hk. rewrite nth_insert_ne by lia. apply Hhi. lia.
      + intros k Hk. destruct (decide (k = i)) as [->|]; [rewrite nth_insert_eq by lia; unfold within; lia|].
        rewrite nth_insert_ne by lia. apply Hlo. lia.
      + rewrite take_insert_lt, eval_insert, He, (eval_take_S i (drop 16 t)) by (rewrite ?length_take, ?length_drop; lia).
        rewrite !nth_lookup, lookup_take_lt, lookup_drop by lia. rewrite <- !nth_lookup, Hhi by lia.
        rewrite (Nat.add_comm 16). lia. }
  destruct H as (Hf & Hhi & Hlo & He). split_and!; [done| |].
  - apply Forall_nth_Z. intros i Hi. destruct (decide (i < 15)%nat); [by apply Hlo|].
    rewrite Hhi by lia. pose proof (Ht i ltac:(lia)). unfold within. lia.
  - rewrite He. do 3 f_equal. apply firstn_all2. rewrite length_drop. lia.
Qed.

(** ** The field *)

Definition val (f : fe) : Z := eval f mod X25519.p.
(** What a product returns, and what it accepts: a sum or a difference of two. *)
Definition tight (f : fe) : Prop := length f = 16%nat /\ Forall (fun x => - 38 <= x <= 2 ^ 16 + 37) f.
Definition loose (f : fe) : Prop := length f = 16%nat /\ wide (2 ^ 17 + 76) f.

Lemma fe16_tight_loose f : tight f -> loose f.
Proof. intros [Hl Hf]. split; [done|]. eapply Forall_impl; [exact Hf|]. unfold within. intros x Hx. lia. Qed.

Lemma val_shift a b k : a = b + k * X25519.p -> a mod X25519.p = b mod X25519.p.
Proof. intros ->. by apply Z.mod_add. Qed.

(** A carry pass does not change the number modulo the prime. *)
Lemma carry_val o r c : length r = 16%nat -> carry o = <[0%nat := nth 0 r 0 + 38 * c]> r -> eval o = eval r + 2 ^ 256 * c ->
  eval (carry o) = eval r + 38 * c /\ val (carry o) = val o.
Proof.
  intros Hl E He. assert (Ec : eval (carry o) = eval r + 38 * c).
  { rewrite E, eval_insert by lia. change (pow16 0) with 1. lia. }
  split; [done|]. unfold val. rewrite Ec, He. symmetry. apply (val_shift _ _ (2 * c)).
  change X25519.p with (2 ^ 255 - 19). lia.
Qed.

(** The pass after a pass: the carry out is at most one. *)
Lemma second_carry o r c : length r = 16%nat -> Forall digit r -> within (2 ^ 40) c ->
  o = <[0%nat := nth 0 r 0 + 38 * c]> r -> exists r' c', length r' = 16%nat /\ Forall digit r' /\
  carry o = <[0%nat := nth 0 r' 0 + 38 * c']> r' /\ eval r + 38 * c = eval r' + 2 ^ 256 * c' /\
  -1 <= c' <= 1 /\ val (carry o) = val o.
Proof.
  intros Hl Hr Hc ->. set (o := <[0%nat := _]> r). unfold within in Hc. pose proof (eval_digits r Hr) as Hv. rewrite Hl in Hv.
  change (pow16 16) with (2 ^ 256) in Hv. pose proof (proj1 (Forall_nth_Z _ r) Hr) as Hr'. unfold digit in Hr'.
  assert (Ho : Forall (within (2 ^ 61)) o).
  { apply Forall_nth_Z. unfold o. rewrite length_insert. intros i Hi. pose proof (Hr' 0%nat ltac:(lia)). pose proof (Hr' i Hi).
    unfold within. destruct (decide (i = 0%nat)) as [->|]; [rewrite nth_insert_eq by lia|rewrite nth_insert_ne by lia]; lia. }
  destruct (fe16_carry_spec o Ho) as (r' & c' & Hl' & Hd' & E & He); [unfold o; by rewrite length_insert|].
  destruct (carry_val o r' c' Hl' E He) as [_ Hval]. pose proof (eval_digits r' Hd') as Hv'. rewrite Hl' in Hv'.
  change (pow16 16) with (2 ^ 256) in Hv'. assert (Eo : eval o = eval r + 38 * c).
  { unfold o. rewrite eval_insert by lia. change (pow16 0) with 1. lia. }
  exists r', c'. split_and!; try done; lia.
Qed.

Lemma tight_of r c : length r = 16%nat -> Forall digit r -> -1 <= c <= 1 -> tight (<[0%nat := nth 0 r 0 + 38 * c]> r).
Proof.
  intros Hl Hr Hc. pose proof (proj1 (Forall_nth_Z _ r) Hr) as Hr'. unfold digit in Hr'. split; [by rewrite length_insert|].
  apply Forall_nth_Z. rewrite length_insert. intros i Hi. pose proof (Hr' 0%nat ltac:(lia)). pose proof (Hr' i Hi).
  destruct (decide (i = 0%nat)) as [->|]; [rewrite nth_insert_eq by lia|rewrite nth_insert_ne by lia]; lia.
Qed.

Lemma within_mul b x y : within b x -> within b y -> within (b * b) (x * y).
Proof. unfold within. intros Hx Hy. nia. Qed.

Lemma multmod_spec a b : loose a -> loose b ->
  tight (multmod a b) /\ val (multmod a b) = X25519.fmul (val a) (val b).
Proof.
  intros [Ha Wa] [Hb Wb]. unfold multmod.
  destruct (mult_sums a b Ha Hb) as (Hl & Hw & He).
  { intros i j Hi Hj. pose proof (proj1 (Forall_nth_Z _ a) Wa i ltac:(lia)). pose proof (proj1 (Forall_nth_Z _ b) Wb j ltac:(lia)).
    assert (Hm : within ((2 ^ 17 + 76) * (2 ^ 17 + 76)) (nth i a 0 * nth j b 0)) by (by apply within_mul).
    unfold within in *. lia. }
  set (t := for_upto 16 _ _) in *. destruct (fold_sums t Hl Hw) as (Hlf & Hwf & Hef). set (f := for_upto 15 mult_fold t) in *.
  assert (Hl16 : length (take 16 f) = 16%nat) by (rewrite length_take; lia).
  assert (H16 : wide (2 ^ 54) (take 16 f)) by (by apply Forall_take).
  destruct (fe16_carry_spec (take 16 f)) as (r & c & Hr & Hd & E & Hc); [|done|].
  { eapply Forall_impl; [exact H16|]. unfold within. intros x Hx. lia. }
  destruct (carry_val _ r c Hr E Hc) as [_ Hval].
  assert (Hcb : within (2 ^ 40) c).
  { pose proof (eval_within (2 ^ 54) _ ltac:(lia) H16) as HE. rewrite Hl16 in HE. pose proof (eval_digits r Hd) as HR. rewrite Hr in HR.
    change (pow16 16) with (2 ^ 256) in *. unfold within in *. lia. }
  destruct (second_carry _ r c Hr Hd Hcb E) as (r' & c' & Hr' & Hd' & E' & He' & Hc' & Hval').
  split; [rewrite E'; by apply tight_of|]. rewrite Hval', Hval. unfold X25519.fmul, val. rewrite <- Zmult_mod, <- He, Hef.
  symmetry. apply (val_shift _ _ (2 * eval (drop 16 t))). rewrite <- (take_drop 16 t) at 1. rewrite eval_app, length_take.
  rewrite Nat.min_l by lia. change (pow16 16) with (2 ^ 256). change X25519.p with (2 ^ 255 - 19). lia.
Qed.

(** Sums and differences, limb by limb. *)
Lemma zip_spec (sg : Z) (f : Z -> Z -> Z) a b : -1 <= sg <= 1 ->
  (forall x y, -38 <= x <= 2 ^ 16 + 37 -> -38 <= y <= 2 ^ 16 + 37 -> f x y = x + sg * y) -> tight a -> tight b ->
  loose (zip_with f a b) /\ eval (zip_with f a b) = eval a + sg * eval b.
Proof.
  intros Hsg Hf [Ha Ta] [Hb Tb]. unfold loose. rewrite length_zip_with, Ha, Hb.
  assert (H : length a = length b) by lia. clear Ha Hb. split; [split; [done|]|]; revert b H Tb.
  - induction Ta as [|x a Hx Ta IH]; intros [|y b] H Tb; try done; [constructor|]. inversion_clear Tb as [|? ? Hy Tb'].
    cbn [zip_with]. constructor; [rewrite Hf by done; unfold within; nia|]. apply IH; [by injection H|done].
  - induction Ta as [|x a Hx Ta IH]; intros [|y b] H Tb; try done; [simpl; lia|]. inversion_clear Tb as [|? ? Hy Tb'].
    cbn [zip_with eval]. rewrite Hf, IH by (done || by injection H). ring.
Qed.
Lemma add_spec a b : tight a -> tight b -> loose (add a b) /\ val (add a b) = X25519.fadd (val a) (val b).
Proof.
  intros Ha Hb. destruct (zip_spec 1 (fun x y => s64 (x + y)) a b) as [Hl He]; try done.
  { intros x y Hx Hy. rewrite s64_small; lia. }
  split; [done|]. unfold X25519.fadd, val. rewrite <- Zplus_mod. f_equal. unfold add. lia.
Qed.
Lemma subtract_spec a b : tight a -> tight b -> loose (subtract a b) /\ val (subtract a b) = X25519.fsub (val a) (val b).
Proof.
  intros Ha Hb. destruct (zip_spec (-1) (fun x y => s64 (x - y)) a b) as [Hl He]; try done.
  { intros x y Hx Hy. rewrite s64_small; lia. }
  split; [done|]. unfold X25519.fsub, val. rewrite <- Zminus_mod. f_equal. unfold subtract. lia.
Qed.

#[export] Instance embed_rep : FieldRep.FieldRep val tight multmod (fun a => multmod a a).
Proof.
  split; [|intros a Ha; apply multmod_spec; by apply fe16_tight_loose|intros a; apply Zmod_mod].
  intros a b Ha Hb. apply multmod_spec; by apply fe16_tight_loose.
Qed.

(** ** Inversion *)

(** The exponent after the turns of the loop that are left. *)
Fixpoint exponent (n : nat) (e : Z) : Z :=
  match n with
  | O => e
  | S a => exponent a (if (a =? 2)%nat || (a =? 4)%nat then 2 * e else 2 * e + 1)
  end.
Lemma invert_loop_spec z n i c e : 0 <= e -> FieldRep.power val tight z 1 i -> FieldRep.power val tight z e c ->
  FieldRep.power val tight z (exponent n e) (invert_loop n i c).
Proof.
  revert c e. induction n as [|a IH]; intros c e He Hi Hc; [done|]. cbn [invert_loop exponent].
  pose proof (FieldRep.power_square z e c He Hc) as H2. cbv beta in H2.
  destruct ((a =? 2)%nat || (a =? 4)%nat); [apply IH; [lia|done|done]|].
  apply IH; [lia|done|]. by apply FieldRep.power_mul; [lia| | |].
Qed.
Lemma invert_spec i : tight i -> FieldRep.power val tight (val i) (X25519.p - 2) (invert i).
Proof.
  intros Hi. replace (X25519.p - 2) with (exponent 254 1) by (vm_compute; reflexivity). unfold invert.
  pose proof (FieldRep.power_one i Hi) as H1. apply invert_loop_spec; [lia|exact H1|exact H1].
Qed.
End EmbedField.
