(* ===== verification/EmbedKeys.v ===== *)
(** * The keys of the embeddable library: its public key is X25519
    (contrib/embeddable-wg-library/wireguard.c)

    The final reduction and the bytes of the result, the ladder, and the codec. *)
From S2P Require Import Prelude Libc Encoding IpcUapi Wg Prime25519 X25519 FieldRep Curve25519 Embed EmbedField.
Import Libc Encoding Wg Embed EmbedField.

Module EmbedKeys.

(** ** Conditional swaps *)

Lemma fe16_cswap_spec p q (b : bool) : length p = 16%nat -> length q = 16%nat ->
  cswap p q (Z.b2z b) = if b then (q, p) else (p, q).
Proof.
  intros Hp Hq. unfold cswap. replace (Z.lnot (Z.b2z b - 1)) with (if b then -1 else 0) by by destruct b.
  set (Inv := fun k (pq : fe * fe) => length pq.1 = 16%nat /\ length pq.2 = 16%nat /\ forall i, (i < 16)%nat ->
    nth i pq.1 0 = (if b && (i <? k)%nat then nth i q 0 else nth i p 0) /\
    nth i pq.2 0 = (if b && (i <? k)%nat then nth i p 0 else nth i q 0)).
  assert (H : Inv 16%nat (for_upto 16 (cswap_step (if b then -1 else 0)) (p, q))).
  { apply (for_upto_ind Inv); [split_and!; try done; intros i Hi; by rewrite andb_false_r|].
    intros k [x y] Hk (Hx & Hy & Hi). cbn [fst snd] in *. destruct (Hi k Hk) as [Ex Ey].
    rewrite Nat.ltb_irrefl, andb_false_r in Ex, Ey. unfold cswap_step. cbn [fst snd]. rewrite Ex, Ey.
    split_and!; cbn [fst snd]; rewrite ?length_insert; try done. intros i Hi'. destruct (Hi i Hi') as [Fx Fy].
    destruct (decide (k = i)) as [<-|Hne].
    - rewrite !nth_insert_eq by lia. rewrite (proj2 (Nat.ltb_lt k (S k))) by lia. rewrite andb_true_r. destruct b.
      + rewrite Z.land_m1_l, <- Z.lxor_assoc, Z.lxor_nilpotent, Z.lxor_0_l. split; [done|].
        by rewrite (Z.lxor_comm (nth k p 0)), <- Z.lxor_assoc, Z.lxor_nilpotent, Z.lxor_0_l.
      + by rewrite Z.land_0_l, !Z.lxor_0_r.
    - rewrite !nth_insert_ne by done. rewrite Fx, Fy. replace (i <? S k)%nat with (i <? k)%nat; [done|].
      apply eq_iff_eq_true. rewrite !Nat.ltb_lt. lia. }
  destruct (for_upto _ _ _) as [x y]. destruct H as (Hx & Hy & Hi). cbn [fst snd] in *.
  assert (Ex : x = if b then q else p).
  { apply (nth_ext _ _ 0 0); [destruct b; lia|]. intros i Hi'. rewrite (proj1 (Hi i ltac:(lia))).
    rewrite (proj2 (Nat.ltb_lt i 16)) by lia. by destruct b. }
  assert (Ey : y = if b then p else q).
  { apply (nth_ext _ _ 0 0); [destruct b; lia|]. intros i Hi'. rewrite (proj2 (Hi i ltac:(lia))).
    rewrite (proj2 (Nat.ltb_lt i 16)) by lia. by destruct b. }
  rewrite Ex, Ey. by destruct b.
Qed.

(** ** The final reduction *)

Definition canonical (t : fe) : Prop := length t = 16%nat /\ Forall digit t.

(** Three passes leave the digits of the number. *)
Lemma carry3_spec n : tight n -> canonical (carry (carry (carry n))) /\ val (carry (carry (carry n))) = val n.
Proof.
  intros [Hl Ht]. assert (Hw : Forall (within (2 ^ 16 + 37)) n).
  { eapply Forall_impl; [exact Ht|]. unfold within. intros x Hx. lia. }
  destruct (fe16_carry_spec n) as (r1 & c1 & Hr1 & Hd1 & E1 & He1); [|done|].
  { eapply Forall_impl; [exact Hw|]. unfold within. intros x Hx. lia. }
  destruct (carry_val n r1 c1 Hr1 E1 He1) as [_ V1].
  pose proof (eval_within (2 ^ 16 + 37) n ltac:(lia) Hw) as HE. rewrite Hl in HE.
  pose proof (eval_digits r1 Hd1) as HR1. rewrite Hr1 in HR1. change (pow16 16) with (2 ^ 256) in *.
  assert (Hc1 : -2 <= c1 <= 2) by (unfold within in HE; lia).
  destruct (second_carry (carry n) r1 c1 Hr1 Hd1) as (r2 & c2 & Hr2 & Hd2 & E2 & He2 & Hc2 & V2); [unfold within; lia|done|].
  destruct (second_carry (carry (carry n)) r2 c2 Hr2 Hd2) as (r3 & c3 & Hr3 & Hd3 & E3 & He3 & Hc3 & V3); [unfold within; lia|done|].
  pose proof (eval_digits r2 Hd2) as HR2. pose proof (eval_digits r3 Hd3) as HR3. rewrite Hr2 in HR2. rewrite Hr3 in HR3.
  change (pow16 16) with (2 ^ 256) in *. assert (c3 = 0) as -> by lia.
  split; [|by rewrite V3, V2, V1]. rewrite E3, Z.mul_0_r, Z.add_0_r. rewrite list_insert_id; [done|].
  rewrite nth_lookup. destruct (lookup_lt_is_Some_2 r3 0 ltac:(lia)) as [x Hx]. by rewrite Hx.
Qed.

(** The digits of the prime. *)
Definition prime_digits : list Z := 0xffed :: replicate 14 0xffff ++ [0x7fff].
Lemma prime_digits_eval : eval prime_digits = X25519.p.
Proof. reflexivity. Qed.
Lemma borrow_bit x : - 2 ^ 16 <= x < 2 ^ 16 -> exists r b, Z.land x 0xffff = r /\ Z.land (Z.shiftr x 16) 1 = b /\
  x = r - 2 ^ 16 * b /\ digit r /\ (b = 0 \/ b = 1).
Proof.
  intros Hx. destruct (split16 x) as (r & c & E & E' & V & R). exists r, (- c). unfold digit in R.
  assert (c = 0 \/ c = -1) as [-> | ->] by lia; rewrite E, E'; split_and!; try done; lia.
Qed.

(** The difference below the limb [k], which still has its borrow. *)
Record subtracted (t : fe) (k : nat) (m : fe) : Prop := {
  sub_length : length m = 16%nat;
  sub_low : forall i, (i < k)%nat -> digit (nth i m 0);
  sub_here : - 2 ^ 16 <= nth k m 0 < 2 ^ 16;
  sub_eval : eval (take (S k) m) = eval (take (S k) t) - eval (take (S k) prime_digits) }.

(** Taking the borrow of the limb [k] to the next one. *)
Lemma subtracted_next t k m d x : canonical t -> (k < 15)%nat -> subtracted t k m -> digit d ->
  nth (S k) prime_digits 0 = d -> x = nth (S k) t 0 - d - Z.land (Z.shiftr (nth k m 0) 16) 1 ->
  subtracted t (S k) (<[k := Z.land (nth k m 0) 0xffff]> (<[S k := x]> m)).
Proof.
  intros [Hlt Hdt] Hk [Hl Hlow Hhere He] Hd Hp ->. destruct (borrow_bit _ Hhere) as (r & b & -> & -> & V & R & Hb).
  pose proof (proj1 (Forall_nth_Z _ t) Hdt (S k) ltac:(lia)) as Hx. unfold digit in *.
  set (x := nth (S k) t 0 - d - b). split.
  - by rewrite !length_insert.
  - intros i Hi. destruct (decide (i = k)) as [->|]; [by rewrite nth_insert_eq by (rewrite length_insert; lia)|].
    rewrite !nth_insert_ne by lia. apply Hlow. lia.
  - rewrite nth_insert_ne, nth_insert_eq by lia. unfold x. lia.
  - rewrite (eval_take_S (S k) t), (eval_take_S (S k) prime_digits), eval_take_S by (rewrite ?length_insert; simpl; lia).
    rewrite Hp, nth_insert_ne, nth_insert_eq by lia.
    rewrite eval_take_S, nth_insert_eq by (rewrite ?length_insert; lia). rewrite !take_insert_ge by lia.
    rewrite eval_take_S in He by lia. rewrite pow16_S. unfold x. nia.
Qed.

Lemma pack_turn_spec t m : canonical t -> length m = 16%nat -> exists t' m',
  pack_turn (t, m) = (t', m') /\ canonical t' /\ length m' = 16%nat /\
  eval t' = if X25519.p <=? eval t then eval t - X25519.p else eval t.
Proof.
  intros Ht Hm. pose proof Ht as [Hlt Hdt]. pose proof (proj1 (Forall_nth_Z _ t) Hdt) as Hd. unfold digit in Hd.
  pose proof (Hd 0%nat ltac:(lia)) as H0. unfold pack_turn. rewrite (s64_small (nth 0 t 0 - 0xffed)) by lia.
  assert (H : subtracted t 14 (for_upto 14 (pack_step t) (<[0%nat := nth 0 t 0 - 0xffed]> m))).
  { apply (for_upto_ind (subtracted t)).
    - split; [by rewrite length_insert|lia|rewrite nth_insert_eq by lia; lia|].
      rewrite !eval_take_S, nth_insert_eq by (rewrite ?length_insert; simpl; lia). change (nth 0 prime_digits 0) with 0xffed.
      change (pow16 0) with 1. change (take 0 _) with (@nil Z). cbn [eval]. simpl (eval (take 0 _)). lia.
    - intros k s Hk Hs. unfold pack_step. pose proof Hs as [Hls _ Hh _]. destruct (borrow_bit _ Hh) as (r & b & _ & Eb & _ & _ & Hb).
      rewrite nth_insert_ne by lia. pose proof (Hd (S k) ltac:(lia)).
      rewrite !s64_small by (rewrite ?s64_small, ?Eb; lia).
      apply (subtracted_next t k s 0xffff); try done; [lia|]. do 14 (destruct k as [|k]; [done|]). lia. }
  set (s := for_upto 14 _ _) in *. clearbody s. pose proof H as [Hls _ Hh _].
  destruct (borrow_bit _ Hh) as (r & b & _ & Eb & _ & _ & Hb). pose proof (Hd 15%nat ltac:(lia)).
  rewrite !s64_small by (rewrite ?s64_small, ?Eb; lia). rewrite nth_insert_eq, nth_insert_ne by lia.
  pose proof (subtracted_next t 14 s 0x7fff _ Ht ltac:(lia) H ltac:(done) eq_refl eq_refl) as [Hl Hlow Hx He].
  rewrite nth_insert_ne, nth_insert_eq in Hx by lia.
  set (x := nth 15 t 0 - 0x7fff - Z.land (Z.shiftr (nth 14 s 0) 16) 1) in *.
  set (m' := <[14%nat := _]> (<[15%nat := x]> s)) in *. destruct (borrow_bit x Hx) as (rx & bx & _ & -> & Vx & Rx & Hbx).
  rewrite !firstn_all2, prime_digits_eval in He by (rewrite ?Hl, ?Hlt; simpl; lia).
  assert (Em : eval m' = eval (take 15 m') + pow16 15 * x).
  { rewrite <- (firstn_all2 m' (n := 16)) at 1 by lia. rewrite eval_take_S by lia. do 2 f_equal. unfold m'.
    rewrite nth_insert_ne, nth_insert_eq by lia. done. }
  assert (Hlo : 0 <= eval (take 15 m') < pow16 15).
  { pose proof (eval_digits (take 15 m')) as Hv. rewrite length_take, Nat.min_l in Hv by lia. apply Hv.
    apply Forall_nth_Z. rewrite length_take. intros i Hi. rewrite nth_lookup, lookup_take_lt, <- nth_lookup by lia. apply Hlow. lia. }
  change (pow16 15) with (2 ^ 240) in *. unfold digit in Rx.
  destruct (Z.leb_spec X25519.p (eval t)).
  - assert (bx = 0) as -> by lia. change (1 - 0) with (Z.b2z true). rewrite fe16_cswap_spec by done.
    exists m', t. split_and!; try done. split; [done|]. apply Forall_nth_Z. rewrite Hl. intros i Hi.
    destruct (decide (i = 15%nat)) as [->|]; [|apply Hlow; lia]. unfold m'.
    rewrite nth_insert_ne, nth_insert_eq by lia. unfold digit. lia.
  - assert (bx = 1) as -> by lia. change (1 - 1) with (Z.b2z false). rewrite fe16_cswap_spec by done. by exists t, m'.
Qed.

Lemma digit_bytes t : Forall digit t ->
  concat (map (fun ti => [Z.land ti 0xff; u8 (Z.shiftr ti 8)]) t) = le_bytes (2 * length t) (eval t).
Proof.
  unfold digit. induction 1 as [|x t Hx _ IH]; [done|]. cbn [map concat length eval]. rewrite IH.
  replace (2 * S (length t))%nat with (2 + 2 * length t)%nat by lia. change (2 ^ 16) with (256 ^ Z.of_nat 2) in *.
  rewrite X25519.le_bytes_join by done. f_equal. cbn [le_bytes]. change 0xff with (Z.ones 8).
  by rewrite Z.land_ones, Z.shiftr_div_pow2 by lia.
Qed.

Lemma pack_spec junk n : length junk = 16%nat -> tight n -> pack junk n = le_bytes 32 (val n).
Proof.
  intros Hj Hn. destruct (carry3_spec n Hn) as [Hc <-]. unfold pack. set (t := carry (carry (carry n))) in *. clearbody t.
  destruct (pack_turn_spec t junk Hc Hj) as (t1 & m1 & -> & Hc1 & Hm1 & E1).
  destruct (pack_turn_spec t1 m1 Hc1 Hm1) as (t2 & m2 & -> & [Hl2 Hd2] & _ & E2).
  rewrite digit_bytes, Hl2 by done. change (2 * 16)%nat with 32%nat. f_equal.
  pose proof (eval_digits t (proj2 Hc)) as Hr. rewrite (proj1 Hc) in Hr. change (pow16 16) with (2 ^ 256) in Hr.
  unfold val. rewrite E2, E1. change X25519.p with (2 ^ 255 - 19).
  destruct (Z.leb_spec (2 ^ 255 - 19) (eval t)); [destruct (Z.leb_spec (2 ^ 255 - 19) (eval t - (2 ^ 255 - 19)))|
    destruct (Z.leb_spec (2 ^ 255 - 19) (eval t)); [lia|]].
  - apply Z.mod_unique with 2; lia.
  - apply Z.mod_unique with 1; lia.
  - symmetry. apply Z.mod_small. lia.
Qed.

(** ** The ladder *)

Record tight_vars (s : vars) : Prop := {
  tight_a : tight (va s); tight_b : tight (vb s); tight_c : tight (vc s); tight_d : tight (vd s) }.
Definition vals (s : vars) : X25519.state :=
  {| X25519.x2 := val (va s); X25519.z2 := val (vc s); X25519.x3 := val (vb s); X25519.z3 := val (vd s) |}.

Definition swapped (b : bool) (s : vars) : vars :=
  if b then {| va := vb s; vb := va s; vc := vd s; vd := vc s |} else s.
Lemma fe16_swapped_tight b s : tight_vars s -> tight_vars (swapped b s).
Proof. intros []. by destruct b. Qed.
Lemma fe16_swapped_vals b s : vals (swapped b s) = X25519.cswap b (vals s).
Proof. by destruct b. Qed.

#[local] Opaque multmod add subtract cswap.

(** The arithmetic of a turn, by the names of the specification. *)
Definition ladder_step (s : vars) : vars :=
  let a := add (va s) (vc s) in
  let b := subtract (va s) (vc s) in
  let c := add (vb s) (vd s) in
  let d := subtract (vb s) (vd s) in
  let aa := multmod a a in
  let bb := multmod b b in
  let cb := multmod c b in
  let da := multmod d a in
  let e := subtract aa bb in
  {| va := multmod aa bb; vb := multmod (add cb da) (add cb da);
     vc := multmod e (add (multmod e (fe_init [0xdb41; 1])) aa);
     vd := multmod (multmod (subtract cb da) (subtract cb da)) (fe_init [9]) |}.

Lemma fe16_ladder_step_spec s : tight_vars s ->
  tight_vars (ladder_step s) /\ vals (ladder_step s) = X25519.step 9 (vals s).
Proof.
  destruct s as [x x' z z']. intros [Hx Hx' Hz Hz']. cbn [va vb vc vd] in *. unfold ladder_step. cbn [va vb vc vd].
  destruct (add_spec x z Hx Hz) as [Ba Va]. set (a := add x z) in *.
  destruct (subtract_spec x z Hx Hz) as [Bb Vb]. set (b := subtract x z) in *.
  destruct (add_spec x' z' Hx' Hz') as [Bc Vc]. set (c := add x' z') in *.
  destruct (subtract_spec x' z' Hx' Hz') as [Bd Vd]. set (d := subtract x' z') in *.
  destruct (multmod_spec a a Ba Ba) as [Baa Vaa]. set (aa := multmod a a) in *.
  destruct (multmod_spec b b Bb Bb) as [Bbb Vbb]. set (bb := multmod b b) in *.
  destruct (multmod_spec c b Bc Bb) as [Bcb Vcb]. set (cb := multmod c b) in *.
  destruct (multmod_spec d a Bd Ba) as [Bda Vda]. set (da := multmod d a) in *.
  destruct (subtract_spec aa bb Baa Bbb) as [Be Ve]. set (e := subtract aa bb) in *.
  destruct (add_spec cb da Bcb Bda) as [Bs Vs]. set (su := add cb da) in *.
  destruct (subtract_spec cb da Bcb Bda) as [Bf Vf]. set (df := subtract cb da) in *.
  assert (Ht : tight (fe_init [0xdb41; 1]) /\ tight (fe_init [9])).
  { split; (split; [done|]; repeat (constructor; [lia|]); constructor). }
  destruct (multmod_spec e _ Be (fe16_tight_loose _ (proj1 Ht))) as [Bg Vg]. set (g := multmod e _) in *.
  destruct (add_spec g aa Bg Baa) as [Bh Vh]. set (h := add g aa) in *.
  destruct (multmod_spec df df Bf Bf) as [Bq Vq]. set (q := multmod df df) in *.
  destruct (multmod_spec aa bb (fe16_tight_loose _ Baa) (fe16_tight_loose _ Bbb)) as [B2 V2].
  destruct (multmod_spec su su Bs Bs) as [B3 V3]. destruct (multmod_spec e h Be Bh) as [Bz2 Vz2].
  destruct (multmod_spec q _ (fe16_tight_loose _ Bq) (fe16_tight_loose _ (proj2 Ht))) as [Bz3 Vz3].
  split; [split; cbn [va vb vc vd]; [exact B2|exact B3|exact Bz2|exact Bz3]|]. unfold vals. cbn [va vb vc vd].
  rewrite V2, Vz2, V3, Vz3, Vq, Vh, Vg, Ve, Vs, Vf, Vaa, Vbb, Vcb, Vda, Va, Vb, Vc, Vd.
  replace (val (fe_init [0xdb41; 1])) with 121665 by reflexivity. replace (val (fe_init [9])) with 9 by reflexivity.
  unfold X25519.step, X25519.a24. cbn [X25519.x2 X25519.z2 X25519.x3 X25519.z3]. f_equal; X25519.field_eq.
Qed.

(** A turn swaps, steps and swaps again. *)
Lemma cswap_tight p q (b : bool) : tight p -> tight q -> cswap p q (Z.b2z b) = if b then (q, p) else (p, q).
Proof. intros [Hp _] [Hq _]. by apply fe16_cswap_spec. Qed.
Lemma ladder_turn_eq z i s (b : bool) : tight_vars s ->
  Z.land (Z.shiftr (nth (i / 8) z 0) (Z.of_nat (i mod 8))) 1 = Z.b2z b ->
  ladder_turn z i s = swapped b (ladder_step (swapped b s)).
Proof.
  intros Hs Hb. destruct (fe16_ladder_step_spec _ (fe16_swapped_tight b s Hs)) as [[Ka Kb Kc Kd] _]. destruct Hs as [Ha Hb' Hc Hd].
  unfold ladder_turn. rewrite Hb, (cswap_tight (va s)), (cswap_tight (vc s)) by assumption.
  destruct b; cbn [swapped va vb vc vd ladder_step] in *; cbv zeta in *.
  - rewrite (cswap_tight _ _ true Ka Kb), (cswap_tight _ _ true Kc Kd). reflexivity.
  - rewrite (cswap_tight _ _ false Ka Kb), (cswap_tight _ _ false Kc Kd). reflexivity.
Qed.

(** The bit a turn reads. *)
Lemma turn_bit l i : Forall is_byte l ->
  Z.land (Z.shiftr (nth (i / 8) l 0) (Z.of_nat (i mod 8))) 1 = Z.b2z (Z.testbit (le_number l) (Z.of_nat i)).
Proof.
  intros Hl. pose proof (Nat.div_mod_eq i 8). pose proof (Nat.mod_upper_bound i 8 ltac:(lia)).
  replace (Z.of_nat i) with (8 * Z.of_nat (i / 8) + Z.of_nat (i mod 8)) by lia.
  rewrite X25519.le_number_testbit by (done || lia). change 1 with (Z.ones 1). rewrite Z.land_ones by lia. change (2 ^ 1) with 2.
  by rewrite <- Z.bit0_mod, Z.shiftr_spec, Z.add_0_l by lia.
Qed.

Lemma ladder_turn_spec z i s : Forall is_byte z -> tight_vars s -> tight_vars (ladder_turn z i s) /\
  vals (ladder_turn z i s) = X25519.bit_step 9 (Z.testbit (le_number z) (Z.of_nat i)) (vals s).
Proof.
  intros Hz Hs. rewrite (ladder_turn_eq z i s _ Hs (turn_bit z i Hz)). generalize (Z.testbit (le_number z) (Z.of_nat i)). intros b.
  destruct (fe16_ladder_step_spec _ (fe16_swapped_tight b s Hs)) as [Ht Hv]. split; [exact (fe16_swapped_tight b _ Ht)|].
  rewrite fe16_swapped_vals, Hv, fe16_swapped_vals. reflexivity.
Qed.
(** A property every turn preserves, from the number of turns down. *)
Lemma for_down_ind {A} (Inv : nat -> A -> Prop) n body s :
  Inv n s -> (forall i s, Inv (S i) s -> Inv i (body i s)) -> Inv 0%nat (for_down n body s).
Proof. intros H0 Hstep. revert s H0. induction n as [|n IH]; intros s H0; [done|]. apply IH, Hstep, H0. Qed.

Lemma ladder_S u k n s :
  X25519.ladder u k (S n) s = X25519.ladder u k n (X25519.bit_step u (Z.testbit k (Z.of_nat n)) s).
Proof. reflexivity. Qed.
Lemma fe16_ladder_loop_spec z n s : Forall is_byte z -> tight_vars s ->
  tight_vars (ladder_loop z n s) /\ vals (ladder_loop z n s) = X25519.ladder 9 (le_number z) n (vals s).
Proof.
  intros Hz Hs. set (k := le_number z).
  apply (for_down_ind (fun i s' => tight_vars s' /\ X25519.ladder 9 k i (vals s') = X25519.ladder 9 k n (vals s))).
  - split; [exact Hs|reflexivity].
  - intros i s' [Hs' E]. destruct (ladder_turn_spec z i s' Hz Hs') as [Ht Hv]. split; [exact Ht|].
    rewrite Hv. rewrite <- E. symmetry. apply ladder_S.
Qed.

Lemma clamp_key_eq k : length k = 32%nat -> clamp_key k = curve25519_clamp_secret k.
Proof.
  intros Hk. unfold clamp_key, curve25519_clamp_secret, clamp_first, clamp_last.
  rewrite (nth_insert_ne 31 0), (nth_insert_ne 0 31) by lia. by rewrite list_insert_insert_ne by lia.
Qed.

Lemma generate_public_key_x25519 junk k : length junk = 16%nat -> wf_key k ->
  wg_generate_public_key junk k = X25519.X25519 k Curve25519.basepoint.
Proof.
  intros Hj Hk. unfold wg_generate_public_key. rewrite clamp_key_eq by apply Hk. cbv zeta.
  pose proof (proj1 (clamp_wf_idem k Hk)) as [_ Hc]. set (z := curve25519_clamp_secret k) in *.
  set (s0 := {| va := fe_init [1]; vb := fe_init [9]; vc := fe_init []; vd := fe_init [1] |}).
  assert (H0 : tight_vars s0).
  { split; (split; [done|]; repeat (constructor; [lia|]); constructor). }
  destruct (fe16_ladder_loop_spec z 255 s0 Hc H0) as [[Ha _ Hvc _] Hv]. change (vals s0) with (X25519.start 9) in Hv.
  unfold X25519.X25519, X25519.x25519. rewrite X25519.decode_scalar_clamp by done. fold z.
  change (X25519.decode_u Curve25519.basepoint) with 9. rewrite <- Hv. unfold vals. cbn [X25519.x2 X25519.z2].
  generalize dependent (ladder_loop z 255 s0). intros s Ha Hvc _. destruct (invert_spec _ Hvc) as [Hi Ei].
  destruct (multmod_spec _ _ (fe16_tight_loose _ Ha) (fe16_tight_loose _ Hi)) as [Hm Em].
  rewrite (pack_spec junk _ Hj Hm), Em, Ei, X25519.finv_pow. reflexivity.
Qed.

(** [wg_generate_public_key] of the embeddable library computes X25519 of the key
    and the base point, whatever its uninitialised array holds, with no signed
    overflow that changes the result; so it agrees with [curve25519_generate_public]
    of the tools, whichever implementation that is compiled with. (C32) *)
Theorem embed_public_key (sizeof_int128 : bool) junk k : length junk = 16%nat -> wf_key k ->
  wg_generate_public_key junk k = X25519.X25519 k Curve25519.basepoint /\
  wg_generate_public_key junk k =
    Curve25519.curve25519_generate_public (C := Curve25519.implementation sizeof_int128) k /\
  wg_generate_public_key junk (clamp_key k) = wg_generate_public_key junk k.
Proof.
  intros Hj Hk. pose proof (proj1 (clamp_wf_idem k Hk)) as Hc. rewrite clamp_key_eq by apply Hk.
  rewrite (generate_public_key_x25519 junk k Hj Hk), (generate_public_key_x25519 junk _ Hj Hc).
  rewrite (Curve25519.generate_public_x25519 (C := Curve25519.implementation sizeof_int128) k Hk).
  split; [reflexivity|]. split; [reflexivity|]. by apply Curve25519.X25519_clamp.
Qed.
Lemma embed_public_key_witness :
  wg_generate_public_key (replicate 16 7) sample_key = X25519.X25519 sample_key Curve25519.basepoint.
Proof.
  destruct (embed_public_key true (replicate 16 7) sample_key eq_refl sample_key_wf) as [H _]. exact H.
Defined.

(** ** The codec *)

Lemma errno_of ret : is_byte ret ->
  Z.land IpcUapi.EINVAL (Z.lnot (Z.shiftr (ret - 1) 8)) =
  if negb (Z.land 1 (Z.shiftr (ret - 1) 8) =? 0) then 0 else IpcUapi.EINVAL.
Proof.
  intros Hb. apply Z.eqb_eq. revert ret Hb. apply byte_forall. vm_compute. reflexivity.
Qed.

Lemma is_zero_eq k : wg_key_is_zero k = key_is_zero k.
Proof. unfold wg_key_is_zero, key_is_zero, WG_KEY_LEN. reflexivity. Qed.

Section Codec.
Context `{P : Platform}.

Lemma from_base64_errno key text :
  wg_key_from_base64 key text = let '(ok, key') := key_from_base64 key text in
    (if ok then 0 else - IpcUapi.EINVAL, if ok then 0 else IpcUapi.EINVAL, key').
Proof.
  unfold wg_key_from_base64, key_from_base64. destruct (_ || _); [done|]. change (32 / 3)%nat with (WG_KEY_LEN / 3)%nat.
  destruct (for_upto _ _ _) as [ret key']. rewrite errno_of by apply u8_range. by destruct (negb _).
Qed.

(** The key codec of the embeddable library is that of the tools: it returns 0,
    with [errno] 0 and the key written, exactly on the RFC 4648 text of a 32-byte
    key, and -EINVAL otherwise; what [wg_key_to_base64] writes is read back; the
    zero test is exact. *)
Theorem embed_codec key text k : length key = WG_KEY_LEN ->
  (wg_key_from_base64 key text = (0, 0, k) <-> wf_key k /\ text = wg_key_to_base64 k) /\
  (let '(ret, errno, _) := wg_key_from_base64 key text in
   ret = - errno /\ (ret = 0 \/ ret = - IpcUapi.EINVAL)) /\
  (wf_key k -> wg_key_is_zero k = true <-> k = replicate 32 0).
Proof.
  intros Hl. split; [|split; [|rewrite is_zero_eq; apply key_is_zero_iff]].
  - rewrite from_base64_errno. split.
    + destruct (key_from_base64 key text) as [[] key'] eqn:E; intros [= <-]. by apply (key_from_base64_sound key).
    + intros [Hk ->]. unfold wg_key_to_base64. by rewrite key_from_base64_complete.
  - rewrite from_base64_errno. destruct (key_from_base64 key text) as [[] key']; auto.
Qed.
End Codec.
Lemma embed_codec_witness :
  wg_key_from_base64 (P := arm64) zero_key (wg_key_to_base64 sample_key) = (0, 0, sample_key).
Proof.
  apply (embed_codec (P := arm64) zero_key (wg_key_to_base64 sample_key) sample_key eq_refl).
  split; [exact sample_key_wf|reflexivity].
Defined.
End EmbedKeys.
