(* ===== verification/EmbedNet.v ===== *)
(** * The embeddable library: devices (contrib/embeddable-wg-library/wireguard.c)

    [wg_set_device], [wg_get_device], [wg_list_device_names], [wg_add_device] and
    [wg_del_device]. The library carries its own copy of netlink.h, the same text
    as the one modelled by Netlink, and of ipc-linux.h, which differs: an allowed
    IP has no flags, refused attributes set [errno], and the dump of a device is
    retried in another way. Functions whose text is that of ipc-linux.h
    ([parse_allowedip], [coalesce_peers], the attributes of a device and of a peer
    before its allowed IPs) are those of IpcLinux. The structures of wireguard.h
    are those of containers.h but for the flags of an allowed IP, which no function
    here reads or writes. *)
From S2P Require Import Prelude Libc Encoding Containers IpcUapi Netlink Ipc IpcLinux.
Import Libc Encoding Netlink StringList.

Module EmbedNet.

Definition ENXIO : Z := 6.
Definition EAFNOSUPPORT : Z := 97.

Definition payload := IpcLinux.payload.

(** ** Setting a device *)

Section Set_device.
(** [mnl_ideal_socket_buffer_size()] *)
Context (buflen : Z).

Definition put_allowedip (nlh : nlmsghdr) (a : wgallowedip) : nlmsghdr * bool :=
  match mnl_attr_nest_start_check nlh buflen 0 with
  | None => (nlh, false)
  | Some (nlh, allowedip_nest) =>
      let m := (nlh, true) in
      let m := IpcLinux.try_put m (fun nlh =>
        mnl_attr_put_u16_check nlh buflen IpcLinux.WGALLOWEDIP_A_FAMILY (aip_family a)) in
      let m := IpcLinux.try_put m (fun nlh =>
        if aip_family a =? AF_INET
        then mnl_attr_put_check nlh buflen IpcLinux.WGALLOWEDIP_A_IPADDR (take 4 (aip_ip a))
        else if aip_family a =? AF_INET6
        then mnl_attr_put_check nlh buflen IpcLinux.WGALLOWEDIP_A_IPADDR (aip_ip a)
        else Some nlh) in
      let m := IpcLinux.try_put m (fun nlh =>
        mnl_attr_put_u8_check nlh buflen IpcLinux.WGALLOWEDIP_A_CIDR_MASK (aip_cidr a)) in
      let '(nlh, ok) := m in
      if (ok : bool) then (mnl_attr_nest_end nlh allowedip_nest, true)
      else (mnl_attr_nest_cancel nlh allowedip_nest, false)
  end.

Fixpoint put_allowedips (nlh : nlmsghdr) (allowedip : list wgallowedip) : nlmsghdr * list wgallowedip :=
  match allowedip with
  | [] => (nlh, [])
  | a :: rest =>
      let '(nlh, ok) := put_allowedip nlh a in
      if (ok : bool) then put_allowedips nlh rest else (nlh, allowedip)
  end.

Definition put_peer (nlh : nlmsghdr) (p : wgpeer) (allowedip : list wgallowedip) : IpcLinux.peer_put :=
  match mnl_attr_nest_start_check nlh buflen 0 with
  | None => IpcLinux.TooBigPeers nlh
  | Some (nlh, peer_nest) =>
      let '(nlh, ok) := IpcLinux.put_peer_head buflen nlh p (length allowedip =? 0)%nat in
      if negb ok then IpcLinux.TooBigPeers (mnl_attr_nest_cancel nlh peer_nest)
      else
        match peer_allowedips p with
        | [] => IpcLinux.PeerDone (mnl_attr_nest_end nlh peer_nest)
        | first_allowedip =>
            let allowedip := if (length allowedip =? 0)%nat then first_allowedip else allowedip in
            match mnl_attr_nest_start_check nlh buflen IpcLinux.WGPEER_A_ALLOWEDIPS with
            | None => IpcLinux.TooBigAllowedips (mnl_attr_nest_end nlh peer_nest) allowedip
            | Some (nlh, allowedips_nest) =>
                let '(nlh, allowedip) := put_allowedips nlh allowedip in
                let nlh := mnl_attr_nest_end nlh allowedips_nest in
                match allowedip with
                | [] => IpcLinux.PeerDone (mnl_attr_nest_end nlh peer_nest)
                | _ => IpcLinux.TooBigAllowedips (mnl_attr_nest_end nlh peer_nest) allowedip
                end
            end
        end
  end.

Fixpoint put_peers (nlh : nlmsghdr) (peer : list wgpeer) (allowedip : list wgallowedip)
  : nlmsghdr * list wgpeer * list wgallowedip :=
  match peer with
  | [] => (nlh, [], allowedip)
  | p :: rest =>
      match put_peer nlh p allowedip with
      | IpcLinux.PeerDone nlh => put_peers nlh rest []
      | IpcLinux.TooBigAllowedips nlh allowedip => (nlh, peer, allowedip)
      | IpcLinux.TooBigPeers nlh => (nlh, peer, allowedip)
      end
  end.

Definition set_message (nlh : nlmsghdr) (d : wgdevice) (peer : list wgpeer) (allowedip : list wgallowedip)
  : nlmsghdr * list wgpeer * list wgallowedip :=
  let nlh := mnl_attr_put_strz nlh IpcLinux.WGDEVICE_A_IFNAME (dev_name d) in
  let nlh := match peer with [] => IpcLinux.put_device nlh d | _ => nlh end in
  match dev_peers d with
  | [] => (nlh, peer, allowedip)
  | first_peer =>
      let '(nlh, peers_nest) := mnl_attr_nest_start nlh IpcLinux.WGDEVICE_A_PEERS in
      let '(nlh, peer, allowedip) :=
        put_peers nlh (match peer with [] => first_peer | _ => peer end) allowedip in
      (mnl_attr_nest_end nlh peers_nest, peer, allowedip)
  end.

Section Kernel.
Context `{NK : NlKernel K}.

(** From [again] on. *)
Fixpoint set_loop (fuel : nat) (k : K) (nlg : mnlg_socket) (d : wgdevice)
  (peer : list wgpeer) (allowedip : list wgallowedip) : outcome (Z * K) :=
  match fuel with
  | O => NoFuel
  | S fuel' =>
      let seq := u32 (nl_time k) in
      let nlh := mnlg_msg_prepare k nlg IpcLinux.WG_CMD_SET_DEVICE (Z.lor NLM_F_REQUEST NLM_F_ACK) in
      let '(nlh, peer, allowedip) := set_message nlh d peer allowedip in
      let '(err, k) := nl_sendto k (nlmsg_bytes nlh) in
      if negb (err =? 0) then Ret (- err, k)
      else
        '(r, _, errno, k) ← mnlg_socket_recv_run (D := unit) fuel k seq (nlg_portid nlg) None tt 0;
        if r <? 0 then Ret (if negb (errno =? 0) then - errno else - IpcUapi.EINVAL, k)
        else match peer with
             | [] => Ret (0, k)
             | _ => set_loop fuel' k nlg d peer allowedip
             end
  end.

Definition wg_set_device (fuel : nat) (k : K) (d : wgdevice) : outcome (Z * K) :=
  '(r, k) ← mnlg_socket_open fuel k IpcLinux.WG_GENL_NAME IpcLinux.WG_GENL_VERSION;
  match r with
  | inl errno => Ret (- errno, k)
  | inr nlg => set_loop fuel k nlg d [] []
  end.

End Kernel.
End Set_device.

(** ** Reading a device *)

Definition parse_allowedips (attr : list Z) (st : wgpeer * Z) : Z * (wgpeer * Z) :=
  let '(peer, errno) := st in
  let '(ret, (a, errno)) := mnl_attr_parse_nested IpcLinux.parse_allowedip attr (zero_allowedip, errno) in
  let peer := with_allowedips (peer_allowedips peer ++ [a]) peer in
  if ret =? 0 then (ret, (peer, errno))
  else if negb (((aip_family a =? AF_INET) && (aip_cidr a <=? 32))
                || ((aip_family a =? AF_INET6) && (aip_cidr a <=? 128)))
  then (MNL_CB_ERROR, (peer, EAFNOSUPPORT))
  else (MNL_CB_OK, (peer, errno)).

(** [switch (mnl_attr_get_type(attr))]: the cases other than the allowed IPs are
    those of ipc-linux.h. *)
Definition parse_peer (attr : list Z) (st : wgpeer * Z) : Z * (wgpeer * Z) :=
  if mnl_attr_get_type attr =? IpcLinux.WGPEER_A_ALLOWEDIPS
  then mnl_attr_parse_nested parse_allowedips attr st
  else IpcLinux.parse_peer attr st.

Definition parse_peers (attr : list Z) (st : wgdevice * Z) : Z * (wgdevice * Z) :=
  let '(device, errno) := st in
  let '(ret, (peer, errno)) := mnl_attr_parse_nested parse_peer attr (zero_peer, errno) in
  let device := with_peers (dev_peers device ++ [peer]) device in
  if ret =? 0 then (ret, (device, errno))
  else if negb (has_flag (peer_flags peer) WGPEER_HAS_PUBLIC_KEY) then (MNL_CB_ERROR, (device, ENXIO))
  else (MNL_CB_OK, (device, errno)).

(** The cases other than the peers are those of ipc-linux.h. *)
Definition parse_device (attr : list Z) (st : wgdevice * Z) : Z * (wgdevice * Z) :=
  if mnl_attr_get_type attr =? IpcLinux.WGDEVICE_A_PEERS
  then mnl_attr_parse_nested parse_peers attr st
  else IpcLinux.parse_device attr st.

Definition read_device_cb (nlh : list Z) (st : wgdevice * Z) : Z * (wgdevice * Z) :=
  mnl_attr_parse parse_device nlh sizeof_genlmsghdr st.

Section Kernel.
Context `{NK : NlKernel K}.

(** One attempt, from [try_again] to [out]: [inl] when the function returns at
    once, [inr] with [ret] and the device when it comes to [out]. [ret] is as it
    was unless something fails. *)
Definition attempt (fuel : nat) (ret : Z) (k : K) (device_name : cstring)
  : outcome ((Z + Z * wgdevice) * K) :=
  '(r, k) ← mnlg_socket_open fuel k IpcLinux.WG_GENL_NAME IpcLinux.WG_GENL_VERSION;
  match r with
  | inl errno => Ret (inl (- errno), k)
  | inr nlg =>
      let seq := u32 (nl_time k) in
      let nlh := mnlg_msg_prepare k nlg IpcLinux.WG_CMD_GET_DEVICE
                   (Z.lor (Z.lor NLM_F_REQUEST NLM_F_ACK) NLM_F_DUMP) in
      let nlh := mnl_attr_put_strz nlh IpcLinux.WGDEVICE_A_IFNAME device_name in
      let '(err, k) := nl_sendto k (nlmsg_bytes nlh) in
      if negb (err =? 0) then Ret (inr (- err, zero_device), k)
      else
        '(r, device, errno, k) ←
          mnlg_socket_recv_run fuel k seq (nlg_portid nlg) (Some read_device_cb) zero_device 0;
        if r <? 0 then Ret (inr (if negb (errno =? 0) then - errno else - IpcUapi.EINVAL, device), k)
        else
          device ← IpcLinux.coalesce_peers device;
          Ret (inr (ret, device), k)
  end.

(** From [try_again] to the end. [ret] is set to zero once, before it, and keeps
    its value into the next attempt. *)
Fixpoint try_again (fuel : nat) (ret : Z) (k : K) (device_name : cstring)
  : outcome (Z * option wgdevice * K) :=
  match fuel with
  | O => NoFuel
  | S fuel' =>
      '(r, k) ← attempt fuel ret k device_name;
      match r with
      | inl ret => Ret (ret, None, k)
      | inr (ret, device) =>
          if negb (ret =? 0)
          then if ret =? - EINTR then try_again fuel' ret k device_name else Ret (ret, None, k)
          else Ret (ret, Some device, k)
      end
  end.

Definition wg_get_device (fuel : nat) (k : K) (device_name : cstring) : outcome (Z * option wgdevice * K) :=
  try_again fuel 0 k device_name.

(** ** Listing, adding and deleting devices *)

(** The text of [kernel_get_wireguard_interfaces]. *)
Definition fetch_device_names (fuel : nat) (k : K) (list : string_list) : outcome (Z * option string_list * K) :=
  IpcLinux.kernel_get_wireguard_interfaces fuel k list.

(** [errno], and the buffer or [NULL]. *)
Definition wg_list_device_names (fuel : nat) (k : K) : outcome (Z * option (list (option ascii)) * K) :=
  '(ret, list, k) ← fetch_device_names fuel k sl_empty;
  let errno := - ret in
  if negb (errno =? 0) then Ret (errno, None, k)
  else match list with
       | None => NullDeref
       | Some list => Ret (errno, Some (list_result list), k)
       end.

Definition RTM_NEWLINK : Z := 16.
Definition RTM_DELLINK : Z := 17.
Definition NLM_F_EXCL : Z := 0x200.
Definition NLM_F_CREATE : Z := 0x400.

(** The request of [add_del_iface]. *)
Definition link_message (seq : Z) (ifname : cstring) (add : bool) : nlmsghdr :=
  let nlh := {| nlmsg_type := if add then RTM_NEWLINK else RTM_DELLINK;
                nlmsg_flags := Z.lor (Z.lor NLM_F_REQUEST NLM_F_ACK)
                                 (if add then Z.lor NLM_F_CREATE NLM_F_EXCL else 0);
                nlmsg_seq := seq; nlmsg_body := nlmsg_body mnl_nlmsg_put_header |} in
  let nlh := mnl_nlmsg_put_extra_header nlh IpcLinux.sizeof_ifinfomsg in
  let nlh := mnl_attr_put_strz nlh IpcLinux.IFLA_IFNAME ifname in
  let '(nlh, nest) := mnl_attr_nest_start nlh IpcLinux.IFLA_LINKINFO in
  let nlh := mnl_attr_put_strz nlh IpcLinux.IFLA_INFO_KIND IpcLinux.WG_GENL_NAME in
  mnl_attr_nest_end nlh nest.

(** [nlh] points into [rtnl_buffer], which the reply overwrites from its start
    before [nlh->nlmsg_seq] is read. *)
Definition add_del_iface (k : K) (ifname : cstring) (add : bool) : Z * K :=
  let '(err, portid, k) := nl_open k in
  if negb (err =? 0) then (- err, k)
  else
    let rtnl_buffer := nlmsg_bytes (link_message (u32 (nl_time k)) ifname add) in
    let '(err, k) := nl_sendto k rtnl_buffer in
    if negb (err =? 0) then (- err, k)
    else
      let '(r, k) := nl_recvfrom k in
      match r with
      | inl errno => (- errno, k)
      | inr bytes =>
          let rtnl_buffer := bytes ++ drop (length bytes) rtnl_buffer in
          let '(ret, _, errno) :=
            mnl_cb_run (D := unit) (length bytes) default_cb_array None (msg_seq rtnl_buffer) portid bytes
              (Z.of_nat (length bytes)) MNL_CB_OK tt 0 in
          if ret <? 0 then (- errno, k) else (0, k)
      end.

Definition wg_add_device (k : K) (device_name : cstring) : Z * K := add_del_iface k device_name true.
Definition wg_del_device (k : K) (device_name : cstring) : Z * K := add_del_iface k device_name false.

End Kernel.
End EmbedNet.
