(* ===== verification/EmbedNetFacts.v ===== *)
(** * The embeddable library: theorems about devices

    [wg_set_device] sends what [kernel_set_device] sends, and what it sends reads
    back; [wg_get_device] agrees with [kernel_get_device] until a dump is
    interrupted; a device that is added is the one that is listed. *)
From Stdlib Require Import Sorted.
From S2P Require Import Prelude Libc Encoding Containers IpcUapi Names Showconf Samples.
From S2P Require Import Netlink NetlinkFacts Ipc IpcLinux IpcLinuxFacts IpcLinuxRead IpcLinuxTheorems EmbedNet.
Import Libc Encoding Showconf Netlink NetlinkFacts EmbedNet.

Module EmbedNetFacts.

(** ** Setting a device *)

(** The structures of containers.h with the flags of the allowed IPs cleared. *)
Abbreviation forget := reload_allowedip.
Definition forget_peer (p : wgpeer) : wgpeer := with_allowedips (map forget (peer_allowedips p)) p.
Definition forget_device (d : wgdevice) : wgdevice := with_peers (map forget_peer (dev_peers d)) d.
Definition forget_put (r : IpcLinux.peer_put) : IpcLinux.peer_put :=
  match r with
  | IpcLinux.TooBigAllowedips nlh l => IpcLinux.TooBigAllowedips nlh (map forget l)
  | _ => r
  end.

Lemma fresh_map {A B} (f : A -> B) l : (length (map f l) =? 0)%nat = (length l =? 0)%nat.
Proof. by rewrite length_map. Qed.

Section Set_device.
Context (buflen : Z).

Lemma try_put_id m : IpcLinux.try_put m Some = m.
Proof. by destruct m as [? []]. Qed.

Lemma put_allowedip_eq nlh a : put_allowedip buflen nlh a = IpcLinux.put_allowedip buflen nlh (forget a).
Proof.
  unfold put_allowedip, IpcLinux.put_allowedip. destruct (mnl_attr_nest_start_check nlh buflen 0) as [[nlh1 nest]|]; [|done].
  cbv zeta. change (IpcLinux.put_if _ _) with (@Some nlmsghdr) at 1. by rewrite try_put_id.
Qed.

Lemma put_allowedips_eq nlh l :
  IpcLinux.put_allowedips buflen nlh (map forget l) =
  let '(nlh, l) := put_allowedips buflen nlh l in (nlh, map forget l).
Proof.
  revert nlh. induction l as [|a l IH]; intros nlh; cbn [map put_allowedips IpcLinux.put_allowedips]; [done|].
  rewrite <- put_allowedip_eq. by destruct (put_allowedip buflen nlh a) as [nlh' []].
Qed.

Lemma put_peer_eq nlh p aip :
  IpcLinux.put_peer buflen nlh (forget_peer p) (map forget aip) = forget_put (put_peer buflen nlh p aip).
Proof.
  unfold put_peer, IpcLinux.put_peer. rewrite fresh_map.
  destruct (mnl_attr_nest_start_check nlh buflen 0) as [[nlh1 nest]|]; [|done].
  change (IpcLinux.put_peer_head buflen nlh1 (forget_peer p)) with (IpcLinux.put_peer_head buflen nlh1 p).
  destruct (IpcLinux.put_peer_head buflen nlh1 p _) as [nlh2 []]; [|done]. cbn [negb].
  unfold forget_peer. cbn [with_allowedips peer_allowedips].
  destruct (peer_allowedips p) as [|a0 l0]; [done|]. cbn [map].
  change (forget a0 :: map forget l0) with (map forget (a0 :: l0)).
  destruct (mnl_attr_nest_start_check nlh2 buflen _) as [[nlh3 nest']|]; [|by destruct aip].
  replace (if (length aip =? 0)%nat then map forget (a0 :: l0) else map forget aip)
    with (map forget (if (length aip =? 0)%nat then a0 :: l0 else aip)) by by destruct aip.
  rewrite put_allowedips_eq. destruct (put_allowedips buflen nlh3 _) as [nlh4 [|a l]]; reflexivity.
Qed.

Lemma put_peers_eq peers nlh aip :
  IpcLinux.put_peers buflen nlh (map forget_peer peers) (map forget aip) =
  let '(nlh, peers, aip) := put_peers buflen nlh peers aip in (nlh, map forget_peer peers, map forget aip).
Proof.
  revert nlh aip. induction peers as [|p peers IH]; intros nlh aip;
    cbn [map put_peers IpcLinux.put_peers]; [done|].
  rewrite put_peer_eq. destruct (put_peer buflen nlh p aip) as [nlh'|nlh' l|nlh']; cbn [forget_put]; [|done|done].
  change (@nil wgallowedip) with (map forget []) at 1. apply IH.
Qed.

Lemma set_message_eq nlh d peers aip :
  IpcLinux.set_message buflen nlh (forget_device d) (map forget_peer peers) (map forget aip) =
  let '(nlh, peers, aip) := set_message buflen nlh d peers aip in (nlh, map forget_peer peers, map forget aip).
Proof.
  unfold set_message, IpcLinux.set_message. change (dev_peers (forget_device d)) with (map forget_peer (dev_peers d)).
  set (nlh1 := match map forget_peer peers with [] => _ | _ => _ end).
  set (nlh2 := match peers with [] => _ | _ => _ end).
  replace nlh1 with nlh2 by (unfold nlh1, nlh2; by destruct peers). clearbody nlh2. clear nlh1.
  destruct (dev_peers d) as [|p0 ps]; [done|]. cbn [map].
  change (forget_peer p0 :: map forget_peer ps) with (map forget_peer (p0 :: ps)).
  destruct (mnl_attr_nest_start nlh2 _) as [nlh3 nest].
  pose proof (put_peers_eq (match peers with [] => p0 :: ps | l => l end) nlh3 aip) as E.
  destruct peers as [|q qs]; cbn [map] in E |- *; rewrite E;
    by destruct (put_peers buflen nlh3 _ aip) as [[nlh4 l] l'].
Qed.

Context `{NK : NlKernel K}.

Lemma set_loop_eq fuel (k : K) nlg d peers aip :
  IpcLinux.set_loop buflen fuel k nlg (forget_device d) (map forget_peer peers) (map forget aip) =
  set_loop buflen fuel k nlg d peers aip.
Proof.
  revert k peers aip. induction fuel as [|fuel IH]; intros k peers aip; [done|].
  cbn [set_loop IpcLinux.set_loop]. rewrite set_message_eq.
  destruct (set_message buflen _ d peers aip) as [[nlh l] l'].
  destruct (nl_sendto k _) as [err k1]. destruct (negb (err =? 0)); [done|].
  destruct (mnlg_socket_recv_run _ k1 _ _ _ _ _) as [[[[r u] errno] k2]| | |]; [|done..].
  cbn [mbind outcome_bind]. destruct (r <? 0); [done|].
  destruct l as [|p l]; [done|]. apply IH.
Qed.

(** The library sends what the tools send for the device without flags. *)
Lemma wg_set_device_eq fuel (k : K) d :
  wg_set_device buflen fuel k d = IpcLinux.kernel_set_device buflen fuel k (forget_device d).
Proof.
  unfold wg_set_device, IpcLinux.kernel_set_device.
  destruct (mnlg_socket_open _ _ _ _) as [[[e|nlg] k1]| | |]; cbn [mbind outcome_bind]; try done.
  symmetry. apply (set_loop_eq fuel k1 nlg d [] []).
Qed.
End Set_device.

(** ** The callbacks of both clients *)

(** The same value and the same data; [errno] may differ, but is not [EINTR]. *)
Definition same {D} (x y : Z * (D * Z)) : Prop :=
  x.1 = y.1 /\ x.2.1 = y.2.1 /\ x.2.2 <> EINTR /\ y.2.2 <> EINTR.
Definition same_state {D} (x y : D * Z) : Prop := x.1 = y.1 /\ x.2 <> EINTR /\ y.2 <> EINTR.
Definition same_cb {D} (cb cb' : list Z -> D * Z -> Z * (D * Z)) : Prop :=
  forall attr x y, same_state x y -> same (cb attr x) (cb' attr y).

Lemma same_ret {D} ret (d : D) e e' : e <> EINTR -> e' <> EINTR -> same (ret, (d, e)) (ret, (d, e')).
Proof. by intros. Qed.

Lemma attr_loop_same {D} (cb cb' : list Z -> D * Z -> Z * (D * Z)) fuel attr len ret x y :
  same_cb cb cb' -> same_state x y -> same (attr_loop cb fuel attr len ret x) (attr_loop cb' fuel attr len ret y).
Proof.
  intros Hcb. revert attr len ret x y. induction fuel as [|fuel IH]; intros attr len ret x y Hs; cbn [attr_loop]; [done|].
  destruct (mnl_attr_ok attr len); cbn [negb]; [|done].
  pose proof (Hcb attr x y Hs) as (H1 & H2). destruct (cb attr x) as [r x'], (cb' attr y) as [r' y']. cbn [fst snd] in *.
  subst r'. destruct (r <=? MNL_CB_STOP); [done|]. by apply IH.
Qed.

Lemma parse_nested_same {D} (cb cb' : list Z -> D * Z -> Z * (D * Z)) attr x y :
  same_cb cb cb' -> same_state x y -> same (mnl_attr_parse_nested cb attr x) (mnl_attr_parse_nested cb' attr y).
Proof. apply attr_loop_same. Qed.

Lemma validate_same attr type e e' : e <> EINTR -> e' <> EINTR ->
  exists v f f', mnl_attr_validate attr type e = (v, f) /\ mnl_attr_validate attr type e' = (v, f') /\
    f <> EINTR /\ f' <> EINTR.
Proof.
  intros He He'. unfold mnl_attr_validate, mnl_attr_validate_len. cbv zeta.
  destruct (_ <? _); [by eexists _, _, _|].
  match goal with |- context [match ?f with Some e => (-1, e) | None => _ end] => destruct f as [g|] eqn:E end.
  - exists (-1), g, g. split; [done|]. split; [done|]. destruct type; repeat (case_match; [|]); naive_solver.
  - destruct (_ && _); by eexists _, _, _.
Qed.

(** Both runs take the same branch at a test of the attribute. *)
Ltac same_branches :=
  repeat match goal with
  | |- same (let '(_, _) := mnl_attr_validate ?a ?t ?e in _) (let '(_, _) := mnl_attr_validate _ _ ?e' in _) =>
      destruct (validate_same a t e e') as (? & ? & ? & -> & -> & ? & ?); [done|done|]
  | |- same (if ?b then _ else _) (if ?b then _ else _) => destruct b
  | |- same (?r, (?d, _)) (?r, (?d, _)) => by apply same_ret
  end.

Lemma parse_allowedip_same : same_cb IpcLinux.parse_allowedip IpcLinux.parse_allowedip.
Proof. intros attr [a e] [? e'] (E & He & He'). cbn in E. subst. unfold IpcLinux.parse_allowedip. same_branches. Qed.

Lemma parse_allowedips_same : same_cb parse_allowedips IpcLinux.parse_allowedips.
Proof.
  intros attr [p e] [? e'] (E & He & He'). cbn in E. subst. unfold parse_allowedips, IpcLinux.parse_allowedips.
  pose proof (parse_nested_same _ _ attr (zero_allowedip, e) (zero_allowedip, e') parse_allowedip_same ltac:(done)) as H.
  destruct (mnl_attr_parse_nested _ attr (_, e)) as [r [a f]], (mnl_attr_parse_nested _ attr (_, e')) as [r' [a' f']].
  destruct H as (H1 & H2 & H3 & H4). cbn [fst snd] in *. subst. same_branches. 
Qed.

Lemma parse_peer_same : same_cb parse_peer IpcLinux.parse_peer.
Proof.
  intros attr [p e] [? e'] (E & He & He'). cbn in E. subst. unfold parse_peer.
  destruct (Z.eqb_spec (mnl_attr_get_type attr) IpcLinux.WGPEER_A_ALLOWEDIPS) as [Et|Et]; unfold IpcLinux.parse_peer; cbv zeta.
  - rewrite Et. by apply (parse_nested_same _ _ attr _ _ parse_allowedips_same).
  - apply Z.eqb_neq in Et. rewrite Et. same_branches.
Qed.

Lemma parse_peers_same : same_cb parse_peers IpcLinux.parse_peers.
Proof.
  intros attr [d e] [? e'] (E & He & He'). cbn in E. subst. unfold parse_peers, IpcLinux.parse_peers.
  pose proof (parse_nested_same _ _ attr (zero_peer, e) (zero_peer, e') parse_peer_same ltac:(done)) as H.
  destruct (mnl_attr_parse_nested _ attr (_, e)) as [r [p f]], (mnl_attr_parse_nested _ attr (_, e')) as [r' [p' f']].
  destruct H as (H1 & H2 & H3 & H4). cbn [fst snd] in *. subst. same_branches.
Qed.

Lemma parse_device_same : same_cb parse_device IpcLinux.parse_device.
Proof.
  intros attr [d e] [? e'] (E & He & He'). cbn in E. subst. unfold parse_device.
  destruct (Z.eqb_spec (mnl_attr_get_type attr) IpcLinux.WGDEVICE_A_PEERS) as [Et|Et]; unfold IpcLinux.parse_device; cbv zeta.
  - rewrite Et. by apply (parse_nested_same _ _ attr _ _ parse_peers_same).
  - apply Z.eqb_neq in Et. rewrite Et. same_branches.
Qed.

Lemma read_device_same : same_cb read_device_cb IpcLinux.read_device_cb.
Proof. intros nlh x y H. by apply attr_loop_same; [apply parse_device_same|]. Qed.

(** ** Running the callbacks *)

(** The same value and data, and the same [errno] unless neither is [EINTR]. *)
Definition same_run {D} (x y : Z * D * Z) : Prop :=
  x.1 = y.1 /\ (x.2 = y.2 \/ x.2 <> EINTR /\ y.2 <> EINTR) /\ (0 < x.1.1 -> x.2 <> EINTR /\ y.2 <> EINTR).

Lemma same_run_eq {D} r (d : D) e : r <= 0 -> same_run (r, d, e) (r, d, e).
Proof. intros H. split; [done|]. split; [by left|cbn; lia]. Qed.
Lemma same_run_ok {D} r (d : D) e e' : e <> EINTR -> e' <> EINTR -> same_run (r, d, e) (r, d, e').
Proof. intros. split; [done|]. split; [by right|done]. Qed.

Lemma from_error_stops error : (from_error error).1 <= 0.
Proof. unfold from_error. cbn. by destruct (error =? 0). Qed.

Lemma mnlg_ctl_same type nlh e e' : e <> EINTR -> e' <> EINTR ->
  match mnlg_cb_array type nlh e, mnlg_cb_array type nlh e' with
  | Some (r, f), Some (r', f') => r = r' /\ (f <> EINTR /\ f' <> EINTR \/ r <= 0 /\ f = f')
  | None, None => True
  | _, _ => False
  end.
Proof.
  intros He He'. unfold mnlg_cb_array, mnlg_cb_stop, mnl_cb_error.
  repeat (case_match; simplify_eq; try done; auto);
    match goal with H : from_error ?x = _ |- _ => pose proof (from_error_stops x) as Hs; rewrite H in Hs; auto end.
Qed.

Lemma cb_run_same {D} (cb cb' : list Z -> D * Z -> Z * (D * Z)) fuel seq portid nlh len ret d e e' :
  same_cb cb cb' -> e <> EINTR -> e' <> EINTR ->
  same_run (mnl_cb_run fuel mnlg_cb_array (Some cb) seq portid nlh len ret d e)
           (mnl_cb_run fuel mnlg_cb_array (Some cb') seq portid nlh len ret d e').
Proof.
  intros Hcb. revert nlh len ret d e e'.
  induction fuel as [|fuel IH]; intros nlh len ret d e e' He He'; cbn [mnl_cb_run]; [by apply same_run_ok|].
  destruct (mnl_nlmsg_ok nlh len); cbn [negb]; [|by apply same_run_ok].
  destruct (mnl_nlmsg_portid_ok nlh portid); cbn [negb]; [|by apply same_run_eq].
  destruct (mnl_nlmsg_seq_ok nlh seq); cbn [negb]; [|by apply same_run_eq].
  destruct (Z.land (msg_flags nlh) NLM_F_DUMP_INTR =? 0); cbn [negb]; [|by apply same_run_eq].
  destruct (NLMSG_MIN_TYPE <=? msg_type nlh).
  - pose proof (Hcb nlh (d, e) (d, e') ltac:(done)) as H.
    destruct (cb nlh (d, e)) as [r [d1 f]], (cb' nlh (d, e')) as [r' [d1' f']].
    destruct H as (H1 & H2 & H3 & H4). cbn [fst snd] in *. subst.
    destruct (r' <=? MNL_CB_STOP); [by apply same_run_ok|by apply IH].
  - pose proof (mnlg_ctl_same (msg_type nlh) nlh e e' He He') as H.
    destruct (mnlg_cb_array _ _ e) as [[r f]|], (mnlg_cb_array _ _ e') as [[r' f']|]; try done; [|by apply IH].
    destruct H as [-> Hf]. destruct (Z.leb_spec r' MNL_CB_STOP) as [Hr|Hr]; unfold MNL_CB_STOP in Hr.
    + destruct Hf as [[? ?]|[_ ->]]; [by apply same_run_ok|by apply same_run_eq].
    + destruct Hf as [[? ?]|[? _]]; [by apply IH|lia].
Qed.

Section Get_device.
Context `{NK : NlKernel K}.

(** The two runs of [mnlg_socket_recv_run]. *)
Definition same_recv {D} (x y : outcome (Z * D * Z * K)) : Prop :=
  match x, y with
  | Ret (r, d, e, k), Ret (r', d', e', k') =>
      r = r' /\ d = d' /\ k = k' /\ (e = e' \/ e <> EINTR /\ e' <> EINTR)
  | NoFuel, NoFuel => True
  | _, _ => False
  end.

Lemma recv_run_same {D} (cb cb' : list Z -> D * Z -> Z * (D * Z)) fuel (k : K) seq portid d e e' :
  same_cb cb cb' -> e <> EINTR -> e' <> EINTR ->
  same_recv (mnlg_socket_recv_run fuel k seq portid (Some cb) d e)
            (mnlg_socket_recv_run fuel k seq portid (Some cb') d e').
Proof.
  intros Hcb. revert k d e e'.
  induction fuel as [|fuel IH]; intros k d e e' He He'; cbn [mnlg_socket_recv_run]; [done|].
  destruct (nl_recvfrom k) as [[err|bytes] k1]; [by split_and!; try left|].
  destruct (length bytes =? 0)%nat; [by split_and!; try right|].
  pose proof (cb_run_same cb cb' (length bytes) seq portid bytes (Z.of_nat (length bytes)) MNL_CB_OK d e e' Hcb He He') as H.
  destruct (mnl_cb_run _ _ (Some cb) _ _ _ _ _ _ _) as [[r d1] f],
    (mnl_cb_run _ _ (Some cb') _ _ _ _ _ _ _) as [[r' d1'] f'].
  destruct H as (H1 & H2 & H3). cbn [fst snd] in *. simplify_eq.
  destruct (Z.ltb_spec 0 r') as [Hr|Hr]; [|by split_and!]. destruct (H3 Hr). by apply IH.
Qed.

(** What a caller of either function sees: the device, and whether it failed. *)
Definition agree (x y : outcome (Z * option wgdevice * K)) : Prop :=
  match x, y with
  | Ret (r, d, k), Ret (r', d', k') => d = d' /\ k = k' /\ (r = 0 <-> r' = 0)
  | NullDeref, NullDeref | NoFuel, NoFuel => True
  | Exit c, Exit c' => c = c'
  | _, _ => False
  end.

(** The first attempt ends with an interrupted system call or dump. *)
Definition interrupted (fuel : nat) (k : K) (name : cstring) : Prop :=
  exists d k', attempt fuel 0 k name = Ret (inr (- EINTR, d), k').

Lemma failure_nonzero e : (if negb (e =? 0) then - e else - IpcUapi.EINVAL) <> 0.
Proof. destruct (Z.eqb_spec e 0); [done|]. cbn. lia. Qed.
Lemma failure_interrupted e : (if negb (e =? 0) then - e else - IpcUapi.EINVAL) = - EINTR -> e = EINTR.
Proof. destruct (Z.eqb_spec e 0); [done|]. cbn. lia. Qed.

Lemma get_device_agree fuel (k : K) name : (length name < IFNAMSIZ)%nat -> ~ interrupted fuel k name ->
  agree (wg_get_device fuel k name) (IpcLinux.kernel_get_device fuel k name).
Proof.
  intros Hl Hi. unfold wg_get_device. destruct fuel as [|fuel]; [done|]. cbn [try_again IpcLinux.kernel_get_device].
  destruct (Nat.leb_spec IFNAMSIZ (length name)) as [?|_]; [lia|]. unfold interrupted in Hi.
  unfold attempt in *.
  destruct (mnlg_socket_open _ _ _ _) as [[[e|nlg] k1]| | |]; cbn [mbind outcome_bind] in *; try done.
  destruct (nl_sendto k1 _) as [err k2]. destruct (Z.eqb_spec err 0) as [->|Herr]; cbn [negb] in *.
  2:{ cbn [mbind outcome_bind]. destruct (Z.eqb_spec (- err) 0); [lia|]. cbn [negb].
      destruct (Z.eqb_spec (- err) (- EINTR)) as [E|]; [|done]. destruct Hi. exists zero_device, k2. by rewrite E. }
  pose proof (recv_run_same _ _ (S fuel) k2 (u32 (nl_time k1)) (nlg_portid nlg) zero_device 0 0
                read_device_same ltac:(done) ltac:(done)) as H.
  destruct (mnlg_socket_recv_run (S fuel) k2 _ _ (Some read_device_cb) _ _) as [[[[r d] e] k3]| | |],
    (mnlg_socket_recv_run (S fuel) k2 _ _ (Some IpcLinux.read_device_cb) _ _) as [[[[r' d'] e'] k3']| | |];
    try done. destruct H as (-> & -> & -> & He). cbn [mbind outcome_bind] in *.
  destruct (r' <? 0); cbn [mbind outcome_bind] in *; [|by destruct (IpcLinux.coalesce_peers d')].
  pose proof (failure_nonzero e) as H0. pose proof (failure_nonzero e') as H0'.
  pose proof (failure_interrupted e) as H1. pose proof (failure_interrupted e') as H1'.
  set (f := if negb (e =? 0) then _ else _) in *. set (f' := if negb (e' =? 0) then _ else _) in *.
  destruct (Z.eqb_spec f 0); [done|]. cbn [negb].
  destruct (Z.eqb_spec f (- EINTR)) as [E|Hf]; [destruct Hi; exists d', k3'; by rewrite E|].
  destruct (Z.eqb_spec f' (- EINTR)) as [E|_]; [|done].
  exfalso. apply H1' in E. destruct He as [->|[_ ?]]; [|done]. apply Hf. unfold f. by rewrite E.
Qed.

(** In the same case [kernel_get_device] makes its next attempt. *)
Lemma kernel_goes_on fuel (k k1 : K) name d : (length name < IFNAMSIZ)%nat ->
  attempt (S fuel) 0 k name = Ret (inr (- EINTR, d), k1) ->
  IpcLinux.kernel_get_device (S fuel) k name = IpcLinux.kernel_get_device fuel k1 name.
Proof.
  intros Hl. unfold attempt. cbn [IpcLinux.kernel_get_device].
  destruct (Nat.leb_spec IFNAMSIZ (length name)) as [?|_]; [lia|].
  destruct (mnlg_socket_open _ _ _ _) as [[[e|nlg] k2]| | |]; cbn [mbind outcome_bind]; try done.
  destruct (nl_sendto k2 _) as [err k3]. destruct (negb (err =? 0)); [intros [= -> _ ->]; done|].
  pose proof (recv_run_same _ _ (S fuel) k3 (u32 (nl_time k2)) (nlg_portid nlg) zero_device 0 0
                read_device_same ltac:(done) ltac:(done)) as H.
  destruct (mnlg_socket_recv_run (S fuel) k3 _ _ (Some read_device_cb) _ _) as [[[[r d1] e] k4]| | |],
    (mnlg_socket_recv_run (S fuel) k3 _ _ (Some IpcLinux.read_device_cb) _ _) as [[[[r' d'] e'] k4']| | |];
    try done. destruct H as (-> & -> & -> & He). cbn [mbind outcome_bind].
  destruct (r' <? 0); [|by destruct (IpcLinux.coalesce_peers d')].
  intros [= E _ ->]. apply failure_interrupted in E. destruct He as [<-|[? _]]; [|done]. by rewrite E.
Qed.

(** Once [ret] is not zero the function never hands out a device. *)
Lemma try_again_fails fuel ret (k : K) name r d k' :
  ret <> 0 -> try_again fuel ret k name = Ret (r, d, k') -> d = None.
Proof.
  revert ret k. induction fuel as [|fuel IH]; intros ret k Hret; cbn [try_again]; [done|].
  destruct (attempt (S fuel) ret k name) as [[[r1|[r1 d1]] k1]| | |] eqn:E; cbn [mbind outcome_bind]; try done; [congruence|].
  assert (Hr1 : r1 <> 0).
  { unfold attempt in E.
    destruct (mnlg_socket_open _ _ _ _) as [[[e|nlg] k2]| | |]; cbn [mbind outcome_bind] in E; try done.
    destruct (nl_sendto k2 _) as [err k3]. destruct (Z.eqb_spec err 0) as [->|Herr]; cbn [negb] in E; [|simplify_eq; lia].
    destruct (mnlg_socket_recv_run _ k3 _ _ _ _ _) as [[[[r2 d2] e] k4]| | |]; cbn [mbind outcome_bind] in E; try done.
    destruct (r2 <? 0); [simplify_eq; apply failure_nonzero|].
    destruct (IpcLinux.coalesce_peers d2); cbn [mbind outcome_bind] in E; by simplify_eq. }
  destruct (Z.eqb_spec r1 0); [done|]. cbn [negb]. destruct (r1 =? - EINTR); [by apply IH|congruence].
Qed.
End Get_device.


(** After an interrupted dump [wg_get_device] never hands out a device, whatever
    the kernel answers afterwards, where [kernel_get_device] goes on with the
    next attempt as if it were the first. (C38) *)
Theorem embed_get_interrupted `{NK : NlKernel K} fuel (k : K) name : (length name < IFNAMSIZ)%nat ->
  interrupted (S fuel) k name ->
  (forall r d k', wg_get_device (S fuel) k name = Ret (r, d, k') -> d = None) /\
  exists k1, wg_get_device (S fuel) k name = try_again fuel (- EINTR) k1 name /\
    IpcLinux.kernel_get_device (S fuel) k name = IpcLinux.kernel_get_device fuel k1 name.
Proof.
  intros Hl (d & k1 & E).
  assert (Ew : wg_get_device (S fuel) k name = try_again fuel (- EINTR) k1 name)
    by (unfold wg_get_device; cbn [try_again]; rewrite E; reflexivity).
  split; [intros r d' k'; rewrite Ew; by apply try_again_fails|].
  exists k1. split; [done|]. by eapply kernel_goes_on.
Qed.

(** A kernel with one device, of which the first [dk_interrupts] dumps are
    interrupted. *)
Record dump_kernel := { dk_interrupts : nat; dk_queue : list (list Z) }.
Definition dump_message (flags : Z) (b : list Z) : list Z :=
  nlmsg_bytes {| nlmsg_type := 27; nlmsg_flags := Z.lor NLM_F_MULTI flags; nlmsg_seq := msg_seq b;
                 nlmsg_body := [0; 1; 0; 0]
                   ++ attr_bytes IpcLinux.WGDEVICE_A_IFNAME (map uchar (str "wg0") ++ [0])
                   ++ attr_bytes IpcLinux.WGDEVICE_A_LISTEN_PORT (le_bytes 2 51820) |}.
Definition dump_done (b : list Z) : list Z :=
  nlmsg_bytes {| nlmsg_type := NLMSG_DONE; nlmsg_flags := NLM_F_MULTI; nlmsg_seq := msg_seq b;
                 nlmsg_body := le_bytes 4 0 |}.
#[export] Instance dump_kernel_ops : NlKernel dump_kernel := {
  nl_open k := (0, 77, k);
  nl_sendto k b :=
    (0, if msg_type b =? GENL_ID_CTRL
        then {| dk_interrupts := dk_interrupts k;
                dk_queue := [IpcLinuxTheorems.family_for b; IpcLinuxTheorems.ack_for b] |}
        else {| dk_interrupts := pred (dk_interrupts k);
                dk_queue := [dump_message (if (dk_interrupts k =? 0)%nat then 0 else NLM_F_DUMP_INTR) b;
                             dump_done b] |});
  nl_recvfrom k :=
    match dk_queue k with
    | [] => (inl 11, k)
    | r :: q => (inr r, {| dk_interrupts := dk_interrupts k; dk_queue := q |})
    end;
  nl_time _ := 1700000000
}.
Definition dump_start (n : nat) : dump_kernel := {| dk_interrupts := n; dk_queue := [] |}.

Definition dumped : wgdevice := with_listen_port 51820 (with_dev_name (str "wg0") zero_device).


Lemma embed_get_interrupted_witness :
  (forall r d k', wg_get_device 9 (dump_start 1) (str "wg0") = Ret (r, d, k') -> d = None) /\
  wg_get_device 9 (dump_start 1) (str "wg0") = NoFuel /\
  IpcLinux.kernel_get_device 9 (dump_start 1) (str "wg0") = Ret (0, Some dumped, dump_start 0).
Proof.
  split; [|split; vm_compute; reflexivity].
  apply (embed_get_interrupted 8 (dump_start 1) (str "wg0")); [vm_compute; lia|].
  eexists _, _. vm_compute. reflexivity.
Defined.

(** ** Adding and deleting a device *)

Lemma zlen_strz (n : cstring) : zlen (map uchar n ++ [0]) = Z.of_nat (length n) + 1.
Proof. rewrite zlen_app. unfold zlen. by rewrite length_map. Qed.

Lemma link_message_bytes seq name add : (length name <= 15)%nat ->
  nlmsg_body (link_message seq name add) =
  zeros 16 ++ attr_bytes IpcLinux.IFLA_IFNAME (map uchar name ++ [0])
  ++ nest_bytes IpcLinux.IFLA_LINKINFO
       (attr_bytes IpcLinux.IFLA_INFO_KIND (map uchar IpcLinux.WG_GENL_NAME ++ [0])).
Proof.
  intros Hl. unfold link_message, mnl_attr_put_strz, mnl_nlmsg_put_extra_header, mnl_attr_nest_start.
  rewrite (mnl_attr_put_bytes _ IpcLinux.IFLA_IFNAME) by (rewrite zlen_strz; lia).
  rewrite mnl_attr_put_bytes by (vm_compute; reflexivity).
  rewrite (append_append (_ ++ _)), nest_end_bytes by (vm_compute; reflexivity).
  rewrite !body_append. cbn [nlmsg_body mnl_nlmsg_put_header app]. by rewrite <- app_assoc.
Qed.

(** The interface that the request describes, as [parse_infomsg] reads it. *)
Lemma link_message_reads seq name add : IpcLinuxRead.name_ok name ->
  mnl_attr_parse IpcLinux.parse_infomsg (nlmsg_bytes (link_message seq name add)) IpcLinux.sizeof_ifinfomsg
    {| IpcLinux.if_name := None; IpcLinux.is_wireguard := false |}
  = (MNL_CB_OK, {| IpcLinux.if_name := Some name; IpcLinux.is_wireguard := true |}).
Proof.
  intros [Hl Hn]. pose proof (link_message_bytes seq name add Hl) as Hb.
  set (kind := attr_bytes IpcLinux.IFLA_INFO_KIND _) in Hb.
  assert (Hz : zlen (attr_bytes IpcLinux.IFLA_IFNAME (map uchar name ++ [0])) <= 4 + 4 * 4)
    by (apply IpcLinuxFacts.zlen_attr_le; rewrite zlen_strz; lia).
  eapply attr_parse_walks_at; [exact Hb|reflexivity|reflexivity| | |].
  - unfold nlmsg_len. rewrite Hb. fold (zlen (zeros 16 ++ attr_bytes IpcLinux.IFLA_IFNAME (map uchar name ++ [0])
      ++ nest_bytes IpcLinux.IFLA_LINKINFO kind)). rewrite !zlen_app, zlen_nest_bytes.
    change (zlen kind) with 16. change (zlen (zeros 16)) with 16. change MNL_NLMSG_HDRLEN with 16. lia.
  - apply (aligned_app _ _ (aligned_attr _ _)), aligned_nest, aligned_attr.
  - eapply walks_app.
    + apply walks_attr; [rewrite zlen_strz; lia|]. intros rest. unfold IpcLinux.parse_infomsg.
      rewrite IpcLinuxRead.attr_type, IpcLinuxRead.attr_get_strz by done. reflexivity.
    + apply walks_nest; [vm_compute; reflexivity|vm_compute; reflexivity|]. intros rest.
      unfold IpcLinux.parse_infomsg. rewrite (IpcLinuxRead.nest_type _ _ _ IpcLinux.IFLA_LINKINFO) by done.
      change (IpcLinux.IFLA_LINKINFO =? IpcLinux.IFLA_LINKINFO) with true. cbn iota.
      erewrite parse_nested_walks; [reflexivity|vm_compute; reflexivity|].
      apply walks_attr; [vm_compute; reflexivity|]. intros rest'. reflexivity.
Qed.

(** [wg_add_device] and [wg_del_device]: one request, which names the interface
    and says that it is a WireGuard one as the listing of interfaces reads it; the
    result is that of the first message the kernel answers with, whichever its
    sequence number, since that is read from the buffer the answer is in. (C12) *)
Theorem embed_add_del_device `{NK : NlKernel K} (k k0 k1 k2 : K) portid name (add : bool) reply :
  IpcLinuxRead.name_ok name ->
  let request := link_message (u32 (nl_time k0)) name add in
  nl_open k = (0, portid, k0) -> nl_sendto k0 (nlmsg_bytes request) = (0, k1) ->
  nl_recvfrom k1 = (inr reply, k2) -> is_reply portid reply = true ->
  (if add then wg_add_device k name else wg_del_device k name) = (- Z.abs (reply_error reply), k2) /\
  nlmsg_type request = (if add then RTM_NEWLINK else RTM_DELLINK) /\
  mnl_attr_parse IpcLinux.parse_infomsg (nlmsg_bytes request) IpcLinux.sizeof_ifinfomsg
    {| IpcLinux.if_name := None; IpcLinux.is_wireguard := false |}
  = (MNL_CB_OK, {| IpcLinux.if_name := Some name; IpcLinux.is_wireguard := true |}).
Proof.
  intros Hn request Eo Es Er Hr. split; [|split; [by destruct add|by apply link_message_reads]].
  transitivity (add_del_iface k name add); [by destruct add|]. unfold add_del_iface.
  rewrite Eo. cbn [negb]. change (0 =? 0) with true. cbn iota. fold request. rewrite Es.
  change (negb (0 =? 0)) with false. cbn iota. rewrite Er.
  rewrite cb_run_reply; [|done|done|].
  - unfold from_error. destruct (Z.eqb_spec (reply_error reply) 0) as [->|]; [done|].
    change (MNL_CB_ERROR <? 0) with true. cbn iota. do 2 f_equal.
    destruct (Z.ltb_spec (reply_error reply) 0); lia.
  - unfold is_reply in Hr. rewrite !andb_true_iff in Hr. destruct Hr as [[[[[H1 _] _] _] _] _].
    assert (E : msg_seq (reply ++ drop (length reply) (nlmsg_bytes request)) = msg_seq reply).
    { unfold msg_seq, field. unfold zlen in H1. rewrite drop_app_le, take_app_le by (rewrite ?length_drop; lia). done. }
    rewrite E. unfold mnl_nlmsg_seq_ok. rewrite Z.eqb_refl. by destruct (_ && _).
Qed.

(** A kernel that answers the first request with success and every other one
    with [-EEXIST], each with the sequence number 1. *)
Definition link_reply (error : Z) : list Z :=
  nlmsg_bytes {| nlmsg_type := NLMSG_ERROR; nlmsg_flags := 0; nlmsg_seq := 1;
                 nlmsg_body := le_bytes 4 error ++ zeros 16 |}.
#[local] Instance link_kernel : NlKernel (bool * list (list Z)) := {
  nl_open k := (0, 77, k);
  nl_sendto k b := (0, (true, [link_reply (if k.1 then 2 ^ 32 - 17 else 0)]));
  nl_recvfrom k := match k.2 with [] => (inl 11, k) | r :: q => (inr r, (k.1, q)) end;
  nl_time _ := 1700000000
}.
Lemma embed_add_del_device_witness :
  wg_add_device (false, []) (str "wg0") = (0, (true, [])) /\
  wg_add_device (true, []) (str "wg0") = (-17, (true, [])).
Proof.
  assert (Hn : IpcLinuxRead.name_ok (str "wg0")) by (split; [vm_compute; lia|vm_compute; intuition congruence]).
  split.
  - destruct (embed_add_del_device (false, []) (false, []) (true, [link_reply 0]) (true, []) 77 (str "wg0") true
      (link_reply 0) Hn) as [H _]; [reflexivity..|]. exact H.
  - destruct (embed_add_del_device (true, []) (true, []) (true, [link_reply (2 ^ 32 - 17)]) (true, []) 77 (str "wg0") true
      (link_reply (2 ^ 32 - 17)) Hn) as [H _]; [reflexivity..|]. exact H.
Defined.

(** ** What was set reads back *)

(** The callback of the library on one message after the other. *)
Fixpoint read_messages (ms : list (list Z)) (st : wgdevice * Z) : option (wgdevice * Z) :=
  match ms with
  | [] => Some st
  | m :: ms => let '(ret, st) := read_device_cb m st in if 0 <? ret then read_messages ms st else None
  end.

Lemma read_messages_same ms d e e' d' f : e <> EINTR -> e' <> EINTR ->
  IpcLinuxTheorems.read_messages ms (d, e) = Some (d', f) -> exists f', read_messages ms (d, e') = Some (d', f').
Proof.
  revert d e e'. induction ms as [|m ms IH]; intros d e e' He He'; cbn [read_messages IpcLinuxTheorems.read_messages].
  - intros [= -> ->]. eauto.
  - pose proof (read_device_same m (d, e') (d, e) ltac:(done)) as H.
    destruct (read_device_cb m (d, e')) as [r [d1 f1]], (IpcLinux.read_device_cb m (d, e)) as [r' [d1' f1']].
    destruct H as (H1 & H2 & H3 & H4). cbn [fst snd] in *. subst.
    destruct (0 <? r'); [|done]. by apply IH.
Qed.

Lemma forget_wf a : wf_allowedip a -> wf_allowedip (forget a).
Proof. intros (H1 & H2 & H3 & _). split_and!; auto. Qed.

Lemma Forall_map_impl {A} (P : A -> Prop) (f : A -> A) l : (forall a, P a -> P (f a)) -> Forall P l -> Forall P (map f l).
Proof. intros Hf Hl. apply Forall_fmap. eapply Forall_impl; [exact Hl|]. exact Hf. Qed.

Lemma forget_peer_wf p : wf_peer p -> wf_peer (forget_peer p).
Proof.
  intros (H1 & H2 & H3 & H4 & H5). do 4 (split; [assumption|]). by apply Forall_map_impl; [apply forget_wf|].
Qed.

Lemma sendable_forget d : IpcLinuxTheorems.sendable d -> IpcLinuxTheorems.sendable (forget_device d).
Proof.
  intros (Hwf & Hc & Hn & Hs & Hsc). split_and!; [| |done| |].
  - destruct Hwf as (H1 & H2 & H3 & H4 & H5 & H6). do 5 (split; [assumption|]).
    by apply Forall_map_impl; [apply forget_peer_wf|].
  - unfold canonical_device in *. apply Forall_map_impl; [|done]. intros p [Ha He]. split; [|done].
    by apply Forall_map_impl.
  - unfold forget_device. cbn [with_peers dev_peers]. clear -Hs.
    induction Hs as [|p l Hl IH Hd]; constructor; [done|]. by destruct Hd; constructor.
  - by apply Forall_map_impl.
Qed.

Lemma linux_device_forget d : IpcLinuxTheorems.linux_device (forget_device d) = IpcLinuxTheorems.linux_device d.
Proof.
  unfold IpcLinuxTheorems.linux_device. cbn. f_equal. rewrite map_map. apply map_ext. intros p.
  unfold IpcLinuxRead.linux_peer, IpcLinuxRead.linux_peer_with, forget_peer. cbn. f_equal.
  rewrite map_map. by apply map_ext.
Qed.

Lemma device_work_forget d : IpcLinuxTheorems.device_work (forget_device d) = IpcLinuxTheorems.device_work d.
Proof.
  unfold IpcLinuxTheorems.device_work. cbn. rewrite map_map. f_equal. apply map_ext. intros p.
  unfold IpcLinuxFacts.peer_work. cbn. by rewrite length_map.
Qed.

(** [wg_set_device] sends the messages [kernel_set_device] sends for the device
    without the flags of its allowed IPs; acknowledged, it returns zero after a
    bounded number of messages that fit the buffer; and they read back, by the
    callbacks of [wg_get_device], as the whole configuration. (C10) *)
Theorem embed_set_get `{NA : NlAcks K} pagesize fuel (k k0 : K) nlg d :
  4096 <= pagesize -> IpcLinuxTheorems.sendable d -> (S (IpcLinuxTheorems.device_work d) < fuel)%nat ->
  mnlg_socket_open fuel k IpcLinux.WG_GENL_NAME IpcLinux.WG_GENL_VERSION = Ret (inr nlg, k0) ->
  GENL_ID_CTRL < nlg_id nlg < 2 ^ 16 ->
  let buflen := mnl_ideal_socket_buffer_size pagesize in
  wg_set_device buflen fuel k d = IpcLinux.kernel_set_device buflen fuel k (forget_device d) /\
  exists k' ms d' e,
    wg_set_device buflen fuel k d = Ret (0, k') /\
    nl_sent k' = nl_sent k0 ++ ms /\ (length ms <= S (IpcLinuxTheorems.device_work d))%nat /\
    Forall (fun m => zlen m <= buflen) ms /\
    read_messages ms (zero_device, 0) = Some (d', e) /\
    IpcLinux.coalesce_peers d' = Ret (IpcLinuxTheorems.linux_device d).
Proof.
  intros Hp Hs Hf Ho Hid buflen. split; [apply wg_set_device_eq|].
  destruct (IpcLinuxTheorems.set_device_conveyed pagesize fuel k k0 nlg (forget_device d))
    as (k' & ms & d' & E1 & E2 & E3 & E4 & E5 & E6); try done.
  { by apply sendable_forget. }
  { by rewrite device_work_forget. }
  rewrite device_work_forget in E3. rewrite linux_device_forget in E6.
  destruct (read_messages_same ms zero_device 0 0 d' 0) as [e Ee]; try done.
  exists k', ms, d', e. rewrite wg_set_device_eq. auto 10.
Qed.
#[local] Existing Instance IpcLinuxTheorems.log_kernel_ops.
#[local] Existing Instance IpcLinuxTheorems.log_kernel_acks.
Lemma embed_set_get_witness : exists k' ms d' e,
  wg_set_device (mnl_ideal_socket_buffer_size 4096) 20 IpcLinuxTheorems.log_start sample_device = Ret (0, k') /\
  nl_sent k' = nl_sent IpcLinuxTheorems.log_opened ++ ms /\
  read_messages ms (zero_device, 0) = Some (d', e) /\
  IpcLinux.coalesce_peers d' = Ret (IpcLinuxTheorems.linux_device sample_device).
Proof.
  edestruct (embed_set_get 4096 20 IpcLinuxTheorems.log_start IpcLinuxTheorems.log_opened)
    as [_ (k' & ms & d' & e & E1 & E2 & E3 & E4 & E5 & E6)];
    [lia|apply IpcLinuxTheorems.sample_device_sendable|vm_compute; lia|vm_compute; reflexivity|vm_compute; split; reflexivity|].
  exists k', ms, d', e. split; [exact E1|]. split; [exact E2|]. split; [exact E5|exact E6].
Defined.
End EmbedNetFacts.
