(* ===== verification/Highlighter.v ===== *)
(** * The configuration highlighter (contrib/highlighter/highlighter.c, highlight.c)

    A span is a position and a length in the text being highlighted, so that
    reading past a span reads the character that follows it, as in the code.
    Allocation of the span array is taken to succeed, which leaves the array as
    a list. *)
From S2P Require Import Prelude Libc Terminal Show.
Import Libc Terminal Show.

Module Highlighter.

Record string_span := { sp_s : nat; sp_len : nat }.

Section Validators.
Context `{P : Platform}.
Context (config : cstring).

(** [s.s[i]]. *)
Definition at_ (s : string_span) (i : nat) : ascii := cget config (sp_s s + i).
(** The text of a span. *)
Definition span_text (s : string_span) : cstring := take (sp_len s) (drop (sp_s s) config).

Definition is_decimal (c : ascii) : bool := (48 <=? char_int c) && (char_int c <=? 57).
Definition is_hexadecimal (c : ascii) : bool :=
  is_decimal c || ((97 <=? Z.lor (char_int c) 32) && (Z.lor (char_int c) 32 <=? 102)).
Definition is_alphabet (c : ascii) : bool :=
  (97 <=? Z.lor (char_int c) 32) && (Z.lor (char_int c) 32 <=? 122).

Definition is_same (s : string_span) (c : cstring) : bool :=
  if negb (length c =? sp_len s)%nat then false else bool_decide (span_text s = c).

Definition upcase (c : ascii) : ascii :=
  if u32 (char_int c - 97) <? 26 then to_char (Z.land (char_int c) 95) else c.
Fixpoint caseless_loop (s : string_span) (i : nat) (c : cstring) : bool :=
  match c with
  | [] => true
  | a :: c => if negb (Ascii.eqb (upcase a) (upcase (at_ s i))) then false else caseless_loop s (S i) c
  end.
Definition is_caseless_same (s : string_span) (c : cstring) : bool :=
  if negb (length c =? sp_len s)%nat then false else caseless_loop s 0 c.

Definition key_char (c : ascii) : bool :=
  is_decimal c || is_alphabet c || Ascii.eqb c "/" || Ascii.eqb c "+".
Definition is_valid_key (s : string_span) : bool :=
  if negb (sp_len s =? 44)%nat || negb (Ascii.eqb (at_ s 43) "=") then false
  else if negb (forallb (fun i => key_char (at_ s i)) (seq 0 42)) then false
  else existsb (Ascii.eqb (at_ s 42)) (str "AEIMQUYcgkosw480").

(** The loop of [is_valid_hostname]: the two counters, or a refusal. *)
Fixpoint hostname_loop (s : string_span) (n i : nat) (num_digit num_entity : Z) : option (Z * Z) :=
  match n with
  | O => Some (num_digit, num_entity)
  | S n =>
      let c := at_ s i in
      if is_decimal c then hostname_loop s n (S i) (num_digit + 1) num_entity
      else if Ascii.eqb c "." then hostname_loop s n (S i) num_digit (num_entity - 1)
      else if negb (is_alphabet c) && negb (Ascii.eqb c "-") then None
      else if negb (i =? 0)%nat && Ascii.eqb c "." && Ascii.eqb (at_ s (i - 1)) "." then None
      else hostname_loop s n (S i) num_digit num_entity
  end.
Definition is_valid_hostname (s : string_span) : bool :=
  if (63 <? sp_len s)%nat || (sp_len s =? 0)%nat then false
  else if Ascii.eqb (at_ s 0) "-" || Ascii.eqb (at_ s (sp_len s - 1)) "-" then false
  else if Ascii.eqb (at_ s 0) "." || Ascii.eqb (at_ s (sp_len s - 1)) "." then false
  else match hostname_loop s (sp_len s) 0 0 (Z.of_nat (sp_len s)) with
       | None => false
       | Some (num_digit, num_entity) => negb (num_digit =? num_entity)
       end.

(** [for (j = 0; j < n && pos + j < s.len && digit; ++j)]: the value and [j]. *)
Fixpoint ipv4_digits (s : string_span) (n pos j : nat) (val : Z) : Z * nat :=
  match n with
  | O => (val, j)
  | S n =>
      if (pos + j <? sp_len s)%nat && is_decimal (at_ s (pos + j))
      then ipv4_digits s n pos (S j) (u32 (10 * val + char_int (at_ s (pos + j)) - 48))
      else (val, j)
  end.
(** [n] is what remains of [i < 4]. *)
Fixpoint ipv4_loop (s : string_span) (n pos : nat) : bool :=
  match n with
  | O => false
  | S n' =>
      if negb (pos <? sp_len s)%nat then false
      else
        let '(val, j) := ipv4_digits s 3 pos 0 0 in
        if (j =? 0)%nat || ((1 <? j)%nat && Ascii.eqb (at_ s pos) "0") || (255 <? val) then false
        else if (pos + j =? sp_len s)%nat && (n' =? 0)%nat then true
        else if negb (Ascii.eqb (at_ s (pos + j)) ".") then false
        else ipv4_loop s n' (pos + j + 1)
  end.
Definition is_valid_ipv4 (s : string_span) : bool := ipv4_loop s 4 0.

Fixpoint hex_digits (s : string_span) (n pos j : nat) : nat :=
  match n with
  | O => j
  | S n => if (pos + j <? sp_len s)%nat && is_hexadecimal (at_ s (pos + j))
           then hex_digits s n pos (S j) else j
  end.
(** Every turn moves [pos] forward, so [s.len] turns are enough. *)
Fixpoint ipv6_loop (fuel : nat) (s : string_span) (i pos : nat) (seen_colon : bool) : bool :=
  match fuel with
  | O => true
  | S fuel =>
      if negb (pos <? sp_len s)%nat then true
      else if Ascii.eqb (at_ s pos) ":" && negb seen_colon then
        if (pos + 1 =? sp_len s)%nat then true
        else if (i =? 7)%nat then false
        else ipv6_loop fuel s (S i) (pos + 1) true
      else
        let j := hex_digits s 4 pos 0 in
        if (j =? 0)%nat then false
        else if (pos + j =? sp_len s)%nat && (seen_colon || (i =? 7)%nat) then true
        else if (i =? 7)%nat then false
        else if negb (Ascii.eqb (at_ s (pos + j)) ":") then
          if negb (Ascii.eqb (at_ s (pos + j)) ".") || ((i <? 6)%nat && negb seen_colon) then false
          else is_valid_ipv4 {| sp_s := sp_s s + pos; sp_len := sp_len s - pos |}
        else ipv6_loop fuel s (S i) (pos + j + 1) seen_colon
  end.
Definition is_valid_ipv6 (s : string_span) : bool :=
  if (sp_len s <? 2)%nat then false
  else
    let pos := if Ascii.eqb (at_ s 0) ":" then 1%nat else 0%nat in
    if Ascii.eqb (at_ s 0) ":" && negb (Ascii.eqb (at_ s 1) ":") then false
    else if Ascii.eqb (at_ s (sp_len s - 1)) ":" && negb (Ascii.eqb (at_ s (sp_len s - 2)) ":") then false
    else ipv6_loop (sp_len s) s 0 pos false.

Fixpoint uint_hex (s : string_span) (n i : nat) (val : Z) : option Z :=
  match n with
  | O => Some val
  | S n =>
      let c := char_int (at_ s i) in
      if u32 (c - 48) <? 10 then uint_hex s n (S i) (u64 (16 * val + (c - 48)))
      else if u32 (Z.lor (u32 c) 32 - 97) <? 6
      then uint_hex s n (S i) (u64 (16 * val + Z.lor c 32 - 97 + 10))
      else None
  end.
Fixpoint uint_dec (s : string_span) (n i : nat) (val : Z) : option Z :=
  match n with
  | O => Some val
  | S n => if negb (is_decimal (at_ s i)) then None
           else uint_dec s n (S i) (u64 (10 * val + char_int (at_ s i) - 48))
  end.
Definition is_valid_uint (s : string_span) (support_hex : bool) (min max : Z) : bool :=
  if (10 <? sp_len s)%nat || (sp_len s =? 0)%nat then false
  else
    let r := if support_hex && (2 <? sp_len s)%nat && Ascii.eqb (at_ s 0) "0" && Ascii.eqb (at_ s 1) "x"
             then uint_hex s (sp_len s - 2) 2 0 else uint_dec s (sp_len s) 0 0 in
    match r with
    | None => false
    | Some val => (val <=? max) && (min <=? val)
    end.

Definition is_valid_port (s : string_span) : bool := is_valid_uint s false 0 65535.
Definition is_valid_mtu (s : string_span) : bool := is_valid_uint s false 576 65535.
Definition is_valid_persistentkeepalive (s : string_span) : bool :=
  if is_same s (str "off") then true else is_valid_uint s false 0 65535.
Definition is_valid_fwmark (s : string_span) : bool :=
  if is_same s (str "off") then true else is_valid_uint s true 0 4294967295.
Definition is_valid_table (s : string_span) : bool :=
  if is_same s (str "auto") then true
  else if is_same s (str "off") then true
  else if (sp_len s <? 512)%nat then true
  else is_valid_uint s false 0 4294967295.
Definition is_valid_saveconfig (s : string_span) : bool := is_same s (str "true") || is_same s (str "false").
Definition is_valid_prepostupdown (s : string_span) : bool := negb (sp_len s =? 0)%nat.

Definition scope_char (c : ascii) : bool :=
  is_alphabet c || is_decimal c || existsb (Ascii.eqb c) (str "_=+.-").
Definition is_valid_scope (s : string_span) : bool :=
  if (64 <? sp_len s)%nat || (sp_len s =? 0)%nat then false
  else forallb (fun i => scope_char (at_ s i)) (seq 0 (sp_len s)).

(** The loop over a bracketed host, at index [i] with [n] characters left. *)
Fixpoint bracket_loop (s : string_span) (n i : nat) (seen_scope : bool) (hostspan : string_span) : bool :=
  match n with
  | O => false
  | S n =>
      let c := at_ s i in
      if Ascii.eqb c "%" then
        if seen_scope then false
        else if negb (is_valid_ipv6 hostspan) then false
        else bracket_loop s n (S i) true {| sp_s := sp_s s + i + 1; sp_len := 0 |}
      else if Ascii.eqb c "]" then
        if (if seen_scope then negb (is_valid_scope hostspan) else negb (is_valid_ipv6 hostspan)) then false
        else if (i =? sp_len s - 1)%nat || negb (Ascii.eqb (at_ s (i + 1)) ":") then false
        else is_valid_port {| sp_s := sp_s s + i + 2; sp_len := sp_len s - i - 2 |}
      else bracket_loop s n (S i) seen_scope {| sp_s := sp_s hostspan; sp_len := S (sp_len hostspan) |}
  end.
Fixpoint colon_loop (s : string_span) (n i : nat) : bool :=
  match n with
  | O => false
  | S n =>
      if Ascii.eqb (at_ s i) ":" then
        let host := {| sp_s := sp_s s; sp_len := i |} in
        is_valid_port {| sp_s := sp_s s + i + 1; sp_len := sp_len s - i - 1 |}
        && (is_valid_ipv4 host || is_valid_hostname host)
      else colon_loop s n (S i)
  end.
Definition is_valid_endpoint (s : string_span) : bool :=
  if (sp_len s =? 0)%nat then false
  else if Ascii.eqb (at_ s 0) "[" then
    bracket_loop s (sp_len s - 1) 1 false {| sp_s := sp_s s + 1; sp_len := 0 |}
  else colon_loop s (sp_len s) 0.

Fixpoint cidr_loop (s : string_span) (n j : nat) (val : Z) : option Z :=
  match n with
  | O => Some val
  | S n => if negb (is_decimal (at_ s j)) then None
           else cidr_loop s n (S j) (u16 (10 * val + char_int (at_ s j) - 48))
  end.
Fixpoint network_loop (s : string_span) (n i : nat) : bool :=
  match n with
  | O => is_valid_ipv4 s || is_valid_ipv6 s
  | S n =>
      if Ascii.eqb (at_ s i) "/" then
        let ip := {| sp_s := sp_s s; sp_len := i |} in
        let cidr := {| sp_s := sp_s s + i + 1; sp_len := sp_len s - i - 1 |} in
        if (3 <? sp_len cidr)%nat || (sp_len cidr =? 0)%nat then false
        else match cidr_loop cidr (sp_len cidr) 0 0 with
             | None => false
             | Some cidrval =>
                 if is_valid_ipv4 ip then cidrval <=? 32
                 else if is_valid_ipv6 ip then cidrval <=? 128
                 else false
             end
      else network_loop s n (S i)
  end.
Definition is_valid_network (s : string_span) : bool := network_loop s (sp_len s) 0.

(** ** Fields *)

Inductive field :=
| InterfaceSection | PrivateKey | ListenPort | Address | DNS | MTU
| FwMark | Table | PreUp | PostUp | PreDown | PostDown | SaveConfig
| PeerSection | PublicKey | PresharedKey | AllowedIPs | Endpoint | PersistentKeepalive
| Invalid.

#[export] Instance field_eq_dec : EqDecision field.
Proof. solve_decision. Defined.

Definition section_for_field (t : field) : field :=
  match t with
  | PrivateKey | ListenPort | Address | DNS | MTU | FwMark | Table
  | PreUp | PostUp | PreDown | PostDown | SaveConfig => InterfaceSection
  | PublicKey | PresharedKey | AllowedIPs | Endpoint | PersistentKeepalive => PeerSection
  | _ => Invalid
  end.

Definition field_names : list (string * field) :=
  [("PrivateKey", PrivateKey); ("ListenPort", ListenPort); ("Address", Address); ("DNS", DNS);
   ("MTU", MTU); ("PublicKey", PublicKey); ("PresharedKey", PresharedKey);
   ("AllowedIPs", AllowedIPs); ("Endpoint", Endpoint);
   ("PersistentKeepalive", PersistentKeepalive); ("FwMark", FwMark); ("Table", Table);
   ("PreUp", PreUp); ("PostUp", PostUp); ("PreDown", PreDown); ("PostDown", PostDown);
   ("SaveConfig", SaveConfig)]%string.
Definition get_field (s : string_span) : field :=
  match List.find (fun e => is_caseless_same s (str e.1)) field_names with
  | Some (_, f) => f
  | None => Invalid
  end.
Definition get_sectiontype (s : string_span) : field :=
  if is_caseless_same s (str "[Peer]") then PeerSection
  else if is_caseless_same s (str "[Interface]") then InterfaceSection
  else Invalid.

(** ** Spans *)

Inductive highlight_type :=
| HighlightSection | HighlightField | HighlightPrivateKey | HighlightPublicKey
| HighlightPresharedKey | HighlightIP | HighlightCidr | HighlightHost | HighlightPort
| HighlightMTU | HighlightKeepalive | HighlightComment | HighlightDelimiter
| HighlightTable | HighlightFwMark | HighlightSaveConfig | HighlightCmd
| HighlightError.

Record highlight_span := { hs_type : highlight_type; hs_start : nat; hs_len : nat }.

Definition append_highlight_span (a : list highlight_span) (s : string_span) (t : highlight_type)
  : list highlight_span :=
  if (sp_len s =? 0)%nat then a
  else a ++ [{| hs_type := t; hs_start := sp_s s; hs_len := sp_len s |}].

(** The first index from [i] with the character, or the end of the span. *)
Fixpoint find_from (s : string_span) (c : ascii) (n i : nat) : nat :=
  match n with
  | O => i
  | S n => if Ascii.eqb (at_ s i) c then i else find_from s c n (S i)
  end.
(** [for (colon = s.len; colon --> 0;)]: the last index with the character; the
    counter has wrapped around ([None]) when there is none. *)
Fixpoint find_last (s : string_span) (c : ascii) (n : nat) : option nat :=
  match n with
  | O => None
  | S i => if Ascii.eqb (at_ s i) c then Some i else find_last s c i
  end.

Definition sub_span (s : string_span) (off len : nat) : string_span :=
  {| sp_s := sp_s s + off; sp_len := len |}.

Definition highlight_multivalue_value (ret : list highlight_span) (s : string_span) (section : field)
  : list highlight_span :=
  match section with
  | DNS =>
      if is_valid_ipv4 s || is_valid_ipv6 s then append_highlight_span ret s HighlightIP
      else if is_valid_hostname s then append_highlight_span ret s HighlightHost
      else append_highlight_span ret s HighlightError
  | Address | AllowedIPs =>
      if negb (is_valid_network s) then append_highlight_span ret s HighlightError
      else
        let slash := find_from s "/" (sp_len s) 0 in
        if (slash =? sp_len s)%nat then append_highlight_span ret s HighlightIP
        else
          let ret := append_highlight_span ret (sub_span s 0 slash) HighlightIP in
          let ret := append_highlight_span ret (sub_span s slash 1) HighlightDelimiter in
          append_highlight_span ret (sub_span s (slash + 1) (sp_len s - slash - 1)) HighlightCidr
  | _ => append_highlight_span ret s HighlightError
  end.

(** The loop of [highlight_multivalue] at index [i], [n] characters left: the
    spans, the current span and [len_at_last_space]. *)
Fixpoint multivalue_loop (s : string_span) (section : field) (n i : nat)
  (ret : list highlight_span) (current_span : string_span) (len_at_last_space : nat)
  : list highlight_span * string_span * nat :=
  match n with
  | O => (ret, current_span, len_at_last_space)
  | S n =>
      let c := at_ s i in
      if Ascii.eqb c "," then
        let ret := highlight_multivalue_value ret
                     {| sp_s := sp_s current_span; sp_len := len_at_last_space |} section in
        let ret := append_highlight_span ret (sub_span s i 1) HighlightDelimiter in
        multivalue_loop s section n (S i) ret (sub_span s (i + 1) 0) 0
      else if Ascii.eqb c " " || Ascii.eqb c TAB then
        if (sp_s s + i =? sp_s current_span)%nat && (sp_len current_span =? 0)%nat
        then multivalue_loop s section n (S i) ret
               {| sp_s := S (sp_s current_span); sp_len := sp_len current_span |} len_at_last_space
        else multivalue_loop s section n (S i) ret
               {| sp_s := sp_s current_span; sp_len := S (sp_len current_span) |} len_at_last_space
      else
        multivalue_loop s section n (S i) ret
          {| sp_s := sp_s current_span; sp_len := S (sp_len current_span) |} (S (sp_len current_span))
  end.

(** [ret->spans[ret->len - 1].type = HighlightError] when it is a delimiter. *)
Definition flag_last_delimiter (ret : list highlight_span) : list highlight_span :=
  match last ret with
  | Some h =>
      match hs_type h with
      | HighlightDelimiter =>
          removelast ret ++ [{| hs_type := HighlightError; hs_start := hs_start h; hs_len := hs_len h |}]
      | _ => ret
      end
  | None => ret
  end.

Definition highlight_multivalue (ret : list highlight_span) (s : string_span) (section : field)
  : list highlight_span :=
  let '(ret, current_span, len_at_last_space) :=
    multivalue_loop s section (sp_len s) 0 ret {| sp_s := sp_s s; sp_len := 0 |} 0 in
  if negb (len_at_last_space =? 0)%nat then
    highlight_multivalue_value ret {| sp_s := sp_s current_span; sp_len := len_at_last_space |} section
  else flag_last_delimiter ret.

Definition highlight_value (ret : list highlight_span) (s : string_span) (section : field)
  : list highlight_span :=
  let mark (ok : bool) t := append_highlight_span ret s (if ok then t else HighlightError) in
  match section with
  | PrivateKey => mark (is_valid_key s) HighlightPrivateKey
  | PublicKey => mark (is_valid_key s) HighlightPublicKey
  | PresharedKey => mark (is_valid_key s) HighlightPresharedKey
  | MTU => mark (is_valid_mtu s) HighlightMTU
  | SaveConfig => mark (is_valid_saveconfig s) HighlightSaveConfig
  | FwMark => mark (is_valid_fwmark s) HighlightFwMark
  | Table => mark (is_valid_table s) HighlightTable
  | PreUp | PostUp | PreDown | PostDown => mark (is_valid_prepostupdown s) HighlightCmd
  | ListenPort => mark (is_valid_port s) HighlightPort
  | PersistentKeepalive => mark (is_valid_persistentkeepalive s) HighlightKeepalive
  | Endpoint =>
      if negb (is_valid_endpoint s) then append_highlight_span ret s HighlightError
      else match find_last s ":" (sp_len s) with
           | None => append_highlight_span ret s HighlightError
           | Some colon =>
               let ret := append_highlight_span ret (sub_span s 0 colon) HighlightHost in
               let ret := append_highlight_span ret (sub_span s colon 1) HighlightDelimiter in
               append_highlight_span ret (sub_span s (colon + 1) (sp_len s - colon - 1)) HighlightPort
           end
  | Address | DNS | AllowedIPs => highlight_multivalue ret s section
  | _ => append_highlight_span ret s HighlightError
  end.

(** ** The scanner *)

Inductive hl_state := OnNone | OnKey | OnValue | OnComment | OnSection.
#[export] Instance hl_state_eq_dec : EqDecision hl_state.
Proof. solve_decision. Defined.

Record scanner := {
  hl_ret : list highlight_span;
  hl_span : string_span;
  hl_section : field;
  hl_field : field;
  hl_st : hl_state;
  hl_last : nat;
  hl_equals : nat
}.

(** What is done at the end of a line, of the text, or at a comment sign. *)
Definition finish_item (m : scanner) : scanner :=
  let trimmed := {| sp_s := sp_s (hl_span m); sp_len := hl_last m |} in
  let with_ret ret section span :=
    {| hl_ret := ret; hl_span := span; hl_section := section; hl_field := hl_field m;
       hl_st := hl_st m; hl_last := hl_last m; hl_equals := hl_equals m |} in
  match hl_st m with
  | OnKey => with_ret (append_highlight_span (hl_ret m) trimmed HighlightError) (hl_section m) trimmed
  | OnValue =>
      let equals := {| sp_s := hl_equals m; sp_len := 1 |} in
      if negb (sp_len (hl_span m) =? 0)%nat then
        let ret := append_highlight_span (hl_ret m) equals HighlightDelimiter in
        with_ret (highlight_value ret trimmed (hl_field m)) (hl_section m) trimmed
      else with_ret (append_highlight_span (hl_ret m) equals HighlightError) (hl_section m) (hl_span m)
  | OnSection =>
      let section := get_sectiontype trimmed in
      with_ret (append_highlight_span (hl_ret m) trimmed
                  (if bool_decide (section = Invalid) then HighlightError else HighlightSection))
        section trimmed
  | OnComment => with_ret (append_highlight_span (hl_ret m) (hl_span m) HighlightComment)
                   (hl_section m) (hl_span m)
  | OnNone => m
  end.

(** One turn of the loop at a character of the text. *)
Definition scan_step (i : nat) (m : scanner) : scanner :=
  let c := cget config i in
  if Ascii.eqb c NL || (negb (bool_decide (hl_st m = OnComment)) && Ascii.eqb c "#") then
    let m := finish_item m in
    if Ascii.eqb c "#" then
      {| hl_ret := hl_ret m; hl_span := {| sp_s := i; sp_len := 1 |}; hl_section := hl_section m;
         hl_field := Invalid; hl_st := OnComment; hl_last := 0; hl_equals := hl_equals m |}
    else
      {| hl_ret := hl_ret m; hl_span := {| sp_s := i + 1; sp_len := 0 |}; hl_section := hl_section m;
         hl_field := Invalid; hl_st := OnNone; hl_last := 0; hl_equals := hl_equals m |}
  else
    let grow := {| sp_s := sp_s (hl_span m); sp_len := S (sp_len (hl_span m)) |} in
    let with_span span :=
      {| hl_ret := hl_ret m; hl_span := span; hl_section := hl_section m; hl_field := hl_field m;
         hl_st := hl_st m; hl_last := hl_last m; hl_equals := hl_equals m |} in
    if bool_decide (hl_st m = OnComment) then with_span grow
    else if Ascii.eqb c " " || Ascii.eqb c TAB then
      if (i =? sp_s (hl_span m))%nat && (sp_len (hl_span m) =? 0)%nat
      then with_span {| sp_s := S (sp_s (hl_span m)); sp_len := sp_len (hl_span m) |}
      else with_span grow
    else if Ascii.eqb c "=" && bool_decide (hl_st m = OnKey) then
      let key := {| sp_s := sp_s (hl_span m); sp_len := hl_last m |} in
      let f := get_field key in
      let section := section_for_field f in
      let ret :=
        append_highlight_span (hl_ret m) key
          (if bool_decide (section = Invalid) || bool_decide (f = Invalid)
              || negb (bool_decide (section = hl_section m))
           then HighlightError else HighlightField) in
      {| hl_ret := ret; hl_span := {| sp_s := i + 1; sp_len := 0 |}; hl_section := hl_section m;
         hl_field := f; hl_st := OnValue; hl_last := hl_last m; hl_equals := i |}
    else
      {| hl_ret := hl_ret m; hl_span := grow; hl_section := hl_section m; hl_field := hl_field m;
         hl_st := if bool_decide (hl_st m = OnNone)
                  then (if Ascii.eqb c "[" then OnSection else OnKey) else hl_st m;
         hl_last := sp_len grow; hl_equals := hl_equals m |}.

Definition scan_init : scanner :=
  {| hl_ret := []; hl_span := {| sp_s := 0; sp_len := 0 |}; hl_section := Invalid;
     hl_field := Invalid; hl_st := OnNone; hl_last := 0; hl_equals := 0 |}.

(** [highlight_config]: the spans before the final [HighlightEnd]. *)
Definition highlight_config : list highlight_span :=
  hl_ret (finish_item (for_upto (length config) scan_step scan_init)).

(** ** highlight.c *)

Definition colormap (t : highlight_type) : cstring :=
  match t with
  | HighlightSection => ansi "30m" ++ ansi "1m"
  | HighlightField => ansi "34m" ++ ansi "1m"
  | HighlightPrivateKey | HighlightPublicKey | HighlightPresharedKey => ansi "33m" ++ ansi "1m"
  | HighlightIP => ansi "32m"
  | HighlightCidr => ansi "33m"
  | HighlightHost => ansi "32m" ++ ansi "1m"
  | HighlightPort => ansi "35m"
  | HighlightMTU | HighlightKeepalive => ansi "34m"
  | HighlightComment | HighlightDelimiter => ansi "36m"
  | HighlightTable | HighlightFwMark | HighlightSaveConfig => ansi "34m"
  | HighlightCmd => ansi "37m"
  | HighlightError => ansi "31m" ++ ansi "4m"
  end.

End Validators.

(** The writes of [main], as (escape codes or not, text): [fwrite] of a length
    that would be negative, or that leaves the buffer, is [None]. *)
Definition fwrite (input : list ascii) (from len : Z) : option (list ascii) :=
  if (0 <=? len) && (0 <=? from) && (from + len <=? Z.of_nat (length input))
  then Some (take (Z.to_nat len) (drop (Z.to_nat from) input)) else None.

Fixpoint render (input : list ascii) (spans : list highlight_span) (last : Z)
  : option (list (bool * list ascii)) :=
  match spans with
  | [] => t ← fwrite input last (Z.of_nat (length input) - last); Some [(false, t)]
  | h :: spans =>
      before ← fwrite input last (Z.of_nat (hs_start h) - last);
      inside ← fwrite input (Z.of_nat (hs_start h)) (Z.of_nat (hs_len h));
      rest ← render input spans (Z.of_nat (hs_start h) + Z.of_nat (hs_len h));
      Some ((false, before) :: (true, colormap (hs_type h)) :: (false, inside)
            :: (true, ansi "0m") :: rest)
  end.

Definition highlight_main `{P : Platform} (stdin : list ascii) : option (list (bool * list ascii)) :=
  let input := take (1024 * 1024 - 1) stdin in
  rest ← render input (highlight_config (cut_nul input)) 0;
  Some ((true, ansi "0m") :: rest).

End Highlighter.
