(* ===== verification/HighlighterFacts.v ===== *)
(** * What the highlighter guarantees (contrib/highlighter)

    The spans it reports are in order, do not overlap and stay inside the text,
    so that the program prints back the text it was given between its colours;
    and what it highlights as valid is what the parsers of config.c accept. *)
From S2P Require Import Prelude Ctype Libc Encoding Containers Config Terminal Show Highlighter.
From S2P Require Import LibcFacts ConfigText Names.
Import Ctype Libc Encoding Config Terminal Show Highlighter LibcFacts ConfigText.

Module HighlighterFacts.

(** ** Spans in order *)

(** The spans lie between two positions, one after the other, none empty. *)
Fixpoint spans_in (lo hi : nat) (l : list highlight_span) : Prop :=
  match l with
  | [] => (lo <= hi)%nat
  | h :: l => (lo <= hs_start h)%nat /\ (0 < hs_len h)%nat /\ spans_in (hs_start h + hs_len h) hi l
  end.

Lemma spans_in_le lo hi l : spans_in lo hi l -> (lo <= hi)%nat.
Proof. revert lo. induction l as [|h l IH]; intros lo; simpl; [done|]. intros (? & ? & ?%IH). lia. Qed.

Lemma spans_in_weaken lo hi hi' l : spans_in lo hi l -> (hi <= hi')%nat -> spans_in lo hi' l.
Proof.
  revert lo. induction l as [|h l IH]; intros lo; simpl; [lia|].
  intros (? & ? & Hl) ?. repeat split; auto.
Qed.

Lemma spans_in_snoc lo hi hi' l h : spans_in lo hi l -> (hi <= hs_start h)%nat -> (0 < hs_len h)%nat ->
  (hs_start h + hs_len h <= hi')%nat -> spans_in lo hi' (l ++ [h]).
Proof.
  revert lo. induction l as [|g l IH]; intros lo; simpl; [lia|].
  intros (? & ? & Hl) ???. repeat split; auto.
Qed.

Lemma append_spans lo hi hi' ret s t : spans_in lo hi ret -> (hi <= sp_s s)%nat ->
  (sp_s s + sp_len s <= hi')%nat -> spans_in lo hi' (append_highlight_span ret s t).
Proof.
  intros Hr Hs Hh. unfold append_highlight_span. destruct (Nat.eqb_spec (sp_len s) 0).
  - eapply spans_in_weaken; [done|lia].
  - eapply spans_in_snoc; [done|simpl; lia..].
Qed.

(** Changing the type of the last span moves nothing. *)
Lemma flag_last_spans lo hi ret : spans_in lo hi ret -> spans_in lo hi (flag_last_delimiter ret).
Proof.
  unfold flag_last_delimiter. destruct ret as [|h ret _] using rev_ind; [done|].
  rewrite last_snoc, removelast_last. destruct (hs_type h); try done.
  revert lo. induction ret as [|g ret IH]; intros lo; simpl; [done|].
  intros (? & ? & Hl). repeat split; auto.
Qed.

Create HintDb spans.
#[local] Hint Resolve append_spans : spans.

Section Scan.
Context `{P : Platform} (config : cstring).

Lemma find_from_bound s c n : forall i, (i <= find_from config s c n i <= i + n)%nat.
Proof.
  induction n as [|n IH]; intros i; simpl; [lia|]. case_match; [lia|].
  specialize (IH (S i)). lia.
Qed.

Lemma find_last_bound s c n i : find_last config s c n = Some i -> (i < n)%nat.
Proof.
  induction n as [|n IH]; simpl; [done|]. case_match; [intros [= <-]; lia|].
  intros ?%IH. lia.
Qed.

(** The spans of a value lie within the value. *)
Definition within (f : list highlight_span -> string_span -> list highlight_span) : Prop :=
  forall lo ret s, spans_in lo (sp_s s) ret -> spans_in lo (sp_s s + sp_len s) (f ret s).

Lemma append_within t : within (fun ret s => append_highlight_span ret s t).
Proof. intros lo ret s Hr. eapply append_spans; [done|lia..]. Qed.

(** Three spans that split a value at a delimiter. *)
Lemma split_within lo ret s k t1 t2 t3 : (k < sp_len s)%nat -> spans_in lo (sp_s s) ret ->
  spans_in lo (sp_s s + sp_len s)
    (append_highlight_span (append_highlight_span (append_highlight_span ret
       (sub_span s 0 k) t1) (sub_span s k 1) t2) (sub_span s (k + 1) (sp_len s - k - 1)) t3).
Proof.
  intros Hk Hr. eapply (append_spans _ (sp_s s + k + 1)); [|simpl; lia..].
  eapply (append_spans _ (sp_s s + k)); [|simpl; lia..]. eapply append_spans; [done|simpl; lia..].
Qed.

Lemma multivalue_value_within section :
  within (fun ret s => highlight_multivalue_value config ret s section).
Proof.
  intros lo ret s Hr. unfold highlight_multivalue_value.
  assert (Ha : forall t, spans_in lo (sp_s s + sp_len s) (append_highlight_span ret s t))
    by (intros t; by apply append_within).
  pose proof (find_from_bound s "/" (sp_len s) 0) as Hf.
  assert (Hnet : forall b, spans_in lo (sp_s s + sp_len s)
    (if negb b then append_highlight_span ret s HighlightError
     else if (find_from config s "/" (sp_len s) 0 =? sp_len s)%nat
     then append_highlight_span ret s HighlightIP
     else append_highlight_span (append_highlight_span
      (append_highlight_span ret (sub_span s 0 (find_from config s "/" (sp_len s) 0)) HighlightIP)
      (sub_span s (find_from config s "/" (sp_len s) 0) 1) HighlightDelimiter)
      (sub_span s (find_from config s "/" (sp_len s) 0 + 1)
         (sp_len s - find_from config s "/" (sp_len s) 0 - 1)) HighlightCidr)).
  { intros b. destruct b; simpl; [|apply Ha]. destruct (Nat.eqb_spec (find_from config s "/" (sp_len s) 0)
      (sp_len s)); [apply Ha|]. apply split_within; [lia|done]. }
  destruct section; try apply Ha; try apply Hnet. repeat case_match; apply Ha.
Qed.

Lemma multivalue_loop_within s section lo : forall n i ret cur last,
  (i + n = sp_len s)%nat -> (sp_s cur + sp_len cur = sp_s s + i)%nat -> (last <= sp_len cur)%nat ->
  spans_in lo (sp_s cur) ret ->
  let '(ret', cur', last') := multivalue_loop config s section n i ret cur last in
  spans_in lo (sp_s cur') ret' /\ (sp_s cur' + last' <= sp_s s + sp_len s)%nat.
Proof.
  induction n as [|n IH]; intros i ret cur last Hi Hc Hl Hr; simpl; [split; [done|lia]|].
  destruct (Ascii.eqb (at_ config s i) ",").
  - apply IH; [lia|simpl; lia|simpl; lia|]. simpl.
    eapply (append_spans _ (sp_s s + i)); [|simpl; lia..].
    eapply spans_in_weaken; [by apply multivalue_value_within|]. simpl. lia.
  - destruct (_ || _).
    + destruct (_ && _) eqn:E.
      * apply andb_true_iff in E as [E1%Nat.eqb_eq E2%Nat.eqb_eq].
        apply IH; simpl; try lia. eapply spans_in_weaken; [done|lia].
      * apply IH; simpl; try lia. done.
    + apply IH; simpl; try lia. done.
Qed.

Lemma multivalue_within section : within (fun ret s => highlight_multivalue config ret s section).
Proof.
  intros lo ret s Hr. unfold highlight_multivalue.
  pose proof (multivalue_loop_within s section lo (sp_len s) 0 ret {| sp_s := sp_s s; sp_len := 0 |} 0)
    as Hm.
  destruct (multivalue_loop config s section (sp_len s) 0 ret _ 0) as [[ret' cur'] last'].
  destruct Hm as [Hr' Hc]; [lia|simpl; lia|simpl; lia|done|].
  destruct (negb _).
  - eapply spans_in_weaken; [by apply multivalue_value_within|]. simpl. lia.
  - apply flag_last_spans. eapply spans_in_weaken; [done|]. lia.
Qed.

Lemma value_within section : within (fun ret s => highlight_value config ret s section).
Proof.
  intros lo ret s Hr. unfold highlight_value.
  assert (Ha : forall t, spans_in lo (sp_s s + sp_len s) (append_highlight_span ret s t))
    by (intros t; by apply append_within).
  destruct section; try apply Ha; try (by apply multivalue_within).
  destruct (negb _); [apply Ha|]. destruct (find_last config s ":" (sp_len s)) as [k|] eqn:E; [|apply Ha].
  apply split_within; [by eapply find_last_bound|done].
Qed.

(** ** The scanner *)

(** The spans reported end before the current one, and before the equals sign
    while a value is read. *)
Definition spans_ok (m : scanner) : Prop :=
  if bool_decide (hl_st m = OnValue)
  then (hl_equals m < sp_s (hl_span m))%nat /\ spans_in 0 (hl_equals m) (hl_ret m)
  else spans_in 0 (sp_s (hl_span m)) (hl_ret m).

(** The value of [len_at_last_space] does not exceed the current span, except
    before the first character of a value, where it is stale and not read. *)
Definition tail_ok (m : scanner) : Prop :=
  if bool_decide (hl_st m = OnValue)
  then (sp_len (hl_span m) <> 0 -> hl_last m <= sp_len (hl_span m))%nat
  else (hl_last m <= sp_len (hl_span m))%nat.

(** The invariant before character [i], where the current span ends. *)
Definition scan_inv (i : nat) (m : scanner) : Prop :=
  (sp_s (hl_span m) + sp_len (hl_span m) = i)%nat /\ spans_ok m /\ tail_ok m.

Lemma finish_item_spans i m : scan_inv i m -> spans_in 0 i (hl_ret (finish_item config m)).
Proof.
  intros (Hi & Hs & Hl). unfold spans_ok, tail_ok in *. unfold finish_item.
  destruct (hl_st m); simpl in *.
  - eapply spans_in_weaken; [done|lia].
  - eapply append_spans; [done|simpl; lia..].
  - destruct Hs as [He Hs]. destruct (Nat.eqb_spec (sp_len (hl_span m)) 0) as [E|E]; simpl.
    + eapply append_spans; [done|simpl; lia..].
    + eapply spans_in_weaken; [apply value_within; simpl; eapply append_spans; [done|simpl; lia..]|].
      simpl. specialize (Hl E). lia.
  - eapply append_spans; [done|simpl; lia..].
  - eapply append_spans; [done|simpl; lia..].
Qed.

Lemma scan_step_inv i m : scan_inv i m -> scan_inv (S i) (scan_step config i m).
Proof.
  intros Hinv. pose proof (finish_item_spans i m Hinv) as Hf. destruct Hinv as (Hi & Hs & Ht).
  unfold scan_step. destruct (Ascii.eqb (cget config i) NL || _).
  { destruct (Ascii.eqb (cget config i) "#"); (split_and!; [simpl; lia| |unfold tail_ok; simpl; lia]);
      unfold spans_ok; simpl; [done|]. eapply spans_in_weaken; [done|lia]. }
  destruct (bool_decide_reflect (hl_st m = OnComment)) as [E|E].
  { split_and!; [simpl; lia|exact Hs|]. revert Ht. unfold tail_ok. simpl. rewrite E. simpl. lia. }
  destruct (_ || _).
  { destruct (_ && _) eqn:Ec; (split_and!; [simpl; lia| |]).
    - apply andb_true_iff in Ec as [Ec1%Nat.eqb_eq Ec2%Nat.eqb_eq].
      revert Hs. unfold spans_ok. simpl. case_match; [intros []; split; [lia|done]|].
      intros. eapply spans_in_weaken; [done|lia].
    - exact Ht.
    - exact Hs.
    - apply andb_false_iff in Ec. rewrite !Nat.eqb_neq in Ec.
      revert Ht. unfold tail_ok. simpl. case_match; lia. }
  destruct (bool_decide_reflect (hl_st m = OnKey)) as [Ek|Ek]; [rewrite andb_true_r|rewrite andb_false_r].
  - destruct (Ascii.eqb (cget config i) "="); (split_and!; [simpl; lia| |]).
    + unfold spans_ok, tail_ok in *. rewrite Ek in Hs, Ht. simpl in *. split; [lia|].
      eapply append_spans; [done|simpl; lia..].
    + unfold tail_ok. simpl. lia.
    + revert Hs. unfold spans_ok. simpl. by rewrite Ek.
    + unfold tail_ok. simpl. case_match; lia.
  - split_and!; [simpl; lia| |unfold tail_ok; simpl; case_match; lia].
    revert Hs. unfold spans_ok. simpl. destruct (hl_st m); try done. simpl.
    by destruct (Ascii.eqb _ "[").
Qed.

Lemma highlight_config_spans : spans_in 0 (length config) (highlight_config config).
Proof.
  apply finish_item_spans. apply for_upto_ind.
  - split_and!; [done|unfold spans_ok; simpl; lia|unfold tail_ok; simpl; lia].
  - intros i m _. apply scan_step_inv.
Qed.

End Scan.

(** ** The program *)

(** The text among the writes, without the escape codes. *)
Definition text_of (pieces : list (bool * list ascii)) : list ascii :=
  concat (map snd (List.filter (fun p => negb p.1) pieces)).

Lemma fwrite_ok (input : list ascii) (a n : nat) : (a + n <= length input)%nat ->
  fwrite input (Z.of_nat a) (Z.of_nat n) = Some (take n (drop a input)).
Proof.
  intros H. unfold fwrite. rewrite !Nat2Z.id.
  replace ((0 <=? Z.of_nat n) && (0 <=? Z.of_nat a) && _) with true; [done|].
  symmetry. rewrite !andb_true_iff. lia.
Qed.

Lemma render_ok input hi spans : forall lo, spans_in lo hi spans -> (hi <= length input)%nat ->
  exists pieces, render input spans (Z.of_nat lo) = Some pieces /\ text_of pieces = drop lo input.
Proof.
  induction spans as [|h spans IH]; intros lo Hs Hl; cbn [render].
  - simpl in Hs. rewrite <- Nat2Z.inj_sub by lia. rewrite fwrite_ok by lia. simpl.
    eexists. split; [done|]. unfold text_of. simpl. rewrite app_nil_r.
    apply take_ge. rewrite length_drop. lia.
  - simpl in Hs. destruct Hs as (H1 & H2 & H3). pose proof (spans_in_le _ _ _ H3) as H4.
    rewrite <- Nat2Z.inj_sub by lia. rewrite !fwrite_ok by lia. simpl.
    rewrite <- Nat2Z.inj_add. destruct (IH _ H3 Hl) as (pieces & -> & Ht). simpl.
    eexists. split; [done|]. unfold text_of in *. simpl. rewrite Ht.
    rewrite <- (take_drop (hs_start h - lo) (drop lo input)) at 2. f_equal.
    rewrite drop_drop. replace (lo + (hs_start h - lo))%nat with (hs_start h) by lia.
    rewrite <- (take_drop (hs_len h) (drop (hs_start h) input)) at 2. by rewrite drop_drop.
Qed.

(** The spans of any text are in order, do not overlap, are not empty and lie
    inside the text; so the highlighter never writes a negative length, and what
    it prints between its escape codes is the input (cut at the size of its
    buffer), a NUL and what follows it included. (C36) *)
Theorem highlight_main_text `{P : Platform} stdin : exists pieces,
  highlight_main stdin = Some pieces /\ text_of pieces = take (1024 * 1024 - 1) stdin.
Proof.
  unfold highlight_main. set (input := take _ stdin).
  assert (Hlen : forall s, (length (cut_nul s) <= length s)%nat).
  { intros s. induction s as [|c s IH]; simpl; [lia|]. case_match; simpl; lia. }
  destruct (render_ok input (length (cut_nul input)) (highlight_config (cut_nul input)) 0)
    as (pieces & E & Ht); [apply highlight_config_spans|apply Hlen|].
  change 0 with (Z.of_nat 0). rewrite E. simpl. eexists. split; [done|]. exact Ht.
Qed.

(** ** Keys *)

Section Keys.
Context `{P : Platform} (config : cstring).

Lemma span_text_length s : (sp_s s + sp_len s <= length config)%nat ->
  length (span_text config s) = sp_len s.
Proof. intros. unfold span_text. rewrite length_take, length_drop. lia. Qed.

Lemma at_span s i : (i < sp_len s)%nat -> at_ config s i = cget (span_text config s) i.
Proof.
  intros. unfold at_, cget, span_text. by rewrite !nth_lookup, lookup_take_lt, lookup_drop by lia.
Qed.

Lemma key_char_sextet c : key_char c = (0 <=? decode_sextet c).
Proof.
  apply Bool.eqb_prop. unfold key_char, is_decimal, is_alphabet, decode_sextet, char_int.
  destruct char_signed; simpl andb; revert c; apply char_forall; vm_compute; reflexivity.
Qed.

Lemma last_char_sextet c :
  existsb (Ascii.eqb c) (str "AEIMQUYcgkosw480") = (0 <=? decode_sextet c) && (decode_sextet c mod 4 =? 0).
Proof.
  apply Bool.eqb_prop. unfold decode_sextet, char_int.
  destruct char_signed; simpl andb; revert c; apply char_forall; vm_compute; reflexivity.
Qed.

Lemma valid_groups_forall n : forall t, (n * 4 <= length t)%nat ->
  valid_groups n t <-> Forall (fun c => 0 <= decode_sextet c) (take (n * 4) t).
Proof.
  induction n as [|n IH]; intros t Hl; simpl; [by split|].
  destruct t as [|a [|b [|c [|d t]]]]; simpl in Hl; try lia. simpl drop. rewrite drop_0.
  rewrite IH by lia. simpl. rewrite !Forall_cons_iff. unfold valid_quad, cget. simpl. tauto.
Qed.

(** The padding bits of the last group are zero exactly when its third character
    encodes a multiple of four. *)
Lemma last_group p q r : valid_quad [p; q; r; "A"%char] ->
  Z.land (decode_base64 [p; q; r; "A"%char]) 0xff = 0 <-> decode_sextet r mod 4 = 0.
Proof.
  intros Hv. rewrite decode_base64_sum by done. rewrite decode_sextet_A, Z.add_0_r.
  change 0xff with (Z.ones 8). rewrite Z.land_ones by lia.
  change (2 ^ 18) with 262144. change (2 ^ 12) with 4096. change (2 ^ 6) with 64.
  change (2 ^ 8) with 256. Z.div_mod_to_equations. lia.
Qed.

(** A text is a key exactly when it has 44 characters, the last of them "=",
    the first 42 of the alphabet, and the 43rd of those that leave no bit over. *)
Lemma key_text t :
  (exists k, key_from_base64 zero_key t = (true, k)) <->
  length t = 44%nat /\ cget t 43 = "="%char /\
  Forall (fun c => 0 <= decode_sextet c) (take 42 t) /\
  0 <= decode_sextet (cget t 42) /\ decode_sextet (cget t 42) mod 4 = 0.
Proof.
  assert (Hz : length zero_key = WG_KEY_LEN) by reflexivity. split.
  - intros [k Hk]. destruct (key_from_base64_cases zero_key t) as [H|(g & p & q & r & Hg & ->)];
      [congruence|].
    destruct (key_from_base64_shape zero_key g p q r Hz Hg) as (ok & E & Hok).
    rewrite E in Hk. simplify_eq. destruct (proj1 Hok eq_refl) as (Hv & Hq & Hland).
    rewrite last_group in Hland by done.
    apply valid_groups_forall in Hv; [|rewrite length_app, Hg; simpl; lia].
    change (10 * 4)%nat with 40%nat in Hv. rewrite take_app_length' in Hv by done.
    unfold valid_quad, cget in Hq; simpl in Hq.
    unfold cget. rewrite !app_nth2, !Hg by lia. rewrite length_app, Hg. simpl nth.
    rewrite firstn_app, Hg, take_ge by lia. simpl.
    split; [done|]. split; [done|]. split; [|tauto].
    apply Forall_app_2; [done|]. repeat constructor; tauto.
  - intros (Hl & He & Hf & Hr & Hm).
    assert (Hg : length (take 40 t) = 40%nat) by (rewrite length_take; lia).
    destruct (drop 40 t) as [|p [|q [|r [|x [|]]]]] eqn:E;
      apply (f_equal length) in E as El; rewrite length_drop, Hl in El; simpl in El; try lia.
    assert (Ht : t = take 40 t ++ [p; q; r; x]) by (rewrite <- E; symmetry; apply take_drop).
    unfold cget in *. rewrite Ht, app_nth2, Hg in He, Hr, Hm by lia. simpl in He, Hr, Hm. subst x.
    rewrite Ht in Hf. rewrite firstn_app, Hg, take_ge in Hf by lia. simpl in Hf.
    apply Forall_app in Hf as [Hf Hpq]. rewrite !Forall_cons_iff in Hpq. destruct Hpq as (Hp & Hq & _).
    destruct (key_from_base64_shape zero_key (take 40 t) p q r Hz Hg) as (ok & Ek & Hok).
    assert (Hv : valid_quad [p; q; r; "A"%char]).
    { unfold valid_quad, cget; simpl. rewrite decode_sextet_A. lia. }
    rewrite Ht. eexists. rewrite Ek. f_equal. apply Hok.
    split; [|split; [done|by apply last_group]].
    apply valid_groups_forall; [rewrite length_app, Hg; simpl; lia|].
    by rewrite take_app_length' by done.
Qed.

Lemma forallb_cget (f : ascii -> bool) n (t : cstring) : (n <= length t)%nat ->
  forallb (fun i => f (cget t i)) (seq 0 n) = true <-> Forall f (take n t).
Proof.
  intros Hn. rewrite forallb_forall, Forall_lookup. split.
  - intros H i c [Hc Hi]%lookup_take_Some. specialize (H i).
    unfold cget in H. rewrite nth_lookup, Hc in H. apply Is_true_true, H, in_seq. lia.
  - intros H i Hi%in_seq. destruct (lookup_lt_is_Some_2 t i) as [c Hc]; [lia|].
    unfold cget. rewrite nth_lookup, Hc. apply Is_true_true, (H i).
    apply lookup_take_Some. split; [done|lia].
Qed.

(** The highlighter shows a value as a key exactly when the parser of config.c
    reads a key from it. *)
Theorem valid_key_parses s : (sp_s s + sp_len s <= length config)%nat ->
  is_valid_key config s = true <->
  exists k, key_from_base64 zero_key (span_text config s) = (true, k).
Proof.
  intros Hs. rewrite key_text, span_text_length by done. unfold is_valid_key.
  destruct (Nat.eqb_spec (sp_len s) 44) as [Hl|Hl]; cbn [negb orb]; [|naive_solver lia].
  rewrite !at_span by lia. pose proof (span_text_length s Hs) as Ht.
  set (t := span_text config s) in *.
  assert (Hk : forallb (fun i => key_char (at_ config s i)) (seq 0 42) = true <->
    Forall (fun c => 0 <= decode_sextet c) (take 42 t)).
  { transitivity (Forall (fun c => key_char c) (take 42 t)).
    - rewrite <- forallb_cget by lia. rewrite !forallb_forall. split; intros H i Hi;
        specialize (H i Hi); apply in_seq in Hi; [rewrite at_span in H by lia|rewrite at_span by lia]; done.
    - apply Forall_proper; [|done]. intros c. rewrite key_char_sextet, Is_true_true. lia. }
  rewrite last_char_sextet.
  destruct (Ascii.eqb_spec (cget t 43) "="); cbn [negb orb]; [|naive_solver].
  destruct (forallb _ _); cbn [negb].
  - rewrite andb_true_iff, Z.leb_le, Z.eqb_eq. naive_solver.
  - naive_solver.
Qed.

End Keys.

(** ** Numbers *)

Section Numbers.
Context `{P : Platform} (config : cstring).

(** The decimal and hexadecimal tests of the loops are those of a digit. *)
Lemma decimal_digit c :
  digit_in 10 c = (if is_decimal c then Some (char_int c - 48) else None).
Proof.
  refine (proj1 (bool_decide_eq_true _) _). unfold is_decimal, char_int.
  destruct char_signed; simpl andb; revert c; apply char_forall; vm_compute; reflexivity.
Qed.

Lemma hexadecimal_digit c :
  digit_in 16 c =
  (if u32 (char_int c - 48) <? 10 then Some (char_int c - 48)
   else if u32 (Z.lor (u32 (char_int c)) 32 - 97) <? 6 then Some (Z.lor (char_int c) 32 - 97 + 10)
   else None).
Proof.
  refine (proj1 (bool_decide_eq_true _) _). unfold char_int.
  destruct char_signed; simpl andb; revert c; apply char_forall; vm_compute; reflexivity.
Qed.

Lemma drop_at s i : (i < sp_len s)%nat -> (sp_s s + sp_len s <= length config)%nat ->
  drop i (span_text config s) = at_ config s i :: drop (S i) (span_text config s).
Proof.
  intros Hi Hs. pose proof (span_text_length config s Hs) as Hl. apply drop_S.
  destruct (lookup_lt_is_Some_2 (span_text config s) i) as [c Hc]; [lia|].
  rewrite at_span by done. unfold cget. by rewrite nth_lookup, Hc.
Qed.

(** The loops compute the number the digits denote, which a 64-bit variable
    holds. *)
Lemma uint_dec_spec s : (sp_s s + sp_len s <= length config)%nat -> forall n i val,
  (i + n = sp_len s)%nat -> 0 <= val -> (val + 1) * 10 ^ Z.of_nat n <= 2 ^ 64 ->
  uint_dec config s n i val = digits_value 10 val (drop i (span_text config s)).
Proof.
  intros Hs. induction n as [|n IH]; intros i val Hi Hv Hb; cbn [uint_dec].
  - rewrite drop_ge by (rewrite span_text_length; lia). done.
  - rewrite drop_at by lia. cbn [digits_value]. rewrite decimal_digit.
    destruct (is_decimal (at_ config s i)) eqn:E; cbn [negb]; [|done].
    unfold is_decimal in E. rewrite Nat2Z.inj_succ, Z.pow_succ_r in Hb by lia.
    pose proof (Z.pow_pos_nonneg 10 (Z.of_nat n)).
    rewrite u64_small by nia. replace (10 * val + _ - 48) with
      (val * 10 + (char_int (at_ config s i) - 48)) by lia.
    apply IH; [lia|lia|nia].
Qed.

Lemma uint_hex_spec s : (sp_s s + sp_len s <= length config)%nat -> forall n i val,
  (i + n = sp_len s)%nat -> 0 <= val -> (val + 1) * 16 ^ Z.of_nat n <= 2 ^ 64 ->
  uint_hex config s n i val = digits_value 16 val (drop i (span_text config s)).
Proof.
  intros Hs. induction n as [|n IH]; intros i val Hi Hv Hb; cbn [uint_hex].
  - rewrite drop_ge by (rewrite span_text_length; lia). done.
  - rewrite drop_at by lia. cbn [digits_value]. rewrite Nat2Z.inj_succ, Z.pow_succ_r in Hb by lia.
    pose proof (Z.pow_pos_nonneg 16 (Z.of_nat n)).
    destruct (digit_in 16 (at_ config s i)) as [d|] eqn:E;
      pose proof E as E'; rewrite hexadecimal_digit in E'.
    + apply digit_in_value in E as [_ Hd].
      assert (Hval : u64 (16 * val + d) = val * 16 + d) by (rewrite u64_small by nia; lia).
      rewrite <- IH by (try lia; nia). rewrite <- Hval.
      destruct (u32 (char_int _ - 48) <? 10); [by simplify_eq|].
      destruct (_ <? 6); [|done]. simplify_eq. by rewrite !Z.add_assoc, !Z.add_sub_assoc.
    + repeat case_match; done.
Qed.

Lemma digits_no_nul base t : base <= 16 -> forall acc v, digits_value base acc t = Some v -> no_nul t.
Proof.
  intros Hb. induction t as [|c t IH]; intros acc v; simpl; [by intros _ []|].
  destruct (digit_in base c) as [d|] eqn:E; [|done]. intros Hv%IH. apply no_nul_cons.
  split; [|done]. intros ->. by unfold digit_in in E.
Qed.

Lemma fwmark_decimal t : negb (bool_decide (take 2 t = str "0x")) || (length t <=? 2)%nat = true ->
  fwmark_number t = number 10 t.
Proof.
  unfold fwmark_number. destruct t as [|a [|b [|d r]]]; try done; [by repeat case_match..|].
  destruct (ascii_dec a "0"), (ascii_dec b "x"); subst; try done; by repeat case_match.
Qed.

(** A text the highlighter takes for a number denotes one in the range, in
    decimal or, where it is allowed, in hexadecimal after 0x. *)
Lemma valid_uint_number s hex min max : (sp_s s + sp_len s <= length config)%nat ->
  is_valid_uint config s hex min max = true ->
  exists x, (if hex then fwmark_number (span_text config s) else number 10 (span_text config s))
    = Some x /\ min <= x <= max /\ no_nul (span_text config s).
Proof.
  intros Hs. pose proof (span_text_length config s Hs) as Hl. unfold is_valid_uint.
  destruct (Nat.ltb_spec 10 (sp_len s)) as [|H10]; cbn [orb]; [done|].
  destruct (Nat.eqb_spec (sp_len s) 0) as [|H0]; [done|].
  assert (Hp : forall b n, 0 < b -> (n <= 10)%nat -> b ^ Z.of_nat n <= b ^ 10)
    by (intros; apply Z.pow_le_mono_r; lia).
  assert (Hdec : (match uint_dec config s (sp_len s) 0 0 with
    | Some val => (val <=? max) && (min <=? val) | None => false end) = true ->
    exists x, number 10 (span_text config s) = Some x /\ min <= x <= max /\ no_nul (span_text config s)).
  { specialize (Hp 10 (sp_len s) ltac:(lia) H10). rewrite uint_dec_spec by lia. rewrite drop_0.
    destruct (digits_value 10 0 (span_text config s)) as [x|] eqn:E; [|done].
    rewrite andb_true_iff, !Z.leb_le. intros [? ?]. exists x. split; [|split; [lia|]].
    - apply number_nonnil; [|done]. intros Hn. by rewrite Hn in Hl.
    - eapply digits_no_nul; [|exact E]; lia. }
  destruct hex; [|exact Hdec]. cbn [andb].
  destruct ((2 <? sp_len s)%nat && Ascii.eqb (at_ config s 0) "0" && Ascii.eqb (at_ config s 1) "x") eqn:Ex.
  - rewrite !andb_true_iff, Nat.ltb_lt, !Ascii.eqb_eq in Ex. destruct Ex as [[H2 Ex0] Ex1].
    specialize (Hp 16 (sp_len s - 2)%nat ltac:(lia) ltac:(lia)).
    rewrite uint_hex_spec by lia.
    assert (Ht : span_text config s = "0"%char :: "x"%char :: drop 2 (span_text config s)).
    { rewrite <- Ex0, <- Ex1. rewrite <- !drop_at by lia. by rewrite drop_0. }
    destruct (digits_value 16 0 (drop 2 (span_text config s))) as [x|] eqn:E; [|done].
    rewrite andb_true_iff, !Z.leb_le. intros [? ?]. exists x.
    destruct (drop 2 (span_text config s)) as [|d r] eqn:Ed.
    { rewrite Ht in Hl. simpl in Hl. lia. }
    rewrite Ht. split; [exact E|]. split; [lia|].
    apply digits_no_nul in E; [|lia]. by rewrite !no_nul_cons in *.
  - intros H%Hdec. rewrite fwmark_decimal; [done|].
    destruct (span_text config s) as [|a [|b r]] eqn:Et; [by rewrite orb_true_r..|].
    assert (Ha : at_ config s 0 = a /\ at_ config s 1 = b).
    { rewrite !at_span, Et by (simpl in Hl; lia). done. }
    destruct Ha as [Ha Hb]. rewrite Ha, Hb in Ex. cbn [take]. simpl in Hl. rewrite <- Hl in Ex.
    destruct r as [|c r]; [by rewrite orb_true_r|].
    rewrite bool_decide_false; [done|]. injection 1 as -> ->. done.
Qed.

(** A firewall mark or a keep-alive interval that the highlighter shows as valid
    is accepted by config.c, with a value of 32 or 16 bits. (C37) *)
Theorem valid_numbers_parse s m n flags : (sp_s s + sp_len s <= length config)%nat ->
  (is_valid_fwmark config s = true -> exists x, 0 <= x <= UINT32_MAX /\
     parse_fwmark m flags (span_text config s) = (true, x, set_flag WGDEVICE_HAS_FWMARK flags)) /\
  (is_valid_persistentkeepalive config s = true -> exists x, 0 <= x <= 65535 /\
     parse_persistent_keepalive n flags (span_text config s)
     = (true, x, set_flag WGPEER_HAS_PERSISTENT_KEEPALIVE_INTERVAL flags)).
Proof.
  intros Hs.
  assert (Hoff : is_same config s (str "off") = true -> span_text config s = str "off").
  { unfold is_same. case_match; [done|]. apply bool_decide_eq_true. }
  split.
  - unfold is_valid_fwmark. destruct (is_same config s (str "off")) eqn:E.
    { rewrite Hoff by done. intros _. exists 0. split; [unfold UINT32_MAX; lia|]. done. }
    intros (x & Hx & Hr & Hn)%valid_uint_number; [|done]. rewrite parse_fwmark_ok by done.
    destruct (strcase_eq (span_text config s) (str "off")).
    { exists 0. split; [unfold UINT32_MAX; lia|]. change (UINT32_MAX <? 0) with false.
      by rewrite andb_false_r. }
    rewrite Hx. exists x. unfold UINT32_MAX in *. replace (2 ^ 32 - 1 <? x) with false by lia.
    rewrite andb_false_r, Z.min_l by lia. split; [lia|done].
  - unfold is_valid_persistentkeepalive. destruct (is_same config s (str "off")) eqn:E.
    { rewrite Hoff by done. intros _. exists 0. split; [lia|]. done. }
    intros (x & Hx & Hr & Hn)%valid_uint_number; [|done]. rewrite parse_keepalive_ok by done.
    unfold keepalive_value, decimal_upto. rewrite Hx.
    destruct (strcase_eq (span_text config s) (str "off")); [exists 0; split; [lia|done]|].
    exists x. replace (x <=? 65535) with true by lia. done.
Qed.

End Numbers.

(** ** Addresses *)

Section Addresses.
Context `{P : Platform} (config : cstring).

(** The end of a run of digits: a run of full length, the end of the text, or a
    character that is not a digit. *)
Definition run_ends (full : bool) (rest : cstring) : Prop :=
  full = true \/ rest = [] \/ exists c r, rest = c :: r /\ is_decimal c = false.

Lemma ipv4_digits_spec s : (sp_s s + sp_len s <= length config)%nat -> forall n pos j val,
  (pos + j <= sp_len s)%nat -> 0 <= val -> (val + 1) * 10 ^ Z.of_nat n <= 2 ^ 32 ->
  exists w rest v, drop (pos + j) (span_text config s) = w ++ rest /\ (length w <= n)%nat /\
    Forall is_decimal w /\ run_ends (length w =? n)%nat rest /\
    digits_value 10 val w = Some v /\ ipv4_digits config s n pos j val = (v, (j + length w)%nat).
Proof.
  intros Hs. induction n as [|n IH]; intros pos j val Hp Hv Hb; cbn [ipv4_digits].
  { exists [], (drop (pos + j) (span_text config s)), val. rewrite Nat.add_0_r.
    split_and!; try done. by left. }
  destruct (Nat.ltb_spec (pos + j) (sp_len s)) as [Hlt|Hge]; cbn [andb].
  2: { exists [], [], val. rewrite drop_ge by (rewrite span_text_length; lia).
       rewrite Nat.add_0_r. split_and!; try done; [simpl; lia|]. right. by left. }
  rewrite (drop_at config s (pos + j)) by lia.
  destruct (is_decimal (at_ config s (pos + j))) eqn:E.
  - rewrite Nat2Z.inj_succ, Z.pow_succ_r in Hb by lia. pose proof (Z.pow_pos_nonneg 10 (Z.of_nat n)).
    pose proof E as Er. unfold is_decimal in Er. rewrite u32_small by nia.
    destruct (IH pos (S j) (10 * val + char_int (at_ config s (pos + j)) - 48))
      as (w & rest & v & Hd & Hl & Hf & He & Hval & ->); [lia|lia|nia|].
    exists (at_ config s (pos + j) :: w), rest, v. cbn [digits_value length].
    rewrite decimal_digit, E, Nat.add_succ_r in *. rewrite Hd.
    split_and!; try done; [lia|by constructor; [rewrite E|]|].
    replace (val * 10 + _) with (10 * val + char_int (at_ config s (pos + j)) - 48) by lia. done.
  - exists [], (at_ config s (pos + j) :: drop (S (pos + j)) (span_text config s)), val.
    rewrite Nat.add_0_r. split_and!; try done; [simpl; lia|]. right. right. by do 2 eexists.
Qed.

(** A run of digits is determined by the text. *)
Lemma run_unique n : forall w rest w' rest',
  w ++ rest = w' ++ rest' -> Forall is_decimal w -> Forall is_decimal w' ->
  (length w <= n)%nat -> (length w' <= n)%nat ->
  run_ends (length w =? n)%nat rest -> run_ends false rest' -> w = w' /\ rest = rest'.
Proof.
  induction n as [|n IH]; intros w rest w' rest' E Hw Hw' Hl Hl' He He'.
  { destruct w, w'; simpl in *; try lia. done. }
  destruct He' as [He'|He']; [done|].
  destruct w as [|a w], w' as [|a' w']; simpl in *.
  - done.
  - exfalso. subst rest. inversion_clear Hw' as [|? ? Ha _].
    destruct He as [He|[He|(c & r & [= <- _] & Hc)]]; try done. by rewrite Hc in Ha.
  - exfalso. subst rest'. inversion_clear Hw as [|? ? Ha _].
    destruct He' as [He'|(c & r & [= <- _] & Hc)]; try done. by rewrite Hc in Ha.
  - injection E as Ea Et. subst a'. apply Forall_cons in Hw as [_ Hw]. apply Forall_cons in Hw' as [_ Hw'].
    destruct (IH w rest w' rest') as [Ew Er]; try done; try lia; [by right|]. by rewrite Ew, Er.
Qed.

(** Up to three digits without a leading zero are how their value is printed. *)
Definition small_run (w : cstring) : bool :=
  (length w =? 1)%nat || ((1 <? length w)%nat && (length w <=? 3)%nat && negb (Ascii.eqb (cget w 0) "0")).

Definition digits10 : list ascii := map ascii_of_nat (seq 48 10).

Lemma decimal_in c : is_decimal c = true -> In c digits10.
Proof.
  intros H. assert (Hc : implb (is_decimal c) (existsb (Ascii.eqb c) digits10) = true).
  { clear H. unfold is_decimal, char_int. destruct char_signed; simpl andb; revert c;
      apply char_forall; vm_compute; reflexivity. }
  rewrite H in Hc. apply existsb_exists in Hc as (x & Hx & E). by apply Ascii.eqb_eq in E as ->.
Qed.

Definition run_ok (w : cstring) : bool :=
  implb (small_run w) (bool_decide (option_map print_u (digits_value 10 0 w) = Some w)).

Lemma small_run_print w v : Forall is_decimal w -> small_run w = true ->
  digits_value 10 0 w = Some v -> w = print_u v.
Proof.
  intros Hw Hs Hv.
  enough (Hok : run_ok w = true).
  { unfold run_ok in Hok. rewrite Hs, Hv in Hok. simpl in Hok.
    apply bool_decide_eq_true in Hok. injection Hok. done. }
  assert (H3 : forallb (fun a => forallb (fun b => forallb (fun c => run_ok [a; b; c]) digits10
      && run_ok [a; b]) digits10 && run_ok [a]) digits10 = true) by (vm_compute; reflexivity).
  rewrite forallb_forall in H3.
  destruct w as [|a [|b [|c [|d w]]]]; [done|..|by unfold small_run in Hs].
  all: repeat match goal with H : Forall _ (_ :: _) |- _ => apply Forall_cons in H as [? H] end.
  all: repeat match goal with H : Is_true (is_decimal _) |- _ => apply Is_true_true, decimal_in in H end.
  all: specialize (H3 a ltac:(done)); apply andb_true_iff in H3 as [H3 Hr1]; try done.
  all: rewrite forallb_forall in H3; specialize (H3 b ltac:(done));
    apply andb_true_iff in H3 as [H3 Hr2]; try done.
  rewrite forallb_forall in H3. by apply H3.
Qed.

Definition byte_text_ok (x : Z) : bool :=
  small_run (print_u x) && forallb (fun c => existsb (Ascii.eqb c) digits10) (print_u x)
  && bool_decide (digits_value 10 0 (print_u x) = Some x).

Lemma print_byte x : is_byte x ->
  small_run (print_u x) = true /\ Forall is_decimal (print_u x) /\ digits_value 10 0 (print_u x) = Some x.
Proof.
  intros Hx. assert (H : byte_text_ok x = true).
  { revert x Hx. apply byte_forall. vm_compute. reflexivity. }
  unfold byte_text_ok in H. rewrite !andb_true_iff, bool_decide_eq_true in H.
  destruct H as [[Hs Hd] Hv]. split; [done|]. split; [|done].
  rewrite forallb_forall in Hd. apply Forall_forall. intros c Hc%list_elem_of_In.
  apply Hd, existsb_exists in Hc as (d & Hin & ->%Ascii.eqb_eq).
  unfold digits10 in Hin. simpl in Hin. unfold is_decimal, char_int.
  repeat (destruct Hin as [<-|Hin]; [by destruct char_signed|]). done.
Qed.

Lemma small_run_test w : (length w <= 3)%nat ->
  (length w =? 0)%nat || ((1 <? length w)%nat && Ascii.eqb (cget w 0) "0") = negb (small_run w).
Proof.
  intros Hl. unfold small_run. destruct w as [|a [|b [|c [|]]]]; simpl in *; try done; try lia.
  all: unfold cget; simpl; by destruct (Ascii.eqb a "0").
Qed.

(** One number of the address: the run of digits at [pos], what follows it, and
    whether the code accepts the run. *)
Lemma ipv4_run s pos : (sp_s s + sp_len s <= length config)%nat -> (pos < sp_len s)%nat ->
  exists w rest v, drop pos (span_text config s) = w ++ rest /\ (length w <= 3)%nat /\
    Forall is_decimal w /\ run_ends (length w =? 3)%nat rest /\ digits_value 10 0 w = Some v /\
    ipv4_digits config s 3 pos 0 0 = (v, length w) /\
    (length w =? 0)%nat || ((1 <? length w)%nat && Ascii.eqb (at_ config s pos) "0") = negb (small_run w).
Proof.
  intros Hs Hp. destruct (ipv4_digits_spec s Hs 3 pos 0 0) as (w & rest & v & H1 & H2 & H3 & H4 & H5 & H6);
    [lia|lia|simpl; lia|]. rewrite Nat.add_0_r in H1.
  exists w, rest, v. split_and!; try done. rewrite <- small_run_test by done.
  destruct w as [|c w]; [done|]. rewrite (drop_at config s pos) in H1 by lia. by injection H1 as -> _.
Qed.

Lemma ipv4_loop_sound s : (sp_s s + sp_len s <= length config)%nat -> forall n pos,
  ipv4_loop config s n pos = true ->
  exists l, length l = n /\ Forall is_byte l /\ drop pos (span_text config s) = join (str ".") (map print_u l).
Proof.
  intros Hs. pose proof (span_text_length config s Hs) as Hlen.
  induction n as [|n IH]; intros pos; cbn [ipv4_loop]; [done|].
  destruct (Nat.ltb_spec pos (sp_len s)) as [Hp|]; cbn [negb]; [|done].
  destruct (ipv4_run s pos Hs Hp) as (w & rest & v & Hd & Hl & Hf & He & Hv & -> & ->).
  destruct (small_run w) eqn:Hsm; cbn [negb orb]; [|done].
  destruct (Z.ltb_spec 255 v) as [|Hv255]; [done|].
  assert (Hb : is_byte v) by (split; [eapply digits_value_nonneg; [| |exact Hv]; lia|lia]).
  apply (f_equal length) in Hd as Hdl. rewrite length_drop, Hlen, length_app in Hdl.
  assert (Hrest : rest = drop (pos + length w) (span_text config s)).
  { rewrite <- drop_drop, Hd. by rewrite drop_app_length. }
  assert (Hdp : drop pos (span_text config s) = print_u v ++ rest)
    by (rewrite Hd; f_equal; by apply small_run_print).
  rewrite Hdp. clear Hd Hdp.
  destruct (Nat.eqb_spec (pos + length w) (sp_len s)) as [Hend|Hend]; cbn [andb].
  - destruct n as [|n]; cbn [Nat.eqb].
    + intros _. exists [v]. split_and!; [done|by constructor|]. simpl.
      destruct rest; [by rewrite app_nil_r|simpl in Hdl; lia].
    + case_match; [done|]. intros Hr. exfalso. revert Hr. cbn [ipv4_loop].
      destruct (Nat.ltb_spec (pos + length w + 1) (sp_len s)); [lia|done].
  - destruct (Ascii.eqb_spec (at_ config s (pos + length w)) ".") as [Hdot|]; cbn [negb]; [|done].
    destruct n as [|n]; [done|]. intros (l & Hl' & Hbl & Hj)%IH. exists (v :: l).
    split_and!; [by rewrite <- Hl'|by constructor|].
    destruct l as [|x l]; [done|]. cbn [map]. rewrite join_cons. f_equal.
    rewrite Hrest, drop_at, Hdot by lia. cbn [map] in Hj.
    by rewrite <- Hj, Nat.add_1_r.
Qed.

Lemma ipv4_loop_complete s : (sp_s s + sp_len s <= length config)%nat -> forall l pos,
  l <> [] -> Forall is_byte l ->
  drop pos (span_text config s) = join (str ".") (map print_u l) ->
  ipv4_loop config s (length l) pos = true.
Proof.
  intros Hs. pose proof (span_text_length config s Hs) as Hlen.
  induction l as [|x l IH]; intros pos Hne Hb Hj; [done|]. apply Forall_cons in Hb as [Hx Hb].
  destruct (print_byte x Hx) as (Hsm & Hdec & Hv).
  assert (Hpl : (1 <= length (print_u x) <= 3)%nat).
  { unfold small_run in Hsm. destruct (print_u x) as [|? [|? [|? [|]]]]; simpl in *; try done; lia. }
  assert (Hsplit : exists rest', drop pos (span_text config s) = print_u x ++ rest' /\
    (l = [] /\ rest' = [] \/ l <> [] /\ rest' = "."%char :: join (str ".") (map print_u l))).
  { destruct l as [|y l]; cbn [map] in Hj.
    - exists []. rewrite Hj, app_nil_r. auto.
    - rewrite join_cons in Hj. eexists. split; [exact Hj|]. by right. }
  destruct Hsplit as (rest' & Hd' & Hrest').
  apply (f_equal length) in Hd' as Hdl. rewrite length_drop, Hlen, length_app in Hdl.
  cbn [length ipv4_loop]. destruct (Nat.ltb_spec pos (sp_len s)) as [Hp|]; cbn [negb]; [|lia].
  destruct (ipv4_run s pos Hs Hp) as (w & rest & v & Hd & Hl & Hf & He & Hval & -> & ->).
  destruct (run_unique 3 w rest (print_u x) rest') as [Hw Hr]; try done; try lia.
  { by rewrite <- Hd, <- Hd'. }
  { right. destruct Hrest' as [[_ ->]|[_ ->]]; [by left|]. right. do 2 eexists. split; [done|].
    unfold is_decimal, char_int. by destruct char_signed. }
  subst w rest. rewrite Hsm. cbn [negb orb]. rewrite Hv in Hval. injection Hval as <-.
  replace (255 <? x) with false by (unfold is_byte in Hx; lia).
  destruct Hrest' as [[-> ->]|[Hl0 ->]].
  - rewrite (proj2 (Nat.eqb_eq (pos + length (print_u x)) (sp_len s))); [done|]. simpl in Hdl. lia.
  - simpl in Hdl. rewrite (proj2 (Nat.eqb_neq (pos + length (print_u x)) (sp_len s))) by lia.
    cbn [andb].
    assert (Hr : drop (pos + length (print_u x)) (span_text config s)
      = "."%char :: join (str ".") (map print_u l)).
    { by rewrite <- drop_drop, Hd', drop_app_length. }
    rewrite drop_at in Hr by lia. injection Hr as Hdot Hr. rewrite Hdot. cbn [Ascii.eqb negb].
    change (("." =? ".")%char) with true. cbn [negb]. apply IH; [done|done|].
    by rewrite Nat.add_1_r.
Qed.

(** The highlighter takes a text for an IPv4 address exactly when it is four
    numbers of 0 to 255, printed without leading zeros and separated by dots;
    reading the character after the text never changes the answer. *)
Theorem valid_ipv4_dotted s : (sp_s s + sp_len s <= length config)%nat ->
  is_valid_ipv4 config s = true <->
  exists l, length l = 4%nat /\ Forall is_byte l /\
    span_text config s = join (str ".") (map print_u l).
Proof.
  intros Hs. split.
  - intros H. destruct (ipv4_loop_sound s Hs 4 0 H) as (l & ? & ? & Hj). exists l. by rewrite drop_0 in Hj.
  - intros (l & Hl & Hb & Hj). unfold is_valid_ipv4. rewrite <- Hl.
    apply ipv4_loop_complete; [done|by destruct l|done|by rewrite drop_0].
Qed.

End Addresses.

(** ** Endpoints *)

Section Endpoints.
Context `{P : Platform} (config : cstring).

Lemma find_last_some s c n i : (i < n)%nat -> at_ config s i = c -> is_Some (find_last config s c n).
Proof.
  induction n as [|n IH]; intros Hi Hc; [lia|]. cbn [find_last].
  destruct (Ascii.eqb_spec (at_ config s n) c); [by eexists|].
  apply IH; [|done]. destruct (decide (i = n)); [congruence|lia].
Qed.

Lemma bracket_colon s : forall n i seen h, (i + n = sp_len s)%nat ->
  bracket_loop config s n i seen h = true -> exists j, (j < sp_len s)%nat /\ at_ config s j = ":"%char.
Proof.
  induction n as [|n IH]; intros i seen h Hi; cbn [bracket_loop]; [done|].
  destruct (Ascii.eqb (at_ config s i) "%").
  { destruct seen; [done|]. destruct (negb _); [done|]. apply IH; lia. }
  destruct (Ascii.eqb (at_ config s i) "]"); [|apply IH; lia].
  destruct (if seen then _ else _); [done|].
  destruct ((i =? sp_len s - 1)%nat || _) eqn:E; [done|]. intros _.
  apply orb_false_iff in E as [E1%Nat.eqb_neq E2%negb_false_iff%Ascii.eqb_eq].
  exists (i + 1)%nat. split; [lia|done].
Qed.

Lemma colon_colon s : forall n i, (i + n = sp_len s)%nat ->
  colon_loop config s n i = true -> exists j, (j < sp_len s)%nat /\ at_ config s j = ":"%char.
Proof.
  induction n as [|n IH]; intros i Hi; cbn [colon_loop]; [done|].
  destruct (Ascii.eqb_spec (at_ config s i) ":"); [|apply IH; lia]. intros _. exists i. split; [lia|done].
Qed.

(** A valid endpoint has a colon, so that the search for the last one in
    [highlight_value] never wraps around. *)
Theorem valid_endpoint_colon s : is_valid_endpoint config s = true ->
  exists i, find_last config s ":" (sp_len s) = Some i.
Proof.
  unfold is_valid_endpoint. destruct (Nat.eqb_spec (sp_len s) 0) as [|H0]; [done|].
  intros H. enough (exists j, (j < sp_len s)%nat /\ at_ config s j = ":"%char) as (j & Hj & Hc).
  { destruct (find_last_some s ":" (sp_len s) j Hj Hc) as [i Hi]. by exists i. }
  destruct (Ascii.eqb (at_ config s 0) "[").
  - eapply bracket_colon; [|done]. lia.
  - eapply colon_colon; [|done]. lia.
Qed.

End Endpoints.

(** ** Witnesses *)

Lemma valid_key_parses_witness : exists k,
  key_from_base64 (P := arm64) zero_key (str "yO0SN1yBpsvwFTpfhKnO8xg9Yoes0fYbQGWKr9T5HkM=") = (true, k).
Proof.
  apply (valid_key_parses (P := arm64) (str "yO0SN1yBpsvwFTpfhKnO8xg9Yoes0fYbQGWKr9T5HkM=")
    {| sp_s := 0; sp_len := 44 |}); [simpl; lia|]. vm_compute. reflexivity.
Defined.

Lemma valid_numbers_parse_witness : exists x, 0 <= x <= UINT32_MAX /\
  parse_fwmark (P := arm32) 0 0 (str "0xfF") = (true, x, set_flag WGDEVICE_HAS_FWMARK 0).
Proof.
  apply (valid_numbers_parse (P := arm32) (str "0xfF") {| sp_s := 0; sp_len := 4 |} 0 0 0);
    [simpl; lia|]. vm_compute. reflexivity.
Defined.

Lemma valid_ipv4_dotted_witness :
  is_valid_ipv4 (P := arm64) (str "10.0.0.255/8") {| sp_s := 0; sp_len := 10 |} = true.
Proof.
  apply valid_ipv4_dotted; [simpl; lia|]. exists [10; 0; 0; 255].
  split; [reflexivity|]. split; [|vm_compute; reflexivity]. repeat constructor; lia.
Defined.

Lemma valid_endpoint_colon_witness : exists i,
  find_last (str "[fe80::1%wlan0]:51820") {| sp_s := 0; sp_len := 21 |} ":" 21 = Some i.
Proof.
  apply (valid_endpoint_colon (P := arm64) (str "[fe80::1%wlan0]:51820")
    {| sp_s := 0; sp_len := 21 |}). vm_compute. reflexivity.
Defined.

(** The test for adjacent dots in [is_valid_hostname] comes after the branch for
    a dot and never fires: a name with an empty label is shown as valid. *)
Theorem hostname_adjacent_dots :
  is_valid_hostname (P := arm64) (str "a..b") {| sp_s := 0; sp_len := 4 |} = true.
Proof. vm_compute. reflexivity. Qed.

End HighlighterFacts.
