(* ===== verification/Regex.v ===== *)
(** * POSIX regular expressions, as wg-quick uses them

    [regcomp] of extended regular expressions (bracket expressions with ranges,
    groups, alternation, the repetitions and the two anchors) and [regexec]
    without flags: the leftmost match, the longest of those, and the span of the
    group. The patterns of wg-quick have one group at most. *)
From S2P Require Import Prelude Libc.
Import Libc.

Module Regex.

Inductive re :=
| Eps
| Chr (p : ascii -> bool)
| Seq (a b : re)
| Alt (a b : re)
| Star (a : re)
| Group (a : re)
| Bol
| Eol.

Definition Plus (a : re) : re := Seq a (Star a).
Definition Opt (a : re) : re := Alt a Eps.
(** [a{m,n}] *)
Fixpoint upto (n : nat) (a : re) : re :=
  match n with O => Eps | S n => Opt (Seq a (upto n a)) end.
Fixpoint rep (m n : nat) (a : re) : re :=
  match m with O => upto n a | S m => Seq a (rep m (n - 1) a) end.

(** ** Compiling *)

Definition char_range (a b c : ascii) : bool := (uchar a <=? uchar c) && (uchar c <=? uchar b).

(** The inside of a bracket expression, up to its closing bracket. *)
Fixpoint p_class (fuel : nat) (s : cstring) : option ((ascii -> bool) * cstring) :=
  match fuel, s with
  | S fuel, a :: s =>
      if Ascii.eqb a "]" then Some (fun _ => false, s)
      else match s with
           | d :: b :: s' =>
               if Ascii.eqb d "-" && negb (Ascii.eqb b "]")
               then '(p, r) ← p_class fuel s'; Some (fun c => char_range a b c || p c, r)
               else '(p, r) ← p_class fuel s; Some (fun c => Ascii.eqb c a || p c, r)
           | _ => '(p, r) ← p_class fuel s; Some (fun c => Ascii.eqb c a || p c, r)
           end
  | _, _ => None
  end.

Fixpoint p_number (s : cstring) (acc : nat) : nat * cstring :=
  match s with
  | c :: r => match digit_value c with
              | Some d => if d <? 10 then p_number r (10 * acc + Z.to_nat d) else (acc, s)
              | None => (acc, s)
              end
  | [] => (acc, s)
  end.

Definition is_rep_op (c : ascii) : bool :=
  Ascii.eqb c "*" || Ascii.eqb c "+" || Ascii.eqb c "?" || Ascii.eqb c "{".

(** The repetition after an atom; two in a row are refused. *)
Definition p_rep (a : re) (s : cstring) : option (re * cstring) :=
  r ← match s with
      | c :: s' =>
          if Ascii.eqb c "*" then Some (Star a, s')
          else if Ascii.eqb c "+" then Some (Plus a, s')
          else if Ascii.eqb c "?" then Some (Opt a, s')
          else if Ascii.eqb c "{" then
            let '(m, s') := p_number s' 0 in
            match s' with
            | d :: s' =>
                if Ascii.eqb d "," then
                  let '(n, s') := p_number s' 0 in
                  match s' with
                  | e :: s' => if Ascii.eqb e "}" then Some (rep m n a, s') else None
                  | [] => None
                  end
                else None
            | [] => None
            end
          else Some (a, s)
      | [] => Some (a, s)
      end;
  match s, r.2 with
  | c :: _, d :: _ => if is_rep_op c && is_rep_op d then None else Some r
  | _, _ => Some r
  end.

Fixpoint p_alt (fuel : nat) (s : cstring) : option (re * cstring) :=
  match fuel with
  | O => None
  | S fuel =>
      '(a, s) ← p_seq fuel s;
      match s with
      | c :: s' => if Ascii.eqb c "|" then '(b, s) ← p_alt fuel s'; Some (Alt a b, s) else Some (a, s)
      | [] => Some (a, s)
      end
  end
with p_seq (fuel : nat) (s : cstring) : option (re * cstring) :=
  match fuel with
  | O => None
  | S fuel =>
      match s with
      | [] => Some (Eps, s)
      | c :: _ =>
          if Ascii.eqb c "|" || Ascii.eqb c ")" then Some (Eps, s)
          else
            '(a, s) ← p_atom fuel s;
            '(a, s) ← p_rep a s;
            '(b, s) ← p_seq fuel s;
            Some (Seq a b, s)
      end
  end
with p_atom (fuel : nat) (s : cstring) : option (re * cstring) :=
  match fuel, s with
  | S fuel, c :: s =>
      if Ascii.eqb c "(" then
        '(a, s) ← p_alt fuel s;
        match s with
        | d :: s => if Ascii.eqb d ")" then Some (Group a, s) else None
        | [] => None
        end
      else if Ascii.eqb c "[" then
        match s with
        | d :: s' =>
            if Ascii.eqb d "^"
            then '(p, s) ← p_class (length s') s'; Some (Chr (fun c => negb (p c)), s)
            else '(p, s) ← p_class (length s) s; Some (Chr p, s)
        | [] => None
        end
      else if Ascii.eqb c "." then Some (Chr (fun _ => true), s)
      else if Ascii.eqb c "^" then Some (Bol, s)
      else if Ascii.eqb c "$" then Some (Eol, s)
      else if Ascii.eqb c "\" then
        match s with d :: s => Some (Chr (Ascii.eqb d), s) | [] => None end
      else if is_rep_op c then None
      else Some (Chr (Ascii.eqb c), s)
  | _, _ => None
  end.

(** [None] is an error of [regcomp]. *)
Definition regcomp (pattern : cstring) : option re :=
  '(r, s) ← p_alt (3 * length pattern + 3) pattern;
  match s with [] => Some r | _ => None end.

(** ** Matching *)

(** The span of the group, if it took part in the match. *)
Definition cap : Type := option (nat * nat).

Section Match.
Context (s : cstring).

(** The positions where a match that starts at [i] can end, greedy ones first. *)
Fixpoint ends (r : re) (i : nat) (c : cap) : list (nat * cap) :=
  match r with
  | Eps => [(i, c)]
  | Chr p => match nth_error s i with Some x => if p x then [(S i, c)] else [] | None => [] end
  | Seq a b => concat (map (fun '(j, c) => ends b j c) (ends a i c))
  | Alt a b => ends a i c ++ ends b i c
  | Star a =>
      (fix star (fuel : nat) (i : nat) (c : cap) : list (nat * cap) :=
         match fuel with
         | O => [(i, c)]
         | S fuel =>
             concat (map (fun '(j, c) => if (i <? j)%nat then star fuel j c else []) (ends a i c))
             ++ [(i, c)]
         end) (length s - i)%nat i c
  | Group a => map (fun '(j, _) => (j, Some (i, j))) (ends a i c)
  | Bol => if (i =? 0)%nat then [(i, c)] else []
  | Eol => if (i =? length s)%nat then [(i, c)] else []
  end.

(** The longest of them, the first of equals. *)
Definition longest (l : list (nat * cap)) : option (nat * cap) :=
  fold_left (fun best x =>
    match best with Some b => if (b.1 <? x.1)%nat then Some x else best | None => Some x end) l None.

Fixpoint search (r : re) (fuel i : nat) : option (nat * nat * cap) :=
  match longest (ends r i None) with
  | Some (j, c) => Some (i, j, c)
  | None => match fuel with O => None | S fuel => search r fuel (S i) end
  end.

(** [regexec]: where the match starts and ends, and the group. *)
Definition regexec (r : re) : option (nat * nat * cap) := search r (length s) 0.

End Match.

(** The text of a span. *)
Definition span (s : cstring) (i j : nat) : cstring := take (j - i) (drop i s).
(** The text of the group of a match. *)
Definition group (s : cstring) (m : nat * nat * cap) : cstring :=
  match m.2 with Some (i, j) => span s i j | None => [] end.

End Regex.
