(* ===== verification/RegexFacts.v ===== *)
(** * Facts on regular expressions

    What a match means: the language of an expression over the positions of a
    string, the soundness of the matcher for it, and what a group contains. *)
From S2P Require Import Prelude Libc Regex.
Import Libc Regex.

Module RegexFacts.

Section Lang.
Context (s : cstring).

(** [lang r i j]: the characters from [i] to [j] are a match of [r] there. *)
Inductive lang : re -> nat -> nat -> Prop :=
| lang_eps i : lang Eps i i
| lang_chr p i x : nth_error s i = Some x -> p x = true -> lang (Chr p) i (S i)
| lang_seq a b i j k : lang a i j -> lang b j k -> lang (Seq a b) i k
| lang_alt_l a b i j : lang a i j -> lang (Alt a b) i j
| lang_alt_r a b i j : lang b i j -> lang (Alt a b) i j
| lang_star_nil a i : lang (Star a) i i
| lang_star_cons a i j k : lang a i j -> lang (Star a) j k -> lang (Star a) i k
| lang_group a i j : lang a i j -> lang (Group a) i j
| lang_bol : lang Bol 0 0
| lang_eol : lang Eol (length s) (length s).

(** The expressions of the groups. *)
Fixpoint groups (r : re) : list re :=
  match r with
  | Seq a b | Alt a b => groups a ++ groups b
  | Star a => groups a
  | Group a => a :: groups a
  | _ => []
  end.

(** The group is as it was, or is a match of one of the groups. *)
Definition cap_from (l : list re) (c c' : cap) : Prop :=
  c' = c \/ exists g i j, In g l /\ c' = Some (i, j) /\ lang g i j.

Lemma cap_from_trans l1 l2 l c1 c2 c3 :
  cap_from l1 c1 c2 -> cap_from l2 c2 c3 -> incl l1 l -> incl l2 l -> cap_from l c1 c3.
Proof.
  intros H1 H2 I1 I2. destruct H2 as [->|(g & i & j & Hg & -> & Hl)]; [|right; exists g, i, j; auto].
  destruct H1 as [->|(g & i & j & Hg & -> & Hl)]; [by left|right; exists g, i, j; auto].
Qed.

Lemma ends_sound r : forall i c j c', In (j, c') (ends s r i c) -> lang r i j /\ cap_from (groups r) c c'.
Proof.
  induction r as [|p|a IHa b IHb|a IHa b IHb|a IHa|a IHa| |]; intros i c j c' H; cbn [ends groups] in *.
  - destruct H as [[= <- <-]|[]]. split; [constructor|by left].
  - destruct (nth_error s i) as [x|] eqn:E; [|done]. destruct (p x) eqn:Ep; [|done].
    destruct H as [[= <- <-]|[]]. split; [by econstructor|by left].
  - apply in_concat in H as (l & Hl & H). apply in_map_iff in Hl as ([k ck] & <- & Hk).
    apply IHa in Hk as [La Ca]. apply IHb in H as [Lb Cb]. split; [by econstructor|].
    eapply cap_from_trans; [done|done|apply incl_appl|apply incl_appr]; apply incl_refl.
  - apply in_app_or in H as [H|H].
    + apply IHa in H as [L C]. split; [by constructor|].
      destruct C as [->|(g & i' & j' & Hg & -> & Hl)]; [by left|].
      right. exists g, i', j'. split; [apply in_or_app; by auto|done].
    + apply IHb in H as [L C]. split; [by apply lang_alt_r|].
      destruct C as [->|(g & i' & j' & Hg & -> & Hl)]; [by left|].
      right. exists g, i', j'. split; [apply in_or_app; by auto|done].
  - enough (Hs : forall fuel i c j c', In (j, c') ((fix star (fuel : nat) (i : nat) (c : cap) : list (nat * cap) :=
         match fuel with
         | O => [(i, c)]
         | S fuel =>
             concat (map (fun '(j, c) => if (i <? j)%nat then star fuel j c else []) (ends s a i c)) ++ [(i, c)]
         end) fuel i c) -> lang (Star a) i j /\ cap_from (groups a) c c') by exact (Hs _ _ _ _ _ H).
    clear H i c j c'. induction fuel as [|fuel IH]; intros i c j c' H.
    + destruct H as [[= <- <-]|[]]. split; [constructor|by left].
    + apply in_app_or in H as [H|H].
      * apply in_concat in H as (l & Hl & H). apply in_map_iff in Hl as ([k ck] & <- & Hk).
        destruct (i <? k)%nat; [|done]. apply IHa in Hk as [La Ca]. apply IH in H as [Ls Cs].
        split; [by econstructor|]. eapply cap_from_trans; [done|done|apply incl_refl..].
      * destruct H as [[= <- <-]|[]]. split; [constructor|by left].
  - apply in_map_iff in H as ([k ck] & [= <- <-] & Hk). apply IHa in Hk as [La _].
    split; [by constructor|]. right. exists a, i, k. split; [by left|done].
  - destruct (Nat.eqb_spec i 0) as [->|]; [|done]. destruct H as [[= <- <-]|[]]. split; [constructor|by left].
  - destruct (Nat.eqb_spec i (length s)) as [->|]; [|done]. destruct H as [[= <- <-]|[]].
    split; [constructor|by left].
Qed.

Lemma longest_In l x : longest l = Some x -> In x l.
Proof.
  unfold longest. enough (H : forall best, fold_left (fun best x =>
    match best with Some b => if (b.1 <? x.1)%nat then Some x else best | None => Some x end) l best = Some x ->
    best = Some x \/ In x l) by (intros E; destruct (H None E); [done|done]).
  induction l as [|y l IH]; intros best E; cbn [fold_left] in E; [by left|].
  apply IH in E as [E|E]; [|right; by right]. destruct best as [b|]; [|injection E as ->; right; by left].
  destruct (b.1 <? y.1)%nat; [injection E as ->; right; by left|by left].
Qed.

Lemma regexec_sound r i j c : regexec s r = Some (i, j, c) -> lang r i j /\ cap_from (groups r) None c.
Proof.
  unfold regexec. generalize 0%nat at 1. generalize (length s). intros fuel.
  induction fuel as [|fuel IH]; intros k H; cbn [search] in H;
    destruct (longest (ends s r k None)) as [[j' c']|] eqn:E.
  - injection H as <- <- <-. apply longest_In in E. by apply ends_sound in E.
  - done.
  - injection H as <- <- <-. apply longest_In in E. by apply ends_sound in E.
  - by apply IH in H.
Qed.

(** ** Characters of a match *)

Lemma lang_le r i j : lang r i j -> (i <= j)%nat.
Proof. induction 1; lia. Qed.

(** Every character an expression can match is one of [ok]. *)
Fixpoint over (ok : ascii -> bool) (r : re) : Prop :=
  match r with
  | Chr p => forall c, p c = true -> ok c = true
  | Seq a b | Alt a b => over ok a /\ over ok b
  | Star a | Group a => over ok a
  | _ => True
  end.

(** The same by computation. *)
Fixpoint overb (ok : ascii -> bool) (r : re) : bool :=
  match r with
  | Chr p => forallb (fun c => implb (p c) (ok c)) all_chars
  | Seq a b | Alt a b => overb ok a && overb ok b
  | Star a | Group a => overb ok a
  | _ => true
  end.
Lemma overb_over ok r : overb ok r = true -> over ok r.
Proof.
  induction r; cbn [overb over]; try done; try (intros [? ?]%andb_prop; by auto).
  intros H c Hc. pose proof (char_forall _ H c) as E. cbn beta in E. by rewrite Hc in E.
Qed.

Lemma lang_over ok r i j : lang r i j -> over ok r ->
  forall k, (i <= k < j)%nat -> exists x, nth_error s k = Some x /\ ok x = true.
Proof.
  induction 1 as [|p i x E Hp|a b i j l Ha IHa Hb IHb|a b i j Ha IHa|a b i j Hb IHb| |a i j l Ha IHa Hb IHb| | |];
    cbn [over]; intros Ho k Hk; try lia.
  - exists x. replace k with i by lia. auto.
  - destruct Ho. destruct (decide (k < j)%nat); [apply IHa|apply IHb]; auto with lia.
  - destruct Ho. auto.
  - destruct Ho. auto.
  - destruct (decide (k < j)%nat); [apply IHa|apply IHb]; auto with lia.
  - auto.
Qed.

(** A bounded repetition of one character. *)
Lemma lang_upto p n i j : lang (upto n (Chr p)) i j -> (j - i <= n)%nat.
Proof.
  revert i. induction n as [|n IH]; intros i H; cbn [upto] in H.
  - inversion H; subst. lia.
  - unfold Opt in H. inversion H as [| | |? ? ? ? H'|? ? ? ? H'| | | | |]; subst.
    + inversion H' as [| |? ? ? k ? Ha Hb| | | | | | |]; subst. inversion Ha; subst. apply IH in Hb. lia.
    + inversion H'; subst. lia.
Qed.

Lemma lang_rep p m n i j : (m <= n)%nat -> lang (rep m n (Chr p)) i j -> (m <= j - i <= n)%nat.
Proof.
  revert n i. induction m as [|m IH]; intros n i Hmn H; cbn [rep] in H.
  - apply lang_upto in H. lia.
  - inversion H as [| |? ? ? k ? Ha Hb| | | | | | |]; subst. inversion Ha; subst.
    pose proof (lang_le _ _ _ Hb). apply IH in Hb; lia.
Qed.

(** An expression between the two anchors matches the whole string. *)
Lemma lang_seq_inv a b i k : lang (Seq a b) i k -> exists j, lang a i j /\ lang b j k.
Proof. intros H. inversion H; subst. eauto. Qed.
Lemma lang_bol_inv i j : lang Bol i j -> i = 0%nat /\ j = 0%nat.
Proof. intros H. by inversion H. Qed.
Lemma lang_eol_inv i j : lang Eol i j -> i = length s /\ j = length s.
Proof. intros H. by inversion H. Qed.

(** ** Groups of a match *)

(** Whether every match sets the group. *)
Fixpoint sets_group (r : re) : bool :=
  match r with
  | Group _ => true
  | Seq a b => sets_group a || sets_group b
  | Alt a b => sets_group a && sets_group b
  | _ => false
  end.

Lemma cap_from_set l c c' : cap_from l c c' -> c <> None -> c' <> None.
Proof. by intros [->|(g & i & j & _ & -> & _)]. Qed.

Lemma ends_group r : sets_group r = true -> forall i c j c', In (j, c') (ends s r i c) -> c' <> None.
Proof.
  induction r as [|p|a IHa b IHb|a IHa b IHb|a IHa|a IHa| |]; intros Hg i c j c' H; cbn [sets_group] in Hg; try done;
    cbn [ends] in H.
  - apply in_concat in H as (l & Hl & H). apply in_map_iff in Hl as ([k ck] & <- & Hk).
    destruct (sets_group a); cbn [orb] in Hg.
    + apply ends_sound in H as [_ H]. eapply cap_from_set; [done|]. by eapply IHa.
    + by eapply IHb.
  - apply andb_prop in Hg as [Ha Hb]. apply in_app_or in H as [H|H]; [by eapply IHa|by eapply IHb].
  - by apply in_map_iff in H as ([k ck] & [= <- <-] & Hk).
Qed.

Lemma search_In r fuel k i j c : search s r fuel k = Some (i, j, c) -> In (j, c) (ends s r i None).
Proof.
  revert k. induction fuel as [|fuel IH]; intros k H; cbn [search] in H;
    destruct (longest (ends s r k None)) as [[j' c']|] eqn:E; try done.
  - injection H as <- <- <-. by apply longest_In.
  - injection H as <- <- <-. by apply longest_In.
  - by eapply IH.
Qed.

(** The text of a group all of whose characters are [ok]. *)
Lemma span_over ok g i j : lang g i j -> over ok g ->
  length (span s i j) = (j - i)%nat /\ Forall (fun c => ok c = true) (span s i j).
Proof.
  intros Hl Ho. pose proof (lang_le _ _ _ Hl). unfold span.
  assert (Hall : forall k, (i <= k < j)%nat -> exists x, nth_error s k = Some x /\ ok x = true)
    by exact (lang_over ok g i j Hl Ho).
  assert (Hlen : (j - i <= length (drop i s))%nat).
  { rewrite length_drop. destruct (decide (i < j)%nat); [|lia].
    destruct (Hall (j - 1)%nat) as (x & Ex & _); [lia|].
    assert (nth_error s (j - 1) <> None) by congruence. apply nth_error_Some in H0. lia. }
  split; [rewrite length_take; lia|]. apply Forall_forall. intros c Hc.
  apply list_elem_of_In, In_nth_error in Hc as [n Hn].
  assert (Hn' : (n < j - i)%nat).
  { assert (nth_error (take (j - i) (drop i s)) n <> None) as Hx by congruence.
    apply nth_error_Some in Hx. rewrite length_take in Hx. lia. }
  destruct (Hall (i + n)%nat) as (x & Ex & Hok); [lia|].
  enough (x = c) by congruence.
  rewrite nth_error_firstn in Hn. destruct (n <? j - i)%nat; [|done].
  rewrite nth_error_skipn in Hn. congruence.
Qed.

(** Matching with a group that is always set. *)
Lemma match_group_sound r m : sets_group r = true -> regexec s r = Some m ->
  exists g i j, In g (groups r) /\ lang g i j /\ group s m = span s i j.
Proof.
  intros Hg E. destruct m as [[i j] c]. pose proof (search_In _ _ _ _ _ _ E) as H.
  pose proof (ends_group r Hg _ _ _ _ H) as Hc. apply ends_sound in H as [_ [->|(g & a & b & Hin & -> & Hl)]]; [done|].
  exists g, a, b. done.
Qed.
End Lang.
End RegexFacts.
