(* ===== verification/WgQuick.v ===== *)
(** * wg-quick for Android (src/wg-quick/android.c)

    A shell script written in C: it reads a configuration file, takes out the
    lines that are its own, and runs other programs. What those programs do is a
    parameter; the model records which of them are run, in which order and with
    which arguments. Text printed to the terminal is not modelled, nor are
    failures of allocation and of [fstat]. *)
From S2P Require Import Prelude Libc Config Setconf Regex.
Import Libc Config Setconf Regex.

Module WgQuick.

Definition ENOSYS : Z := 38.
Definition EEXIST : Z := 17.
Definition EINVAL : Z := 22.
Definition ESRCH : Z := 3.
Definition EIO : Z := 5.
Definition EBADR : Z := 53.
Definition ENONET : Z := 64.
Definition EMEDIUMTYPE : Z := 124.
Definition UINT16_MAX : Z := 65535.

(** ** Strings *)

(** [atoi], a [strtol] converted to [int]. *)
Definition atoi `{Platform} (s : cstring) : Z :=
  match strto_subject s 10 with
  | Some (neg, v, _) =>
      let long_max := 2 ^ (ulong_bits - 1) - 1 in
      s32 (Z.max (- long_max - 1) (Z.min long_max (if neg then - v else v)))
  | None => 0
  end.
(** [%d] *)
Definition print_d (z : Z) : cstring := if z <? 0 then "-"%char :: print_u (- z) else print_u z.

(** The strings a loop over [strtok] visits. *)
Fixpoint strtok_from (delims : ascii -> bool) (tok s : cstring) : list cstring :=
  match s with
  | [] => match tok with [] => [] | _ => [tok] end
  | c :: s =>
      if delims c then match tok with [] => strtok_from delims [] s | _ => tok :: strtok_from delims [] s end
      else strtok_from delims (tok ++ [c]) s
  end.
Definition strtok (s : cstring) (delims : cstring) : list cstring :=
  strtok_from (fun c => bool_decide (c ∈ delims)) [] s.

Definition TAB : ascii := ascii_of_nat 9.
(** The delimiters of lists: a comma, a space, a tab, a newline. *)
Definition list_delims : cstring := str ", " ++ [TAB; NL].
Definition line_delims : cstring := str " " ++ [NL].

Definition concat_and_free (orig : option cstring) (delim new_line : cstring) : cstring :=
  match orig with None => new_line | Some orig => orig ++ delim ++ new_line end.

(** ** Running programs *)

(** One call into libbinder, in the order of a transaction. *)
Inductive binder_op :=
| PrepareTransaction
| WriteInt32 (z : Z)
| WriteString (s : cstring)
| WriteStringArray (l : list cstring)
| SetDataPosition (z : Z)
| Transact (code : Z)
| ReadStatusHeader.

(** The status header of a reply. *)
Record astatus := { as_ok : bool; as_exception : Z; as_status : Z }.

(** The world wg-quick acts on: programs run by [system] and [popen] (the wait
    status; the errno of [popen] or the lines printed; the errno or the status of
    [pclose] for one that is fed its input), the other calls, and what happens to
    lie in memory after the terminator of an allocated string. *)
Class Shell (X : Type) := {
  sh_system : cstring -> X -> Z * X;
  sh_popen : cstring -> X -> (Z + list cstring) * X;
  sh_feed : cstring -> cstring -> X -> (Z + Z) * X;
  sh_random : X -> Z * X;
  sh_uid : X -> Z;
  sh_exec : X -> option Z;
  sh_errno : X -> Z;
  sh_sdk : option cstring;
  sh_slack : cstring -> list ascii;
  sh_binder : X -> bool;
  sh_service : X -> bool;
  sh_class : X -> bool;
  sh_associate : X -> bool;
  sh_binder_op : binder_op -> X -> Z * X;
  sh_position : X -> Z;
  sh_reply : X -> astatus
}.

Inductive event :=
| EvSystem (command : cstring)
| EvPopen (command : cstring)
| EvFeed (command input : cstring)
| EvExec (args : list cstring)
| EvBinder (op : binder_op).

Record qstate (X : Type) := {
  q_ext : X;
  q_trace : list event;                  (** the latest last *)
  q_is_exiting : bool;                   (** [is_exiting] *)
  q_atexit : bool;                       (** [cmd_up_cleanup] is registered *)
  q_cleanup_iface : option cstring       (** [cleanup_iface] *)
}.
Arguments q_ext {X}.
Arguments q_trace {X}.
Arguments q_is_exiting {X}.
Arguments q_atexit {X}.
Arguments q_cleanup_iface {X}.

Section Quick.
Context `{P : Platform} `{W : World} `{Q : Qsort} `{Sh : Shell X}.
(** [WG_PACKAGE_NAME] *)
Context (package_name : cstring).

Definition Run (A : Type) : Type := qstate X -> outcome A * qstate X.
#[export] Instance run_ret : MRet Run := fun A a st => (Ret a, st).
#[export] Instance run_bind : MBind Run := fun A B f m st =>
  match m st with
  | (Ret a, st) => f a st
  | (Exit c, st) => (Exit c, st)
  | (NullDeref, st) => (NullDeref, st)
  | (NoFuel, st) => (NoFuel, st)
  end.

Definition exit {A} (code : Z) : Run A := fun st => (Exit code, st).
(** An access through a null pointer or outside an object. *)
Definition bad_access {A} : Run A := fun st => (NullDeref, st).
Definition no_fuel {A} : Run A := fun st => (NoFuel, st).
Definition get_ext {A} (f : X -> A) : Run A := fun st => (Ret (f (q_ext st)), st).
Definition is_exiting : Run bool := fun st => (Ret (q_is_exiting st), st).
(** A call that is recorded. *)
Definition call {A} (ev : event) (f : X -> A * X) : Run A := fun st =>
  let '(a, x) := f (q_ext st) in
  (Ret a, {| q_ext := x; q_trace := q_trace st ++ [ev]; q_is_exiting := q_is_exiting st;
             q_atexit := q_atexit st; q_cleanup_iface := q_cleanup_iface st |}).
Definition random : Run Z := fun st =>
  let '(a, x) := sh_random (q_ext st) in
  (Ret a, {| q_ext := x; q_trace := q_trace st; q_is_exiting := q_is_exiting st;
             q_atexit := q_atexit st; q_cleanup_iface := q_cleanup_iface st |}).
Definition get_cleanup : Run (option cstring) := fun st => (Ret (q_cleanup_iface st), st).
Definition set_cleanup (i : option cstring) : Run unit := fun st =>
  (Ret tt, {| q_ext := q_ext st; q_trace := q_trace st; q_is_exiting := q_is_exiting st;
              q_atexit := q_atexit st; q_cleanup_iface := i |}).
Definition atexit : Run unit := fun st =>
  (Ret tt, {| q_ext := q_ext st; q_trace := q_trace st; q_is_exiting := q_is_exiting st;
              q_atexit := true; q_cleanup_iface := q_cleanup_iface st |}).
Definition set_exiting : Run unit := fun st =>
  (Ret tt, {| q_ext := q_ext st; q_trace := q_trace st; q_is_exiting := true;
              q_atexit := q_atexit st; q_cleanup_iface := q_cleanup_iface st |}).

(** [for] over a list the body does not change. *)
Fixpoint for_each {A} (l : list A) (f : A -> Run unit) : Run unit :=
  match l with [] => mret tt | a :: l => f a;; for_each l f end.

Definition xregcomp (pattern : cstring) : Run re :=
  match regcomp pattern with Some r => mret r | None => exit EBADR end.

Definition WIFEXITED (status : Z) : bool := Z.land status 0x7f =? 0.
Definition WEXITSTATUS (status : Z) : Z := Z.shiftr (Z.land status 0xff00) 8.

Definition cmd (command : cstring) : Run unit :=
  ret ← call (EvSystem command) (sh_system command);
  let ret := if ret <? 0 then ESRCH
             else if 0 <? ret then if WIFEXITED ret then WEXITSTATUS ret else EIO
             else ret in
  e ← is_exiting;
  if negb (ret =? 0) && negb e then exit ret else mret tt.

(** The lines a loop over [cmd_ret] sees. *)
Definition cmd_lines (command : cstring) : Run (list cstring) :=
  r ← call (EvPopen command) (sh_popen command);
  match r with inl errno => exit errno | inr lines => mret lines end.
(** A single [cmd_ret]: the first line, [None] for [NULL]. *)
Definition cmd_ret (command : cstring) : Run (option cstring) :=
  lines ← cmd_lines command; mret (head lines).

Definition cndc (args : cstring) : Run unit :=
  ret ← cmd_ret (str "ndc " ++ args);
  match ret with
  | None => exit ENOSYS
  | Some ret =>
      let error_code := atoi ret in
      if (400 <=? error_code) && (error_code <? 600) then exit ENONET else mret tt
  end.

(** ** The DNS resolver over binder *)

Definition STATUS_OK : Z := 0.
Definition STATUS_UNKNOWN_ERROR : Z := -2147483647 - 1.
Definition STATUS_FAILED_TRANSACTION : Z := STATUS_UNKNOWN_ERROR + 2.
Definition EX_TRANSACTION_FAILED : Z := -129.
Definition FIRST_CALL_TRANSACTION : Z := 1.

Definition meaningful_binder_status (status_out : astatus) : Z :=
  if negb (as_ok status_out) then
    if as_exception status_out =? EX_TRANSACTION_FAILED then as_status status_out
    else STATUS_FAILED_TRANSACTION
  else STATUS_OK.

Record dnsresolver_params := {
  netid : Z;
  sample_validity_seconds : Z;
  success_threshold : Z;
  min_samples : Z;
  max_samples : Z;
  base_timeout_msec : Z;
  retry_count : Z;
  servers : list cstring;
  domains : list cstring;
  tls_name : cstring;
  tls_servers : list cstring;
  tls_fingerprints : list cstring
}.

Definition dnsresolver_get_handle : Run bool :=
  b ← get_ext sh_binder;
  s ← get_ext sh_service;
  c ← get_ext sh_class;
  a ← get_ext sh_associate;
  mret (b && s && c && a).

(** Calls in a row, each of which must give [STATUS_OK]: the first other status,
    or [STATUS_OK]. *)
Fixpoint binder_ops (ops : list binder_op) : Run Z :=
  match ops with
  | [] => mret STATUS_OK
  | op :: ops =>
      status ← call (EvBinder op) (sh_binder_op op);
      if negb (status =? STATUS_OK) then mret status else binder_ops ops
  end.

Definition dnsresolver_create_network_cache (netid : Z) : Run Z :=
  status ← binder_ops [PrepareTransaction; WriteInt32 netid; Transact (FIRST_CALL_TRANSACTION + 7);
                       ReadStatusHeader];
  if negb (status =? STATUS_OK) then mret status
  else
    status_out ← get_ext sh_reply;
    if negb (as_ok status_out) then mret (meaningful_binder_status status_out) else mret STATUS_OK.

Definition dnsresolver_set_resolver_configuration (params : dnsresolver_params) : Run Z :=
  status ← binder_ops [PrepareTransaction; WriteInt32 1];
  if negb (status =? STATUS_OK) then mret status
  else
    start_position ← get_ext sh_position;
    status ← binder_ops
      [WriteInt32 0; WriteInt32 (netid params); WriteInt32 (sample_validity_seconds params);
       WriteInt32 (success_threshold params); WriteInt32 (min_samples params);
       WriteInt32 (max_samples params); WriteInt32 (base_timeout_msec params);
       WriteInt32 (retry_count params); WriteStringArray (servers params);
       WriteStringArray (domains params); WriteString (tls_name params);
       WriteStringArray (tls_servers params); WriteStringArray (tls_fingerprints params)];
    if negb (status =? STATUS_OK) then mret status
    else
      end_position ← get_ext sh_position;
      status ← binder_ops
        [SetDataPosition start_position; WriteInt32 (end_position - start_position);
         SetDataPosition end_position; Transact (FIRST_CALL_TRANSACTION + 2); ReadStatusHeader];
      if negb (status =? STATUS_OK) then mret status
      else
        status_out ← get_ext sh_reply;
        mret (meaningful_binder_status status_out).

(** ** The interface *)

Definition auto_su (argv : list cstring) : Run unit :=
  uid ← get_ext sh_uid;
  if uid =? 0 then mret tt
  else
    r ← call (EvExec (str "su" :: str "-p" :: str "-c" :: argv)) (fun x => (sh_exec x, x));
    (** [None]: another program runs in the place of this one. *)
    match r with None => exit 0 | Some errno => exit errno end.

Definition add_if (iface : cstring) : Run unit :=
  cmd (str "ip link add " ++ iface ++ str " type wireguard").

Definition DQUOTE : ascii := ascii_of_nat 34.
Definition rule_regex (iface : cstring) : cstring := str "0xc([0-9a-f]+)/0xcffff lookup " ++ iface.
Definition iptables_regex (iface : cstring) : cstring :=
  str "^-A (.* --comment " ++ [DQUOTE] ++ str "wireguard rule " ++ iface ++ [DQUOTE]
  ++ str "[^" ++ [NL] ++ str "]*)" ++ [NL] ++ str "*$".

(** The text of the group when the line matches. *)
Definition match_group (r : re) (line : cstring) : option cstring :=
  match regexec line r with Some m => Some (group line m) | None => None end.

(** The first line that matches, and its group. *)
Fixpoint first_match (r : re) (lines : list cstring) : option cstring :=
  match lines with
  | [] => None
  | line :: lines => match match_group r line with Some g => Some g | None => first_match r lines end
  end.

Definition delete_rules (program : cstring) (r : re) (lines : list cstring) : Run unit :=
  for_each lines (fun rule =>
    match match_group r rule with
    | Some g => cmd (program ++ str " -D " ++ g)
    | None => mret tt
    end).

Definition del_if (iface : cstring) : Run unit :=
  rule_reg ← xregcomp (rule_regex iface);
  iptables_reg ← xregcomp (iptables_regex iface);
  cmd (str "ip link del " ++ iface);;
  rules ← cmd_lines (str "iptables-save");
  delete_rules (str "iptables") iptables_reg rules;;
  rules ← cmd_lines (str "ip6tables-save");
  delete_rules (str "ip6tables") iptables_reg rules;;
  rules ← cmd_lines (str "ip rule show");
  match first_match rule_reg rules with
  | Some netid => cndc (str "network destroy " ++ print_u (strtoul netid 16).1)
  | None => mret tt
  end.

(** The two flags of [should_block_ipv6] after its loop. *)
Fixpoint endpoint_flags (lines : list cstring) (has_ipv6 has_all_none : bool) : bool * bool :=
  match lines with
  | [] => (has_ipv6, has_all_none)
  | endpoint :: lines =>
      match strsep endpoint TAB with
      | (_, None) => endpoint_flags lines has_ipv6 has_all_none
      | (_, Some start) =>
          let has_all_none := if negb (Ascii.eqb (cget start 0) "(") then false else has_all_none in
          let has_ipv6 := if Ascii.eqb (cget start 0) "[" then true else has_ipv6 in
          endpoint_flags lines has_ipv6 has_all_none
      end
  end.
Definition should_block_ipv6 (iface : cstring) : Run bool :=
  lines ← cmd_lines (str "wg show " ++ iface ++ str " endpoints");
  let '(has_ipv6, has_all_none) := endpoint_flags lines false true in
  mret (negb has_ipv6 && negb has_all_none).

Definition determine_listen_port (iface : cstring) : Run Z :=
  cmd (str "ip link set up dev " ++ iface);;
  value ← cmd_ret (str "wg show " ++ iface ++ str " listen-port");
  let listen_port :=
    match value with
    | None => 0
    | Some value =>
        let listen_port := (strtoul value 10).1 in
        if (UINT16_MAX <? listen_port) || (listen_port =? 0) then 0 else listen_port
    end in
  cmd (str "ip link set down dev " ++ iface);;
  mret (u16 listen_port).

(** [while ( *netid < 4096) *netid = random() & 0xfffe;] *)
Fixpoint pick_netid (fuel : nat) (netid : Z) : Run Z :=
  if 4096 <=? netid then mret netid
  else match fuel with
       | O => no_fuel
       | S fuel => r ← random; pick_netid fuel (Z.land r 0xfffe)
       end.

Definition comment_rule (iface : cstring) : cstring :=
  str " -m comment --comment " ++ [DQUOTE] ++ str "wireguard rule " ++ iface ++ [DQUOTE].

Definition up_if (fuel : nat) (sdk_version : Z) (iface : cstring) (listen_port : Z) : Run Z :=
  netid ← pick_netid fuel 0;
  cmd (str "wg set " ++ iface ++ str " fwmark 0x20000");;
  cmd (str "iptables -I OUTPUT 1 -m mark --mark 0x20000 -j ACCEPT" ++ comment_rule iface);;
  cmd (str "ip6tables -I OUTPUT 1 -m mark --mark 0x20000 -j ACCEPT" ++ comment_rule iface);;
  (if negb (listen_port =? 0) then
     cmd (str "iptables -I INPUT 1 -p udp --dport " ++ print_u listen_port ++ str " -j ACCEPT"
          ++ comment_rule iface);;
     block ← should_block_ipv6 iface;
     cmd (str "ip6tables -I INPUT 1 -p udp --dport " ++ print_u listen_port ++ str " -j "
          ++ (if (block : bool) then str "DROP" else str "ACCEPT") ++ comment_rule iface)
   else mret tt);;
  cmd (str "ip link set up dev " ++ iface);;
  cndc (str "network create " ++ print_u netid
        ++ (if sdk_version <? 31 then str " vpn 1 1" else str " vpn 1"));;
  cndc (str "network interface add " ++ print_u netid ++ str " " ++ iface);;
  mret netid.

(** ** Applications *)

Definition compare_uid (a b : Z) : Z := s32 (u32 (a - b)).

(** Memory from a string on: its characters, its terminator and what follows. *)
Definition memory (s : cstring) : list ascii := s ++ NUL :: sh_slack s.

(** [strchrnul(start, ',')]: what is before, and memory from there; [None] when
    it runs out of the memory that is there. *)
Fixpoint scan_comma (mem : list ascii) : option (cstring * list ascii) :=
  match mem with
  | [] => None
  | c :: r =>
      if Ascii.eqb c "," || Ascii.eqb c NUL then Some ([], mem)
      else '(tok, rest) ← scan_comma r; Some (c :: tok, rest)
  end.

(** The loop over the tokens, for one package: how often it matches. After the
    last token, [start] is one past what [comma] points to. *)
Fixpoint count_tokens (fuel : nat) (start : list ascii) (package_name : cstring) : option nat :=
  match fuel with
  | O => None
  | S fuel =>
      '(token, comma) ← scan_comma start;
      if Ascii.eqb (nth 0 start NUL) NUL then Some 0%nat
      else
        n ← count_tokens fuel (tail comma) package_name;
        Some ((if negb (length token =? 0)%nat && str_eq token package_name then 1 else 0) + n)%nat
  end.

(** A line of the package list: the name and the user id. *)
Definition parse_package (line : cstring) : option (cstring * Z) :=
  match strsep line " " with
  | (_, None) => None
  | (package_name, Some rest) =>
      let package_uid_str := (strsep rest " ").1 in
      let '(v, endptr) := strtoul package_uid_str 10 in
      let package_uid := u32 v in
      if (package_uid =? 0) || (strlen package_uid_str =? 0) || negb (strlen endptr =? 0) then None
      else Some (package_name, package_uid)
  end.

(** The loop over the lines: [uids] is what was written so far to an array of
    [size] entries. *)
Fixpoint package_loop (size : nat) (selected : cstring) (lines : list cstring) (uids : list Z)
  : Run (list Z) :=
  match lines with
  | [] => mret uids
  | line :: lines =>
      match parse_package line with
      | None => package_loop size selected lines uids
      | Some (package_name, package_uid) =>
          let mem := memory selected in
          match count_tokens (S (length mem)) mem package_name with
          | None => bad_access
          | Some n =>
              let uids := uids ++ replicate n package_uid in
              if (size <? length uids)%nat then bad_access else package_loop size selected lines uids
          end
      end
  end.

(** The commas from a place on, up to the next terminator; [None] when the memory
    runs out before it. *)
Fixpoint count_commas (mem : list ascii) : option nat :=
  match mem with
  | [] => None
  | c :: mem =>
      if Ascii.eqb c NUL then Some 0%nat
      else n ← count_commas mem; Some (if Ascii.eqb c "," then S n else n)
  end.
(** The number of entries: one, and one for each turn of the counting loop, which
    looks for the first comma one past the start of the string. *)
Definition uid_list_size (selected : cstring) : option nat :=
  n ← count_commas (tail (memory selected)); Some (2 + n)%nat.

(** [get_uid_list]: the array, which [xcalloc] filled with zeros. *)
Definition get_uid_list (selected_applications : option cstring) : Run (list Z) :=
  match selected_applications with
  | None => mret [0]
  | Some selected =>
      match uid_list_size selected with
      | None => bad_access
      | Some size =>
          match fopen (str "/data/system/packages.list") with
          | None => e ← get_ext sh_errno; exit e
          | Some package_list =>
              uids ← package_loop size selected (config_lines (f_bytes package_list)) [];
              mret (qsort compare_uid uids ++ replicate (size - length uids) 0)
          end
      end
  end.

Definition users_add (netid : Z) (ranges : cstring) : Run unit :=
  cndc (str "network users add " ++ print_u netid ++ str " " ++ ranges).

(** One more range: every eighteenth the command is run. *)
Definition add_range (netid : Z) (ranges : option cstring) (args_per_command : Z) (range : cstring)
  : Run (option cstring * Z) :=
  let ranges := concat_and_free ranges (str " ") range in
  let args_per_command := u32 (args_per_command + 1) in
  if args_per_command mod 18 =? 0
  then users_add netid ranges;; mret (None, args_per_command)
  else mret (Some ranges, args_per_command).

(** [snprintf(range, sizeof(range), ...)] into 22 characters. *)
Definition range_text (s : cstring) : cstring := take 21 s.

Fixpoint exclude_loop (netid : Z) (uid : list Z) (start : Z) (ranges : option cstring) (args : Z)
  : Run (Z * option cstring) :=
  match uid with
  | [] => bad_access
  | u :: uid =>
      if u =? 0 then mret (start, ranges)
      else if u32 (u - 1) <? start then exclude_loop netid uid (u32 (u + 1)) ranges args
      else
        let range := if start =? u32 (u - 1) then range_text (print_u start)
                     else range_text (print_u start ++ str "-" ++ print_u (u32 (u - 1))) in
        '(ranges, args) ← add_range netid ranges args range;
        exclude_loop netid uid (u32 (u + 1)) ranges args
  end.

Fixpoint include_loop (netid : Z) (uid : list Z) (ranges : option cstring) (args : Z)
  : Run (option cstring) :=
  match uid with
  | [] => bad_access
  | u :: uid =>
      if u =? 0 then mret ranges
      else
        '(ranges, args) ← add_range netid ranges args (range_text (print_u u));
        include_loop netid uid ranges args
  end.

Definition set_users (netid : Z) (excluded_applications included_applications : option cstring)
  : Run unit :=
  match excluded_applications, included_applications with
  | Some _, Some _ => exit EEXIST
  | _, _ =>
      ranges ←
        match included_applications with
        | None =>
            uids ← get_uid_list excluded_applications;
            '(start, ranges) ← exclude_loop netid uids 0 None 0;
            mret (if start <? 99999
                  then Some (concat_and_free ranges (str " ") (range_text (print_u start ++ str "-99999")))
                  else ranges)
        | Some _ =>
            uids ← get_uid_list included_applications;
            include_loop netid uids None 0
        end;
      match ranges with Some ranges => users_add netid ranges | None => mret tt end
  end.

(** ** Name servers *)

Definition snprintf (size : Z) (s : cstring) : cstring := take (Z.to_nat (size - 1)) s.
(** [strncat(dest, src, n)] to a buffer of [capacity] characters: [None] when it
    writes past the end. *)
Definition strncat (capacity : Z) (dest src : cstring) (n : Z) : option cstring :=
  let r := dest ++ take (Z.to_nat n) src in
  if capacity <? strlen r + 1 then None else Some r.

(** The four argument lists and the two arrays [set_dnses] fills in. *)
Record dns_args := {
  dns_shell_arglist : cstring;
  dns_search_shell_arglist : cstring;
  dns_function_arglist : cstring;
  dns_search_function_arglist : cstring;
  dns_list : list cstring;
  dns_search_list : list cstring
}.
Definition no_dns : dns_args :=
  {| dns_shell_arglist := []; dns_search_shell_arglist := []; dns_function_arglist := [];
     dns_search_function_arglist := []; dns_list := []; dns_search_list := [] |}.

(** Names with a quote or a backslash are left out. *)
Definition quotable (s : cstring) : bool :=
  negb (bool_decide (is_Some (strchr s "'"))) && negb (bool_decide (is_Some (strchr s "\"))).

Definition regex_ipnothost : cstring := str "(^[0-9.]+$)|(^.*:.*$)".
Definition is_match (r : re) (s : cstring) : bool := bool_decide (is_Some (regexec s r)).

(** One turn of the second loop; [len] is the length of the whole value. *)
Definition add_dns (r : re) (len : Z) (dns : cstring) (d : dns_args) : option dns_args :=
  let is_ip := is_match r dns in
  let capacity := len * 4 + 1 in
  let arg := snprintf (len + 3) (str "'" ++ dns ++ str "' ") in
  let fun_list := if is_ip then dns_function_arglist d else dns_search_function_arglist d in
  let arg' := snprintf (len + 2) (if strlen fun_list =? 0 then dns else str ", " ++ dns) in
  shell ← strncat capacity (if is_ip then dns_shell_arglist d else dns_search_shell_arglist d) arg (len * 4 - 1);
  func ← strncat capacity fun_list arg' (len * 4 - 1);
  Some (if is_ip
        then {| dns_shell_arglist := shell; dns_search_shell_arglist := dns_search_shell_arglist d;
                dns_function_arglist := func; dns_search_function_arglist := dns_search_function_arglist d;
                dns_list := dns_list d ++ [dns]; dns_search_list := dns_search_list d |}
        else {| dns_shell_arglist := dns_shell_arglist d; dns_search_shell_arglist := shell;
                dns_function_arglist := dns_function_arglist d; dns_search_function_arglist := func;
                dns_list := dns_list d; dns_search_list := dns_search_list d ++ [dns] |}).

Fixpoint add_dnses (r : re) (len : Z) (l : list cstring) (d : dns_args) : option dns_args :=
  match l with
  | [] => Some d
  | dns :: l => d ← (if quotable dns then add_dns r len dns d else Some d); add_dnses r len l d
  end.

Definition dns_params (netid : Z) (d : dns_args) : dnsresolver_params :=
  {| netid := netid; sample_validity_seconds := 1800; success_threshold := 25; min_samples := 8;
     max_samples := 8; base_timeout_msec := 5000; retry_count := 2; servers := dns_list d;
     domains := dns_search_list d; tls_name := []; tls_servers := []; tls_fingerprints := [] |}.

Definition set_dnses (netid : Z) (dnses : option cstring) : Run unit :=
  match dnses with
  | None => bad_access
  | Some dnses =>
      let len := strlen dnses in
      if Z.shiftl 1 16 <? len then mret tt
      else if len =? 0 then mret tt
      else
        r ← xregcomp regex_ipnothost;
        let l := strtok dnses list_delims in
        if bool_decide (filter (fun dns => quotable dns && is_match r dns = true) l = []) then mret tt
        else
          match add_dnses r len l no_dns with
          | None => bad_access
          | Some d =>
              handle ← dnsresolver_get_handle;
              if (handle : bool) then
                status ← dnsresolver_create_network_cache netid;
                if negb (status =? 0) then exit ENONET
                else
                  status ← dnsresolver_set_resolver_configuration (dns_params netid d);
                  if negb (status =? 0) then exit ENONET else mret tt
              else cndc (str "resolver setnetdns " ++ print_u netid ++ str " '"
                         ++ dns_search_shell_arglist d ++ str "' " ++ dns_shell_arglist d)
          end
  end.

(** ** Addresses, routes and the MTU *)

Definition add_addr (iface addr : cstring) : Run unit :=
  if bool_decide (is_Some (strchr addr ":")) then
    cndc (str "interface ipv6 " ++ iface ++ str " enable");;
    cmd (str "ip -6 addr add '" ++ addr ++ str "' dev " ++ iface)
  else
    let '(mut_addr, slash) := strsep addr "/" in
    let mask := match slash with Some m => u8 (atoi m) | None => 32 end in
    cndc (str "interface setcfg " ++ iface ++ str " '" ++ mut_addr ++ str "' " ++ print_u mask).

Definition set_addr (iface : cstring) (addrs : option cstring) : Run unit :=
  match addrs with
  | None => bad_access
  | Some addrs =>
      for_each (strtok addrs list_delims) (fun addr =>
        if quotable addr then add_addr iface addr else mret tt)
  end.

Definition get_route_mtu (endpoint : cstring) : Run Z :=
  regex_mtu ← xregcomp (str "mtu ([0-9]+)");
  regex_dev ← xregcomp (str "dev ([^ ]+)");
  route ← cmd_ret (if negb (str_eq endpoint (str "default"))
                   then str "ip -o route get " ++ endpoint
                   else str "ip -o route show " ++ endpoint);
  match route with
  | None => mret (-1)
  | Some route =>
      match match_group regex_mtu route with
      | Some mtu => mret (atoi mtu)
      | None =>
          match match_group regex_dev route with
          | Some dev =>
              route ← cmd_ret (str "ip -o link show dev " ++ dev);
              match route with
              | None => mret (-1)
              | Some route =>
                  match match_group regex_mtu route with
                  | None => mret (-1)
                  | Some mtu => mret (atoi mtu)
                  end
              end
          | None => mret (-1)
          end
      end
  end.

Definition regex_endpoint : cstring := str "^\[?([a-z0-9:.]+)\]?:[0-9]+$".

Fixpoint mtu_loop (r : re) (lines : list cstring) (endpoint_mtu : Z) : Run Z :=
  match lines with
  | [] => mret endpoint_mtu
  | endpoint :: lines =>
      match match_group r endpoint with
      | None => mtu_loop r lines endpoint_mtu
      | Some endpoint =>
          next_mtu ← get_route_mtu endpoint;
          mtu_loop r lines (if (0 <? next_mtu) && (next_mtu <? endpoint_mtu) then next_mtu else endpoint_mtu)
      end
  end.

Definition set_mtu (iface : cstring) (mtu : Z) : Run unit :=
  if negb (mtu =? 0) then cndc (str "interface setmtu " ++ iface ++ str " " ++ print_u mtu)
  else
    r ← xregcomp regex_endpoint;
    endpoint_mtu ← get_route_mtu (str "default");
    let endpoint_mtu := if endpoint_mtu =? -1 then 1500 else endpoint_mtu in
    lines ← cmd_lines (str "wg show " ++ iface ++ str " endpoints");
    endpoint_mtu ← mtu_loop r lines endpoint_mtu;
    cndc (str "interface setmtu " ++ iface ++ str " " ++ print_d (endpoint_mtu - 80)).

Definition add_route (iface : cstring) (netid : Z) (route : cstring) : Run unit :=
  cndc (str "network route add " ++ print_u netid ++ str " " ++ iface ++ str " " ++ route).

(** The allowed IPs on the lines of [wg show ... allowed-ips]. *)
Definition line_routes (line : cstring) : list cstring :=
  match strsep line TAB with
  | (_, None) => []
  | (_, Some start) => filter (fun a => negb (str_eq a (str "(none)")) = true) (strtok start line_delims)
  end.
Definition set_routes (iface : cstring) (netid : Z) : Run unit :=
  lines ← cmd_lines (str "wg show " ++ iface ++ str " allowed-ips");
  for_each lines (fun line => for_each (line_routes line) (add_route iface netid)).

Definition set_config (iface : cstring) (config : option cstring) : Run unit :=
  let command := str "wg addconf " ++ iface ++ str " /proc/self/fd/0" in
  match config with
  | None => _ ← call (EvFeed command []) (sh_feed command []); bad_access
  | Some config =>
      r ← call (EvFeed command config) (sh_feed command config);
      match r with
      | inl errno => exit errno
      | inr ret => if negb (ret =? 0) then exit (if WIFEXITED ret then WEXITSTATUS ret else EIO) else mret tt
      end
  end.

Definition broadcast_change : Run unit :=
  if bool_decide (getenv (str "CALLING_PACKAGE") = Some package_name) then mret tt
  else cmd (str "am broadcast -a com.wireguard.android.action.REFRESH_TUNNEL_STATES " ++ package_name).

(** ** The configuration file *)

Definition WG_CONFIG_SEARCH_PATHS : cstring :=
  str "/data/misc/wireguard /data/data/" ++ package_name ++ str "/files".

(** What [parse_options] stores through its out parameters; [None] is [NULL]. *)
Record options := {
  o_iface : cstring;
  o_config : option cstring;
  o_mtu : Z;
  o_addrs : option cstring;
  o_dnses : option cstring;
  o_excluded : option cstring;
  o_included : option cstring
}.

Definition regex_iface : cstring := str "^[a-zA-Z0-9_=+.-]{1,15}$".
Definition regex_conf : cstring := str "/?([a-zA-Z0-9_=+.-]{1,15})\.conf$".

(** The first of the search paths where the file can be opened. *)
Fixpoint search_file (paths : list cstring) (arg : cstring) : option (cstring * file) :=
  match paths with
  | [] => None
  | path :: paths =>
      let filename := path ++ str "/" ++ arg ++ str ".conf" in
      match fopen filename with Some f => Some (filename, f) | None => search_file paths arg end
  end.

(** The key of an option line of the interface section. *)
Inductive option_key := KAddress | KDns | KExcluded | KIncluded | KMtu.
Definition option_line (clean : cstring) : option (option_key * cstring) :=
  let j := strlen clean in
  if strncase_eq clean (str "Address=") 8 && (8 <? j) then Some (KAddress, drop 8 clean)
  else if strncase_eq clean (str "DNS=") 4 && (4 <? j) then Some (KDns, drop 4 clean)
  else if strncase_eq clean (str "ExcludedApplications=") 21 && (4 <? j) then Some (KExcluded, drop 21 clean)
  else if strncase_eq clean (str "IncludedApplications=") 21 && (4 <? j) then Some (KIncluded, drop 21 clean)
  else if strncase_eq clean (str "MTU=") 4 && (4 <? j) then Some (KMtu, drop 4 clean)
  else None.

Definition store_option (k : option_key) (v : cstring) (o : options) : options :=
  let join old := Some (concat_and_free old (str ",") v) in
  {| o_iface := o_iface o; o_config := o_config o;
     o_mtu := match k with KMtu => u32 (atoi v) | _ => o_mtu o end;
     o_addrs := match k with KAddress => join (o_addrs o) | _ => o_addrs o end;
     o_dnses := match k with KDns => join (o_dnses o) | _ => o_dnses o end;
     o_excluded := match k with KExcluded => join (o_excluded o) | _ => o_excluded o end;
     o_included := match k with KIncluded => join (o_included o) | _ => o_included o end |}.
Definition store_config (line : cstring) (o : options) : options :=
  {| o_iface := o_iface o; o_config := Some (concat_and_free (o_config o) [] line); o_mtu := o_mtu o;
     o_addrs := o_addrs o; o_dnses := o_dnses o; o_excluded := o_excluded o; o_included := o_included o |}.

Definition clean_spaces (line : cstring) : cstring := filter (fun c => negb (isspace c) = true) line.
(** [in_interface_section] after a line. *)
Definition section_after (clean : cstring) (in_interface_section : bool) : bool :=
  let b := if Ascii.eqb (cget clean 0) "[" then false else in_interface_section in
  if strcase_eq clean (str "[Interface]") then true else b.

(** The loop over the lines; [false] when it returns early. *)
Fixpoint option_lines (lines : list cstring) (in_interface_section : bool) (o : options) : bool * options :=
  match lines with
  | [] => (true, o)
  | line :: lines =>
      if Z.shiftl 1 16 <? strlen line then (false, o)
      else
        let clean := clean_spaces line in
        let in_interface_section := section_after clean in_interface_section in
        let own := if (in_interface_section : bool) then option_line clean else None in
        option_lines lines in_interface_section
          match own with Some (k, v) => store_option k v o | None => store_config line o end
  end.

Definition or_empty (s : option cstring) : option cstring := Some (default [] s).

Definition parse_options (arg : cstring) : Run options :=
  regex_iface ← xregcomp regex_iface;
  regex_conf ← xregcomp regex_conf;
  let opened :=
    if is_match regex_iface arg then search_file (strtok WG_CONFIG_SEARCH_PATHS (str " ")) arg
    else match fopen arg with Some f => Some (arg, f) | None => None end in
  match opened with
  | None => e ← get_ext sh_errno; exit e
  | Some (filename, file) =>
      match match_group regex_conf filename with
      | None => exit EINVAL
      | Some iface =>
          let o := {| o_iface := iface; o_config := None; o_mtu := 0; o_addrs := None; o_dnses := None;
                      o_excluded := None; o_included := None |} in
          let '(complete, o) := option_lines (config_lines (f_bytes file)) false o in
          mret (if (complete : bool)
                then {| o_iface := o_iface o; o_config := or_empty (o_config o); o_mtu := o_mtu o;
                        o_addrs := or_empty (o_addrs o); o_dnses := or_empty (o_dnses o);
                        o_excluded := o_excluded o; o_included := o_included o |}
                else o)
      end
  end.

(** ** Commands *)

Definition cmd_up_cleanup : Run unit :=
  set_exiting;;
  iface ← get_cleanup;
  match iface with Some iface => del_if iface | None => mret tt end.

Definition cmd_up (fuel : nat) (sdk_version : Z) (o : options) : Run Z :=
  let iface := o_iface o in
  exists_ ← cmd_ret (str "ip link show dev " ++ iface ++ str " 2>/dev/null");
  match exists_ with
  | Some _ => exit EEXIST
  | None =>
      set_cleanup (Some iface);;
      atexit;;
      add_if iface;;
      set_config iface (o_config o);;
      listen_port ← determine_listen_port iface;
      netid ← up_if fuel sdk_version iface listen_port;
      set_addr iface (o_addrs o);;
      set_dnses netid (o_dnses o);;
      set_routes iface netid;;
      set_mtu iface (o_mtu o);;
      set_users netid (o_excluded o) (o_included o);;
      broadcast_change;;
      set_cleanup None;;
      exit 0
  end.

Definition cmd_down (o : options) : Run Z :=
  let iface := o_iface o in
  ifaces ← cmd_ret (str "wg show interfaces");
  let found := match ifaces with
               | Some ifaces => existsb (str_eq iface) (strtok ifaces line_delims)
               | None => false
               end in
  if negb found then exit EMEDIUMTYPE
  else
    del_if iface;;
    broadcast_change;;
    exit 0.

(** [main] up to the call of [exit] or the [return]. *)
Definition main_body (fuel : nat) (argv : list cstring) : Run Z :=
  let sdk_version := match sh_sdk with Some prop => u32 (atoi prop) | None => 0 end in
  match argv with
  | [_; arg] =>
      mret (if str_eq arg (str "help") || str_eq arg (str "--help") || str_eq arg (str "-h") then 0 else 1)
  | [_; verb; arg] =>
      if str_eq verb (str "up") then
        auto_su argv;;
        o ← parse_options arg;
        cmd_up fuel sdk_version o
      else if str_eq verb (str "down") then
        auto_su argv;;
        o ← parse_options arg;
        cmd_down o
      else mret 1
  | _ => mret 1
  end.

(** The process: its exit status, after the function registered with [atexit].
    When that function exits itself, its status counts. *)
Definition process (m : Run Z) : Run Z := fun st =>
  match m st with
  | (Ret code, st) | (Exit code, st) =>
      if q_atexit st then
        match cmd_up_cleanup st with
        | (Ret _, st) => (Ret code, st)
        | (Exit code', st) => (Ret code', st)
        | (NullDeref, st) => (NullDeref, st)
        | (NoFuel, st) => (NoFuel, st)
        end
      else (Ret code, st)
  | (NullDeref, st) => (NullDeref, st)
  | (NoFuel, st) => (NoFuel, st)
  end.
Definition main (fuel : nat) (argv : list cstring) : Run Z := process (main_body fuel argv).

End Quick.
End WgQuick.
