(* ===== verification/WgQuickSamples.v ===== *)
(** * A sample device for wg-quick

    Programs that print what they print on a phone with one tunnel, the files
    they find there, and what wg-quick does with them. *)
From S2P Require Import Prelude Libc Config Names Setconf SetconfFacts Regex WgQuick.
Import Libc Config Setconf SetconfFacts Regex WgQuick.

Module WgQuickSamples.

Definition unlines (l : list cstring) : cstring := concat (map (fun s => s ++ [NL]) l).

Definition sample_conf : cstring := unlines
  [str "[Interface]"; str "PrivateKey = oK56DE9Ue9zK76rAc8pBl6opph+1v36lm7cXXsQKrQM="; str "Address = 10.0.0.2/32";
   str "DNS = 10.0.0.1, example.org"; str "Address = fd00::2/128"; str "MTU = 1280";
   str "ExcludedApplications = com.example.b,com.example.a"; str "[Peer]"; str "AllowedIPs = 0.0.0.0/0"].

Definition sample_packages : cstring := unlines
  [str "com.example.a 10001 0 /data/user/0/com.example.a"; str "com.example.b 10002 0 /data/user/0/com.example.b";
   str "com.example.c 10007 0 /data/user/0/com.example.c"].

(** A line that is too long. *)
Definition long_conf : cstring := replicate (Z.to_nat 65537) "#"%char.

Definition quick_world : World := {|
  inet_pton _ _ := None;
  inet_ntop _ _ := None;
  getaddrinfo _ _ _ := GaiErr EAI_NONAME;
  getnameinfo _ := None;
  getenv _ := None;
  fopen path :=
    if str_eq path (str "/data/misc/wireguard/wg0.conf") then Some {| f_bytes := sample_conf; f_error := false |}
    else if str_eq path (str "/data/system/packages.list") then Some {| f_bytes := sample_packages; f_error := false |}
    else if str_eq path (str "/sdcard/long.conf") then Some {| f_bytes := long_conf; f_error := false |}
    else None
|}.

Definition starts (prefix s : cstring) : bool := str_eq (take (length prefix) s) prefix.

(** What the programs print; [slack] is what follows strings in memory. *)
Definition quick_shell (slack : list ascii) : Shell unit := {|
  sh_system _ x := (0, x);
  sh_popen c x :=
    (inr (if starts (str "ndc ") c then [str "200 0 Success"]
          else if str_eq c (str "wg show wg0 endpoints")
          then [str "xTIBA5rboUvnH4htodjb6e697QjLERt1NAB4mZqp8Dg=" ++ TAB :: str "192.0.2.1:51820"]
          else if str_eq c (str "ip -o route show default") then [str "default via 10.1.1.1 dev wlan0 mtu 1400"]
          else if str_eq c (str "wg show wg0 listen-port") then [str "51820"]
          else []), x);
  sh_feed _ _ x := (inr 0, x);
  sh_random x := (21845, x);
  sh_uid _ := 0;
  sh_exec _ := None;
  sh_errno _ := 2;
  sh_sdk := Some (str "33");
  sh_slack _ := slack;
  sh_binder _ := false;
  sh_service _ := false;
  sh_class _ := false;
  sh_associate _ := false;
  sh_binder_op _ x := (0, x);
  sh_position _ := 0;
  sh_reply _ := {| as_ok := true; as_exception := 0; as_status := 0 |}
|}.

Definition quick_start : qstate unit :=
  {| q_ext := tt; q_trace := []; q_is_exiting := false; q_atexit := false; q_cleanup_iface := None |}.

Definition sample_options : options :=
  {| o_iface := str "wg0"; o_config := Some (str "[Interface]"); o_mtu := 0; o_addrs := Some (str "10.0.0.2/32");
     o_dnses := Some (str "10.0.0.1"); o_excluded := Some (str "com.example.b,com.example.a"); o_included := None |}.

(** The name that the sample package list is found under. *)
Definition package_file : file := {| f_bytes := sample_packages; f_error := false |}.

(** [wg-quick up wg0] on this device. *)
Example quick_up_runs :
  (main (P := arm64) (W := quick_world) (Q := insertion_sort) (Sh := quick_shell [NUL]) (str "com.wireguard.android") 4
     [str "wg-quick"; str "up"; str "wg0"] quick_start).1 = Ret 0.
Proof. vm_compute. reflexivity. Qed.
End WgQuickSamples.
