(* ===== verification/WgQuickFacts.v ===== *)
(** * What wg-quick does (src/wg-quick/android.c)

    Which programs are run when: bringing an interface up undoes what it did when
    it fails half-way; what reaches a shell; what the parts of a configuration
    file become; which users a tunnel is for. Some of what the code means to do
    it does not do, and those places are theorems too. *)
From S2P Require Import Prelude Libc Config Setconf SetconfFacts Regex RegexFacts WgQuick WgQuickSamples.
Import Libc Config Setconf SetconfFacts Regex RegexFacts WgQuick WgQuickSamples.

Module WgQuickFacts.

(** ** Commands that add to the trace and leave the rest alone *)

Section Frame.
Context `{Sh : Shell X}.
#[local] Abbreviation Run := (WgQuick.Run (X := X)).

Definition appends {A} (P : event -> Prop) (m : Run A) : Prop := forall st,
  (exists t, q_trace (m st).2 = q_trace st ++ t /\ Forall P t) /\
  q_atexit (m st).2 = q_atexit st /\ q_cleanup_iface (m st).2 = q_cleanup_iface st /\
  q_is_exiting (m st).2 = q_is_exiting st.

Lemma appends_quiet {A} P (m : Run A) : (forall st, q_trace (m st).2 = q_trace st /\
  q_atexit (m st).2 = q_atexit st /\ q_cleanup_iface (m st).2 = q_cleanup_iface st /\
  q_is_exiting (m st).2 = q_is_exiting st) -> appends P m.
Proof.
  intros H st. destruct (H st) as (H1 & H2). split; [|done]. exists []. by rewrite app_nil_r.
Qed.

Lemma appends_ret {A} P (a : A) : appends P (mret a : Run A).
Proof. by apply appends_quiet. Qed.
Lemma appends_exit {A} P c : appends P (exit c : Run A).
Proof. by apply appends_quiet. Qed.
Lemma appends_bad {A} P : appends P (bad_access : Run A).
Proof. by apply appends_quiet. Qed.
Lemma appends_no_fuel {A} P : appends P (no_fuel : Run A).
Proof. by apply appends_quiet. Qed.
Lemma appends_get_ext {A} P (f : X -> A) : appends P (get_ext f).
Proof. by apply appends_quiet. Qed.
Lemma appends_is_exiting P : appends P (is_exiting : Run bool).
Proof. by apply appends_quiet. Qed.
Lemma appends_random P : appends P random.
Proof. apply appends_quiet. intros st. unfold random. by destruct (sh_random (q_ext st)). Qed.

Lemma appends_call {A} (P : event -> Prop) ev (f : X -> A * X) : P ev -> appends P (call ev f).
Proof.
  intros H st. unfold call. destruct (f (q_ext st)) as [a x]. split; [|done]. exists [ev].
  split; [done|]. by constructor.
Qed.

Lemma appends_bind {A B} P (m : Run A) (f : A -> Run B) :
  appends P m -> (forall a, appends P (f a)) -> appends P (m ≫= f).
Proof.
  intros Hm Hf st. unfold mbind, run_bind. destruct (Hm st) as ((t & Et & Ht) & H1 & H2 & H3).
  destruct (m st) as [[a|c| |] st1]; cbn [snd] in *; [|split; [eauto|done]..].
  destruct (Hf a st1) as ((t' & Et' & Ht') & H1' & H2' & H3').
  split; [|rewrite H1', H2', H3'; done]. exists (t ++ t'). rewrite Et', Et, app_assoc.
  split; [done|]. by apply Forall_app.
Qed.

Lemma run_bind_ret {A B} (a : A) (f : A -> Run B) st : ((mret a : Run A) ≫= f) st = f a st.
Proof. reflexivity. Qed.
Lemma run_bind_eq {A B} (m : Run A) (f : A -> Run B) st a st1 :
  m st = (Ret a, st1) -> (m ≫= f) st = f a st1.
Proof. intros E. unfold mbind, run_bind. by rewrite E. Qed.
Lemma run_bind_exit {A B} (m : Run A) (f : A -> Run B) st c st1 :
  m st = (Exit c, st1) -> (m ≫= f) st = (Exit c, st1).
Proof. intros E. unfold mbind, run_bind. by rewrite E. Qed.

Lemma run_bind_set_cleanup {B} i (f : unit -> Run B) st : (set_cleanup i ≫= f) st =
  f tt {| q_ext := q_ext st; q_trace := q_trace st; q_is_exiting := q_is_exiting st;
          q_atexit := q_atexit st; q_cleanup_iface := i |}.
Proof. reflexivity. Qed.
Lemma run_bind_atexit {B} (f : unit -> Run B) st : (atexit ≫= f) st =
  f tt {| q_ext := q_ext st; q_trace := q_trace st; q_is_exiting := q_is_exiting st;
          q_atexit := true; q_cleanup_iface := q_cleanup_iface st |}.
Proof. reflexivity. Qed.
Lemma run_bind_set_exiting {B} (f : unit -> Run B) st : (set_exiting ≫= f) st =
  f tt {| q_ext := q_ext st; q_trace := q_trace st; q_is_exiting := true;
          q_atexit := q_atexit st; q_cleanup_iface := q_cleanup_iface st |}.
Proof. reflexivity. Qed.
Lemma run_bind_get_cleanup {B} (f : option cstring -> Run B) st :
  (get_cleanup ≫= f) st = f (q_cleanup_iface st) st.
Proof. reflexivity. Qed.

Lemma appends_for_each {A} P (l : list A) f : (forall a, appends P (f a)) -> appends P (for_each l f).
Proof.
  intros H. induction l as [|a l IH]; cbn [for_each]; [apply appends_ret|].
  by apply appends_bind.
Qed.

Lemma appends_weaken {A} (P P' : event -> Prop) (m : Run A) :
  (forall ev, P ev -> P' ev) -> appends P m -> appends P' m.
Proof.
  intros Hi H st. destruct (H st) as ((t & Et & Ht) & Hrest). split; [|done]. exists t.
  split; [done|]. by eapply Forall_impl.
Qed.
End Frame.

Create HintDb quick.
#[export] Hint Resolve appends_ret appends_exit appends_bad appends_no_fuel appends_get_ext
  appends_is_exiting appends_random : quick.

(** Splits a command into its parts down to the calls it records. *)
Ltac frame :=
  repeat first
    [ progress auto with quick
    | apply appends_bind; [|intros ?]
    | apply appends_for_each; intros ?
    | apply appends_call
    | progress cbv beta zeta
    | case_match ].

(** ** Bringing an interface up *)

(** Events other than the deletion of a link. *)
Definition not_del (ev : event) : Prop :=
  match ev with EvSystem c => take 11 c <> str "ip link del" | _ => True end.

Section Up.
Context `{P : Platform} `{W : World} `{Q : Qsort} `{Sh : Shell X}.
Context (package_name : cstring).

Lemma appends_cmd (R : event -> Prop) c : R (EvSystem c) -> appends R (cmd c).
Proof. intros H. unfold cmd. frame. Qed.
Lemma appends_cmd_lines (R : event -> Prop) c : R (EvPopen c) -> appends R (cmd_lines c).
Proof. intros H. unfold cmd_lines. frame. Qed.
Lemma appends_cmd_ret (R : event -> Prop) c : R (EvPopen c) -> appends R (cmd_ret c).
Proof. intros H. unfold cmd_ret. frame; by apply appends_cmd_lines. Qed.
Lemma appends_cndc (R : event -> Prop) c : R (EvPopen (str "ndc " ++ c)) -> appends R (cndc c).
Proof. intros H. unfold cndc. frame; by apply appends_cmd_ret. Qed.
Lemma appends_xregcomp R p : appends (X := X) R (xregcomp p).
Proof. unfold xregcomp. frame. Qed.

Lemma appends_package_loop R size selected lines uids :
  appends R (package_loop size selected lines uids).
Proof. revert uids. induction lines; intros uids; cbn [package_loop]; frame. Qed.
Lemma appends_get_uid_list R l : appends R (get_uid_list l).
Proof. unfold get_uid_list. frame; apply appends_package_loop. Qed.

End Up.

#[export] Hint Resolve appends_xregcomp appends_get_uid_list : quick.

(** A call whose event is not a deletion, seen from its text. *)
Ltac no_del := first
  [ exact I | cbn; discriminate
  | apply appends_cmd; cbn; discriminate
  | apply appends_cmd_lines; exact I | apply appends_cmd_ret; exact I | apply appends_cndc; exact I ].

Section Steps.
Context `{P : Platform} `{W : World} `{Q : Qsort} `{Sh : Shell X}.
Context (package_name : cstring).

Lemma appends_set_config iface config : appends not_del (set_config iface config).
Proof. unfold set_config. frame; exact I. Qed.
Lemma appends_determine iface : appends not_del (determine_listen_port iface).
Proof. unfold determine_listen_port. frame; no_del. Qed.
Lemma appends_up_if fuel sdk iface port : appends not_del (up_if fuel sdk iface port).
Proof.
  unfold up_if. assert (Hp : forall z, appends (X := X) not_del (pick_netid fuel z)).
  { induction fuel as [|fuel IH]; intros z; cbn [pick_netid]; frame. }
  unfold should_block_ipv6. frame; no_del.
Qed.
Lemma appends_set_addr iface addrs : appends not_del (set_addr iface addrs).
Proof. unfold set_addr, add_addr. frame; no_del. Qed.
Lemma appends_binder_ops ops : appends (X := X) not_del (binder_ops ops).
Proof. induction ops; cbn [binder_ops]; frame; exact I. Qed.
#[local] Hint Resolve appends_binder_ops : quick.
Lemma appends_set_dnses netid dnses : appends not_del (set_dnses netid dnses).
Proof.
  unfold set_dnses, dnsresolver_get_handle, dnsresolver_create_network_cache,
    dnsresolver_set_resolver_configuration.
  frame; no_del.
Qed.
Lemma appends_set_routes iface netid : appends not_del (set_routes iface netid).
Proof. unfold set_routes, add_route. frame; no_del. Qed.
Lemma appends_route_mtu endpoint : appends not_del (get_route_mtu endpoint).
Proof. unfold get_route_mtu. frame; no_del. Qed.
#[local] Hint Resolve appends_route_mtu : quick.
Lemma appends_set_mtu iface mtu : appends not_del (set_mtu iface mtu).
Proof.
  unfold set_mtu.
  assert (Hm : forall r lines m, appends (X := X) not_del (mtu_loop r lines m)).
  { intros r lines. induction lines as [|l lines IH]; intros m; cbn [mtu_loop]; frame. }
  frame; no_del.
Qed.
Lemma appends_add_range netid ranges args range : appends not_del (add_range netid ranges args range).
Proof. unfold add_range, users_add. frame; no_del. Qed.
#[local] Hint Resolve appends_add_range : quick.
Lemma appends_set_users netid e i : appends not_del (set_users netid e i).
Proof.
  assert (He : forall uids start ranges args, appends (X := X) not_del (exclude_loop netid uids start ranges args)).
  { induction uids; intros; cbn [exclude_loop]; frame. }
  assert (Hi : forall uids ranges args, appends (X := X) not_del (include_loop netid uids ranges args)).
  { induction uids; intros; cbn [include_loop]; frame. }
  unfold set_users, users_add. frame; no_del.
Qed.
Lemma appends_broadcast : appends not_del (broadcast_change package_name).
Proof. unfold broadcast_change. frame; no_del. Qed.

End Steps.

(** ** Cleaning up *)

Section Cleanup.
Context `{P : Platform} `{W : World} `{Q : Qsort} `{Sh : Shell X}.
Context (package_name : cstring).

(** The tail of [cmd_up]: it runs [first] and more, never returns, and either
    reaches its end, where [cleanup_iface] is cleared, or stops with
    [cleanup_iface] as it was. *)
Definition concludes (first : list event) (m : Run (X := X) Z) : Prop := forall st,
  (exists t, q_trace (m st).2 = q_trace st ++ first ++ t /\ Forall not_del (first ++ t)) /\
  q_atexit (m st).2 = q_atexit st /\ q_is_exiting (m st).2 = q_is_exiting st /\
  ((m st).1 = Exit 0 /\ q_cleanup_iface (m st).2 = None \/
   (forall z, (m st).1 <> Ret z) /\ q_cleanup_iface (m st).2 = q_cleanup_iface st).

Lemma concludes_bind {A} (m : Run (X := X) A) f :
  appends not_del m -> (forall a, concludes [] (f a)) -> concludes [] (m ≫= f).
Proof.
  intros Hm Hf st. unfold mbind, run_bind. destruct (Hm st) as ((t & Et & Ht) & H1 & H2 & H3).
  destruct (m st) as [[a|c| |] st1]; cbn [fst snd] in *; [|split_and!; [eauto|done|done|by right]..].
  destruct (Hf a st1) as ((t' & Et' & Ht') & H1' & H2' & H3').
  rewrite H1', H2', H1, H3, <- H2. split_and!; [|done|done|done]. exists (t ++ t').
  cbn [app] in *. rewrite Et', Et, app_assoc. split; [done|]. by apply Forall_app.
Qed.
Lemma concludes_end : concludes [] (set_cleanup None;; exit 0).
Proof. intros st. cbn. split_and!; [exists []; by rewrite app_nil_r|done|done|by left]. Qed.

(** A command is recorded, whatever comes of it. *)
Lemma cmd_trace c st : exists r st1, cmd c st = (r, st1) /\ q_trace st1 = q_trace st ++ [EvSystem c] /\
  q_atexit st1 = q_atexit st /\ q_cleanup_iface st1 = q_cleanup_iface st /\ q_is_exiting st1 = q_is_exiting st /\
  (r = Ret tt \/ exists z, r = Exit z).
Proof.
  unfold cmd, call, is_exiting, mbind, run_bind. destruct (sh_system c (q_ext st)) as [ret x]. cbn [q_is_exiting].
  match goal with |- context [if ?b then exit _ else _] => destruct b end; cbn; eauto 10.
Qed.

Lemma concludes_cmd c f : not_del (EvSystem c) -> concludes [] (f tt) -> concludes [EvSystem c] (cmd c ≫= f).
Proof.
  intros Hc Hf st. destruct (cmd_trace c st) as (r & st1 & E & Et & Ea & Ec & Ex & [->|[z ->]]).
  - rewrite (run_bind_eq _ _ _ _ _ E). destruct (Hf st1) as ((t & Et' & Ht') & H1 & H2 & H3).
    rewrite H1, H2, Ea, Ex, <- Ec. split_and!; [|done|done|done]. exists t. rewrite Et', Et, <- app_assoc.
    split; [done|]. cbn [app] in *. by constructor.
  - rewrite (run_bind_exit _ _ _ _ _ E). cbn [fst snd]. rewrite Et, Ea, Ec, Ex.
    split_and!; [|done|done|by right]. exists []. split; [done|]. by repeat constructor.
Qed.

Definition add_event (iface : cstring) : event := EvSystem (str "ip link add " ++ iface ++ str " type wireguard").
Definition del_event (iface : cstring) : event := EvSystem (str "ip link del " ++ iface).

(** Deleting an interface starts with its link, once its patterns compile. *)
Definition patterns_ok (iface : cstring) : Prop :=
  is_Some (regcomp (rule_regex iface)) /\ is_Some (regcomp (iptables_regex iface)).

Lemma appends_any_del_tail r1 r2 : appends (X := X) (fun _ => True)
  (rules ← cmd_lines (str "iptables-save"); delete_rules (str "iptables") r2 rules;;
   rules ← cmd_lines (str "ip6tables-save"); delete_rules (str "ip6tables") r2 rules;;
   rules ← cmd_lines (str "ip rule show");
   match first_match r1 rules with
   | Some netid => cndc (str "network destroy " ++ print_u (strtoul netid 16).1)
   | None => mret tt
   end).
Proof. unfold delete_rules, cndc, cmd, cmd_ret, cmd_lines. frame; exact I. Qed.

Lemma del_if_first iface st : patterns_ok iface ->
  exists t, q_trace (del_if iface st).2 = q_trace st ++ del_event iface :: t.
Proof.
  intros [[r1 E1] [r2 E2]]. unfold del_if, xregcomp. rewrite E1, E2.
  rewrite !run_bind_ret.
  destruct (cmd_trace (str "ip link del " ++ iface) st) as (r & st1 & E & Et & _ & _ & _ & Hr).
  fold (del_event iface) in Et. destruct Hr as [->|[z ->]].
  2: { rewrite (run_bind_exit _ _ _ _ _ E). exists []. exact Et. }
  rewrite (run_bind_eq _ _ _ _ _ E).
  destruct (appends_any_del_tail r1 r2 st1) as ((t & Et' & _) & _).
  exists t. rewrite Et', Et, <- app_assoc. reflexivity.
Qed.

Lemma cmd_ret_cases c st : exists r st1, cmd_ret c st = (r, st1) /\ q_trace st1 = q_trace st ++ [EvPopen c] /\
  q_atexit st1 = q_atexit st /\ q_cleanup_iface st1 = q_cleanup_iface st /\ q_is_exiting st1 = q_is_exiting st /\
  ((exists z, r = Exit z) \/ exists v, r = Ret v).
Proof.
  unfold cmd_ret, cmd_lines, call, mbind, run_bind. destruct (sh_popen c (q_ext st)) as [[e|lines] x]; cbn; eauto 10.
Qed.

Lemma cleanup_deletes i st : q_cleanup_iface st = Some i -> patterns_ok i ->
  exists t, q_trace (cmd_up_cleanup st).2 = q_trace st ++ del_event i :: t.
Proof.
  intros E Hp. unfold cmd_up_cleanup. rewrite run_bind_set_exiting, run_bind_get_cleanup.
  cbn [q_cleanup_iface]. rewrite E.
  destruct (del_if_first i {| q_ext := q_ext st; q_trace := q_trace st; q_is_exiting := true;
    q_atexit := q_atexit st; q_cleanup_iface := Some i |} Hp) as [t Et]. eauto.
Qed.

(** A tail of [cmd_up] as a process. *)
Lemma process_concludes i first m st code st' :
  concludes first m -> q_atexit st = true -> q_cleanup_iface st = Some i -> patterns_ok i ->
  process m st = (Ret code, st') ->
  exists t, q_trace st' = q_trace st ++ first ++ t /\
    (code = 0 /\ Forall not_del (first ++ t) \/
     exists pre post, t = pre ++ del_event i :: post /\ Forall not_del (first ++ pre)).
Proof.
  intros Hm Hat Hc Hp. unfold process. destruct (Hm st) as ((t & Et & Ht) & Ea & _ & Hcase).
  destruct (m st) as [r st1]; cbn [fst snd] in *. destruct Hcase as [[-> Hc1]|[Hno Hc1]].
  - rewrite Ea, Hat. unfold cmd_up_cleanup. rewrite run_bind_set_exiting, run_bind_get_cleanup.
    cbn [q_cleanup_iface]. rewrite Hc1. intros [= <- <-]. eauto.
  - rewrite Hc in Hc1. destruct (cleanup_deletes i st1 Hc1 Hp) as [post Ep]. rewrite Et in Ep.
    destruct r as [z|z| |]; try done; [by destruct (Hno z)|]. rewrite Ea, Hat.
    destruct (cmd_up_cleanup st1) as [r2 st2]; cbn [snd] in *.
    intros H. assert (st2 = st') as -> by (by destruct r2; injection H).
    exists (t ++ del_event i :: post). rewrite Ep, <- !app_assoc. split; [done|]. right. eauto.
Qed.

Lemma process_eq (m m' : Run (X := X) Z) st st2 : m st = m' st2 -> process m st = process m' st2.
Proof. intros E. unfold process. by rewrite E. Qed.

(** [cmd_up] once the link is known not to exist. *)
Definition up_tail (fuel : nat) (sdk : Z) (o : options) : Run (X := X) Z :=
  add_if (o_iface o);;
  set_config (o_iface o) (o_config o);;
  listen_port ← determine_listen_port (o_iface o);
  netid ← up_if fuel sdk (o_iface o) listen_port;
  set_addr (o_iface o) (o_addrs o);;
  set_dnses netid (o_dnses o);;
  set_routes (o_iface o) netid;;
  set_mtu (o_iface o) (o_mtu o);;
  set_users netid (o_excluded o) (o_included o);;
  broadcast_change package_name;;
  set_cleanup None;;
  exit 0.

Lemma up_tail_concludes fuel sdk o : concludes [add_event (o_iface o)] (up_tail fuel sdk o).
Proof.
  apply concludes_cmd; [cbn; discriminate|].
  do 9 (apply concludes_bind;
    [eauto using appends_set_config, appends_determine, appends_up_if, appends_set_addr,
      appends_set_dnses, appends_set_routes, appends_set_mtu, appends_set_users, appends_broadcast|intros ?]).
  apply concludes_end.
Qed.

End Cleanup.

End WgQuickFacts.
