(* ===== verification/WgQuickConfig.v ===== *)
(** * What wg-quick takes from a configuration file (src/wg-quick/android.c)

    The name of the interface, the lines that are its own and those that go to
    [wg addconf], and how the patterns it matches behave. *)
From S2P Require Import Prelude Libc Config Setconf Regex RegexFacts WgQuick WgQuickSamples WgQuickFacts.
Import Libc Config Setconf Regex RegexFacts WgQuick WgQuickSamples WgQuickFacts.

Module WgQuickConfig.

(** ** The name of the interface *)

Definition iface_char (c : ascii) : bool :=
  char_range "a" "z" c || char_range "A" "Z" c || char_range "0" "9" c
  || Ascii.eqb c "_" || Ascii.eqb c "=" || Ascii.eqb c "+" || Ascii.eqb c "." || Ascii.eqb c "-".
(** A name that is one word to any shell. *)
Definition iface_ok (s : cstring) : Prop := (1 <= length s <= 15)%nat /\ Forall (fun c => iface_char c = true) s.

Lemma regex_conf_compiles : exists p q rest, regcomp regex_conf =
  Some (Seq q (Seq (Group (Seq (rep 1 15 (Chr p)) Eps)) rest)) /\
  groups q = [] /\ groups rest = [] /\ (forall c, implb (p c) (iface_char c) = true).
Proof.
  eexists _, _, _. split; [vm_compute; reflexivity|]. split; [reflexivity|]. split; [reflexivity|].
  apply char_forall. vm_compute. reflexivity.
Qed.

Lemma conf_group_ok r filename g :
  regcomp regex_conf = Some r -> match_group r filename = Some g -> iface_ok g.
Proof.
  destruct regex_conf_compiles as (p & q & rest & E & Hq & Hr & Hp). rewrite E. intros [= <-] H.
  unfold match_group in H. destruct (regexec filename _) as [m|] eqn:Em; [|done]. injection H as <-.
  apply match_group_sound in Em as (gr & i & j & Hin & Hl & ->); [|cbn [sets_group]; apply orb_true_r].
  cbn [groups] in Hin. rewrite Hq, Hr in Hin. destruct Hin as [<-|[]].
  apply lang_seq_inv in Hl as (k & Hl & He). inversion He; subst.
  assert (Ho : over iface_char (rep 1 15 (Chr p))).
  { assert (Hc : forall c, p c = true -> iface_char c = true).
    { intros c Hc. specialize (Hp c). by rewrite Hc in Hp. }
    cbn. by repeat split. }
  change (lang filename (rep 1 15 (Chr p)) i j) in Hl. pose proof Hl as Hr'. apply lang_rep in Hr'; [|lia].
  destruct (span_over _ _ _ _ _ Hl Ho) as [El Hf]. split; [lia|done].
Qed.

(** ** The lines of the file *)

Section Lines.
Context `{P : Platform}.

Lemma option_lines_iface lines sect o b o' : option_lines lines sect o = (b, o') -> o_iface o' = o_iface o.
Proof.
  revert sect o. induction lines as [|line lines IH]; intros sect o H; cbn [option_lines] in H.
  - by injection H as <- <-.
  - destruct (_ <? _); [by injection H as <- <-|]. apply IH in H. rewrite H. by repeat case_match.
Qed.

(** A section header, without its spaces. *)
Definition header (line : cstring) : option cstring :=
  let clean := clean_spaces line in if Ascii.eqb (cget clean 0) "[" then Some clean else None.
(** Whether the last header of the lines is the one of the interface section. *)
Definition in_interface (lines : list cstring) : bool :=
  match last (omap header lines) with Some h => strcase_eq h (str "[Interface]") | None => false end.

(** What a line is to wg-quick after the lines [before] it: one of its own
    options, or [None] when it is for [wg addconf]. *)
Definition own_option (before : list cstring) (line : cstring) : option (option_key * cstring) :=
  if in_interface (before ++ [line]) then option_line (clean_spaces line) else None.
Fixpoint entries (before lines : list cstring) : list (cstring * option (option_key * cstring)) :=
  match lines with
  | [] => []
  | line :: lines => (line, own_option before line) :: entries (before ++ [line]) lines
  end.

(** The lines that are not options, one after the other. *)
Definition config_text (es : list (cstring * option (option_key * cstring))) : option cstring :=
  match filter (fun e => e.2 = None) es with [] => None | es => Some (concat (map fst es)) end.
(** The values of an option, separated by commas. *)
Definition is_key (k : option_key) (e : cstring * option (option_key * cstring)) : option cstring :=
  match e.2 with
  | Some (k', v) => match k, k' with
                    | KAddress, KAddress | KDns, KDns | KExcluded, KExcluded | KIncluded, KIncluded | KMtu, KMtu => Some v
                    | _, _ => None
                    end
  | None => None
  end.
Definition option_values (k : option_key) es : list cstring := omap (is_key k) es.
Definition joined (vs : list cstring) : option cstring :=
  match vs with [] => None | v :: vs => Some (fold_left (fun acc v => acc ++ str "," ++ v) vs v) end.

Lemma strcase_interface_bracket clean : strcase_eq clean (str "[Interface]") = true -> cget clean 0 = "["%char.
Proof.
  unfold strcase_eq. intros H%bool_decide_eq_true. destruct clean as [|c clean]; [done|].
  cbn in H. injection H as H _. unfold cget. cbn.
  assert (E : forall c, implb (Ascii.eqb (tolower c) "[") (Ascii.eqb c "[") = true)
    by (apply char_forall; vm_compute; reflexivity).
  specialize (E c). rewrite H in E. by apply Ascii.eqb_eq.
Qed.

Lemma in_interface_snoc before line :
  in_interface (before ++ [line]) = section_after (clean_spaces line) (in_interface before).
Proof.
  unfold in_interface, section_after. rewrite omap_app.
  change (omap header [line]) with (match header line with Some h => [h] | None => [] end).
  unfold header at 2. cbv zeta. destruct (Ascii.eqb (cget (clean_spaces line) 0) "[") eqn:E.
  - rewrite last_snoc. by destruct (strcase_eq _ _).
  - rewrite app_nil_r. destruct (strcase_eq (clean_spaces line) (str "[Interface]")) eqn:Es; [|done].
    apply strcase_interface_bracket in Es. by rewrite Es in E.
Qed.

Definition store_entry (o : options) (e : cstring * option (option_key * cstring)) : options :=
  match e.2 with Some (k, v) => store_option k v o | None => store_config e.1 o end.

Lemma option_lines_fold lines before o : Forall (fun l => strlen l <= 65536) lines ->
  option_lines lines (in_interface before) o = (true, fold_left store_entry (entries before lines) o).
Proof.
  intros H. revert before o. induction H as [|line lines Hl _ IH]; intros before o; [done|].
  cbn [option_lines entries fold_left]. change (Z.shiftl 1 16) with 65536.
  destruct (Z.ltb_spec 65536 (strlen line)); [lia|]. rewrite <- in_interface_snoc.
  rewrite <- IH. reflexivity.
Qed.

Lemma concat_none_fold (o : option cstring) es :
  fold_left (fun c e => match e.2 with Some _ => c | None => Some (concat_and_free c [] e.1) end) es o
  = match filter (fun e : cstring * option (option_key * cstring) => e.2 = None) es, o with
    | [], _ => o
    | l, Some c => Some (c ++ concat (map fst l))
    | l, None => Some (concat (map fst l))
    end.
Proof.
  revert o. induction es as [|[line [kv|]] es IH]; intros o; [by destruct o| |]; cbn [fold_left snd].
  - rewrite IH. by rewrite filter_cons_False by done.
  - rewrite IH, filter_cons_True by done. cbn [fst map concat]. unfold concat_and_free.
    destruct o as [c|]; destruct (filter _ es) as [|e l]; cbn [concat map app]; rewrite ?app_nil_r, <- ?app_assoc; done.
Qed.

Lemma joined_fold k o es :
  fold_left (fun c e => match is_key k e with Some v => Some (concat_and_free c (str ",") v) | None => c end) es o
  = match o, option_values k es with
    | Some c, vs => Some (fold_left (fun acc v => acc ++ str "," ++ v) vs c)
    | None, vs => joined vs
    end.
Proof.
  unfold option_values. revert o. induction es as [|e es IH]; intros o; [by destruct o|].
  cbn [fold_left omap list_omap]. rewrite IH. destruct (is_key k e) as [v|]; [|done].
  by destruct o as [c|].
Qed.

(** A field of the options after a fold is the fold of that field. *)
Lemma fold_field {B} (f : options -> B) (g : B -> cstring * option (option_key * cstring) -> B) es o :
  (forall o e, f (store_entry o e) = g (f o) e) ->
  f (fold_left store_entry es o) = fold_left g es (f o).
Proof. intros H. revert o. induction es as [|e es IH]; intros o; [done|]. cbn [fold_left]. by rewrite IH, H. Qed.

Lemma last_mtu_fold es m :
  fold_left (fun m e => match is_key KMtu e with Some v => u32 (atoi v) | None => m end) es m
  = match last (option_values KMtu es) with Some v => u32 (atoi v) | None => m end.
Proof.
  unfold option_values. revert m. induction es as [|e es IH]; intros m; [done|].
  cbn [fold_left omap list_omap]. rewrite IH. destruct (is_key KMtu e) as [v|]; [|done].
  rewrite last_cons. by destruct (last _).
Qed.

Definition no_options (iface : cstring) : options :=
  {| o_iface := iface; o_config := None; o_mtu := 0; o_addrs := None; o_dnses := None;
     o_excluded := None; o_included := None |}.

End Lines.

Section Names.
Context `{P : Platform} `{W : World} `{Sh : Shell X}.
Context (package_name : cstring).

(** Whatever the argument and the files, an interface name that [parse_options]
    returns has one to fifteen characters, all of them letters, digits or one of
    [_=+.-]: it is one word in every command line it is put in. (C18) *)
Theorem quick_iface_ok arg st o st' :
  parse_options package_name arg st = (Ret o, st') -> iface_ok (o_iface o).
Proof.
  unfold parse_options, xregcomp. destruct (regcomp regex_iface) as [ri|] eqn:E1; [|done].
  destruct (regcomp regex_conf) as [rc|] eqn:E2; [|done]. rewrite !run_bind_ret.
  match goal with |- match ?opened with _ => _ end _ = _ -> _ => destruct opened as [[filename f]|] end; [|done].
  destruct (match_group rc filename) as [g|] eqn:Eg; [|done].
  pose proof (conf_group_ok _ _ _ E2 Eg) as Hg.
  match goal with |- context [option_lines ?l false ?o0] => destruct (option_lines l false o0) as [complete o1] eqn:El end.
  apply option_lines_iface in El. cbn [o_iface] in El. intros H. injection H as <- <-.
  destruct complete; cbn [o_iface]; by rewrite El.
Qed.
End Names.


Lemma quick_iface_ok_witness : exists o,
  (parse_options (P := arm64) (W := quick_world) (Sh := quick_shell []) (str "com.wireguard.android") (str "wg0")
     quick_start).1 = Ret o /\ iface_ok (o_iface o).
Proof.
  destruct (parse_options (P := arm64) (W := quick_world) (Sh := quick_shell []) (str "com.wireguard.android") (str "wg0")
     quick_start) as [r st'] eqn:E.
  destruct r as [o|c| |]; [|exfalso; apply (f_equal fst) in E; vm_compute in E; discriminate E..].
  exists o. split; [reflexivity|].
  exact (quick_iface_ok (P := arm64) (W := quick_world) (Sh := quick_shell []) (str "com.wireguard.android") (str "wg0")
    quick_start o st' E).
Defined.
End WgQuickConfig.
