(* ===== verification/WgQuickNet.v ===== *)
(** * The MTU, the users and the name servers of a tunnel (src/wg-quick/android.c) *)
From Stdlib Require Import Sorted.
From S2P Require Import Prelude Libc LibcFacts Encoding Config Setconf Regex RegexFacts.
From S2P Require Import SetconfFacts WgQuick WgQuickSamples WgQuickFacts.
Import Libc Encoding Config Setconf SetconfFacts Regex RegexFacts WgQuick WgQuickSamples WgQuickFacts.

Module WgQuickNet.

(** ** The MTU *)

(** Characters an endpoint can have. *)
Definition endpoint_char (c : ascii) : bool := negb (Ascii.eqb c TAB) && negb (Ascii.eqb c "=").

Lemma regex_endpoint_compiles : exists a b c d f, regcomp regex_endpoint =
  Some (Seq Bol (Seq a (Seq b (Seq c (Seq d (Seq f (Seq Eol Eps))))))) /\
  overb endpoint_char (Seq a (Seq b (Seq c (Seq d f)))) = true.
Proof. do 5 eexists. split; vm_compute; reflexivity. Qed.

(** The pattern is anchored at both ends, so that it only matches lines that
    consist of an endpoint and nothing else. *)
Lemma endpoint_match_chars r line m : regcomp regex_endpoint = Some r -> regexec line r = Some m ->
  Forall (fun c => endpoint_char c = true) line.
Proof.
  destruct regex_endpoint_compiles as (a & b & c & d & f & E & Ho). rewrite E. intros [= <-] Hm.
  destruct m as [[i j] cap]. apply regexec_sound in Hm as [H _]. apply overb_over in Ho.
  cbn [over] in Ho. destruct Ho as (Ha & Hb & Hc & Hd & Hf).
  apply lang_seq_inv in H as (k0 & H0 & H). apply lang_bol_inv in H0 as [-> ->].
  apply lang_seq_inv in H as (k1 & H1 & H). apply lang_seq_inv in H as (k2 & H2 & H).
  apply lang_seq_inv in H as (k3 & H3 & H). apply lang_seq_inv in H as (k4 & H4 & H).
  apply lang_seq_inv in H as (k5 & H5 & H). apply lang_seq_inv in H as (k6 & H6 & H).
  apply lang_eol_inv in H6 as [-> _].
  assert (Hall : lang line (Seq a (Seq b (Seq c (Seq d f)))) 0 (length line))
    by (repeat (econstructor; [eassumption|]); assumption).
  apply Forall_forall. intros x [n Hn]%list_elem_of_In%In_nth_error.
  assert (n < length line)%nat by (apply nth_error_Some; congruence).
  destruct (lang_over line endpoint_char _ _ _ Hall) with (k := n) as (y & Ey & Hy); [by repeat split|lia|].
  congruence.
Qed.

Section Mtu.
Context `{P : Platform} `{W : World} `{Sh : Shell X}.

Lemma mtu_loop_skips r lines m st : regcomp regex_endpoint = Some r ->
  Forall (fun l => In TAB l) lines -> mtu_loop r lines m st = (Ret m, st).
Proof.
  intros Hr H. revert m st. induction H as [|line lines Ht _ IH]; intros m st; [done|].
  cbn [mtu_loop]. unfold match_group. destruct (regexec line r) as [mt|] eqn:E; [|apply IH].
  pose proof (endpoint_match_chars r line mt Hr E) as Hc. rewrite Forall_forall in Hc.
  specialize (Hc TAB (proj2 (list_elem_of_In _ _) Ht)). discriminate Hc.
Qed.

(** When the configuration sets no MTU, [set_mtu] goes through the endpoints of
    the peers to find the smallest MTU of their routes. It never does: a line of
    [wg show ... endpoints] starts with the public key and a tab, and the pattern
    is anchored at the start of the line. The MTU of the interface is that of the
    default route, less 80, whatever the routes to the endpoints. (C39) *)
Theorem mtu_ignores_endpoints iface st :
  (forall x, exists lines x', sh_popen (str "wg show " ++ iface ++ str " endpoints") x = (inr lines, x') /\
     Forall (fun l => In TAB l) lines) ->
  set_mtu iface 0 st =
  (endpoint_mtu ← get_route_mtu (str "default");
   _ ← cmd_lines (str "wg show " ++ iface ++ str " endpoints");
   cndc (str "interface setmtu " ++ iface ++ str " "
         ++ print_d ((if endpoint_mtu =? -1 then 1500 else endpoint_mtu) - 80))) st.
Proof.
  intros Hl. unfold set_mtu, xregcomp. change (negb (0 =? 0)) with false. cbn iota.
  destruct (regcomp regex_endpoint) as [r|] eqn:Er; [|by vm_compute in Er]. rewrite run_bind_ret.
  unfold mbind at 1 4, run_bind at 1 4. destruct (get_route_mtu (str "default") st) as [[m|c| |] st1]; try done.
  destruct (Hl (q_ext st1)) as (lines & x' & E & Ht).
  match goal with |- context [cmd_lines ?c ≫= _] => assert (Ec : exists st2, cmd_lines c st1 = (Ret lines, st2)) end.
  { unfold cmd_lines, call, mbind, run_bind. rewrite E. eauto. }
  destruct Ec as [st2 Ec]. cbv zeta. rewrite !(run_bind_eq _ _ _ _ _ Ec).
  by rewrite (run_bind_eq _ _ _ _ _ (mtu_loop_skips r lines _ st2 Er Ht)).
Qed.
End Mtu.

Lemma mtu_ignores_endpoints_witness :
  (set_mtu (P := arm64) (Sh := quick_shell []) (str "wg0") 0 quick_start).2.(q_trace) =
  [EvPopen (str "ip -o route show default"); EvPopen (str "wg show wg0 endpoints");
   EvPopen (str "ndc interface setmtu wg0 1320")].
Proof.
  rewrite (mtu_ignores_endpoints (P := arm64) (Sh := quick_shell []) (str "wg0") quick_start).
  - vm_compute. reflexivity.
  - intros []. do 2 eexists. split; [vm_compute; reflexivity|]. constructor; [|constructor].
    apply list_elem_of_In. by apply (bool_decide_unpack _).
Defined.

(** ** Selected applications *)

Definition pairs_of (lines : list cstring) `{Platform} : list (cstring * Z) := omap parse_package lines.
(** How often a package is named. *)
Definition named (selected package : cstring) : nat :=
  length (filter (fun t => t <> [] /\ t = package) (tokens selected ",")).

Lemma scan_comma_split s rest : ~ In NUL s ->
  scan_comma (s ++ NUL :: rest) =
  match strsep s "," with
  | (tok, None) => Some (tok, NUL :: rest)
  | (tok, Some after) => Some (tok, "," :: after ++ NUL :: rest)%char
  end.
Proof.
  induction s as [|c s IH]; intros H; cbn [app scan_comma strsep].
  - by rewrite orb_true_r.
  - destruct (Ascii.eqb_spec c ",") as [->|Hc]; [done|]. cbn [orb].
    destruct (Ascii.eqb_spec c NUL) as [->|Hn]; [by destruct H; left|]. rewrite IH by (intros ?; apply H; by right).
    by destruct (strsep s ",") as [tok [after|]].
Qed.

Lemma tokens_strsep s c : tokens s c =
  match strsep s c with (tok, None) => [tok] | (tok, Some after) => tok :: tokens after c end.
Proof.
  induction s as [|x s IH]; [done|]. cbn [tokens strsep]. destruct (Ascii.eqb x c); [done|].
  rewrite IH. by destruct (strsep s c) as [tok [after|]].
Qed.

Lemma strsep_shorter s c tok after : strsep s c = (tok, Some after) -> (length after < length s)%nat.
Proof.
  revert tok after. induction s as [|x s IH]; intros tok after H; cbn [strsep] in H; [done|].
  destruct (Ascii.eqb x c); [injection H as <- <-; cbn; lia|].
  destruct (strsep s c) as [t [a|]] eqn:E; [|done]. injection H as <- <-. specialize (IH t a eq_refl). cbn. lia.
Qed.

Definition hit (token package : cstring) : nat :=
  if negb (length token =? 0)%nat && str_eq token package then 1 else 0.

Lemma named_strsep s package : named s package =
  match strsep s "," with
  | (tok, None) => hit tok package
  | (tok, Some after) => (hit tok package + named after package)%nat
  end.
Proof.
  unfold named. rewrite tokens_strsep. destruct (strsep s ",") as [tok after].
  assert (E : forall l, length (filter (fun t => t <> [] /\ t = package) (tok :: l))
    = (hit tok package + length (filter (fun t => t <> [] /\ t = package) l))%nat).
  { intros l. unfold hit, str_eq. destruct tok as [|c tok]; cbn [length Nat.eqb negb andb].
    - by rewrite filter_cons_False by tauto.
    - destruct (decide (c :: tok = package)) as [Hp|Hp].
      + rewrite bool_decide_eq_true_2 by done. by rewrite filter_cons_True by done.
      + rewrite bool_decide_eq_false_2 by done. by rewrite filter_cons_False by tauto. }
  destruct after as [after|]; rewrite E; [done|]. cbn. lia.
Qed.

Lemma count_tokens_nul fuel more package : count_tokens (S fuel) (NUL :: more) package = Some 0%nat.
Proof. reflexivity. Qed.

Lemma count_tokens_cons fuel c s rest package : ~ In NUL (c :: s) ->
  count_tokens (S fuel) ((c :: s) ++ NUL :: rest) package =
  match strsep (c :: s) "," with
  | (tok, None) => n ← count_tokens fuel rest package; Some (hit tok package + n)%nat
  | (tok, Some after) => n ← count_tokens fuel (after ++ NUL :: rest) package; Some (hit tok package + n)%nat
  end.
Proof.
  intros H. cbn [count_tokens]. rewrite scan_comma_split by done.
  assert (Hc : Ascii.eqb (nth 0 ((c :: s) ++ NUL :: rest) NUL) NUL = false).
  { cbn [app nth]. destruct (Ascii.eqb_spec c NUL) as [->|]; [by destruct H; left|done]. }
  destruct (strsep (c :: s) ",") as [tok [after|]]; cbn [mbind option_bind]; rewrite Hc; reflexivity.
Qed.

Lemma strsep_In s c tok after x : strsep s c = (tok, Some after) -> In x after -> In x s.
Proof.
  revert tok after. induction s as [|y s IH]; intros tok after H Hx; cbn [strsep] in H; [done|].
  destruct (Ascii.eqb y c); [injection H as <- <-; by right|].
  destruct (strsep s c) as [t [a|]] eqn:E; [|done]. injection H as <- <-. right. by eapply IH.
Qed.

(** With a zero byte after the terminator, the loop stops there and has counted
    every token. *)
Lemma count_tokens_named s more package fuel : ~ In NUL s -> (length s + 2 <= fuel)%nat ->
  count_tokens fuel (s ++ NUL :: NUL :: more) package = Some (named s package).
Proof.
  revert s. induction fuel as [|fuel IH]; intros s H Hf; [lia|].
  destruct s as [|c s].
  - cbn [app]. rewrite count_tokens_nul. reflexivity.
  - rewrite count_tokens_cons by done. rewrite named_strsep.
    destruct (strsep (c :: s) ",") as [tok [after|]] eqn:E.
    + pose proof (strsep_shorter _ _ _ _ E). cbn [length] in *. rewrite IH; [done| |lia].
      intros Hn. apply H. by eapply strsep_In.
    + destruct fuel; [cbn in Hf; lia|]. rewrite count_tokens_nul. cbn. f_equal. lia.
Qed.

(** With nothing known after the terminator, the loop reads past it, unless the
    list is empty or ends with a comma. *)
Lemma count_tokens_past s package fuel : ~ In NUL s -> s <> [] -> last s <> Some ","%char ->
  count_tokens fuel (s ++ [NUL]) package = None.
Proof.
  revert s. induction fuel as [|fuel IH]; intros s H Hne Hl; [done|]. destruct s as [|c s]; [done|].
  rewrite count_tokens_cons by done. destruct (strsep (c :: s) ",") as [tok [after|]] eqn:E.
  - assert (Hx : exists pre, c :: s = pre ++ ","%char :: after).
    { clear -E. revert tok E. generalize (c :: s). intros l. induction l as [|y l IHl]; intros tok E; cbn [strsep] in E; [done|].
      destruct (Ascii.eqb_spec y ",") as [->|]; [injection E as <- <-; by exists []|].
      destruct (strsep l ",") as [t [a|]] eqn:El; [|done]. injection E as <- <-.
      destruct (IHl t eq_refl) as [pre ->]. by exists (y :: pre). }
    destruct Hx as [pre Ex]. rewrite Ex in Hl. rewrite IH; [done| | |].
    + intros Hn. apply H. by eapply strsep_In.
    + intros ->. by rewrite last_snoc in Hl.
    + intros Hla. apply Hl. change (","%char :: after) with ([","%char] ++ after). rewrite app_assoc, last_app.
      by rewrite Hla.
  - destruct fuel; [done|]. reflexivity.
Qed.

(** The number of tokens that are not empty is below the size of the array. *)
Lemma tokens_length s c : length (tokens s c) = S (length (filter (fun x => Ascii.eqb x c = true) s)).
Proof.
  induction s as [|x s IH]; [done|]. cbn [tokens]. destruct (Ascii.eqb x c) eqn:E.
  - rewrite filter_cons_True by done. cbn [length]. by rewrite IH.
  - rewrite filter_cons_False by (by rewrite E). destruct (tokens s c); [done|]. cbn [length] in *. done.
Qed.

Lemma tokens_fit s :
  (length (filter (fun t => t <> []) (tokens s ",")) < 2 + length (filter (fun c => Ascii.eqb c "," = true) (tail s)))%nat.
Proof.
  destruct s as [|c s]; [vm_compute; lia|]. cbn [tail tokens].
  pose proof (tokens_length s ",") as El. destruct (Ascii.eqb c ",") eqn:E.
  - rewrite filter_cons_False by tauto.
    pose proof (length_filter (fun t : cstring => t <> []) (tokens s ",")). lia.
  - destruct (tokens s ",") as [|t ts]; [done|]. rewrite filter_cons_True by done. cbn [length] in *.
    pose proof (length_filter (fun t : cstring => t <> []) ts). lia.
Qed.

Lemma count_commas_string s rest : ~ In NUL s ->
  count_commas (s ++ NUL :: rest) = Some (length (filter (fun c => Ascii.eqb c "," = true) s)).
Proof.
  induction s as [|c s IH]; intros H; [done|]. cbn [app count_commas].
  destruct (Ascii.eqb_spec c NUL) as [->|_]; [by destruct H; left|].
  rewrite IH by (intros ?; apply H; by right). cbn [mbind option_bind].
  destruct (Ascii.eqb c ",") eqn:E; [by rewrite filter_cons_True|by rewrite filter_cons_False by congruence].
Qed.

(** Packages with distinct names are named by distinct tokens. *)
Lemma named_sum s names : NoDup names ->
  (list_sum (map (named s) names) <= length (filter (fun t => t <> []) (tokens s ",")))%nat.
Proof.
  intros Hn. unfold named. induction (tokens s ",") as [|t ts IH].
  - clear Hn. induction names as [|n names IHn]; [done|]. unfold list_sum in *. cbn in *. lia.
  - assert (E : (list_sum (map (fun n => length (filter (fun t => t <> [] /\ t = n) (t :: ts))) names) <=
      (if decide (t <> []) then 1 else 0) +
      list_sum (map (fun n => length (filter (fun t => t <> [] /\ t = n) ts)) names))%nat).
    { clear IH. destruct (decide (t <> [])) as [Ht|Ht].
      - induction Hn as [|n names Hnot Hn IHn]; [cbn; lia|]. cbn [map list_sum foldr].
        destruct (decide (t = n)) as [->|Htn].
        + rewrite filter_cons_True by done. cbn [length].
          replace (map (fun n0 => length (filter (fun t => t <> [] /\ t = n0) (n :: ts))) names)
            with (map (fun n0 => length (filter (fun t => t <> [] /\ t = n0) ts)) names); [unfold list_sum; cbn; lia|].
          apply map_ext_in. intros n' Hin. rewrite filter_cons_False; [done|].
          intros [_ ->]. apply Hnot. by apply list_elem_of_In.
        + rewrite filter_cons_False by tauto. unfold list_sum in *. cbn [map foldr] in *. lia.
      - clear Hn. induction names as [|n names IHn]; [cbn; lia|]. unfold list_sum in *. cbn [map foldr].
        rewrite filter_cons_False by tauto. lia. }
    destruct (decide (t <> [])); [rewrite filter_cons_True by done|rewrite filter_cons_False by done]; cbn [length]; lia.
Qed.

Section Selected.
Context `{P : Platform} `{W : World} `{Q : Qsort} `{Sh : Shell X}.

(** The user ids of the packages that are named, in the order of the list. *)
Definition selected_uids (selected : cstring) (packages : list (cstring * Z)) : list Z :=
  concat (map (fun '(n, u) => replicate (named selected n) u) packages).

Lemma selected_uids_length selected packages :
  length (selected_uids selected packages) = list_sum (map (named selected) (map fst packages)).
Proof.
  unfold selected_uids. induction packages as [|[n u] ps IH]; [done|].
  cbn [map concat fst]. rewrite length_app, length_replicate, IH. reflexivity.
Qed.

Lemma uid_list_size_string selected more : ~ In NUL selected -> sh_slack selected = NUL :: more ->
  exists size, uid_list_size selected = Some size /\
    (length (filter (fun t => t <> []) (tokens selected ",")) < size)%nat.
Proof.
  intros Hn Hs. pose proof (tokens_fit selected) as Hfit. eexists. split; [|exact Hfit].
  unfold uid_list_size, memory. rewrite Hs. destruct selected as [|c s]; [reflexivity|]. cbn [tail app].
  by rewrite count_commas_string by (intros ?; apply Hn; by right).
Qed.

Lemma package_loop_uids size selected lines uids more st :
  sh_slack selected = NUL :: more -> ~ In NUL selected ->
  (length uids + length (selected_uids selected (pairs_of lines)) <= size)%nat ->
  package_loop size selected lines uids st = (Ret (uids ++ selected_uids selected (pairs_of lines)), st).
Proof.
  intros Hs Hn. revert uids. induction lines as [|line lines IH]; intros uids Hl.
  - cbn. by rewrite app_nil_r.
  - unfold pairs_of in *. cbn [package_loop omap list_omap] in *.
    destruct (parse_package line) as [[name uid]|]; [|by apply IH].
    unfold memory. rewrite Hs, count_tokens_named by (try done; rewrite length_app; cbn [length]; lia).
    unfold selected_uids in *. cbn [map concat] in *. rewrite length_app, length_replicate in Hl. cbv zeta.
    rewrite length_app, length_replicate.
    destruct (Nat.ltb_spec size (length uids + named selected name)); [lia|].
    rewrite IH by (rewrite length_app, length_replicate; lia). by rewrite <- app_assoc.
Qed.

(** ** The array of user ids *)

(** Filling the array of user ids never writes past its end, when the packages
    of the list have distinct names and the byte after the selection happens to
    be zero: the array is the ids of the packages that are named, sorted, and at
    least one zero. *)
Lemma get_uid_list_fits selected file more st :
  fopen (str "/data/system/packages.list") = Some file -> ~ In NUL selected ->
  sh_slack selected = NUL :: more -> NoDup (map fst (pairs_of (config_lines (f_bytes file)))) ->
  exists n, (0 < n)%nat /\ get_uid_list (Some selected) st =
    (Ret (qsort compare_uid (selected_uids selected (pairs_of (config_lines (f_bytes file)))) ++ replicate n 0), st).
Proof.
  intros Hf Hn Hs Hd. set (packages := pairs_of (config_lines (f_bytes file))) in *.
  pose proof (selected_uids_length selected packages) as El. pose proof (named_sum selected _ Hd) as Hsum.
  destruct (uid_list_size_string selected more Hn Hs) as (size & Esize & Hfit).
  exists (size - length (selected_uids selected packages))%nat. split; [lia|].
  unfold get_uid_list. cbv zeta. rewrite Esize, Hf.
  assert (Hl : (length ([] : list Z) + length (selected_uids selected packages) <= size)%nat)
    by (cbn [length]; lia).
  rewrite (run_bind_eq _ _ _ _ _ (package_loop_uids _ _ _ [] more st Hs Hn Hl)). reflexivity.
Qed.

(** The loop over the selected applications steps one past the terminator of its
    string after the last of them: with memory that ends there, reading the user
    ids of any selection that does not end with a comma reads outside the string,
    as soon as the package list has one well-formed line. *)
Theorem uid_list_reads_past selected file line lines p st :
  fopen (str "/data/system/packages.list") = Some file -> config_lines (f_bytes file) = line :: lines ->
  parse_package line = Some p -> ~ In NUL selected -> last selected <> Some ","%char ->
  sh_slack selected = [] ->
  get_uid_list (Some selected) st = (NullDeref, st).
Proof.
  intros Hf Hl Hp Hn Hla Hs. unfold get_uid_list, uid_list_size, memory. rewrite Hs.
  destruct selected as [|c s]; [reflexivity|]. cbn [tail app].
  rewrite count_commas_string by (intros ?; apply Hn; by right). cbn [mbind option_bind].
  rewrite Hf, Hl. destruct p as [name uid].
  unfold mbind, run_bind. cbn [package_loop]. rewrite Hp. unfold memory. rewrite Hs.
  by rewrite count_tokens_past.
Qed.
End Selected.

Lemma uid_list_reads_past_witness :
  get_uid_list (P := arm64) (W := quick_world) (Q := insertion_sort) (Sh := quick_shell []) (Some (str "com.example.a"))
    quick_start = (NullDeref, quick_start).
Proof.
  apply (uid_list_reads_past (P := arm64) (W := quick_world) (Q := insertion_sort) (Sh := quick_shell [])
    (str "com.example.a") package_file (str "com.example.a 10001 0 /data/user/0/com.example.a" ++ [NL])
    (tail (config_lines sample_packages)) (str "com.example.a", 10001)); try (vm_compute; reflexivity).
  - vm_compute. intros H. repeat (destruct H as [H|H]; [discriminate H|]). exact H.
  - vm_compute. discriminate.
Defined.
End WgQuickNet.
