(* ===== verification/WgQuickUsers.v ===== *)
(** * The users of a tunnel (src/wg-quick/android.c, set_users)

    The user ids a tunnel is for are given to [ndc network users add] as ranges,
    up to eighteen to a command. Excluding applications must give exactly the
    other users, including them exactly theirs. *)
From Stdlib Require Import Sorted.
From S2P Require Import Prelude Libc LibcFacts Encoding Config Setconf SetconfFacts Regex.
From S2P Require Import WgQuick WgQuickSamples WgQuickFacts WgQuickNet.
Import Libc LibcFacts Encoding Config Setconf SetconfFacts Regex WgQuick WgQuickSamples WgQuickFacts WgQuickNet.

Module WgQuickUsers.

(** ** Ranges *)

Definition range : Type := Z * Z.
Definition range_print (r : range) : cstring :=
  if r.1 =? r.2 then print_u r.1 else print_u r.1 ++ str "-" ++ print_u r.2.
Definition covered (u : Z) (rs : list range) : Prop := exists r, In r rs /\ r.1 <= u <= r.2.

(** The ranges between the ids of a sorted list, from [start] on. *)
Fixpoint gaps (start : Z) (l : list Z) : list range :=
  match l with
  | [] => []
  | u :: l => if u - 1 <? start then gaps (u + 1) l else (start, u - 1) :: gaps (u + 1) l
  end.
Definition gaps_end (start : Z) (l : list Z) : Z := fold_left (fun _ u => u + 1) l start.

Lemma gaps_end_last start l : gaps_end start l = match last l with Some u => u + 1 | None => start end.
Proof.
  unfold gaps_end. revert start. induction l as [|u l IH]; intros start; [done|]. cbn [fold_left]. rewrite IH, last_cons.
  by destruct (last l).
Qed.

Lemma covered_cons u a b rs : covered u ((a, b) :: rs) <-> a <= u <= b \/ covered u rs.
Proof.
  unfold covered. split.
  - intros (r & [<-|Hin] & Hr); [by left|right; eauto].
  - intros [H|(r & Hin & Hr)]; [exists (a, b)|exists r]; (split; [by left + by right|done]).
Qed.

Lemma gaps_end_ge start l : StronglySorted Z.le l -> (forall u, In u l -> start <= u + 1) -> start <= gaps_end start l.
Proof.
  intros Hs Hl. rewrite gaps_end_last. destruct (last l) as [u|] eqn:E; [|lia].
  apply Hl. apply list_elem_of_In. by apply last_Some_elem_of.
Qed.

Lemma gaps_end_gt start l v : StronglySorted Z.le l -> In v l -> v < gaps_end start l.
Proof.
  intros Hs. revert start. induction Hs as [|w l Hs IH Hw]; intros start Hv; [done|].
  change (gaps_end start (w :: l)) with (gaps_end (w + 1) l). destruct Hv as [->|Hv]; [|by apply IH].
  rewrite Forall_forall in Hw. pose proof (gaps_end_ge (v + 1) l Hs) as Hge.
  assert (v + 1 <= gaps_end (v + 1) l); [|lia]. apply Hge. intros u Hu%list_elem_of_In. specialize (Hw u Hu). lia.
Qed.

Lemma gaps_covered start l u : StronglySorted Z.le l -> (forall v, In v l -> start <= v + 1) ->
  covered u (gaps start l) <-> start <= u < gaps_end start l /\ ~ In u l.
Proof.
  intros Hs. revert start. induction Hs as [|v l Hs IH Hv]; intros start Hl.
  - split; [by intros (? & [] & _)|cbn; lia].
  - rewrite Forall_forall in Hv. pose proof (Hl v ltac:(by left)).
    assert (Hv' : forall w, In w l -> v + 1 <= w + 1).
    { intros w Hw. specialize (Hv w (proj2 (list_elem_of_In _ _) Hw)). lia. }
    pose proof (gaps_end_ge (v + 1) l Hs Hv'). specialize (IH (v + 1) Hv').
    assert (Hnot : In u l -> v <= u) by (intros Hu; specialize (Hv' u Hu); lia).
    change (gaps_end start (v :: l)) with (gaps_end (v + 1) l). cbn [gaps In].
    destruct (Z.ltb_spec (v - 1) start).
    + rewrite IH. destruct (decide (v = u)); intuition lia.
    + rewrite covered_cons, IH. destruct (Z.lt_trichotomy u v) as [|[|]]; intuition lia.
Qed.

(** ** Digits *)

Lemma print_digits_length n k fuel acc : (0 < fuel)%nat -> 0 <= n < 10 ^ Z.of_nat k ->
  (length (print_digits fuel 10 n acc) <= Nat.max 1 k + length acc)%nat.
Proof.
  revert n k acc. induction fuel as [|fuel IH]; intros n k acc Hf Hn; [lia|]. cbn [print_digits].
  destruct (Z.eqb_spec (n / 10) 0) as [Hq|Hq]; [cbn [length]; lia|].
  destruct k as [|[|k]]; [cbn in Hn; by rewrite Z.div_small in Hq by lia..|].
  destruct fuel as [|fuel]; [cbn [print_digits length]; lia|].
  assert (Hd : 0 <= n / 10 < 10 ^ Z.of_nat (S k)).
  { split; [apply Z.div_pos; lia|]. apply Z.div_lt_upper_bound; [lia|].
    rewrite <- Z.pow_succ_r, <- Nat2Z.inj_succ by lia. lia. }
  specialize (IH (n / 10) (S k) (digit_char (n mod 10) :: acc) ltac:(lia) Hd). cbn [length] in IH. lia.
Qed.

Lemma print_u32_length n : 0 <= n < 2 ^ 32 -> (length (print_u n) <= 10)%nat.
Proof. intros H. pose proof (print_digits_length n 10 64 []). cbn [length] in *. unfold print_u. lia. Qed.

(** No range is cut off by the 22 characters of its buffer. *)
Lemma range_fits r : 0 <= r.1 < 2 ^ 32 -> 0 <= r.2 < 2 ^ 32 -> range_text (range_print r) = range_print r.
Proof.
  intros H1%print_u32_length H2%print_u32_length. unfold range_text. apply take_ge. unfold range_print.
  destruct (_ =? _); [lia|]. rewrite !length_app. cbn [length str]. change (length (str "-")) with 1%nat. lia.
Qed.

(** ** Commands of eighteen ranges *)

(** The ranges of a command, as [concat_and_free] builds them up. *)
Definition spaced (l : list cstring) : option cstring :=
  fold_left (fun r s => Some (concat_and_free r (str " ") s)) l None.

Lemma spaced_snoc l s : spaced (l ++ [s]) = Some (concat_and_free (spaced l) (str " ") s).
Proof. unfold spaced. by rewrite fold_left_app. Qed.

Lemma spaced_None l : spaced l = None -> l = [].
Proof. destruct l as [|s l] using rev_ind; [done|]. by rewrite spaced_snoc. Qed.

Section Users.
Context `{P : Platform} `{W : World} `{Q : Qsort} `{Sh : Shell X}.
Context (netid : Z).

(** The command that adds a group of ranges. *)
Definition users_event (group : list cstring) : event :=
  EvPopen (str "ndc " ++ str "network users add " ++ print_u netid ++ str " " ++ default [] (spaced group)).

(** [ndc] answers, and not with an error. *)
Definition ndc_works : Prop := forall c x, exists line lines x',
  sh_popen (str "ndc " ++ c) x = (inr (line :: lines), x') /\ ~ 400 <= atoi line < 600.

Context (NDC : ndc_works).

Lemma cndc_works c st : exists st', cndc c st = (Ret tt, st') /\ q_trace st' = q_trace st ++ [EvPopen (str "ndc " ++ c)].
Proof.
  destruct (NDC c (q_ext st)) as (line & lines & x' & E & Hok).
  unfold cndc, cmd_ret, cmd_lines, call, mbind, run_bind. rewrite E. cbn [mret run_ret head].
  destruct (Z.leb_spec 400 (atoi line)), (Z.ltb_spec (atoi line) 600); [lia|eexists; split; reflexivity..].
Qed.

(** Groups that were sent and ranges that wait, after texts were added. *)
Definition sent (texts : list cstring) (st : qstate X) (waiting : list cstring) (st' : qstate X) : Prop :=
  exists groups, concat groups ++ waiting = texts /\
    Forall (fun g => 1 <= length g <= 18)%nat groups /\
    q_trace st' = q_trace st ++ map users_event groups.

Lemma sent_more texts st p st1 more p' st2 :
  sent texts st p st1 -> sent (p ++ more) st1 p' st2 -> sent (texts ++ more) st p' st2.
Proof.
  intros (g & <- & Hg & Et) (g' & E' & Hg' & Et'). exists (g ++ g').
  rewrite concat_app, <- !app_assoc, E'. split_and!; [done|by apply Forall_app|].
  by rewrite Et', Et, map_app, app_assoc.
Qed.

(** Ranges that wait, with the counter. *)
Definition waits (p : list cstring) (args : Z) : Prop := 0 <= args < 2 ^ 32 /\ Z.of_nat (length p) = args mod 18.

Lemma add_range_sent p args s st : waits p args -> exists p' args' st',
  add_range netid (spaced p) args s st = (Ret (spaced p', args'), st') /\ waits p' args' /\
  sent (p ++ [s]) st p' st'.
Proof.
  intros [Ha Hp]. unfold add_range. cbv zeta.
  assert (Hu : u32 (args + 1) = args + 1 /\ args + 1 < 2 ^ 32 \/ u32 (args + 1) = 0).
  { unfold u32. destruct (decide (args + 1 < 2 ^ 32)); [left; rewrite Z.mod_small by lia; done|right].
    by replace (args + 1) with (2 ^ 32) by lia. }
  pose proof (Z.mod_pos_bound (u32 (args + 1)) 18 ltac:(lia)).
  destruct (Z.eqb_spec (u32 (args + 1) mod 18) 0) as [E|E].
  - unfold users_add.
    match goal with |- context [cndc ?c ≫= _] => destruct (cndc_works c st) as (st' & Ec & Et) end.
    exists [], (u32 (args + 1)), st'. rewrite (run_bind_eq _ _ _ _ _ Ec). split_and!; [done|..].
    + split; [destruct Hu as [[-> ?]| ->]; lia|by rewrite E].
    + exists [p ++ [s]]. rewrite app_nil_r. cbn [concat map]. rewrite app_nil_r. split_and!; [done| |].
      * pose proof (Z.mod_pos_bound args 18 ltac:(lia)). constructor; [|constructor]. rewrite length_app. cbn [length]. lia.
      * rewrite Et. unfold users_event. by rewrite spaced_snoc.
  - exists (p ++ [s]), (u32 (args + 1)), st. rewrite spaced_snoc. split_and!; [done|..].
    + destruct Hu as [[Hu ?]|Hu]; [|by rewrite Hu in E]. rewrite Hu in *. split; [|rewrite length_app; cbn [length]].
      * lia.
      * rewrite Nat2Z.inj_add, Hp. pose proof (Z.mod_pos_bound args 18 ltac:(lia)).
        destruct (decide (args mod 18 = 17)).
        -- exfalso. apply E. rewrite <- Zplus_mod_idemp_l, e. done.
        -- rewrite <- (Zplus_mod_idemp_l args), (Z.mod_small (args mod 18 + 1)) by lia. lia.
    + exists []. by rewrite app_nil_r.
Qed.

Lemma waits_short p args : waits p args -> (length p <= 17)%nat.
Proof. intros [_ H]. pose proof (Z.mod_pos_bound args 18 ltac:(lia)). lia. Qed.

(** Everything was sent. *)
Definition all_sent (texts : list cstring) (st st' : qstate X) : Prop := sent texts st [] st'.

Lemma flush_sent texts st p st1 : sent texts st p st1 -> (length p <= 18)%nat -> exists st2,
  match spaced p with Some ranges => users_add netid ranges | None => mret tt end st1 = (Ret tt, st2) /\
  all_sent texts st st2.
Proof.
  intros Hs Hl. destruct (spaced p) as [r|] eqn:E.
  - destruct (cndc_works (str "network users add " ++ print_u netid ++ str " " ++ r) st1) as (st2 & Ec & Et).
    exists st2. split; [exact Ec|]. unfold all_sent. rewrite <- (app_nil_r texts). eapply sent_more; [exact Hs|].
    exists [p]. cbn [concat map]. rewrite !app_nil_r. split_and!; [done| |].
    + constructor; [|constructor]. destruct p; [done|]. cbn [length] in *. lia.
    + rewrite Et. unfold users_event. by rewrite E.
  - apply spaced_None in E as ->. exists st1. by split.
Qed.

(** ** The two loops *)

Definition below_max (u : Z) : Prop := 0 < u < 2 ^ 32 - 1.

Lemma exclude_loop_sent l n start p args st :
  Forall below_max l -> 0 <= start < 2 ^ 32 -> waits p args -> exists p' args' st',
  exclude_loop netid (l ++ replicate (S n) 0) start (spaced p) args st = (Ret (gaps_end start l, spaced p'), st') /\
  waits p' args' /\ sent (p ++ map range_print (gaps start l)) st p' st'.
Proof.
  intros Hl. revert start p args st. induction Hl as [|u l Hu _ IH]; intros start p args st Hst Hw.
  - exists p, args, st. split_and!; [done|done|]. exists []. by rewrite !app_nil_r.
  - unfold below_max in Hu. cbn [app exclude_loop gaps]. destruct (Z.eqb_spec u 0); [lia|].
    change (gaps_end start (u :: l)) with (gaps_end (u + 1) l).
    rewrite !u32_small by lia.
    destruct (u - 1 <? start) eqn:E; [apply IH; [lia|done]|].
    assert (Er : (if start =? u - 1 then range_text (print_u start)
                  else range_text (print_u start ++ str "-" ++ print_u (u - 1))) = range_print (start, u - 1)).
    { rewrite <- (range_fits (start, u - 1)) by (cbn [fst snd]; lia). unfold range_print. cbn [fst snd].
      by destruct (start =? u - 1). }
    cbv zeta. rewrite Er.
    destruct (add_range_sent p args (range_print (start, u - 1)) st Hw) as (p1 & args1 & st1 & E1 & Hw1 & Hs1).
    rewrite (run_bind_eq _ _ _ _ _ E1).
    destruct (IH (u + 1) p1 args1 st1 ltac:(lia) Hw1) as (p2 & args2 & st2 & E2 & Hw2 & Hs2).
    exists p2, args2, st2. rewrite E2. split_and!; [done|done|]. cbn [map].
    change (range_print (start, u - 1) :: ?t) with ([range_print (start, u - 1)] ++ t). rewrite app_assoc.
    by eapply sent_more.
Qed.

Lemma include_loop_sent l n p args st :
  Forall (fun u => 0 < u < 2 ^ 32) l -> waits p args -> exists p' args' st',
  include_loop netid (l ++ replicate (S n) 0) (spaced p) args st = (Ret (spaced p'), st') /\
  waits p' args' /\ sent (p ++ map print_u l) st p' st'.
Proof.
  intros Hl. revert p args st. induction Hl as [|u l Hu _ IH]; intros p args st Hw.
  - exists p, args, st. split_and!; [done|done|]. exists []. by rewrite !app_nil_r.
  - cbn [app include_loop map]. destruct (Z.eqb_spec u 0); [lia|].
    assert (Er : range_text (print_u u) = print_u u).
    { pose proof (print_u32_length u ltac:(lia)). apply take_ge. lia. }
    rewrite Er. destruct (add_range_sent p args (print_u u) st Hw) as (p1 & args1 & st1 & E1 & Hw1 & Hs1).
    rewrite (run_bind_eq _ _ _ _ _ E1).
    destruct (IH p1 args1 st1 Hw1) as (p2 & args2 & st2 & E2 & Hw2 & Hs2).
    exists p2, args2, st2. rewrite E2. split_and!; [done|done|].
    change (print_u u :: ?t) with ([print_u u] ++ t). rewrite app_assoc.
    by eapply sent_more.
Qed.

(** The ranges of [set_users] for a sorted list of ids to exclude. *)
Definition excluding (l : list Z) : list range :=
  gaps 0 l ++ (if gaps_end 0 l <? 99999 then [(gaps_end 0 l, 99999)] else []).

Lemma excluding_covered l u : StronglySorted Z.le l -> (forall v, In v l -> 0 < v <= 99999) ->
  (In 99998 l -> In 99999 l) -> covered u (excluding l) <-> 0 <= u <= 99999 /\ ~ In u l.
Proof.
  intros Hs Hl Hlast. assert (Hl' : forall v, In v l -> 0 <= v + 1) by (intros v Hv%Hl; lia).
  pose proof (gaps_covered 0 l u Hs Hl') as Hc. unfold excluding.
  assert (Happ : forall a b, covered u (a ++ b) <-> covered u a \/ covered u b).
  { intros a b. unfold covered. setoid_rewrite in_app_iff. naive_solver. }
  pose proof (gaps_end_gt 0 l) as Hgt. rewrite Happ, Hc.
  assert (Hend : gaps_end 0 l < 99999 \/ gaps_end 0 l = 100000).
  { rewrite gaps_end_last in *. destruct (last l) as [v|] eqn:E; [|lia].
    apply last_Some_elem_of, list_elem_of_In in E. pose proof (Hl v E).
    destruct (decide (v = 99998)) as [->|]; [|lia]. specialize (Hgt 99999 Hs (Hlast E)). lia. }
  destruct (Z.ltb_spec (gaps_end 0 l) 99999) as [Hlt|].
  - rewrite covered_cons. assert (Hnil : ~ covered u []) by (by intros (? & [] & _)).
    assert (Hu : In u l -> u < gaps_end 0 l) by (intros Hu; by apply Hgt).
    pose proof (gaps_end_ge 0 l Hs Hl'). destruct (Z.lt_ge_cases u (gaps_end 0 l)); intuition lia.
  - assert (Hnil : ~ covered u []) by (by intros (? & [] & _)). intuition lia.
Qed.

Lemma users_sent texts p st st1 m :
  m st = (Ret (spaced p), st1) -> (length p <= 18)%nat -> sent texts st p st1 -> exists st',
  (ranges ← m; match ranges with Some ranges => users_add netid ranges | None => mret tt end) st = (Ret tt, st') /\
  all_sent texts st st'.
Proof. intros E Hl Hs. rewrite (run_bind_eq _ _ _ _ _ E). by apply flush_sent. Qed.

Lemma exclude_sent excluded l k st :
  get_uid_list excluded st = (Ret (l ++ replicate (S k) 0), st) -> Forall below_max l -> exists st',
  set_users netid excluded None st = (Ret tt, st') /\ all_sent (map range_print (excluding l)) st st'.
Proof.
  intros Eg Hl.
  destruct (exclude_loop_sent l k 0 [] 0 st Hl ltac:(lia) ltac:(by split)) as (p & args & st1 & E & Hw%waits_short & Hs).
  assert (Hbody : exists p', (length p' <= 18)%nat /\ sent (map range_print (excluding l)) st p' st1 /\
    (uids ← get_uid_list excluded; '(start, ranges) ← exclude_loop netid uids 0 None 0;
     mret (if start <? 99999
           then Some (concat_and_free ranges (str " ") (range_text (print_u start ++ str "-99999")))
           else ranges)) st = (Ret (spaced p'), st1)).
  { assert (0 <= gaps_end 0 l).
    { rewrite gaps_end_last. destruct (last l) as [u|] eqn:El; [|lia]. rewrite Forall_forall in Hl.
      pose proof (Hl u (last_Some_elem_of _ _ El)) as Hu. unfold below_max in Hu. lia. }
    rewrite (run_bind_eq _ _ _ _ _ Eg). rewrite (run_bind_eq _ _ _ _ _ E). unfold excluding. cbn [app] in Hs.
    destruct (Z.ltb_spec (gaps_end 0 l) 99999) as [Hlt|Hge].
    - exists (p ++ [range_print (gaps_end 0 l, 99999)]). rewrite spaced_snoc, map_app. split_and!.
      + rewrite length_app. cbn [length]. lia.
      + eapply sent_more; [exact Hs|]. exists []. by rewrite app_nil_r.
      + rewrite <- (range_fits (gaps_end 0 l, 99999)); [|cbn [fst snd]; lia..].
        unfold range_print. cbn [fst snd]. destruct (Z.eqb_spec (gaps_end 0 l) 99999); [lia|]. reflexivity.
    - exists p. rewrite app_nil_r. split_and!; [lia|done|reflexivity]. }
  destruct Hbody as (p' & Hp' & Hs' & E'). destruct (users_sent _ _ _ _ _ E' Hp' Hs') as (st' & Eu & Hall).
  exists st'. split; [|done]. destruct excluded; exact Eu.
Qed.

Lemma include_sent selected l k st :
  get_uid_list (Some selected) st = (Ret (l ++ replicate (S k) 0), st) -> Forall (fun u => 0 < u < 2 ^ 32) l ->
  exists st', set_users netid None (Some selected) st = (Ret tt, st') /\ all_sent (map print_u l) st st'.
Proof.
  intros Eg Hl.
  destruct (include_loop_sent l k [] 0 st Hl ltac:(by split)) as (p & args & st1 & E & Hw%waits_short & Hs).
  apply (users_sent _ p _ st1); [|lia|exact Hs]. by rewrite (run_bind_eq _ _ _ _ _ Eg).
Qed.
End Users.

(** ** Which users a tunnel is for *)

Section Theorems.
Context `{P : Platform} `{W : World} `{Q : Qsort} `{QOK : !QsortOk} `{Sh : Shell X}.

Lemma compare_uid_diff a b : 0 <= a < 2 ^ 31 -> 0 <= b < 2 ^ 31 -> compare_uid a b = a - b.
Proof.
  intros Ha Hb. unfold compare_uid. transitivity (s32 (a - b)); [|apply s32_small; lia].
  unfold s32, u32. by rewrite Zplus_mod_idemp_l.
Qed.

Lemma sorted_uids l : (forall u, In u l -> 0 <= u < 2 ^ 31) ->
  StronglySorted Z.le (qsort compare_uid l) /\ (forall u, In u (qsort compare_uid l) <-> In u l).
Proof.
  intros Hl. assert (Hp : forall u, In u (qsort compare_uid l) <-> In u l).
  { intros u. rewrite <- !list_elem_of_In. by rewrite (qsort_perm compare_uid l). }
  split; [|done]. assert (Hs : StronglySorted (fun a b => compare_uid a b <= 0) (qsort compare_uid l)).
  { apply qsort_sorted.
    - intros a b c Ha%Hl Hb%Hl Hc%Hl. rewrite !compare_uid_diff by done. lia.
    - intros a b Ha%Hl Hb%Hl. rewrite !compare_uid_diff by done. lia. }
  assert (Hr : forall u, In u (qsort compare_uid l) -> 0 <= u < 2 ^ 31) by (intros u Hu%Hp; by apply Hl).
  clear Hp Hl. revert Hs Hr. generalize (qsort compare_uid l). intros q Hs.
  induction Hs as [|a q Hs IH Ha]; intros Hr; constructor; [apply IH; intros u Hu; apply Hr; by right|].
  rewrite Forall_forall in *. intros b Hb. specialize (Ha b Hb). apply list_elem_of_In in Hb.
  rewrite compare_uid_diff in Ha; [lia|apply Hr; by left|apply Hr; by right].
Qed.

Lemma parse_package_range line name uid : parse_package line = Some (name, uid) -> 0 < uid < 2 ^ 32.
Proof.
  unfold parse_package. destruct (strsep line " ") as [name' [rest|]]; [|done].
  destruct (strtoul _ 10) as [v endptr]. destruct (Z.eqb_spec (u32 v) 0) as [|Hv]; [done|].
  match goal with |- context [if ?b then _ else _] => destruct b end; [done|]. intros [= <- <-].
  pose proof (Z.mod_pos_bound v (2 ^ 32)). unfold u32 in *. lia.
Qed.

Lemma selected_range selected lines u : In u (selected_uids selected (pairs_of lines)) -> 0 < u < 2 ^ 32.
Proof.
  unfold selected_uids. rewrite in_concat. intros (us & (np & <- & Hin)%in_map_iff & Hu).
  destruct np as [name uid]. apply list_elem_of_In, elem_of_replicate in Hu as [-> _].
  unfold pairs_of in Hin. apply list_elem_of_In, list_elem_of_omap in Hin as (line & _ & E).
  by eapply parse_package_range.
Qed.

Context (netid : Z) (NDC : ndc_works).
Context (selected : cstring) (package_list : file) (more : list ascii).
(** The package list can be read and names each package once. *)
Context (FILE : fopen (str "/data/system/packages.list") = Some package_list).
Context (ONCE : NoDup (map fst (pairs_of (config_lines (f_bytes package_list))))).
(** The selection is a string, and the byte after it happens to be zero. *)
Context (STRING : ~ In NUL selected) (SLACK : sh_slack selected = NUL :: more).

(** The user ids of the packages that are selected. *)
Definition uids_of : list Z := selected_uids selected (pairs_of (config_lines (f_bytes package_list))).

Lemma get_uids st : exists k, get_uid_list (Some selected) st =
  (Ret (qsort compare_uid uids_of ++ replicate (S k) 0), st).
Proof.
  destruct (get_uid_list_fits selected package_list more st FILE STRING SLACK ONCE) as ([|k] & Hk & E); [lia|].
  by exists k.
Qed.


(** Including applications: the commands that are run add exactly the user ids
    of the selected packages, one to eighteen in each command. *)
Theorem set_users_includes st :
  exists ids groups st', set_users netid None (Some selected) st = (Ret tt, st') /\
    concat groups = map print_u ids /\ Forall (fun g => 1 <= length g <= 18)%nat groups /\
    q_trace st' = q_trace st ++ map (users_event netid) groups /\ Permutation ids uids_of.
Proof.
  destruct (get_uids st) as [k Eg]. pose proof (qsort_perm compare_uid uids_of) as Hp.
  destruct (include_sent netid NDC selected _ k st Eg) as (st' & E & groups & Eg' & Hg & Et).
  { apply Forall_forall. intros u. rewrite Hp. intros Hu%list_elem_of_In. by eapply selected_range. }
  exists (qsort compare_uid uids_of), groups, st'. rewrite app_nil_r in Eg'. by split_and!.
Qed.
End Theorems.

Lemma sample_ndc_works slack : ndc_works (P := arm64) (Sh := quick_shell slack).
Proof.
  intros c []. exists (str "200 0 Success"), [], tt. split; [|vm_compute; tauto].
  cbn [sh_popen quick_shell]. unfold starts.
  replace (take (length (str "ndc ")) (str "ndc " ++ c)) with (str "ndc ") by reflexivity. reflexivity.
Qed.

Lemma not_in_check (c : ascii) s : forallb (fun x => negb (Ascii.eqb x c)) s = true -> ~ In c s.
Proof.
  intros H Hin. pose proof (proj1 (forallb_forall _ _) H c Hin) as E. cbn beta in E. by rewrite Ascii.eqb_refl in E.
Qed.


Lemma set_users_includes_witness : exists st',
  set_users (P := arm64) (W := quick_world) (Q := insertion_sort) (Sh := quick_shell [NUL]) 5000
    None (Some (str "com.example.c")) quick_start = (Ret tt, st').
Proof.
  destruct (set_users_includes (P := arm64) (W := quick_world) (Q := insertion_sort) (QOK := insertion_sort_ok)
    (Sh := quick_shell [NUL]) 5000 (sample_ndc_works [NUL]) (str "com.example.c") package_file []
    eq_refl) with (st := quick_start) as (ids & groups & st' & E & _).
  - apply (bool_decide_unpack _). vm_compute. exact I.
  - apply not_in_check. vm_compute. reflexivity.
  - reflexivity.
  - exists st'. exact E.
Defined.
End WgQuickUsers.
