(* ===== verification/WgQuickShell.v ===== *)
(** * Name servers, addresses and the shell (src/wg-quick/android.c)

    The buffers [set_dnses] fills in are large enough; what comes from the
    configuration is inside quotes in the commands for addresses, but a search
    domain is not; and the name of the interface is used as a pattern. *)
From S2P Require Import Prelude Libc LibcFacts Encoding Config Setconf Regex.
From S2P Require Import WgQuick WgQuickSamples WgQuickFacts WgQuickConfig.
Import Libc LibcFacts Encoding Config Setconf Regex WgQuick WgQuickSamples WgQuickFacts WgQuickConfig.

Module WgQuickShell.

(** ** Tokens *)

(** Room for each token and a delimiter. *)
Definition token_room (l : list cstring) : nat := list_sum (map (fun t => S (length t)) l).

Lemma strtok_from_room delims tok s :
  (token_room (strtok_from delims tok s) <= length tok + length s + 1)%nat.
Proof.
  unfold token_room. revert tok. induction s as [|c s IH]; intros tok; cbn [strtok_from].
  - destruct tok; cbn; lia.
  - destruct (delims c).
    + destruct tok as [|x tok]; [specialize (IH []); cbn [length] in *; lia|].
      cbn [map list_sum foldr length]. specialize (IH []). cbn [length] in IH.
      change (foldr Nat.add 0%nat) with list_sum. lia.
    + specialize (IH (tok ++ [c])). rewrite length_app in IH. cbn [length] in *. lia.
Qed.

Lemma strtok_from_nonempty delims tok s : Forall (fun t => t <> []) (strtok_from delims tok s).
Proof.
  revert tok. induction s as [|c s IH]; intros tok; cbn [strtok_from]; [by destruct tok; repeat constructor|].
  destruct (delims c); [|done]. destruct tok; [done|by constructor].
Qed.

(** ** The argument lists of [set_dnses] *)

Section Dns.
Context (r : re) (len : Z).

(** A name as it is appended to a shell argument list. *)
Definition quoted (dns : cstring) : cstring := snprintf (len + 3) (str "'" ++ dns ++ str "' ").
Definition server (dns : cstring) : bool := quotable dns && is_match r dns.
Definition domain (dns : cstring) : bool := quotable dns && negb (is_match r dns).
Definition only (p : cstring -> bool) (l : list cstring) : list cstring := filter (fun t => p t = true) l.

(** Characters used so far in the four lists. *)
Definition used_at_most (n : nat) (d : dns_args) : Prop :=
  (length (dns_shell_arglist d) <= n)%nat /\ (length (dns_search_shell_arglist d) <= n)%nat /\
  (length (dns_function_arglist d) <= n)%nat /\ (length (dns_search_function_arglist d) <= n)%nat.

Lemma strncat_fits capacity dest src n (room : nat) :
  (length dest + length src <= room)%nat -> Z.of_nat room < capacity -> Z.of_nat (length src) <= n ->
  strncat capacity dest src n = Some (dest ++ src).
Proof.
  intros H1 H2 H3. unfold strncat. rewrite take_ge by lia.
  destruct (Z.ltb_spec capacity (strlen (dest ++ src) + 1)) as [H|]; [|done].
  unfold strlen in H. rewrite length_app in H. lia.
Qed.

Lemma snprintf_length size s : 0 < size ->
  (length (snprintf size s) <= length s)%nat /\ Z.of_nat (length (snprintf size s)) <= size - 1.
Proof. intros H. unfold snprintf. rewrite length_take. lia. Qed.

(** What a name adds to a list. *)
Definition added (p : bool) (dns : cstring) : list cstring := if p then [dns] else [].

Lemma add_dns_fits dns d used : 1 <= len -> dns <> [] ->
  used_at_most used d -> Z.of_nat (used + 2 * S (length dns)) <= len * 4 ->
  exists d', add_dns r len dns d = Some d' /\ used_at_most (used + 2 * S (length dns)) d' /\
    dns_list d' = dns_list d ++ added (is_match r dns) dns /\
    dns_search_list d' = dns_search_list d ++ added (negb (is_match r dns)) dns /\
    dns_shell_arglist d' = dns_shell_arglist d ++ concat (map quoted (added (is_match r dns) dns)) /\
    dns_search_shell_arglist d' =
      dns_search_shell_arglist d ++ concat (map quoted (added (negb (is_match r dns)) dns)).
Proof.
  intros Hlen Hne (H1 & H2 & H3 & H4) Hroom. unfold add_dns. cbv zeta. fold (quoted dns).
  assert (Hq : (length (quoted dns) <= 2 * S (length dns))%nat /\ Z.of_nat (length (quoted dns)) <= len * 4 - 1).
  { destruct (snprintf_length (len + 3) (str "'" ++ dns ++ str "' ")) as [Ha Hb]; [lia|]. fold (quoted dns) in *.
    rewrite !length_app in Ha. change (length (str "'")) with 1%nat in Ha. change (length (str "' ")) with 2%nat in Ha.
    destruct dns; [done|]. cbn [length] in *. lia. }
  set (fl := if is_match r dns then dns_function_arglist d else dns_search_function_arglist d).
  set (text := if strlen fl =? 0 then dns else str ", " ++ dns). set (arg := snprintf (len + 2) text).
  assert (Ha : (length arg <= 2 * S (length dns))%nat /\ Z.of_nat (length arg) <= len * 4 - 1).
  { destruct (snprintf_length (len + 2) text) as [Ha Hb]; [lia|]. change (snprintf (len + 2) text) with arg in Ha, Hb.
    assert (length text <= 2 + length dns)%nat.
    { unfold text. destruct (_ =? _); [lia|]. rewrite length_app. change (length (str ", ")) with 2%nat. lia. }
    destruct dns; [done|]. cbn [length] in *. lia. }
  assert (Hfl : (length fl <= used)%nat) by (unfold fl; by destruct (is_match r dns)).
  rewrite (strncat_fits _ _ (quoted dns) _ (used + 2 * S (length dns))) by (destruct (is_match r dns); lia).
  rewrite (strncat_fits _ fl arg _ (used + 2 * S (length dns))) by lia. cbn [mbind option_bind].
  eexists. split; [reflexivity|]. unfold used_at_most, added, fl in *.
  destruct (is_match r dns); cbn [negb map concat dns_shell_arglist dns_search_shell_arglist dns_function_arglist
    dns_search_function_arglist dns_list dns_search_list]; rewrite ?length_app, ?app_nil_r; split_and!; (done || lia).
Qed.

(** Every list holds its names, in order. *)
Definition holds (l : list cstring) (d0 d : dns_args) : Prop :=
  dns_list d = dns_list d0 ++ only server l /\
  dns_search_list d = dns_search_list d0 ++ only domain l /\
  dns_shell_arglist d = dns_shell_arglist d0 ++ concat (map quoted (only server l)) /\
  dns_search_shell_arglist d = dns_search_shell_arglist d0 ++ concat (map quoted (only domain l)).

Lemma only_cons p t l : only p (t :: l) = added (p t) t ++ only p l.
Proof.
  unfold only, added. destruct (p t) eqn:E; [by rewrite filter_cons_True|].
  by rewrite filter_cons_False by congruence.
Qed.

Lemma add_dnses_fits l d used : 1 <= len -> Forall (fun t => t <> []) l ->
  used_at_most used d -> Z.of_nat (used + 2 * token_room l) <= len * 4 ->
  exists d', add_dnses r len l d = Some d' /\ holds l d d'.
Proof.
  intros Hlen Hl. revert d used. induction Hl as [|t l Ht _ IH]; intros d used Hu Hroom; cbn [add_dnses].
  - exists d. split; [done|]. unfold holds, only. cbn [filter map concat]. by rewrite !app_nil_r.
  - unfold token_room in Hroom. cbn [map list_sum foldr] in Hroom. change (foldr Nat.add 0%nat) with list_sum in Hroom.
    fold (token_room l) in Hroom. unfold holds. rewrite !only_cons. unfold server at 1 3, domain at 1 3.
    destruct (quotable t); cbn [andb].
    + destruct (add_dns_fits t d used) as (d1 & E & Hu1 & F1 & F2 & F3 & F4); [done|done|done|lia|].
      rewrite E. cbn [mbind option_bind]. destruct (IH d1 _ Hu1) as (d' & E' & G1 & G2 & G3 & G4); [lia|].
      exists d'. rewrite E', G1, G2, G3, G4, F1, F2, F3, F4, !map_app, !concat_app, <- !app_assoc. done.
    + cbn [mbind option_bind added app map concat]. destruct (IH d used Hu) as (d' & E' & G); [lia|]. by exists d'.
Qed.
End Dns.

Lemma add_dnses_whole r dnses : dnses <> [] -> exists d,
  add_dnses r (strlen dnses) (strtok dnses list_delims) no_dns = Some d /\
  holds r (strlen dnses) (strtok dnses list_delims) no_dns d.
Proof.
  intros Hne. set (l := strtok dnses list_delims).
  assert (1 <= strlen dnses) by (unfold strlen; destruct dnses; [done|cbn [length]; lia]).
  assert (Hroom : (token_room l <= length dnses + 1)%nat) by apply (strtok_from_room _ []).
  apply (add_dnses_fits r (strlen dnses) l no_dns 0); [done| | |unfold strlen in *; lia].
  - apply strtok_from_nonempty.
  - unfold used_at_most. cbn. lia.
Qed.

(** The four buffers and two arrays [set_dnses] fills in never overflow: the
    function gets to its end with the names that need no quoting split into name
    servers (addresses) and search domains, in the order of the configuration,
    and the shell lists are those names in quotes. (C19) *)
Theorem dns_buffers_fit r dnses : dnses <> [] ->
  let l := strtok dnses list_delims in
  exists d, add_dnses r (strlen dnses) l no_dns = Some d /\
    dns_list d = only (server r) l /\ dns_search_list d = only (domain r) l /\
    dns_shell_arglist d = concat (map (quoted (strlen dnses)) (only (server r) l)) /\
    dns_search_shell_arglist d = concat (map (quoted (strlen dnses)) (only (domain r) l)).
Proof. exact (add_dnses_whole r dnses). Qed.

Lemma dns_buffers_fit_witness : exists d,
  add_dnses Eps 20 (strtok (str "10.0.0.1,example.org") list_delims) no_dns = Some d /\
  dns_list d = [str "10.0.0.1"; str "example.org"].
Proof.
  destruct (dns_buffers_fit Eps (str "10.0.0.1,example.org")) as (d & E & El & _); [discriminate|].
  exists d. split; [exact E|]. rewrite El. vm_compute. reflexivity.
Defined.

(** ** What a shell sees outside quotes *)

(** The characters of a command line that are outside single quotes. *)
Fixpoint unquoted (inside : bool) (s : cstring) : cstring :=
  match s with
  | [] => []
  | c :: s =>
      if Ascii.eqb c "'" then unquoted (negb inside) s
      else if inside then unquoted inside s else c :: unquoted inside s
  end.

Definition no_quote (s : cstring) : Prop := ~ In "'"%char s.

Lemma unquoted_plain s rest : no_quote s -> unquoted false (s ++ rest) = s ++ unquoted false rest.
Proof.
  unfold no_quote. induction s as [|c s IH]; intros H; [done|]. cbn [app unquoted].
  destruct (Ascii.eqb_spec c "'") as [->|_]; [by destruct H; left|]. rewrite IH; [done|]. intros ?. apply H. by right.
Qed.
Lemma unquoted_inside s rest : no_quote s -> unquoted true (s ++ str "'" ++ rest) = unquoted false rest.
Proof.
  unfold no_quote. induction s as [|c s IH]; intros H; [done|]. cbn [app unquoted].
  destruct (Ascii.eqb_spec c "'") as [->|_]; [by destruct H; left|]. rewrite IH; [done|]. intros ?. apply H. by right.
Qed.

(** Characters that mean nothing to a shell but the end of a word. *)
Definition plain (c : ascii) : bool := iface_char c || Ascii.eqb c " ".
Definition all_plain (s : cstring) : Prop := Forall (fun c => plain c = true) s.
(** A command line that is one command, with everything else in quotes. *)
Definition one_command (ev : event) : Prop :=
  match ev with
  | EvSystem c | EvPopen c | EvFeed c _ => all_plain (unquoted false c)
  | EvExec _ | EvBinder _ => True
  end.

Lemma plain_no_quote s : all_plain s -> no_quote s.
Proof.
  intros H Hin. unfold all_plain in H. rewrite Forall_forall in H.
  specialize (H _ (proj2 (list_elem_of_In _ _) Hin)). discriminate H.
Qed.
Lemma all_plain_iface iface : iface_ok iface -> all_plain iface.
Proof. intros [_ H]. eapply Forall_impl; [exact H|]. intros c Hc. unfold plain. by rewrite Hc. Qed.

Lemma digit_plain c : base_digit 10 c -> plain c = true.
Proof.
  intros H%base_digit_10.
  assert (E : forall c, implb (is_digit_char c) (plain c) = true) by (apply char_forall; vm_compute; reflexivity).
  specialize (E c). by rewrite H in E.
Qed.
Lemma all_plain_print n : 0 <= n < 2 ^ 64 -> all_plain (print_u n).
Proof. intros (_ & H & _)%print_u_spec. eapply Forall_impl; [exact H|]. apply digit_plain. Qed.

(** A command with one quoted argument. *)
Lemma quoted_command a arg b : all_plain a -> no_quote arg -> all_plain b ->
  all_plain (unquoted false (a ++ str "'" ++ arg ++ str "'" ++ b)).
Proof.
  intros Ha Harg Hb. rewrite unquoted_plain by by apply plain_no_quote. change (str "'" ++ ?x) with ("'"%char :: x).
  cbn [unquoted Ascii.eqb]. change (Ascii.eqb "'" "'") with true. cbn iota. change (negb false) with true.
  rewrite (unquoted_inside arg b Harg). rewrite <- (app_nil_r b), unquoted_plain by by apply plain_no_quote.
  cbn [unquoted]. rewrite app_nil_r. by apply Forall_app.
Qed.
Lemma plain_command a : all_plain a -> all_plain (unquoted false a).
Proof.
  intros Ha. rewrite <- (app_nil_r a), unquoted_plain by by apply plain_no_quote. cbn [unquoted]. by rewrite app_nil_r.
Qed.

Lemma strchr_no s c : bool_decide (is_Some (strchr s c)) = false -> ~ In c s.
Proof.
  intros H%bool_decide_eq_false Hin. apply H. clear H. induction s as [|x s IH]; [done|].
  cbn [strchr]. destruct (Ascii.eqb_spec x c) as [->|Hx]; [by eexists|]. destruct Hin as [->|Hin]; [done|].
  destruct (IH Hin) as [k Ek]. rewrite Ek. by eexists.
Qed.

Lemma quotable_no_quote s : quotable s = true -> no_quote s.
Proof. intros [H _]%andb_true_iff. apply strchr_no. by apply negb_true_iff. Qed.

Lemma all_plain_str s : forallb plain s = true -> all_plain s.
Proof. intros H. apply Forall_forall. intros c Hc%list_elem_of_In. by apply (proj1 (forallb_forall _ _) H). Qed.

Lemma all_plain_app a b : all_plain a -> all_plain b -> all_plain (a ++ b).
Proof. apply Forall_app_2. Qed.

Ltac plain_text := repeat apply all_plain_app; first [assumption | apply all_plain_str; vm_compute; reflexivity].

Section Addresses.
Context `{P : Platform} `{W : World} `{Sh : Shell X}.

Lemma add_addr_one_command iface addr : iface_ok iface -> quotable addr = true ->
  appends one_command (add_addr iface addr).
Proof.
  intros Hi%all_plain_iface Hq%quotable_no_quote. unfold add_addr.
  destruct (bool_decide _).
  - apply appends_bind; [|intros ?].
    + apply appends_cndc. apply plain_command. plain_text.
    + apply appends_cmd. cbn [one_command]. 
      change (str "ip -6 addr add '") with (str "ip -6 addr add " ++ str "'").
      change (str "' dev ") with (str "'" ++ str " dev "). rewrite <- !app_assoc.
      apply quoted_command; [plain_text|done|plain_text].
  - destruct (strsep addr "/") as [mut_addr slash] eqn:E. apply appends_cndc. cbn [one_command].
    change (str " '") with (str " " ++ str "'"). change (str "' ") with (str "'" ++ str " "). rewrite <- !app_assoc.
    rewrite (app_assoc (str "interface setcfg ")), (app_assoc (str "ndc ")), (app_assoc _ (str " ")).
    apply quoted_command.
    + plain_text.
    + intros Hin. apply Hq. clear -E Hin. revert mut_addr E Hin. induction addr as [|c addr IH]; intros m E Hin.
      * injection E as <- <-. done.
      * cbn [strsep] in E. destruct (Ascii.eqb c "/"); [injection E as <- <-; done|].
        destruct (strsep addr "/") as [t a]. injection E as <- <-. destruct Hin as [->|Hin]; [by left|].
        right. by eapply IH.
    + apply all_plain_app; [plain_text|]. apply all_plain_print. destruct slash; [|lia].
      match goal with |- context [u8 ?z] => pose proof (u8_range z) as Hr end. unfold is_byte in Hr. lia.
Qed.

(** Giving an interface its addresses: every command that is run is one command
    to a shell, for any value of the configuration. Outside single quotes it has
    only letters, digits, spaces and the characters of an interface name. (C17) *)
Theorem set_addr_quoted iface addrs st : iface_ok iface ->
  exists t, q_trace (set_addr iface (Some addrs) st).2 = q_trace st ++ t /\ Forall one_command t.
Proof.
  intros Hi. assert (H : appends one_command (set_addr iface (Some addrs))).
  { apply appends_for_each. intros addr. destruct (quotable addr) eqn:E; [by apply add_addr_one_command|].
    apply appends_ret. }
  apply H.
Qed.

(** ** Where the text of the configuration is not what it seems *)

Definition injected : cstring := str "192.0.2.1,a;reboot".
Definition injected_command : cstring := str "ndc resolver setnetdns 5000 ''a;reboot' ' '192.0.2.1' ".

Lemma injected_dns : exists r d, regcomp regex_ipnothost = Some r /\
  bool_decide (filter (fun dns => quotable dns && is_match r dns = true) (strtok injected list_delims) = []) = false /\
  add_dnses r (strlen injected) (strtok injected list_delims) no_dns = Some d /\
  str "ndc " ++ str "resolver setnetdns " ++ print_u 5000 ++ str " '" ++ dns_search_shell_arglist d
    ++ str "' " ++ dns_shell_arglist d = injected_command.
Proof. do 2 eexists. split_and!; vm_compute; reflexivity. Qed.

Lemma dns_no_handle (st : qstate X) : sh_binder (q_ext st) = false -> dnsresolver_get_handle st = (Ret false, st).
Proof. intros Hb. unfold dnsresolver_get_handle, get_ext, mbind, run_bind. by rewrite Hb. Qed.

End Addresses.

Lemma set_addr_quoted_witness : iface_ok (str "wg0") /\ exists t,
  q_trace (set_addr (P := arm64) (Sh := quick_shell []) (str "wg0") (Some (str "10.0.0.2/32,$(reboot)")) quick_start).2
  = q_trace quick_start ++ t /\ Forall one_command t.
Proof.
  assert (H : iface_ok (str "wg0")) by (split; [vm_compute; lia|vm_compute; by repeat constructor]).
  split; [exact H|].
  exact (set_addr_quoted (P := arm64) (Sh := quick_shell []) (str "wg0") (str "10.0.0.2/32,$(reboot)") quick_start H).
Defined.


(** The name of an interface is used as a pattern, without anchors. Deleting
    [wg1] takes the network of a rule that is for [wg10]; and the rules that
    bringing up [wg+] added to the firewall are not among those that deleting it
    removes. *)
Theorem iface_name_is_pattern :
  (exists r, regcomp (rule_regex (str "wg1")) = Some r /\
     first_match r [str "13000: from all fwmark 0xc1388/0xcffff lookup wg10"] = Some (str "1388")) /\
  (exists r, regcomp (iptables_regex (str "wg+")) = Some r /\
     match_group r (str "-A OUTPUT -m mark --mark 0x20000 -m comment --comment " ++ [DQUOTE]
       ++ str "wireguard rule wg+" ++ [DQUOTE] ++ str " -j ACCEPT") = None) /\
  (exists r, regcomp (iptables_regex (str "wg0")) = Some r /\
     match_group r (str "-A OUTPUT -m mark --mark 0x20000 -m comment --comment " ++ [DQUOTE]
       ++ str "wireguard rule wg0" ++ [DQUOTE] ++ str " -j ACCEPT")
     = Some (str "OUTPUT -m mark --mark 0x20000 -m comment --comment " ++ [DQUOTE]
       ++ str "wireguard rule wg0" ++ [DQUOTE] ++ str " -j ACCEPT")).
Proof. split_and!; eexists; (split; vm_compute; reflexivity). Qed.

Section Files.
Context `{P : Platform} `{W : World} `{Sh : Shell X}.
Context (package_name : cstring).

(** A configuration file whose first line is longer than 65536 characters:
    reading it succeeds, without a configuration, and setting the configuration
    then goes through a null pointer. *)
Theorem long_line_null arg f line lines st :
  fopen arg = Some f -> config_lines (f_bytes f) = line :: lines -> 65536 < strlen line ->
  (forall r, regcomp regex_iface = Some r -> is_match r arg = false) ->
  (forall r, regcomp regex_conf = Some r -> is_Some (match_group r arg)) ->
  exists o, parse_options package_name arg st = (Ret o, st) /\ o_config o = None /\
    (set_config (o_iface o) (o_config o) st).1 = NullDeref.
Proof.
  intros Hf Hl Hlong Hi Hc. unfold parse_options, xregcomp.
  destruct (regcomp regex_iface) as [ri|] eqn:E1; [|by vm_compute in E1].
  destruct (regcomp regex_conf) as [rc|] eqn:E2; [|by vm_compute in E2]. rewrite !run_bind_ret.
  rewrite (Hi ri eq_refl), Hf. destruct (Hc rc eq_refl) as [g Eg]. rewrite Eg, Hl. cbv zeta. cbn [option_lines].
  change (Z.shiftl 1 16) with 65536. destruct (Z.ltb_spec 65536 (strlen line)); [|lia].
  eexists. split_and!; [reflexivity|reflexivity|]. cbn [o_config]. unfold set_config, call, mbind, run_bind. cbv zeta.
  by destruct (sh_feed _ [] (q_ext st)).
Qed.
End Files.

Lemma long_line_null_witness : exists o,
  parse_options (P := arm64) (W := quick_world) (Sh := quick_shell []) (str "com.wireguard.android")
    (str "/sdcard/long.conf") quick_start = (Ret o, quick_start) /\ o_config o = None.
Proof.
  destruct (long_line_null (P := arm64) (W := quick_world) (Sh := quick_shell []) (str "com.wireguard.android")
    (str "/sdcard/long.conf") {| f_bytes := long_conf; f_error := false |} long_conf [] quick_start)
    as (o & E & Hc & _).
  - reflexivity.
  - apply (proj1 (bool_decide_eq_true (config_lines long_conf = [long_conf]))). vm_compute. reflexivity.
  - vm_compute. reflexivity.
  - intros r E. assert (Some r = regcomp regex_iface) as Hr by congruence. vm_compute in Hr. injection Hr as ->.
    vm_compute. reflexivity.
  - intros r E. assert (Some r = regcomp regex_conf) as Hr by congruence. vm_compute in Hr. injection Hr as ->.
    vm_compute. eexists. reflexivity.
  - exists o. split; assumption.
Defined.

(** The pattern for the name of a file is not anchored before the name: a name
    that is too long for an interface is cut off at the front. *)
Theorem conf_name_cut : exists r, regcomp regex_conf = Some r /\
  match_group r (str "/sdcard/a-very-long-tunnel-name.conf") = Some (str "ong-tunnel-name").
Proof. eexists. split; vm_compute; reflexivity. Qed.
End WgQuickShell.
