(* ===== verification/WgQuickLive.v ===== *)
(** * Bringing an interface up succeeds when its programs do (src/wg-quick/android.c)

    With programs that all succeed, [cmd_up] runs to its end whatever they print,
    and the process ends with status zero. *)
From S2P Require Import Prelude Libc Encoding Config Setconf Regex.
From S2P Require Import SetconfFacts WgQuick WgQuickSamples WgQuickFacts WgQuickNet WgQuickUsers WgQuickShell.
Import Libc Encoding Config Setconf SetconfFacts Regex WgQuick WgQuickSamples WgQuickFacts WgQuickNet WgQuickUsers WgQuickShell.

Module WgQuickLive.

Section Live.
Context `{P : Platform} `{W : World} `{Q : Qsort} `{Sh : Shell X}.

(** Returns, from any state. *)
Definition completes {A} (m : Run (X := X) A) : Prop := forall st, exists a st', m st = (Ret a, st').

Lemma completes_ret {A} (a : A) : completes (mret a).
Proof. intros st. by do 2 eexists. Qed.
Lemma completes_get_ext {A} (f : X -> A) : completes (get_ext f).
Proof. intros st. by do 2 eexists. Qed.
Lemma run_bind_get_ext {A B} (g : X -> A) (f : A -> Run (X := X) B) st : (get_ext g ≫= f) st = f (g (q_ext st)) st.
Proof. reflexivity. Qed.
Lemma completes_is_exiting : completes is_exiting.
Proof. intros st. by do 2 eexists. Qed.
Lemma completes_call {A} ev (f : X -> A * X) : completes (call ev f).
Proof. intros st. unfold call. destruct (f (q_ext st)). by do 2 eexists. Qed.
Lemma completes_bind {A B} (m : Run (X := X) A) (f : A -> Run B) :
  completes m -> (forall a, completes (f a)) -> completes (m ≫= f).
Proof.
  intros Hm Hf st. destruct (Hm st) as (a & st1 & E). destruct (Hf a st1) as (b & st2 & E').
  exists b, st2. by rewrite (run_bind_eq _ _ _ _ _ E).
Qed.
(** The same, when what [m] returns is known to have a property. *)
Lemma completes_bind_with {A B} (R : A -> Prop) (m : Run (X := X) A) (f : A -> Run B) :
  (forall st, exists a st', m st = (Ret a, st') /\ R a) -> (forall a, R a -> completes (f a)) -> completes (m ≫= f).
Proof.
  intros Hm Hf st. destruct (Hm st) as (a & st1 & E & Ha). destruct (Hf a Ha st1) as (b & st2 & E').
  exists b, st2. by rewrite (run_bind_eq _ _ _ _ _ E).
Qed.
Lemma completes_for_each {A} (l : list A) f : (forall a, completes (f a)) -> completes (for_each l f).
Proof. intros H. induction l; cbn [for_each]; [apply completes_ret|by apply completes_bind]. Qed.
Lemma completes_xregcomp p : bool_decide (is_Some (regcomp p)) = true -> completes (xregcomp p).
Proof.
  intros [r E]%bool_decide_eq_true st. unfold xregcomp. rewrite E. by do 2 eexists.
Qed.
End Live.

Create HintDb live.
#[export] Hint Resolve completes_ret completes_get_ext completes_is_exiting completes_call : live.

(** Splits a command down to the calls that can fail. *)
Ltac completes :=
  repeat first
    [ progress auto with live
    | apply completes_bind; [|intros ?]
    | apply completes_for_each; intros ?
    | apply completes_xregcomp; vm_compute; reflexivity
    | progress cbv beta zeta
    | case_match ].

Section Succeeds.
Context `{P : Platform} `{W : World} `{Q : Qsort} `{Sh : Shell X}.
(** Every program that is run succeeds, and so does every call over binder. *)
Context (SYSTEM : forall c x, (sh_system c x).1 = 0).
Context (POPEN : forall c x, exists lines x', sh_popen c x = (inr lines, x')).
Context (FEED : forall c i x, (sh_feed c i x).1 = inr 0).
Context (NDC : ndc_works (X := X)).
Context (BINDER : forall op x, (sh_binder_op op x).1 = STATUS_OK) (REPLY : forall x, as_ok (sh_reply x) = true).

Lemma completes_cmd c : completes (cmd c).
Proof.
  intros st. unfold cmd, call, is_exiting, mbind, run_bind. pose proof (SYSTEM c (q_ext st)) as E.
  destruct (sh_system c (q_ext st)) as [ret x]. cbn [fst] in E. subst ret. by do 2 eexists.
Qed.
Lemma completes_cmd_lines c : completes (cmd_lines c).
Proof.
  intros st. unfold cmd_lines, call, mbind, run_bind. destruct (POPEN c (q_ext st)) as (lines & x' & ->).
  by do 2 eexists.
Qed.
#[local] Hint Resolve completes_cmd completes_cmd_lines : live.
Lemma completes_cmd_ret c : completes (cmd_ret c).
Proof. unfold cmd_ret. completes. Qed.
Lemma completes_cndc c : completes (cndc c).
Proof. intros st. destruct (cndc_works NDC c st) as (st' & E & _). eauto. Qed.
#[local] Hint Resolve completes_cmd_ret completes_cndc : live.

Lemma completes_set_config iface config : completes (set_config iface (Some config)).
Proof.
  intros st. unfold set_config, call, mbind, run_bind. cbv zeta.
  set (c := str "wg addconf " ++ _). pose proof (FEED c config (q_ext st)) as E.
  destruct (sh_feed c config (q_ext st)) as [r x]. cbn [fst] in E. subst r. by do 2 eexists.
Qed.
Lemma completes_determine iface : completes (determine_listen_port iface).
Proof. unfold determine_listen_port. completes. Qed.
Lemma completes_set_addr iface addrs : completes (set_addr iface (Some addrs)).
Proof. unfold set_addr, add_addr. completes. Qed.
Lemma completes_set_routes iface netid : completes (set_routes iface netid).
Proof. unfold set_routes, add_route. completes. Qed.
Lemma completes_get_route_mtu endpoint : completes (get_route_mtu endpoint).
Proof. unfold get_route_mtu. completes. Qed.
#[local] Hint Resolve completes_get_route_mtu : live.
Lemma completes_set_mtu iface mtu : completes (set_mtu iface mtu).
Proof.
  unfold set_mtu.
  assert (Hm : forall r lines m, completes (X := X) (mtu_loop r lines m)).
  { intros r lines. induction lines as [|l lines IH]; intros m; cbn [mtu_loop]; completes. }
  completes.
Qed.
Lemma completes_broadcast package_name : completes (broadcast_change package_name).
Proof. unfold broadcast_change. completes. Qed.

(** *** Name servers *)

Lemma binder_ops_ok ops st : exists st', binder_ops ops st = (Ret STATUS_OK, st').
Proof.
  revert st. induction ops as [|op ops IH]; intros st; cbn [binder_ops]; [by eexists|].
  unfold call, mbind, run_bind. pose proof (BINDER op (q_ext st)) as E.
  destruct (sh_binder_op op (q_ext st)) as [status x]. cbn [fst] in E. subst status. apply IH.
Qed.

Lemma create_cache_ok netid st : exists st', dnsresolver_create_network_cache netid st = (Ret 0, st').
Proof.
  unfold dnsresolver_create_network_cache.
  match goal with |- context [binder_ops ?ops] => destruct (binder_ops_ok ops st) as [st1 E] end.
  rewrite (run_bind_eq _ _ _ _ _ E). change (negb (STATUS_OK =? STATUS_OK)) with false. cbn iota.
  unfold get_ext, mbind, run_bind. rewrite REPLY. by eexists.
Qed.

Lemma set_resolver_ok params st : exists st', dnsresolver_set_resolver_configuration params st = (Ret 0, st').
Proof.
  unfold dnsresolver_set_resolver_configuration.
  destruct (binder_ops_ok [PrepareTransaction; WriteInt32 1] st) as [st1 E1]. rewrite (run_bind_eq _ _ _ _ _ E1).
  change (negb (STATUS_OK =? STATUS_OK)) with false. cbn iota. rewrite run_bind_get_ext.
  match goal with |- context [binder_ops ?ops ≫= _] => destruct (binder_ops_ok ops st1) as [st2 E2] end.
  rewrite (run_bind_eq _ _ _ _ _ E2). change (negb (STATUS_OK =? STATUS_OK)) with false. cbn iota.
  rewrite run_bind_get_ext.
  match goal with |- context [binder_ops ?ops ≫= _] => destruct (binder_ops_ok ops st2) as [st3 E3] end.
  rewrite (run_bind_eq _ _ _ _ _ E3). change (negb (STATUS_OK =? STATUS_OK)) with false. cbn iota.
  rewrite run_bind_get_ext. unfold meaningful_binder_status. rewrite REPLY. by eexists.
Qed.

Lemma completes_set_dnses netid dnses : completes (set_dnses netid (Some dnses)).
Proof.
  unfold set_dnses. cbv zeta. destruct (_ <? _); [completes|].
  destruct (Z.eqb_spec (strlen dnses) 0) as [|Hne]; [completes|].
  apply completes_bind; [completes|intros r]. destruct (bool_decide _); [completes|].
  destruct (add_dnses_whole r dnses) as (d & -> & _); [by intros ->|].
  apply completes_bind; [unfold dnsresolver_get_handle; completes|intros [|]; [|completes]].
  apply (completes_bind_with (fun status => status = 0)).
  { intros st. destruct (create_cache_ok netid st) as [st' E]. eauto. }
  intros status ->. apply (completes_bind_with (fun status => status = 0)).
  { intros st. destruct (set_resolver_ok (dns_params netid d) st) as [st' E]. eauto. }
  intros status ->. apply completes_ret.
Qed.

(** *** The network id *)

(** The [k]-th draw from [random] on. *)
Fixpoint draw (k : nat) (x : X) : Z :=
  match k with O => (sh_random x).1 | S k => draw k (sh_random x).2 end.

Context (fuel : nat).
(** One of the first draws is large enough. *)
Context (RANDOM : forall x, exists k, (k < fuel)%nat /\ 4096 <= Z.land (draw k x) 0xfffe).

Lemma pick_netid_draw n k netid st : (k < n)%nat -> 4096 <= Z.land (draw k (q_ext st)) 0xfffe ->
  exists id st', pick_netid n netid st = (Ret id, st').
Proof.
  revert k netid st. induction n as [|n IH]; intros k netid st Hk Hd; [lia|]. cbn [pick_netid].
  destruct (4096 <=? netid); [by do 2 eexists|]. unfold mbind, run_bind, random.
  destruct (sh_random (q_ext st)) as [z x] eqn:E. destruct k as [|k]; cbn [draw] in Hd; rewrite E in Hd; cbn [fst snd] in Hd.
  - destruct n as [|n]; cbn [pick_netid]; destruct (Z.leb_spec 4096 (Z.land z 0xfffe)); (lia || by do 2 eexists).
  - apply (IH k); [lia|exact Hd].
Qed.

Lemma completes_up_if sdk iface port : completes (up_if fuel sdk iface port).
Proof.
  unfold up_if. apply completes_bind.
  { intros st. destruct (RANDOM (q_ext st)) as (k & Hk & Hd). by apply (pick_netid_draw fuel k). }
  intros netid. unfold should_block_ipv6. completes.
Qed.

(** *** Users *)

Context (package_list : file).
Context (PACKAGES : fopen (str "/data/system/packages.list") = Some package_list).
Context (ONCE : NoDup (map fst (pairs_of (config_lines (f_bytes package_list))))).

(** A selection that is a string, with a zero byte after it. *)
Definition selection_ok (s : cstring) : Prop := ~ In NUL s /\ exists more, sh_slack s = NUL :: more.

Lemma get_uid_list_ends selected st : (forall s, selected = Some s -> selection_ok s) ->
  exists l st', get_uid_list selected st = (Ret l, st') /\ In 0 l.
Proof.
  intros H. destruct selected as [s|]; [|do 2 eexists; split; [done|by left]].
  destruct (H s eq_refl) as (Hn & more & Hs).
  destruct (get_uid_list_fits s package_list more st PACKAGES Hn Hs ONCE) as ([|k] & Hk & E); [lia|].
  do 2 eexists. split; [exact E|]. apply in_app_iff. right. by left.
Qed.

Lemma completes_add_range netid ranges args range : completes (add_range netid ranges args range).
Proof. unfold add_range, users_add. completes. Qed.
#[local] Hint Resolve completes_add_range : live.

Lemma completes_exclude netid l start ranges args : In 0 l -> completes (exclude_loop netid l start ranges args).
Proof.
  revert start ranges args. induction l as [|u l IH]; intros start ranges args H; [done|]. cbn [exclude_loop].
  destruct (Z.eqb_spec u 0); [completes|]. destruct H as [|H]; [done|]. destruct (_ <? _); [by apply IH|].
  apply completes_bind; [auto with live|intros [r a]; by apply IH].
Qed.
Lemma completes_include netid l ranges args : In 0 l -> completes (include_loop netid l ranges args).
Proof.
  revert ranges args. induction l as [|u l IH]; intros ranges args H; [done|]. cbn [include_loop].
  destruct (Z.eqb_spec u 0); [completes|]. destruct H as [|H]; [done|].
  apply completes_bind; [auto with live|intros [r a]; by apply IH].
Qed.

Lemma completes_set_users netid excluded included :
  (excluded = None \/ included = None) ->
  (forall s, excluded = Some s \/ included = Some s -> selection_ok s) ->
  completes (set_users netid excluded included).
Proof.
  intros Hone Hsel. unfold set_users, users_add.
  assert (Hget : forall sel, (forall s, sel = Some s -> selection_ok s) -> forall st, exists l st',
            get_uid_list sel st = (Ret l, st') /\ In 0 l) by (intros; by apply get_uid_list_ends).
  destruct included as [i|].
  - destruct excluded as [e|]; [by destruct Hone|]. apply completes_bind; [|intros ranges; completes].
    apply (completes_bind_with (In 0)); [apply Hget; auto|intros l; apply completes_include].
  - assert (Hb : completes (uids ← get_uid_list excluded; '(start, ranges) ← exclude_loop netid uids 0 None 0;
      mret (if start <? 99999
            then Some (concat_and_free ranges (str " ") (range_text (print_u start ++ str "-99999")))
            else ranges))).
    { apply (completes_bind_with (In 0)); [apply Hget; auto|intros l Hl].
      apply completes_bind; [by apply completes_exclude|intros [start ranges]; completes]. }
    destruct excluded; (apply completes_bind; [exact Hb|intros ranges; completes]).
Qed.

(** ** The whole command *)

Context (package_name : cstring).

(** Ends the process with status zero and nothing to clean up. *)
Definition ends (m : Run (X := X) Z) : Prop :=
  forall st, exists st', m st = (Exit 0, st') /\ q_cleanup_iface st' = None.

Lemma ends_bind {A} (m : Run (X := X) A) f : completes m -> (forall a, ends (f a)) -> ends (m ≫= f).
Proof.
  intros Hm Hf st. destruct (Hm st) as (a & st1 & E). destruct (Hf a st1) as (st2 & E' & Hc).
  exists st2. by rewrite (run_bind_eq _ _ _ _ _ E).
Qed.

Lemma up_tail_ends sdk o config addrs dnses :
  o_config o = Some config -> o_addrs o = Some addrs -> o_dnses o = Some dnses ->
  (o_excluded o = None \/ o_included o = None) ->
  (forall s, o_excluded o = Some s \/ o_included o = Some s -> selection_ok s) ->
  ends (up_tail package_name fuel sdk o).
Proof.
  intros Hc Ha Hd Hone Hsel. unfold up_tail, add_if. rewrite Hc, Ha, Hd.
  do 10 (apply ends_bind; [auto using completes_cmd, completes_set_config, completes_determine, completes_up_if,
    completes_set_addr, completes_set_dnses, completes_set_routes, completes_set_mtu, completes_set_users,
    completes_broadcast|intros ?]).
  intros st. by eexists.
Qed.

End Succeeds.

End WgQuickLive.
