(* ===== verification/Elf.v ===== *)
(** * The ELF cleaner (tools/elf-cleaner)

    The program the build runs on libwg.so and libwg-quick.so: it removes from an
    ELF file what old versions of the Android linker warn about. The file is
    mapped, so that it is a list of bytes that is changed in place; an access
    outside of it is undefined. The program is built for a 64-bit host. What it
    prints is not modelled. *)
From stdpp Require Import gmap.
From S2P Require Import Prelude Libc Packed WgQuick.
Import Libc Packed.

Module Elf.

(** ** elf.h *)

(** Sizes and offsets of the structures, which the template [process_elf] takes as
    types: those of Elf32_* and of Elf64_*. *)
Record layout := {
  word : nat;
  e_phoff : nat; e_shoff : nat; e_phnum : nat; e_shnum : nat; sizeof_Ehdr : nat;
  p_align : nat; sizeof_Phdr : nat;
  sh_offset : nat; sh_size : nat; sizeof_Shdr : nat;
  sizeof_Dyn : nat
}.
Definition Elf32 : layout := {|
  word := 4; e_phoff := 28; e_shoff := 32; e_phnum := 44; e_shnum := 48; sizeof_Ehdr := 52;
  p_align := 28; sizeof_Phdr := 32; sh_offset := 16; sh_size := 20; sizeof_Shdr := 40; sizeof_Dyn := 8 |}.
Definition Elf64 : layout := {|
  word := 8; e_phoff := 32; e_shoff := 40; e_phnum := 56; e_shnum := 60; sizeof_Ehdr := 64;
  p_align := 48; sizeof_Phdr := 56; sh_offset := 24; sh_size := 32; sizeof_Shdr := 64; sizeof_Dyn := 16 |}.
(** The same in both: [p_type] and [d_tag] are at offset 0. *)
Definition e_machine : nat := 18.
Definition sh_type : nat := 4.

Definition EM_AARCH64 : Z := 183.
Definition PT_TLS : Z := 7.
Definition SHT_NULL : Z := 0.
Definition SHT_DYNAMIC : Z := 6.
Definition SHT_GNU_verdef : Z := 0x6ffffffd.
Definition SHT_GNU_verneed : Z := 0x6ffffffe.
Definition SHT_GNU_versym : Z := 0x6fffffff.
Definition DT_NULL : Z := 0.
Definition DT_RPATH : Z := 15.
Definition DT_RUNPATH : Z := 29.
Definition DT_VERDEF : Z := 0x6ffffffc.
Definition DT_VERDEFNUM : Z := 0x6ffffffd.
Definition DT_GNU_HASH : Z := 0x6ffffef5.
Definition DT_VERSYM : Z := 0x6ffffff0.
Definition DT_FLAGS_1 : Z := 0x6ffffffb.
Definition DT_VERNEEDED : Z := 0x6ffffffe.
Definition DT_VERNEEDNUM : Z := 0x6fffffff.
Definition DT_AARCH64_BTI_PLT : Z := 0x70000001.
Definition DT_AARCH64_PAC_PLT : Z := 0x70000003.
Definition DT_AARCH64_VARIANT_PCS : Z := 0x70000005.
Definition DF_1_NOW : Z := 1.
Definition DF_1_GLOBAL : Z := 2.
Definition DF_1_NODELETE : Z := 8.

(** ** Memory *)

(** Accesses at an offset that comes from the file. Integers are read as unsigned;
    [d_tag], which is signed, is only compared with positive constants. *)
Definition inside (off : Z) (n : nat) (bytes : list Z) : bool :=
  (0 <=? off) && (off + Z.of_nat n <=? Z.of_nat (length bytes)).
Definition read_bytes (off : Z) (n : nat) (bytes : list Z) : outcome (list Z) :=
  if inside off n bytes then Ret (member (Z.to_nat off) n bytes) else NullDeref.
Definition read (off : Z) (n : nat) (bytes : list Z) : outcome Z :=
  st ← read_bytes off n bytes; Ret (le_number st).
Definition write_bytes (off : Z) (b bytes : list Z) : outcome (list Z) :=
  if inside off (length b) bytes then Ret (list_inserts (Z.to_nat off) b bytes) else NullDeref.
Definition write (off : Z) (n : nat) (v : Z) (bytes : list Z) : outcome (list Z) :=
  write_bytes off (le_bytes n v) bytes.

(** ** process_elf *)

(** The global variables. *)
Record config := { api_level : Z; dry_run : bool; supported_dt_flags_1 : Z }.

Section Process.
Context (cfg : config) (L : layout).

(** The loop over the program headers, from [i]. *)
Fixpoint tls_loop (fuel : nat) (table i : Z) (bytes : list Z) : outcome (list Z) :=
  match fuel with
  | O => NoFuel
  | S fuel =>
      phnum ← read (Z.of_nat (e_phnum L)) 2 bytes;
      if i <? phnum then
        let entry := table + i * Z.of_nat (sizeof_Phdr L) in
        p_type ← read entry 4 bytes;
        bytes ← (if p_type =? PT_TLS then
                   align ← read (entry + Z.of_nat (p_align L)) (word L) bytes;
                   let tls_min_alignment := Z.of_nat (word L) * 8 in
                   if (align <? tls_min_alignment) && negb (dry_run cfg)
                   then write (entry + Z.of_nat (p_align L)) (word L) tls_min_alignment bytes
                   else Ret bytes
                 else Ret bytes);
        tls_loop fuel table (i + 1) bytes
      else Ret bytes
  end.

(** The search for the last entry that is not [DT_NULL], from [j] down to 1. *)
Fixpoint last_nonnull (fuel : nat) (dyn j : Z) (bytes : list Z) : outcome Z :=
  match fuel with
  | O => NoFuel
  | S fuel =>
      if 0 <? j then
        d_tag ← read (dyn + j * Z.of_nat (sizeof_Dyn L)) (word L) bytes;
        if negb (d_tag =? DT_NULL) then Ret j else last_nonnull fuel dyn (j - 1) bytes
      else Ret 0
  end.

(** The [switch] on the tag. *)
Definition removed_name (is_aarch64 : bool) (d_tag : Z) : option cstring :=
  let below (n : Z) (name : string) := if api_level cfg <? n then Some (str name) else None in
  let aarch64 (name : string) := if is_aarch64 && (api_level cfg <? 31) then Some (str name) else None in
  if d_tag =? DT_GNU_HASH then below 23 "DT_GNU_HASH"
  else if d_tag =? DT_VERSYM then below 23 "DT_VERSYM"
  else if d_tag =? DT_VERNEEDED then below 23 "DT_VERNEEDED"
  else if d_tag =? DT_VERNEEDNUM then below 23 "DT_VERNEEDNUM"
  else if d_tag =? DT_VERDEF then below 23 "DT_VERDEF"
  else if d_tag =? DT_VERDEFNUM then below 23 "DT_VERDEFNUM"
  else if d_tag =? DT_RPATH then Some (str "DT_RPATH")
  else if d_tag =? DT_RUNPATH then below 24 "DT_RUNPATH"
  else if d_tag =? DT_AARCH64_BTI_PLT then aarch64 "DT_AARCH64_BTI_PLT"
  else if d_tag =? DT_AARCH64_PAC_PLT then aarch64 "DT_AARCH64_PAC_PLT"
  else if d_tag =? DT_AARCH64_VARIANT_PCS then aarch64 "DT_AARCH64_VARIANT_PCS"
  else None.

(** [std::swap] of two entries. *)
Definition swap (p q : Z) (bytes : list Z) : outcome (list Z) :=
  a ← read_bytes p (sizeof_Dyn L) bytes;
  b ← read_bytes q (sizeof_Dyn L) bytes;
  bytes ← write_bytes p b bytes;
  write_bytes q a bytes.

(** An entry that stays. *)
Definition mask_flags (entry d_tag : Z) (bytes : list Z) : outcome (list Z) :=
  if d_tag =? DT_FLAGS_1 then
    orig_d_val ← read (entry + Z.of_nat (word L)) (word L) bytes;
    let new_d_val := Z.land orig_d_val (supported_dt_flags_1 cfg) in
    if negb (new_d_val =? orig_d_val) && negb (dry_run cfg)
    then write (entry + Z.of_nat (word L)) (word L) new_d_val bytes else Ret bytes
  else Ret bytes.

(** The loop over the entries; both indices are [unsigned int]. *)
Fixpoint dyn_loop (is_aarch64 : bool) (fuel : nat) (dyn entries j last : Z) (bytes : list Z) : outcome (list Z) :=
  match fuel with
  | O => NoFuel
  | S fuel =>
      if j <? entries then
        let entry := dyn + j * Z.of_nat (sizeof_Dyn L) in
        d_tag ← read entry (word L) bytes;
        match removed_name is_aarch64 d_tag with
        | Some _ =>
            bytes ← (if dry_run cfg then Ret bytes else write entry (word L) DT_NULL bytes);
            bytes ← swap entry (dyn + last * Z.of_nat (sizeof_Dyn L)) bytes;
            dyn_loop is_aarch64 fuel dyn entries (u32 (u32 (j - 1) + 1)) (u32 (last - 1)) bytes
        | None =>
            bytes ← mask_flags entry d_tag bytes;
            dyn_loop is_aarch64 fuel dyn entries (u32 (j + 1)) last bytes
        end
      else Ret bytes
  end.

Definition clean_dynamic (is_aarch64 : bool) (dyn entries : Z) (bytes : list Z) : outcome (list Z) :=
  last ← last_nonnull (S (length bytes)) dyn (u32 (entries - 1)) bytes;
  dyn_loop is_aarch64 (S (2 * length bytes)) dyn entries 0 last bytes.

Definition version_section (type : Z) : bool :=
  (type =? SHT_GNU_verdef) || (type =? SHT_GNU_verneed) || (type =? SHT_GNU_versym).

(** One section header: [None] when the function returns false. The sum of two
    members is computed in their width. *)
Definition section_step (is_aarch64 : bool) (entry : Z) (bytes : list Z) : outcome (option (list Z)) :=
  type ← read (entry + Z.of_nat sh_type) 4 bytes;
  if type =? SHT_DYNAMIC then
    offset ← read (entry + Z.of_nat (sh_offset L)) (word L) bytes;
    size ← read (entry + Z.of_nat (sh_size L)) (word L) bytes;
    let last_dynamic_section_byte := (offset + size) mod 256 ^ Z.of_nat (word L) in
    if Z.of_nat (length bytes) <? last_dynamic_section_byte then Ret None
    else
      bytes ← clean_dynamic is_aarch64 offset (size / Z.of_nat (sizeof_Dyn L)) bytes;
      Ret (Some bytes)
  else if (api_level cfg <? 23) && version_section type && negb (dry_run cfg) then
    bytes ← write (entry + Z.of_nat sh_type) 4 SHT_NULL bytes; Ret (Some bytes)
  else Ret (Some bytes).

(** The loop over the section headers, from [i]. *)
Fixpoint section_loop (is_aarch64 : bool) (fuel : nat) (table i : Z) (bytes : list Z) : outcome (bool * list Z) :=
  match fuel with
  | O => NoFuel
  | S fuel =>
      shnum ← read (Z.of_nat (e_shnum L)) 2 bytes;
      if i <? shnum then
        r ← section_step is_aarch64 (table + i * Z.of_nat (sizeof_Shdr L)) bytes;
        match r with
        | None => Ret (false, bytes)
        | Some bytes => section_loop is_aarch64 fuel table (i + 1) bytes
        end
      else Ret (true, bytes)
  end.

(** The number of headers is read again at every turn; it has 16 bits. *)
Definition process_elf (bytes : list Z) : outcome (bool * list Z) :=
  let elf_file_size := Z.of_nat (length bytes) in
  if elf_file_size <? Z.of_nat (sizeof_Shdr L) then Ret (false, bytes)
  else
    machine ← read (Z.of_nat e_machine) 2 bytes;
    phoff ← read (Z.of_nat (e_phoff L)) (word L) bytes;
    phnum ← read (Z.of_nat (e_phnum L)) 2 bytes;
    if elf_file_size <? u64 (phoff + Z.of_nat (sizeof_Phdr L) * phnum) then Ret (false, bytes)
    else
      bytes ← tls_loop (Z.to_nat (2 ^ 16)) phoff 1 bytes;
      shoff ← read (Z.of_nat (e_shoff L)) (word L) bytes;
      shnum ← read (Z.of_nat (e_shnum L)) 2 bytes;
      if elf_file_size <? u64 (shoff + Z.of_nat (sizeof_Shdr L) * shnum) then Ret (false, bytes)
      else section_loop (machine =? EM_AARCH64) (Z.to_nat (2 ^ 16)) shoff 1 bytes.
End Process.

(** ** parse_file *)

(** The files, and whether the system calls on an open file succeed. *)
Class FileCalls := {
  fstat_ok : cstring -> bool; mmap_ok : cstring -> bool; msync_ok : cstring -> bool; close_ok : cstring -> bool
}.
Definition files := gmap cstring (list Z).

Section Files.
Context `{FC : FileCalls} `{P : Platform}.

(** The result of closing a file at an early return. *)
Definition closed (file_name : cstring) : Z := if close_ok file_name then 0 else 1.

Definition ELF_MAGIC : list Z := [0x7f; 69; 76; 70].

(** The mapping is shared: what is written is in the file, also when the result is
    an error. *)
Definition parse_file (cfg : config) (fs : files) (file_name : cstring) : outcome (Z * files) :=
  match fs !! file_name with
  | None => Ret (1, fs)
  | Some bytes =>
      if negb (fstat_ok file_name) then Ret (1, fs)
      else if (length bytes <? sizeof_Ehdr Elf32)%nat then Ret (closed file_name, fs)
      else if negb (mmap_ok file_name) then Ret (1, fs)
      else if negb (bool_decide (take 4 bytes = ELF_MAGIC)) then Ret (closed file_name, fs)
      else if negb (int_member 5 1 bytes =? 1) then Ret (closed file_name, fs)
      else
        let bit_value := int_member 4 1 bytes in
        if (bit_value =? 1) || (bit_value =? 2) then
          '(ok, bytes) ← process_elf cfg (if bit_value =? 1 then Elf32 else Elf64) bytes;
          let fs := <[file_name := bytes]> fs in
          Ret (if ok && msync_ok file_name then 0 else 1, fs)
        else Ret (1, fs)
  end.

(** ** arghandling.c *)

(** Whether the argument after [skip] others matches, the integer that is stored
    when [val] asks for one, and how many arguments are to be skipped. *)
Definition argmatch (argv : list cstring) (sstr lstr : cstring) (minlen : nat) (val : bool) (skip : nat)
  : outcome (bool * option Z * nat) :=
  match argv !! S skip with
  | None => Ret (false, None, skip)
  | Some arg =>
      if str_eq arg sstr then
        if val then
          match argv !! S (S skip) with
          | None => NullDeref
          | Some v => Ret (true, Some (WgQuick.atoi v), S (S skip))
          end
        else Ret (true, None, S skip)
      else
        let p := if val then strchr arg "=" else None in
        let arglen := match p with Some p => (length arg - length p)%nat | None => length arg end in
        if (arglen <? minlen)%nat || negb (bool_decide (take arglen arg = take arglen lstr)) then Ret (false, None, skip)
        else if negb val then Ret (true, None, S skip)
        else
          match p, argv !! S (S skip) with
          | Some p, _ => Ret (true, Some (WgQuick.atoi (drop 1 p)), S skip)
          | None, Some v => Ret (true, Some (WgQuick.atoi v), S (S skip))
          | None, None => Ret (false, None, skip)
          end
  end.

(** ** main *)

Fixpoint parse_files (cfg : config) (fs : files) (names : list cstring) : outcome (Z * files) :=
  match names with
  | [] => Ret (0, fs)
  | name :: names =>
      '(ret, fs) ← parse_file cfg fs name;
      if negb (ret =? 0) then Ret (1, fs) else parse_files cfg fs names
  end.

Definition main (argv : list cstring) (fs : files) : outcome (Z * files) :=
  if (length argv =? 1)%nat then Ret (0, fs)
  else
    '(help, _, skip) ← argmatch argv (str "-help") (str "--help") 3 false 0;
    if (help : bool) then Ret (0, fs)
    else
      '(version, _, skip) ← argmatch argv (str "-version") (str "--version") 3 false skip;
      if (version : bool) then Ret (0, fs)
      else
        '(_, level, skip) ← argmatch argv (str "-api-level") (str "--api-level") 3 true skip;
        let api_level := default 21 level in
        let supported := if 23 <=? api_level then Z.lor (Z.lor DF_1_NOW DF_1_GLOBAL) DF_1_NODELETE
                         else Z.lor DF_1_NOW DF_1_GLOBAL in
        '(dry_run, _, skip) ← argmatch argv (str "-dry-run") (str "--dry-run") 3 false skip;
        '(_, _, skip) ← argmatch argv (str "-quiet") (str "--quiet") 3 false skip;
        parse_files {| api_level := api_level; dry_run := dry_run; supported_dt_flags_1 := supported |} fs
          (drop (S skip) argv).
End Files.
End Elf.
