(* ===== verification/ElfFacts.v ===== *)
(** * The ELF cleaner: theorems

    On a file whose tables and dynamic sections are inside it and apart,
    [process_elf] accesses only the file and does what the README says: the
    entries the linker does not support are gone, the others are all there, the
    alignment of TLS segments and the version sections are mended, and nothing
    else changes. *)
From stdpp Require Import gmap.
From S2P Require Import Prelude Libc Packed WgQuick Elf.
Import Libc Packed Elf.

Module ElfFacts.

(** ** Tables in memory *)

(** The [i]-th structure of size [s] of a table, and all of them. *)
Definition slot (s base i : nat) (buf : list Z) : list Z := member (base + i * s) s buf.
Definition slots (s base n : nat) (buf : list Z) : list (list Z) := map (fun i => slot s base i buf) (seq 0 n).

Lemma length_slots s base n buf : length (slots s base n buf) = n.
Proof. unfold slots. by rewrite length_map, length_seq. Qed.
Lemma lookup_slots s base n buf i : (i < n)%nat -> slots s base n buf !! i = Some (slot s base i buf).
Proof.
  intros H. unfold slots. change (map ?f ?l) with (f <$> l). rewrite list_lookup_fmap, lookup_seq_lt by done. reflexivity.
Qed.
Lemma slot_inside s base n i : (i < n)%nat -> (base + i * s + s <= base + n * s)%nat.
Proof. intros H. nia. Qed.
Lemma member_member a s o n (buf : list Z) : (o + n <= s)%nat -> member (a + o) n buf = member o n (member a s buf).
Proof.
  intros H. apply list_eq. intros i. rewrite !lookup_member. destruct (decide (i < n)%nat); [|done].
  destruct (decide (o + i < s)%nat); [|lia]. f_equal. lia.
Qed.
Lemma slots_same s base n buf buf' : same_bytes base (base + n * s) buf buf' -> slots s base n buf' = slots s base n buf.
Proof.
  intros H. apply map_ext_in. intros i Hi%in_seq. apply member_same. intros k Hk. apply H. pose proof (slot_inside s base n i). lia.
Qed.

Lemma inserts_member o b a s (buf : list Z) : (o + length b <= s)%nat -> (a + s <= length buf)%nat ->
  member a s (list_inserts (a + o) b buf) = list_inserts o b (member a s buf).
Proof.
  intros Ho Ha. assert (Hl : length (member a s buf) = s) by (by apply length_member).
  apply list_eq. intros i. rewrite lookup_member. destruct (decide (i < s)%nat) as [Hi|Hi].
  - destruct (decide (i < o)%nat); [|destruct (decide (o + length b <= i)%nat)].
    + rewrite !list_lookup_inserts_lt, lookup_member by lia. by destruct (decide _); [|lia].
    + rewrite !list_lookup_inserts_ge, lookup_member by lia. by destruct (decide _); [|lia].
    + rewrite !list_lookup_inserts by lia. f_equal. lia.
  - symmetry. apply lookup_ge_None. rewrite length_inserts, Hl. lia.
Qed.

Lemma slots_write s base n i o b buf : (i < n)%nat -> (o + length b <= s)%nat -> (base + n * s <= length buf)%nat ->
  slots s base n (list_inserts (base + i * s + o) b buf)
  = <[i := list_inserts o b (slot s base i buf)]> (slots s base n buf).
Proof.
  intros Hi Ho Hl. apply list_eq. intros k. destruct (decide (k < n)%nat) as [Hk|Hk].
  2:{ transitivity (@None (list Z)); [|symmetry]; apply lookup_ge_None; rewrite ?length_insert, length_slots; lia. }
  rewrite lookup_slots by done. destruct (decide (k = i)) as [->|Hne].
  - rewrite list_lookup_insert_eq by (by rewrite length_slots). f_equal.
    apply inserts_member; [done|]. pose proof (slot_inside s base n i Hi). lia.
  - rewrite list_lookup_insert_ne, lookup_slots by done. f_equal. apply member_inserts_other.
    destruct (Nat.lt_gt_cases k i) as [[H|H] _]; [done|left|right]; nia.
Qed.
Lemma inserts_whole (b e : list Z) : length b = length e -> list_inserts 0 b e = b.
Proof.
  intros H. apply list_eq. intros i. destruct (decide (i < length b)%nat).
  - rewrite list_lookup_inserts by lia. f_equal. lia.
  - transitivity (@None Z); [|symmetry]; apply lookup_ge_None; rewrite ?length_inserts; lia.
Qed.

(** Accesses inside the file. *)
Lemma inside_at k off n buf : off = Z.of_nat k -> (k + n <= length buf)%nat -> inside off n buf = true.
Proof. intros -> H. unfold inside. apply andb_true_iff. split; apply Z.leb_le; lia. Qed.
Lemma read_bytes_at k off n buf : off = Z.of_nat k -> (k + n <= length buf)%nat -> read_bytes off n buf = Ret (member k n buf).
Proof. intros E H. unfold read_bytes. rewrite (inside_at k) by done. by rewrite E, Nat2Z.id. Qed.
Lemma read_at k off n buf : off = Z.of_nat k -> (k + n <= length buf)%nat -> read off n buf = Ret (int_member k n buf).
Proof. intros E H. unfold read. by rewrite (read_bytes_at k). Qed.
Lemma write_bytes_at k off b buf : off = Z.of_nat k -> (k + length b <= length buf)%nat ->
  write_bytes off b buf = Ret (list_inserts k b buf).
Proof. intros E H. unfold write_bytes. rewrite (inside_at k) by done. by rewrite E, Nat2Z.id. Qed.
Lemma write_at k off n v buf : off = Z.of_nat k -> (k + n <= length buf)%nat ->
  write off n v buf = Ret (list_inserts k (le_bytes n v) buf).
Proof. intros E H. unfold write. apply write_bytes_at; [done|by rewrite le_bytes_length]. Qed.

Section Process.
Context (cfg : config) (L : layout) (is_aarch64 : bool).

(** ** Entries *)

Definition tag (e : list Z) : Z := int_member 0 (word L) e.
Definition null (e : list Z) : bool := tag e =? DT_NULL.
Definition removable (e : list Z) : bool := bool_decide (is_Some (removed_name cfg is_aarch64 (tag e))).
Definition set_null (e : list Z) : list Z := list_inserts 0 (le_bytes (word L) DT_NULL) e.
(** An entry that stays, with the flags that are supported only. *)
Definition mask (e : list Z) : list Z :=
  let v := int_member (word L) (word L) e in
  let v' := Z.land v (supported_dt_flags_1 cfg) in
  if (tag e =? DT_FLAGS_1) && negb (v' =? v) then list_inserts (word L) (le_bytes (word L) v') e else e.

(** What the linker is to see of an entry. *)
Definition survivor (e : list Z) : option (list Z) := if null e || removable e then None else Some (mask e).

(** The linker stops at the first null entry. *)
Definition nulls_last (es : list (list Z)) : Prop :=
  forall i k e e', (i <= k)%nat -> es !! i = Some e -> es !! k = Some e' -> null e = true -> null e' = true.

(** The specification of a dynamic section that was cleaned. *)
Definition cleaned (es0 es : list (list Z)) : Prop :=
  length es = length es0 /\
  Forall (fun e => removable e = false) es /\
  filter (fun e => null e = false) es ≡ₚ omap survivor es0 /\
  (nulls_last es0 -> nulls_last es).

Record layout_ok : Prop := {
  ok_word : word L = 4%nat \/ word L = 8%nat;
  ok_dyn : sizeof_Dyn L = (2 * word L)%nat;
  ok_align : (p_align L + word L <= sizeof_Phdr L)%nat /\ (4 <= p_align L)%nat;
  ok_ehdr : (e_machine + 2 <= sizeof_Ehdr L /\ e_phoff L + word L <= sizeof_Ehdr L /\ e_shoff L + word L <= sizeof_Ehdr L /\
             e_phnum L + 2 <= sizeof_Ehdr L /\ e_shnum L + 2 <= sizeof_Ehdr L)%nat;
  ok_shdr : (8 <= sh_offset L /\ 8 <= sh_size L /\ sh_offset L + word L <= sizeof_Shdr L /\
             sh_size L + word L <= sizeof_Shdr L /\ sizeof_Shdr L <= sizeof_Ehdr L)%nat
}.
Context (HL : layout_ok) (Hdry : dry_run cfg = false) (Hsup : 0 <= supported_dt_flags_1 cfg).

Notation sized e := (length e = sizeof_Dyn L).

Lemma null_not_removable e : null e = true -> removable e = false.
Proof. unfold null, removable. intros ->%Z.eqb_eq. reflexivity. Qed.

Lemma member_whole o n b (e : list Z) : (o + n <= length e)%nat -> length b = n -> member o n (list_inserts o b e) = b.
Proof. intros H <-. by apply member_inserts_same. Qed.

Lemma tag_set_null e : sized e -> tag (set_null e) = DT_NULL.
Proof.
  intros He. unfold tag, set_null, int_member. rewrite member_whole;
    [by rewrite le_number_le_bytes by (unfold DT_NULL; lia)| |apply le_bytes_length].
  rewrite He, (ok_dyn HL). lia.
Qed.
Lemma tag_mask e : tag (mask e) = tag e.
Proof.
  unfold mask. cbv zeta. case_match; [|done]. unfold tag, int_member. rewrite member_inserts_other; [done|lia].
Qed.
Lemma length_mask e : length (mask e) = length e.
Proof. unfold mask. cbv zeta. case_match; [apply length_inserts|done]. Qed.
Lemma null_mask e : null (mask e) = null e.
Proof. unfold null. by rewrite tag_mask. Qed.
Lemma removable_mask e : removable (mask e) = removable e.
Proof. unfold removable. by rewrite tag_mask. Qed.

Lemma land_small v n : 0 <= v < 256 ^ Z.of_nat n -> 0 <= Z.land v (supported_dt_flags_1 cfg) < 256 ^ Z.of_nat n.
Proof.
  intros Hv. assert (Hn : 0 <= Z.land v (supported_dt_flags_1 cfg)) by (apply Z.land_nonneg; lia). split; [done|].
  enough (Z.land v (supported_dt_flags_1 cfg) <= v) by lia.
  apply Z.ldiff_le; [lia|]. apply Z.bits_inj'. intros i Hi. rewrite Z.ldiff_spec, Z.land_spec, Z.bits_0.
  by destruct (Z.testbit v i), (Z.testbit (supported_dt_flags_1 cfg) i).
Qed.
Lemma mask_mask e : sized e -> Forall is_byte e -> mask (mask e) = mask e.
Proof.
  intros He Hb. unfold mask at 1. cbv zeta. rewrite tag_mask.
  destruct (tag e =? DT_FLAGS_1) eqn:Et; [|done]. cbn [andb].
  assert (Hl : (word L + word L <= length e)%nat) by (rewrite He, (ok_dyn HL); lia).
  assert (Hv : Z.land (int_member (word L) (word L) (mask e)) (supported_dt_flags_1 cfg) = int_member (word L) (word L) (mask e)).
  { unfold mask. cbv zeta. rewrite Et. cbn [andb]. case_match; [|by apply negb_false_iff, Z.eqb_eq in H].
    unfold int_member at 1 3. rewrite member_whole by (done || apply le_bytes_length). rewrite le_number_le_bytes.
    - by rewrite <- Z.land_assoc, Z.land_diag.
    - apply land_small. assert (Hm : Forall is_byte (member (word L) (word L) e)) by (by apply Forall_take, Forall_drop).
      apply le_number_range in Hm. by rewrite (length_member _ _ _ Hl) in Hm. }
  rewrite Hv, Z.eqb_refl. done.
Qed.

Lemma survivor_null e : null e = true -> survivor e = None.
Proof. intros H. unfold survivor. by rewrite H. Qed.
Lemma survivor_removable e : removable e = true -> survivor e = None.
Proof. intros H. unfold survivor. by rewrite H, orb_true_r. Qed.
Lemma survivor_mask e : sized e -> Forall is_byte e -> survivor (mask e) = survivor e.
Proof. intros He Hb. unfold survivor. by rewrite null_mask, removable_mask, mask_mask. Qed.

Lemma omap_insert {A B} (f : A -> option B) (l : list A) (i : nat) x y : l !! i = Some x -> f y = f x -> omap f (<[i:=y]> l) = omap f l.
Proof.
  revert i. induction l as [|a l IH]; intros [|i] H E; try discriminate H.
  - injection H as ->. cbn. by rewrite E.
  - cbn. by rewrite IH.
Qed.

(** ** The loop on a list *)

(** After the turns up to [j], with the entries after [last] null. *)
Record inv (es0 es : list (list Z)) (j : nat) (last : Z) : Prop := {
  inv_length : length es = length es0;
  inv_sized : Forall (fun e => sized e /\ Forall is_byte e) es;
  inv_j : (j <= length es)%nat;
  inv_last : -1 <= last < Z.of_nat (length es);
  inv_done : forall i e, (i < j)%nat -> es !! i = Some e -> removable e = false /\ mask e = e;
  inv_null : forall i e, last < Z.of_nat i -> es !! i = Some e -> null e = true;
  inv_kept : omap survivor es ≡ₚ omap survivor es0;
  inv_order : nulls_last es0 ->
    (forall i e, Z.of_nat i <= last -> es !! i = Some e -> null e = false) \/ Forall (fun e => null e = true) es
}.

Lemma inserts_bytes o n v e : Forall is_byte e -> Forall is_byte (list_inserts o (le_bytes n v) e).
Proof.
  intros H. apply Forall_lookup. intros i x Hi.
  apply list_lookup_inserts_Some in Hi as [[_ Hi]|(_ & _ & Hi)]; [by eapply Forall_lookup_1|].
  eapply Forall_lookup_1; [apply le_bytes_range|exact Hi].
Qed.
Lemma mask_bytes e : Forall is_byte e -> Forall is_byte (mask e).
Proof. intros H. unfold mask. cbv zeta. case_match; [by apply inserts_bytes|done]. Qed.
Lemma set_null_bytes e : Forall is_byte e -> Forall is_byte (set_null e).
Proof. apply inserts_bytes. Qed.

Lemma inv_keep es0 es j last e : inv es0 es j last -> es !! j = Some e -> removable e = false ->
  inv es0 (<[j := mask e]> es) (S j) last.
Proof.
  intros [H1 H2 H3 H4 H5 H6 H7 H8] Hj Hr. pose proof (lookup_lt_Some _ _ _ Hj) as Hlt.
  destruct (Forall_lookup_1 _ _ _ _ H2 Hj) as [He Hb].
  split; rewrite ?length_insert; try done; try lia.
  - apply Forall_insert; [done|]. by rewrite length_mask; auto using mask_bytes.
  - intros i x Hi. destruct (decide (i = j)) as [->|Hne].
    + rewrite list_lookup_insert_eq by done. intros [= <-]. by rewrite removable_mask, mask_mask.
    + rewrite list_lookup_insert_ne by done. apply H5. lia.
  - intros i x Hi. destruct (decide (i = j)) as [->|Hne].
    + rewrite list_lookup_insert_eq by done. intros [= <-]. rewrite null_mask. by eapply H6.
    + rewrite list_lookup_insert_ne by done. by apply H6.
  - by rewrite (omap_insert _ _ _ e) by auto using survivor_mask.
  - intros Hn. destruct (H8 Hn) as [H|H]; [left|right].
    + intros i x Hi. destruct (decide (i = j)) as [->|Hne].
      * rewrite list_lookup_insert_eq by done. intros [= <-]. rewrite null_mask. by eapply H.
      * rewrite list_lookup_insert_ne by done. by apply H.
    + apply Forall_insert; [done|]. rewrite null_mask. by eapply Forall_lookup_1 in H.
Qed.

Lemma inv_target es0 es j last e : inv es0 es j last -> es !! j = Some e -> removable e = true ->
  Z.of_nat j <= last /\ exists l, es !! Z.to_nat last = Some l.
Proof.
  intros [H1 H2 H3 H4 H5 H6 H7 H8] Hj Hr.
  assert (Z.of_nat j <= last).
  { destruct (Z.le_gt_cases (Z.of_nat j) last); [done|].
    assert (removable e = false) by (apply null_not_removable; eapply H6; eauto). congruence. }
  split; [done|]. apply lookup_lt_is_Some. lia.
Qed.

Lemma inv_remove es0 es j last e a b : inv es0 es j last -> es !! j = Some e -> removable e = true ->
  let es1 := <[j := set_null e]> es in
  es1 !! j = Some a -> es1 !! Z.to_nat last = Some b ->
  inv es0 (<[Z.to_nat last := a]> (<[j := b]> es1)) j (last - 1).
Proof.
  intros Hinv Hj Hr es1 Ha Hb. destruct (inv_target _ _ _ _ _ Hinv Hj Hr) as [Hle _].
  destruct Hinv as [H1 H2 H3 H4 H5 H6 H7 H8]. pose proof (lookup_lt_Some _ _ _ Hj) as Hlt.
  destruct (Forall_lookup_1 _ _ _ _ H2 Hj) as [He Hbytes].
  assert (Hs : sized (set_null e) /\ Forall is_byte (set_null e))
    by (split; [unfold set_null; by rewrite length_inserts|by apply set_null_bytes]).
  assert (Hes1 : Forall (fun e => sized e /\ Forall is_byte e) es1) by (by apply Forall_insert).
  assert (Hn : null (set_null e) = true) by (unfold null; by rewrite tag_set_null).
  assert (a = set_null e) as -> by (unfold es1 in Ha; rewrite list_lookup_insert_eq in Ha by done; congruence).
  set (es' := <[Z.to_nat last := _]> _).
  assert (Hlook : forall i, es' !! i = if decide (i = Z.to_nat last) then Some (set_null e)
                                  else if decide (i = j) then es !! Z.to_nat last else es !! i).
  { intros i. unfold es'. destruct (decide (i = Z.to_nat last)) as [->|Hi].
    - apply list_lookup_insert_eq. unfold es1. rewrite !length_insert. lia.
    - rewrite list_lookup_insert_ne by done. destruct (decide (i = j)) as [->|Hij].
      + rewrite list_lookup_insert_eq by (unfold es1; rewrite length_insert; lia).
        unfold es1 in Hb. by rewrite list_lookup_insert_ne in Hb by done.
      + rewrite list_lookup_insert_ne by done. unfold es1. by rewrite list_lookup_insert_ne by done. }
  assert (Hlen : length es' = length es) by (unfold es', es1; by rewrite !length_insert).
  split; rewrite ?Hlen; try done; try lia.
  - apply Forall_insert; [apply Forall_insert; [done|]|done]. by eapply Forall_lookup_1 in Hes1.
  - intros i x Hi. rewrite Hlook. do 2 (destruct (decide _); [lia|]). by apply H5.
  - intros i x Hi. rewrite Hlook. destruct (decide _); [by intros [= <-]|]. destruct (decide _); [lia|]. apply H6. lia.
  - unfold es'. rewrite (Permutation_insert_swap es1 j (Z.to_nat last) _ _ Ha Hb). unfold es1.
    rewrite (omap_insert _ _ _ e) by (try done; by rewrite survivor_null, survivor_removable). done.
  - intros Hnl. left. intros i x Hi. rewrite Hlook. destruct (decide _); [lia|].
    destruct (H8 Hnl) as [H|H].
    + destruct (decide _); intros Hx; [apply (H (Z.to_nat last) x)|apply (H i x)]; (done || lia).
    + pose proof (Forall_lookup_1 _ _ _ _ H Hj) as Hnull. apply null_not_removable in Hnull. congruence.
Qed.

Lemma inv_end es0 es last : inv es0 es (length es) last -> cleaned es0 es.
Proof.
  intros [H1 H2 H3 H4 H5 H6 H7 H8].
  assert (Hall : Forall (fun e => removable e = false /\ mask e = e) es).
  { apply Forall_lookup. intros i e Hi. apply (H5 i); [by eapply lookup_lt_Some|done]. }
  split_and!; [done|by eapply Forall_impl; [exact Hall|by intros ? []]| |].
  - rewrite <- H7. clear -Hall. induction Hall as [|e es [Hr Hm] _ IH]; [done|]. rewrite filter_cons. cbn.
    unfold survivor. rewrite Hr, Hm, orb_false_r. destruct (null e) eqn:E; cbn; [|case_decide; [by rewrite IH|done]].
    case_decide; [done|]. exact IH.
  - intros Hn i k e e' Hik Hi Hk Hnull. destruct (H8 Hn) as [H|H]; [|by eapply Forall_lookup_1 in H].
    destruct (Z.le_gt_cases (Z.of_nat i) last) as [Hle|Hgt]; [rewrite (H i e Hle Hi) in Hnull; done|].
    apply (H6 k); [lia|done].
Qed.

(** ** The loop in memory *)

Notation szd := (sizeof_Dyn L).
Notation entries := (slots (sizeof_Dyn L)).

Lemma swap_ok dyn n i k buf a b : (i < n)%nat -> (k < n)%nat -> (dyn + n * szd <= length buf)%nat ->
  entries dyn n buf !! i = Some a -> entries dyn n buf !! k = Some b ->
  exists buf', swap L (Z.of_nat dyn + Z.of_nat i * Z.of_nat szd) (Z.of_nat dyn + Z.of_nat k * Z.of_nat szd) buf = Ret buf' /\
    frame dyn (dyn + n * szd) buf buf' /\ entries dyn n buf' = <[k := a]> (<[i := b]> (entries dyn n buf)).
Proof.
  intros Hi Hk Hl Ha Hb. pose proof (slot_inside szd dyn n i Hi) as Si. pose proof (slot_inside szd dyn n k Hk) as Sk.
  rewrite lookup_slots in Ha, Hb by done. injection Ha as <-. injection Hb as <-.
  assert (Li : length (slot szd dyn i buf) = szd) by (apply length_member; lia).
  assert (Lk : length (slot szd dyn k buf) = szd) by (apply length_member; lia).
  unfold swap. rewrite (read_bytes_at (dyn + i * szd) (Z.of_nat dyn + Z.of_nat i * Z.of_nat szd)) by lia. cbn [mbind outcome_bind].
  rewrite (read_bytes_at (dyn + k * szd)) by lia. cbn [mbind outcome_bind].
  change (member (dyn + i * szd) szd buf) with (slot szd dyn i buf). change (member (dyn + k * szd) szd buf) with (slot szd dyn k buf).
  rewrite (write_bytes_at (dyn + i * szd + 0)) by (rewrite ?Lk; lia). cbn [mbind outcome_bind].
  set (buf1 := list_inserts (dyn + i * szd + 0) _ buf).
  assert (L1 : length buf1 = length buf) by apply length_inserts.
  rewrite (write_bytes_at (dyn + k * szd + 0)) by (rewrite ?Li, ?L1; lia).
  eexists. split; [reflexivity|]. split.
  - eapply frame_trans; eapply frame_weaken; try apply list_inserts_frame; rewrite ?Li, ?Lk; lia.
  - rewrite slots_write by (rewrite ?Li, ?L1; lia). unfold buf1. rewrite slots_write by (rewrite ?Lk; lia).
    f_equal; [|f_equal]; apply inserts_whole; rewrite ?Li, ?Lk; [|done].
    symmetry. apply length_member. rewrite length_inserts. lia.
Qed.

Lemma mask_ok dyn n i buf e : (i < n)%nat -> (dyn + n * szd <= length buf)%nat -> entries dyn n buf !! i = Some e ->
  exists buf', mask_flags cfg L (Z.of_nat dyn + Z.of_nat i * Z.of_nat szd) (tag e) buf = Ret buf' /\
    frame dyn (dyn + n * szd) buf buf' /\ entries dyn n buf' = <[i := mask e]> (entries dyn n buf).
Proof.
  intros Hi Hl He. pose proof (slot_inside szd dyn n i Hi) as Si. pose proof (ok_dyn HL) as Hd.
  assert (E : slot szd dyn i buf = e) by (rewrite lookup_slots in He by done; congruence).
  unfold mask_flags, mask. cbv zeta. destruct (tag e =? DT_FLAGS_1); cbn [andb].
  2:{ exists buf. split_and!; [done|apply frame_refl|by rewrite list_insert_id]. }
  rewrite (read_at (dyn + i * szd + word L)) by lia. cbn [mbind outcome_bind].
  replace (int_member (dyn + i * szd + word L) (word L) buf) with (int_member (word L) (word L) e)
    by (unfold int_member; rewrite (member_member (dyn + i * szd) szd) by lia; by rewrite <- E).
  rewrite Hdry, andb_true_r. case_match.
  - rewrite (write_at (dyn + i * szd + word L)) by lia. eexists. split; [reflexivity|]. split.
    + eapply frame_weaken; [| |apply list_inserts_frame]; rewrite ?le_bytes_length; lia.
    + rewrite slots_write by (rewrite ?le_bytes_length; lia). by rewrite E.
  - exists buf. split_and!; [done|apply frame_refl|by rewrite list_insert_id].
Qed.

Lemma null_ok dyn n i buf e : (i < n)%nat -> (dyn + n * szd <= length buf)%nat -> entries dyn n buf !! i = Some e ->
  exists buf', write (Z.of_nat dyn + Z.of_nat i * Z.of_nat szd) (word L) DT_NULL buf = Ret buf' /\
    frame dyn (dyn + n * szd) buf buf' /\ entries dyn n buf' = <[i := set_null e]> (entries dyn n buf).
Proof.
  intros Hi Hl He. pose proof (slot_inside szd dyn n i Hi) as Si. pose proof (ok_dyn HL) as Hd.
  assert (E : slot szd dyn i buf = e) by (rewrite lookup_slots in He by done; congruence).
  rewrite (write_at (dyn + i * szd + 0)) by lia. eexists. split; [reflexivity|]. split.
  - eapply frame_weaken; [| |apply list_inserts_frame]; rewrite ?le_bytes_length; lia.
  - rewrite slots_write by (rewrite ?le_bytes_length; lia). by rewrite E.
Qed.

Lemma tag_read dyn n i buf e : (i < n)%nat -> (dyn + n * szd <= length buf)%nat -> entries dyn n buf !! i = Some e ->
  read (Z.of_nat dyn + Z.of_nat i * Z.of_nat szd) (word L) buf = Ret (tag e).
Proof.
  intros Hi Hl He. pose proof (slot_inside szd dyn n i Hi) as Si. pose proof (ok_dyn HL) as Hd.
  assert (E : slot szd dyn i buf = e) by (rewrite lookup_slots in He by done; congruence).
  rewrite (read_at (dyn + i * szd + 0)) by lia. f_equal. unfold tag, int_member.
  rewrite (member_member (dyn + i * szd) szd) by lia. by rewrite <- E.
Qed.

Lemma dyn_loop_ok fuel dyn n es0 buf j last : inv es0 (entries dyn n buf) j last ->
  (dyn + n * szd <= length buf)%nat -> Z.of_nat n < 2 ^ 32 -> Z.of_nat n - Z.of_nat j + last + 1 < Z.of_nat fuel ->
  exists buf', dyn_loop cfg L is_aarch64 fuel (Z.of_nat dyn) (Z.of_nat n) (Z.of_nat j) (u32 last) buf = Ret buf' /\
    frame dyn (dyn + n * szd) buf buf' /\ cleaned es0 (entries dyn n buf').
Proof.
  revert buf j last. induction fuel as [|fuel IH]; intros buf j last Hinv Hl Hn Hf;
    pose proof (inv_j _ _ _ _ Hinv) as Hj; pose proof (inv_last _ _ _ _ Hinv) as Hlast; rewrite length_slots in Hj, Hlast; [lia|].
  cbn [dyn_loop]. destruct (Z.ltb_spec (Z.of_nat j) (Z.of_nat n)) as [Hlt|Hge].
  2:{ exists buf. split_and!; [done|apply frame_refl|]. apply (inv_end _ _ last). rewrite length_slots.
      assert (j = n) as -> by lia. exact Hinv. }
  pose proof (lookup_slots szd dyn n buf j ltac:(lia)) as He. set (e := slot szd dyn j buf) in He.
  rewrite (tag_read dyn n j buf e) by (done || lia). cbn [mbind outcome_bind].
  destruct (removed_name cfg is_aarch64 (tag e)) eqn:Er.
  - assert (Hr : removable e = true) by (unfold removable; rewrite Er; by apply bool_decide_eq_true_2).
    destruct (inv_target _ _ _ _ _ Hinv He Hr) as [Hle _]. rewrite Hdry.
    destruct (null_ok dyn n j buf e ltac:(lia) Hl He) as (buf1 & -> & F1 & E1). cbn [mbind outcome_bind].
    assert (L1 : length buf1 = length buf) by apply F1.
    pose proof (lookup_slots szd dyn n buf1 j ltac:(lia)) as Ha.
    pose proof (lookup_slots szd dyn n buf1 (Z.to_nat last) ltac:(lia)) as Hb.
    rewrite (u32_small last) by lia.
    destruct (swap_ok dyn n j (Z.to_nat last) buf1 _ _ ltac:(lia) ltac:(lia) ltac:(lia) Ha Hb) as (buf2 & Es & F2 & E2).
    rewrite Z2Nat.id in Es by lia. rewrite Es.
    cbn [mbind outcome_bind]. assert (L2 : length buf2 = length buf1) by apply F2.
    replace (u32 (u32 (Z.of_nat j - 1) + 1)) with (Z.of_nat j)
      by (unfold u32; rewrite Zplus_mod_idemp_l, Z.sub_add, Z.mod_small by lia; done).
    rewrite E1 in Ha, Hb, E2. pose proof (inv_remove _ _ _ _ _ _ _ Hinv He Hr Ha Hb) as Hinv'. cbv zeta in Hinv'.
    rewrite <- E2 in Hinv'. destruct (IH buf2 j (last - 1) Hinv' ltac:(lia) Hn ltac:(lia)) as (buf' & E & F & C).
    exists buf'. split_and!; [exact E| |exact C]. eapply frame_trans; [exact F1|]. by eapply frame_trans.
  - assert (Hr : removable e = false) by (unfold removable; rewrite Er; by apply bool_decide_eq_false_2; intros []).
    destruct (mask_ok dyn n j buf e ltac:(lia) Hl He) as (buf1 & -> & F1 & E1). cbn [mbind outcome_bind].
    assert (L1 : length buf1 = length buf) by apply F1. pose proof (inv_keep _ _ _ _ _ Hinv He Hr) as Hinv'.
    rewrite <- E1 in Hinv'. rewrite (u32_small (Z.of_nat j + 1)) by lia. replace (Z.of_nat j + 1) with (Z.of_nat (S j)) by lia.
    destruct (IH buf1 (S j) last Hinv' ltac:(lia) Hn ltac:(lia)) as (buf' & E & F & C).
    exists buf'. split_and!; [exact E| |exact C]. by eapply frame_trans.
Qed.

(** The search from the end. *)
Lemma last_nonnull_ok dyn n buf j fuel : (dyn + n * szd <= length buf)%nat -> (j < n)%nat -> (j < fuel)%nat ->
  exists last, last_nonnull L fuel (Z.of_nat dyn) (Z.of_nat j) buf = Ret (Z.of_nat last) /\ (last <= j)%nat /\
    (forall i, (last < i <= j)%nat -> null (slot szd dyn i buf) = true) /\
    (last = 0%nat \/ null (slot szd dyn last buf) = false).
Proof.
  intros Hl. revert j. induction fuel as [|fuel IH]; intros j Hj Hf; [lia|]. cbn [last_nonnull].
  destruct (Z.ltb_spec 0 (Z.of_nat j)) as [H0|H0].
  2:{ exists 0%nat. split_and!; [done|lia|lia|by left]. }
  rewrite (tag_read dyn n j buf (slot szd dyn j buf)) by (try done; by apply lookup_slots). cbn [mbind outcome_bind].
  fold (null (slot szd dyn j buf)). destruct (null (slot szd dyn j buf)) eqn:E; cbn [negb].
  - replace (Z.of_nat j - 1) with (Z.of_nat (j - 1)) by lia.
    destruct (IH (j - 1)%nat ltac:(lia) ltac:(lia)) as (last & E1 & Hle & Hn & Hlast).
    exists last. split_and!; [exact E1|lia| |exact Hlast]. intros i Hi.
    destruct (decide (i = j)) as [->|]; [done|]. apply Hn. lia.
  - exists j. split_and!; [done|lia|lia|by right].
Qed.

Lemma inv_start es last : Forall (fun e => sized e /\ Forall is_byte e) es -> (last < length es)%nat ->
  (forall i e, (last < i)%nat -> es !! i = Some e -> null e = true) ->
  (last = 0%nat \/ exists e, es !! last = Some e /\ null e = false) -> inv es es 0 (Z.of_nat last).
Proof.
  intros Hs Hl Hn Hlast. split; try done; try lia.
  - intros i e Hi. apply Hn. lia.
  - intros Hnl. destruct Hlast as [->|(e & He & Hne)].
    + destruct (lookup_lt_is_Some_2 es 0 Hl) as [e0 He0]. destruct (null e0) eqn:E0.
      * right. apply Forall_lookup. intros i e Hi. apply (Hnl 0%nat i e0 e); (done || lia).
      * left. intros i e Hi He. assert (i = 0%nat) as -> by lia. congruence.
    + left. intros i e' Hi He'. destruct (null e') eqn:E; [|done].
      rewrite (Hnl i last e' e ltac:(lia) He' He E) in Hne. done.
Qed.

Lemma clean_dynamic_ok dyn n buf : (1 <= n)%nat -> (dyn + n * szd <= length buf)%nat -> Z.of_nat n < 2 ^ 32 ->
  Forall (Forall is_byte) (entries dyn n buf) ->
  exists buf', clean_dynamic cfg L is_aarch64 (Z.of_nat dyn) (Z.of_nat n) buf = Ret buf' /\
    frame dyn (dyn + n * szd) buf buf' /\ cleaned (entries dyn n buf) (entries dyn n buf').
Proof.
  intros H1 Hl Hn Hb. unfold clean_dynamic. rewrite u32_small by lia. replace (Z.of_nat n - 1) with (Z.of_nat (n - 1)) by lia.
  assert (Hsz : (1 <= szd)%nat) by (pose proof (ok_dyn HL); destruct (ok_word HL); lia).
  assert (Hnl : (n <= length buf)%nat) by nia.
  destruct (last_nonnull_ok dyn n buf (n - 1) (S (length buf)) Hl ltac:(lia) ltac:(lia)) as (last & -> & Hle & Hnull & Hlast).
  cbn [mbind outcome_bind]. rewrite <- (u32_small (Z.of_nat last)) by lia.
  apply (dyn_loop_ok _ dyn n _ buf 0 (Z.of_nat last)); [|done|done|lia].
  apply inv_start; rewrite ?length_slots; [|lia| |].
  - apply Forall_lookup. intros i e Hi. pose proof (Forall_lookup_1 _ _ _ _ Hb Hi) as Hbe. split; [|exact Hbe].
    pose proof (lookup_lt_Some _ _ _ Hi) as Hlt. rewrite length_slots in Hlt.
    rewrite lookup_slots in Hi by done. injection Hi as <-. pose proof (slot_inside szd dyn n i Hlt). apply length_member. lia.
  - intros i e Hi He. pose proof (lookup_lt_Some _ _ _ He) as Hlt. rewrite length_slots in Hlt.
    rewrite lookup_slots in He by done. injection He as <-. apply Hnull. lia.
  - destruct Hlast as [->|Hn0]; [by left|right]. eexists. split; [apply lookup_slots; lia|done].
Qed.

(** ** Program headers *)

(** The ranges from [a], of [n] bytes, and from [b], of [m], have no byte in common. *)
Definition apart (a n b m : nat) : Prop := n = 0%nat \/ m = 0%nat \/ (a + n <= b)%nat \/ (b + m <= a)%nat.

Definition mend_tls (st : list Z) : list Z :=
  if (int_member 0 4 st =? PT_TLS) && (int_member (p_align L) (word L) st <? Z.of_nat (word L) * 8)
  then list_inserts (p_align L) (le_bytes (word L) (Z.of_nat (word L) * 8)) st else st.

Notation szp := (sizeof_Phdr L).
Notation szs := (sizeof_Shdr L).

Lemma slot_int s base i o n buf : (o + n <= s)%nat -> int_member (base + i * s + o) n buf = int_member o n (slot s base i buf).
Proof. intros H. unfold int_member, slot. by rewrite (member_member (base + i * s) s). Qed.

Lemma tls_step table n i buf : (i < n)%nat -> (table + n * szp <= length buf)%nat ->
  let entry := Z.of_nat table + Z.of_nat i * Z.of_nat szp in
  exists buf',
    (p_type ← read entry 4 buf;
     if p_type =? PT_TLS then
       align ← read (entry + Z.of_nat (p_align L)) (word L) buf;
       let tls_min_alignment := Z.of_nat (word L) * 8 in
       if (align <? tls_min_alignment) && negb (dry_run cfg)
       then write (entry + Z.of_nat (p_align L)) (word L) tls_min_alignment buf
       else Ret buf
     else Ret buf) = Ret buf' /\
    frame table (table + n * szp) buf buf' /\
    slots szp table n buf' = <[i := mend_tls (slot szp table i buf)]> (slots szp table n buf).
Proof.
  intros Hi Hl entry. pose proof (slot_inside szp table n i Hi) as Si. destruct (ok_align HL) as [Ha1 Ha2].
  rewrite (read_at (table + i * szp + 0) entry) by (unfold entry; lia). unfold entry. cbn [mbind outcome_bind].
  rewrite slot_int by lia. unfold mend_tls.
  assert (Hid : slots szp table n buf = <[i := slot szp table i buf]> (slots szp table n buf))
    by (by rewrite list_insert_id by (by apply lookup_slots)).
  destruct (int_member 0 4 (slot szp table i buf) =? PT_TLS); cbn [andb].
  2:{ exists buf. split_and!; [done|apply frame_refl|exact Hid]. }
  rewrite (read_at (table + i * szp + p_align L)) by lia. cbn [mbind outcome_bind]. rewrite slot_int by lia. rewrite Hdry, andb_true_r.
  destruct (_ <? _); [|exists buf; split_and!; [done|apply frame_refl|exact Hid]].
  rewrite (write_at (table + i * szp + p_align L)) by lia. eexists. split; [reflexivity|]. split.
  - eapply frame_weaken; [| |apply list_inserts_frame]; rewrite ?le_bytes_length; lia.
  - by rewrite slots_write by (rewrite ?le_bytes_length; lia).
Qed.

Lemma frame_int lo hi (b b' : list Z) o n : frame lo hi b b' -> apart o n lo (hi - lo) -> (lo <= hi)%nat ->
  int_member o n b' = int_member o n b.
Proof.
  intros [Hl H] Ha Hlo. unfold int_member. f_equal. apply member_same. intros i Hi. apply H.
  unfold apart in Ha. lia.
Qed.

Lemma bind_assoc {A B C} (o : outcome A) (f : A -> outcome B) (g : B -> outcome C) :
  (o ≫= f) ≫= g = o ≫= (fun x => f x ≫= g).
Proof. by destruct o. Qed.

Lemma tls_loop_ok fuel table n i buf : int_member (e_phnum L) 2 buf = Z.of_nat n ->
  apart (e_phnum L) 2 table (n * szp) -> (table + n * szp <= length buf)%nat -> (sizeof_Ehdr L <= length buf)%nat ->
  (n - i < fuel)%nat ->
  exists buf', tls_loop cfg L fuel (Z.of_nat table) (Z.of_nat i) buf = Ret buf' /\
    frame table (table + n * szp) buf buf' /\
    forall k, (k < n)%nat -> slot szp table k buf' = if (i <=? k)%nat then mend_tls (slot szp table k buf) else slot szp table k buf.
Proof.
  pose proof (ok_ehdr HL) as Hh.
  revert i buf. induction fuel as [|fuel IH]; intros i buf Hn Hap Hl Hsz Hf; cbn [tls_loop]; [lia|].
  rewrite (read_at (e_phnum L) (Z.of_nat (e_phnum L))) by lia. cbn [mbind outcome_bind]. rewrite Hn.
  destruct (Z.ltb_spec (Z.of_nat i) (Z.of_nat n)) as [Hi|Hi].
  2:{ exists buf. split_and!; [done|apply frame_refl|]. intros k Hk. destruct (Nat.leb_spec i k); [lia|done]. }
  destruct (tls_step table n i buf ltac:(lia) Hl) as (buf1 & E & F1 & S1). cbv zeta in E |- *.
  change (@outcome_bind ?A ?B ?f ?o) with (o ≫= f) in E |- *. rewrite <- bind_assoc, E. cbn [mbind outcome_bind].
  replace (Z.of_nat i + 1) with (Z.of_nat (S i)) by lia. pose proof F1 as [L1 _].
  destruct (IH (S i) buf1) as (buf' & E' & F' & S'); [|done|lia|lia|lia|].
  { rewrite <- Hn. eapply frame_int; [exact F1| |lia]. by replace (table + n * szp - table)%nat with (n * szp)%nat by lia. }
  exists buf'. split_and!; [exact E'|by eapply frame_trans|]. intros k Hk. rewrite S' by done.
  assert (Hs1 : slot szp table k buf1 = if decide (k = i) then mend_tls (slot szp table i buf) else slot szp table k buf).
  { apply (inj Some). rewrite <- (lookup_slots szp table n buf1 k Hk), S1. destruct (decide (k = i)) as [->|].
    - apply list_lookup_insert_eq. by rewrite length_slots.
    - rewrite list_lookup_insert_ne by done. by apply lookup_slots. }
  rewrite Hs1. destruct (Nat.leb_spec (S i) k), (Nat.leb_spec i k), (decide (k = i)) as [->|]; (done || lia).
Qed.

(** ** Section headers *)

Notation type st := (int_member sh_type 4 st).
Definition sec_off (st : list Z) : nat := Z.to_nat (int_member (sh_offset L) (word L) st).
Definition sec_size (st : list Z) : nat := Z.to_nat (int_member (sh_size L) (word L) st).
(** The entries of a dynamic section. *)
Definition sec_entries (st buf : list Z) : list (list Z) := slots szd (sec_off st) (sec_size st / szd) buf.
Definition mend_section (st : list Z) : list Z :=
  if (api_level cfg <? 23) && version_section (type st) then list_inserts sh_type (le_bytes 4 SHT_NULL) st else st.

(** Section headers whose dynamic sections are inside the file and apart from the
    header of the file, from their table and from each other. *)
Record wf_sections (table n : nat) (buf : list Z) : Prop := {
  ws_table : (table + n * szs <= length buf)%nat;
  ws_header : apart 0 (sizeof_Ehdr L) table (n * szs);
  ws_number : int_member (e_shnum L) 2 buf = Z.of_nat n;
  ws_dynamic k : (1 <= k < n)%nat -> type (slot szs table k buf) = SHT_DYNAMIC ->
    let st := slot szs table k buf in
    (sec_off st + sec_size st <= length buf)%nat /\ (szd <= sec_size st)%nat /\
    apart 0 (sizeof_Ehdr L) (sec_off st) (sec_size st) /\ apart table (n * szs) (sec_off st) (sec_size st);
  ws_apart k k' : (1 <= k < n)%nat -> (1 <= k' < n)%nat -> k <> k' ->
    type (slot szs table k buf) = SHT_DYNAMIC -> type (slot szs table k' buf) = SHT_DYNAMIC ->
    apart (sec_off (slot szs table k buf)) (sec_size (slot szs table k buf))
          (sec_off (slot szs table k' buf)) (sec_size (slot szs table k' buf))
}.

Definition in_range (p a n : nat) : Prop := (a <= p < a + n)%nat.

(** The sections before [i] were processed: [b] is what [buf] has become. *)
Record processed (table n i : nat) (buf b : list Z) : Prop := {
  pr_length : length b = length buf;
  pr_headers k : (k < n)%nat ->
    slot szs table k b = if (1 <=? k)%nat && (k <? i)%nat then mend_section (slot szs table k buf) else slot szs table k buf;
  pr_cleaned k : (1 <= k < n)%nat -> type (slot szs table k buf) = SHT_DYNAMIC ->
    let st := slot szs table k buf in
    if (k <? i)%nat then cleaned (sec_entries st buf) (sec_entries st b)
    else same_bytes (sec_off st) (sec_off st + sec_size st) buf b;
  pr_rest p : ~ in_range p table (n * szs) ->
    (forall k, (1 <= k < n)%nat -> type (slot szs table k buf) = SHT_DYNAMIC ->
       ~ in_range p (sec_off (slot szs table k buf)) (sec_size (slot szs table k buf))) ->
    b !! p = buf !! p
}.

Lemma entries_inside st : (sec_off st + sec_size st / szd * szd <= sec_off st + sec_size st)%nat.
Proof.
  pose proof (ok_dyn HL). destruct (ok_word HL); pose proof (Nat.Div0.mul_div_le (sec_size st) szd); lia.
Qed.
Lemma sec_entries_same st b b' : same_bytes (sec_off st) (sec_off st + sec_size st) b b' -> sec_entries st b' = sec_entries st b.
Proof. intros H. apply slots_same. intros i Hi. apply H. pose proof (entries_inside st). lia. Qed.

(** A turn that changes only a range apart from some bytes. *)
Lemma frame_apart lo n (b b' : list Z) a m : frame lo (lo + n) b b' -> apart a m lo n -> same_bytes a (a + m) b b'.
Proof. intros [_ H] Ha i Hi. apply H. unfold apart in Ha. lia. Qed.
Lemma apart_sym a n b m : apart a n b m -> apart b m a n.
Proof. unfold apart. lia. Qed.
Lemma same_trans lo hi (a b c : list Z) : same_bytes lo hi a b -> same_bytes lo hi b c -> same_bytes lo hi a c.
Proof. intros H1 H2 i Hi. by rewrite H2, H1. Qed.
Lemma slot_same s base n k (b b' : list Z) : (k < n)%nat -> same_bytes base (base + n * s) b b' -> slot s base k b' = slot s base k b.
Proof. intros Hk H. apply member_same. intros i Hi. apply H. pose proof (slot_inside s base n k Hk). lia. Qed.


Section Sections.
Context (table n : nat) (buf : list Z) (Hwf : wf_sections table n buf) (Hbytes : Forall is_byte buf).
Context (Hsmall : Z.of_nat (length buf) < 2 ^ 32) (Hehdr : (sizeof_Ehdr L <= length buf)%nat).

Notation shdr k := (slot szs table k buf).
Notation dynamic k := ((1 <= k < n)%nat /\ type (shdr k) = SHT_DYNAMIC).

Lemma slots_bytes s base m : Forall (Forall is_byte) (slots s base m buf).
Proof.
  apply Forall_lookup. intros i e Hi. pose proof (lookup_lt_Some _ _ _ Hi) as Hlt. rewrite length_slots in Hlt.
  rewrite lookup_slots in Hi by done. injection Hi as <-. unfold slot, member. by apply Forall_take, Forall_drop.
Qed.

(** Turns that leave the section headers alone. *)
Lemma processed_dynamic i b b' : dynamic i -> processed table n i buf b ->
  frame (sec_off (shdr i)) (sec_off (shdr i) + sec_size (shdr i)) b b' ->
  cleaned (sec_entries (shdr i) buf) (sec_entries (shdr i) b') -> processed table n (S i) buf b'.
Proof.
  intros [Hi Ht] [P1 P2 P3 P4] F C. destruct (ws_dynamic _ _ _ Hwf i Hi Ht) as (_ & _ & _ & Ha). split.
  - rewrite <- P1. apply F.
  - intros k Hk. rewrite (slot_same szs table n k b b' Hk) by (eapply frame_apart; [exact F|exact Ha]). rewrite P2 by done.
    destruct (decide (k = i)) as [->|]; [|by destruct (Nat.ltb_spec k i), (Nat.ltb_spec k (S i)); try lia].
    rewrite Nat.ltb_irrefl, andb_false_r. case_match; [|done]. unfold mend_section. by rewrite Ht, andb_false_r.
  - intros k Hk Htk. cbv zeta. destruct (decide (k = i)) as [->|Hne].
    { by rewrite (proj2 (Nat.ltb_lt i (S i)) ltac:(lia)). }
    assert (Hs : same_bytes (sec_off (shdr k)) (sec_off (shdr k) + sec_size (shdr k)) b b').
    { eapply frame_apart; [exact F|]. by apply (ws_apart _ _ _ Hwf). }
    specialize (P3 k Hk Htk). cbv zeta in P3.
    destruct (Nat.ltb_spec k i), (Nat.ltb_spec k (S i)); try lia; [by rewrite (sec_entries_same _ _ _ Hs)|by eapply same_trans].
  - intros p Hp1 Hp2. rewrite <- P4 by done. apply F. specialize (Hp2 i Hi Ht). unfold in_range in Hp2. lia.
Qed.

Lemma processed_header i b b' : (1 <= i < n)%nat -> type (shdr i) <> SHT_DYNAMIC -> processed table n i buf b ->
  frame table (table + n * szs) b b' ->
  slots szs table n b' = <[i := mend_section (shdr i)]> (slots szs table n b) -> processed table n (S i) buf b'.
Proof.
  intros Hi Ht [P1 P2 P3 P4] F S. split.
  - rewrite <- P1. apply F.
  - intros k Hk. apply (inj Some). rewrite <- (lookup_slots szs table n b' k Hk), S.
    destruct (decide (k = i)) as [->|Hne].
    + rewrite list_lookup_insert_eq by (by rewrite length_slots).
      by rewrite (proj2 (Nat.leb_le 1 i) ltac:(lia)), (proj2 (Nat.ltb_lt i (Datatypes.S i)) ltac:(lia)).
    + rewrite list_lookup_insert_ne, lookup_slots, P2 by done. f_equal.
      by destruct (Nat.ltb_spec k i), (Nat.ltb_spec k (Datatypes.S i)); try lia.
  - intros k Hk Htk. cbv zeta. assert (Hne : k <> i) by (by intros ->).
    destruct (ws_dynamic _ _ _ Hwf k Hk Htk) as (_ & _ & _ & Ha).
    assert (Hs : same_bytes (sec_off (shdr k)) (sec_off (shdr k) + sec_size (shdr k)) b b')
      by (eapply frame_apart; [exact F|by apply apart_sym]).
    specialize (P3 k Hk Htk). cbv zeta in P3.
    destruct (Nat.ltb_spec k i), (Nat.ltb_spec k (Datatypes.S i)); try lia; [by rewrite (sec_entries_same _ _ _ Hs)|by eapply same_trans].
  - intros p Hp1 Hp2. rewrite <- P4 by done. apply F. unfold in_range in Hp1. lia.
Qed.

Lemma header_same i b p : processed table n i buf b -> (p < sizeof_Ehdr L)%nat -> b !! p = buf !! p.
Proof.
  intros P Hp. apply (pr_rest _ _ _ _ _ P).
  - pose proof (ws_header _ _ _ Hwf) as Ha. unfold in_range, apart in *. pose proof (ok_ehdr HL). unfold e_machine in *. lia.
  - intros k Hk Ht. destruct (ws_dynamic _ _ _ Hwf k Hk Ht) as (_ & _ & Ha & _). unfold in_range, apart in *.
    pose proof (ok_ehdr HL). unfold e_machine in *. lia.
Qed.

Lemma sec_member_range o st : Forall is_byte st -> (o + word L <= length st)%nat ->
  int_member o (word L) st = Z.of_nat (Z.to_nat (int_member o (word L) st)).
Proof.
  intros Hb Hl. rewrite Z2Nat.id; [done|]. unfold int_member.
  pose proof (le_number_range (member o (word L) st)) as H. apply H. unfold member. by apply Forall_take, Forall_drop.
Qed.

Lemma sum_fits k : dynamic k ->
  (Z.of_nat (sec_off (shdr k)) + Z.of_nat (sec_size (shdr k))) mod 256 ^ Z.of_nat (word L)
  = Z.of_nat (sec_off (shdr k)) + Z.of_nat (sec_size (shdr k)).
Proof.
  intros [Hk Ht]. destruct (ws_dynamic _ _ _ Hwf k Hk Ht) as (Hin & _). apply Z.mod_small.
  destruct (ok_word HL) as [-> | ->]; [change (256 ^ Z.of_nat 4) with (2 ^ 32)|change (256 ^ Z.of_nat 8) with (2 ^ 64)]; lia.
Qed.

Lemma section_step_ok i b : (1 <= i < n)%nat -> processed table n i buf b ->
  exists b', section_step cfg L is_aarch64 (Z.of_nat table + Z.of_nat i * Z.of_nat szs) b = Ret (Some b') /\
    processed table n (S i) buf b'.
Proof.
  intros Hi P. pose proof (slot_inside szs table n i ltac:(lia)) as Si. pose proof (ws_table _ _ _ Hwf) as Htab.
  pose proof (pr_length _ _ _ _ _ P) as Hl. pose proof (ok_shdr HL) as Hsh.
  assert (Hst : slot szs table i b = shdr i).
  { rewrite (pr_headers _ _ _ _ _ P) by lia. by rewrite Nat.ltb_irrefl, andb_false_r. }
  assert (Hlen : length (shdr i) = szs) by (apply length_member; lia).
  assert (Hstb : Forall is_byte (shdr i)) by (unfold slot, member; by apply Forall_take, Forall_drop).
  unfold section_step. rewrite (read_at (table + i * szs + sh_type) (_ + Z.of_nat sh_type)) by (unfold sh_type; lia). cbn [mbind outcome_bind].
  rewrite slot_int, Hst by (unfold sh_type; lia). destruct (Z.eqb_spec (type (shdr i)) SHT_DYNAMIC) as [Ht|Ht].
  - destruct (ws_dynamic _ _ _ Hwf i Hi Ht) as (Hin & Hne & _).
    rewrite (read_at (table + i * szs + sh_offset L) (_ + Z.of_nat (sh_offset L))) by lia. cbn [mbind outcome_bind].
    rewrite (read_at (table + i * szs + sh_size L) (_ + Z.of_nat (sh_size L))) by lia. cbn [mbind outcome_bind].
    rewrite !slot_int, Hst by lia. rewrite (sec_member_range (sh_offset L)), (sec_member_range (sh_size L)) by (done || lia).
    fold (sec_off (shdr i)) (sec_size (shdr i)). rewrite sum_fits by done.
    destruct (Z.ltb_spec (Z.of_nat (length b)) (Z.of_nat (sec_off (shdr i)) + Z.of_nat (sec_size (shdr i)))); [lia|].
    rewrite <- Nat2Z.inj_div. pose proof (entries_inside (shdr i)) as He.
    assert (Hsz : (1 <= szd)%nat) by (pose proof (ok_dyn HL); destruct (ok_word HL); lia).
    pose proof (pr_cleaned _ _ _ _ _ P i Hi Ht) as Hsame. cbv zeta in Hsame. rewrite Nat.ltb_irrefl in Hsame.
    pose proof (sec_entries_same _ _ _ Hsame) as Hse.
    assert (Hq : (1 <= sec_size (shdr i) / szd)%nat) by (apply Nat.div_str_pos; lia).
    destruct (clean_dynamic_ok (sec_off (shdr i)) (sec_size (shdr i) / szd) b) as (b' & E & F & C); [done|lia|nia| |].
    { unfold sec_entries in Hse. rewrite Hse. apply slots_bytes. }
    rewrite E. cbn [mbind outcome_bind]. exists b'. split; [done|]. apply (processed_dynamic i b b'); [done|done| |].
    + eapply frame_weaken; [| |exact F]; lia.
    + unfold sec_entries in *. rewrite <- Hse. exact C.
  - rewrite Hdry. cbn [negb]. rewrite andb_true_r. destruct ((api_level cfg <? 23) && version_section (type (shdr i))) eqn:Ev.
    + rewrite (write_at (table + i * szs + sh_type)) by (unfold sh_type; lia). cbn [mbind outcome_bind].
      eexists. split; [reflexivity|]. apply (processed_header i b); [done|done|done| |].
      * eapply frame_weaken; [| |apply list_inserts_frame]; rewrite ?le_bytes_length; unfold sh_type; lia.
      * rewrite slots_write by (rewrite ?le_bytes_length; unfold sh_type; lia). rewrite Hst. unfold mend_section. by rewrite Ev.
    + exists b. split; [done|]. apply (processed_header i b); [done|done|done|apply frame_refl|].
      unfold mend_section. rewrite Ev, list_insert_id; [done|]. rewrite <- Hst. apply lookup_slots. lia.
Qed.

Lemma section_loop_ok fuel i b : (1 <= i)%nat -> processed table n i buf b -> (n - i < fuel)%nat ->
  exists b', section_loop cfg L is_aarch64 fuel (Z.of_nat table) (Z.of_nat i) b = Ret (true, b') /\
    processed table n (Nat.max i n) buf b'.
Proof.
  pose proof (ok_ehdr HL) as Hh.
  revert i b. induction fuel as [|fuel IH]; intros i b Hi P Hf; cbn [section_loop]; [lia|].
  pose proof (pr_length _ _ _ _ _ P) as Hl. rewrite (read_at (e_shnum L) (Z.of_nat (e_shnum L))) by lia. cbn [mbind outcome_bind].
  replace (int_member (e_shnum L) 2 b) with (Z.of_nat n).
  2:{ rewrite <- (ws_number _ _ _ Hwf). unfold int_member. f_equal. symmetry. apply member_same. intros p Hp.
      apply (header_same i b p P). lia. }
  destruct (Z.ltb_spec (Z.of_nat i) (Z.of_nat n)) as [Hlt|Hge].
  - destruct (section_step_ok i b ltac:(lia) P) as (b1 & -> & P1). cbn [mbind outcome_bind].
    replace (Z.of_nat i + 1) with (Z.of_nat (S i)) by lia.
    destruct (IH (S i) b1 ltac:(lia) P1 ltac:(lia)) as (b' & E & P'). exists b'. split; [exact E|].
    by replace (Nat.max i n) with (Nat.max (S i) n) by lia.
  - exists b. split; [done|]. by rewrite Nat.max_l by lia.
Qed.
End Sections.

(** ** The whole file *)

Definition phoff (buf : list Z) : nat := Z.to_nat (int_member (e_phoff L) (word L) buf).
Definition phnum (buf : list Z) : nat := Z.to_nat (int_member (e_phnum L) 2 buf).
Definition shoff (buf : list Z) : nat := Z.to_nat (int_member (e_shoff L) (word L) buf).
Definition shnum (buf : list Z) : nat := Z.to_nat (int_member (e_shnum L) 2 buf).

(** Files whose header, tables and dynamic sections are inside and apart. *)
Record wf_elf (buf : list Z) : Prop := {
  we_bytes : Forall is_byte buf;
  we_size : (sizeof_Ehdr L <= length buf)%nat /\ Z.of_nat (length buf) < 2 ^ 32;
  we_programs : (phoff buf + phnum buf * szp <= length buf)%nat;
  we_header : apart 0 (sizeof_Ehdr L) (phoff buf) (phnum buf * szp);
  we_sections : wf_sections (shoff buf) (shnum buf) buf;
  we_tables : apart (shoff buf) (shnum buf * szs) (phoff buf) (phnum buf * szp);
  we_dynamic k : (1 <= k < shnum buf)%nat -> type (slot szs (shoff buf) k buf) = SHT_DYNAMIC ->
    let st := slot szs (shoff buf) k buf in apart (sec_off st) (sec_size st) (phoff buf) (phnum buf * szp)
}.

(** The specification of a file that was cleaned: the TLS segments are aligned, the
    version sections are gone, the dynamic sections are cleaned, and every other
    byte is as it was. *)
Record clean_elf (buf buf' : list Z) : Prop := {
  ce_length : length buf' = length buf;
  ce_programs k : (k < phnum buf)%nat -> slot szp (phoff buf) k buf'
    = if (1 <=? k)%nat then mend_tls (slot szp (phoff buf) k buf) else slot szp (phoff buf) k buf;
  ce_sections k : (k < shnum buf)%nat -> slot szs (shoff buf) k buf'
    = if (1 <=? k)%nat then mend_section (slot szs (shoff buf) k buf) else slot szs (shoff buf) k buf;
  ce_dynamic k : (1 <= k < shnum buf)%nat -> type (slot szs (shoff buf) k buf) = SHT_DYNAMIC ->
    let st := slot szs (shoff buf) k buf in cleaned (sec_entries st buf) (sec_entries st buf');
  ce_rest p : ~ in_range p (phoff buf) (phnum buf * szp) -> ~ in_range p (shoff buf) (shnum buf * szs) ->
    (forall k, (1 <= k < shnum buf)%nat -> type (slot szs (shoff buf) k buf) = SHT_DYNAMIC ->
       let st := slot szs (shoff buf) k buf in ~ in_range p (sec_off st) (sec_size st)) ->
    buf' !! p = buf !! p
}.

Lemma processed_start table n buf : processed table n 1 buf buf.
Proof.
  split; try done.
  - intros k Hk. by destruct k.
  - intros k Hk Ht. cbv zeta. by destruct (Nat.ltb_spec k 1); [lia|].
Qed.

Lemma wf_sections_same table n buf buf' : length buf' = length buf -> same_bytes 0 (sizeof_Ehdr L) buf buf' ->
  same_bytes table (table + n * szs) buf buf' -> wf_sections table n buf -> wf_sections table n buf'.
Proof.
  intros Hl Hh Hs [W1 W2 W3 W4 W5]. pose proof (ok_ehdr HL) as He.
  assert (Hk : forall k, (k < n)%nat -> slot szs table k buf' = slot szs table k buf) by (intros k Hk; by apply (slot_same szs table n)).
  split; [by rewrite Hl|done| | |].
  - rewrite <- W3. unfold int_member. f_equal. apply member_same. intros i Hi. apply Hh. lia.
  - intros k Hkn. rewrite Hk, Hl by lia. by apply W4.
  - intros k k' H1 H2. rewrite !Hk by lia. by apply W5.
Qed.

Lemma header_int o n buf : Forall is_byte buf -> (o + n <= length buf)%nat ->
  int_member o n buf = Z.of_nat (Z.to_nat (int_member o n buf)) /\ int_member o n buf < 256 ^ Z.of_nat n.
Proof.
  intros Hb Hl. assert (Hm : Forall is_byte (member o n buf)) by (unfold member; by apply Forall_take, Forall_drop).
  apply le_number_range in Hm. rewrite length_member in Hm by done. unfold int_member. lia.
Qed.

(** What the two loops change, composed. *)
Lemma compose buf buf1 buf' : wf_elf buf -> frame (phoff buf) (phoff buf + phnum buf * szp) buf buf1 ->
  (forall k, (k < phnum buf)%nat -> slot szp (phoff buf) k buf1
    = if (1 <=? k)%nat then mend_tls (slot szp (phoff buf) k buf) else slot szp (phoff buf) k buf) ->
  processed (shoff buf) (shnum buf) (Nat.max 1 (shnum buf)) buf1 buf' -> clean_elf buf buf'.
Proof.
  intros [W1 W2 W3 W4 W5 W6 W7] F Hp [P1 P2 P3 P4].
  assert (Hk : forall k, (k < shnum buf)%nat -> slot szs (shoff buf) k buf1 = slot szs (shoff buf) k buf).
  { intros k Hk. eapply slot_same; [exact Hk|]. eapply frame_apart; [exact F|exact W6]. }
  split.
  - rewrite P1. apply F.
  - intros k Hkn. rewrite <- Hp by done. apply (slot_same szp _ (phnum buf)); [done|]. intros p Hpr. apply P4.
    + unfold in_range, apart in *. lia.
    + intros j Hj. rewrite Hk by lia. intros Ht. specialize (W7 j Hj Ht). cbv zeta in W7. unfold in_range, apart in *. lia.
  - intros k Hkn. rewrite P2, Hk by done. by destruct (Nat.ltb_spec k (Nat.max 1 (shnum buf))); [rewrite andb_true_r|lia].
  - intros k Hkn Ht. specialize (P3 k Hkn). rewrite Hk in P3 by lia. specialize (P3 Ht). cbv zeta in *.
    destruct (Nat.ltb_spec k (Nat.max 1 (shnum buf))); [|lia].
    rewrite (sec_entries_same (slot szs (shoff buf) k buf) buf buf1) in P3; [done|].
    eapply frame_apart; [exact F|]. by apply (W7 k).
  - intros p H1 H2 H3. rewrite P4; [|done|].
    + apply F. unfold in_range in H1. lia.
    + intros j Hj. rewrite Hk by lia. intros Ht. by apply H3.
Qed.

Lemma programs_bytes buf buf1 : Forall is_byte buf -> (phoff buf + phnum buf * szp <= length buf)%nat ->
  frame (phoff buf) (phoff buf + phnum buf * szp) buf buf1 ->
  (forall k, (k < phnum buf)%nat -> slot szp (phoff buf) k buf1
    = if (1 <=? k)%nat then mend_tls (slot szp (phoff buf) k buf) else slot szp (phoff buf) k buf) ->
  Forall is_byte buf1.
Proof.
  intros Hb Hl [L1 F] Hs. apply Forall_lookup. intros i x Hi.
  destruct (decide (phoff buf <= i < phoff buf + phnum buf * szp)%nat) as [Hr|Hr].
  2:{ eapply Forall_lookup_1; [exact Hb|]. rewrite <- (F i) by lia. exact Hi. }
  destruct (ok_align HL) as [Ha Ha']. set (k := ((i - phoff buf) / szp)%nat). set (r := ((i - phoff buf) mod szp)%nat).
  assert (Hd : i = (phoff buf + k * szp + r)%nat) by (pose proof (Nat.div_mod_eq (i - phoff buf) szp); lia).
  assert (Hr' : (r < szp)%nat) by (apply Nat.mod_upper_bound; lia).
  assert (Hk : (k < phnum buf)%nat) by (apply Nat.Div0.div_lt_upper_bound; lia).
  assert (Hsl : Forall is_byte (slot szp (phoff buf) k buf)) by (unfold slot, member; by apply Forall_take, Forall_drop).
  apply (Forall_lookup_1 _ (slot szp (phoff buf) k buf1) r).
  - rewrite Hs by done. case_match; [|done]. unfold mend_tls. case_match; [by apply inserts_bytes|done].
  - unfold slot. rewrite lookup_member. destruct (decide _); [|lia]. by rewrite <- Hd.
Qed.

Lemma process_elf_ok buf : wf_elf buf -> (int_member e_machine 2 buf =? EM_AARCH64) = is_aarch64 ->
  exists buf', process_elf cfg L buf = Ret (true, buf') /\ clean_elf buf buf'.
Proof.
  intros W Hm. pose proof W as [W1 [W2 W2'] W3 W4 W5 W6 W7]. pose proof (ok_ehdr HL) as Hh. pose proof (ok_shdr HL) as Hsh.
  destruct (header_int (e_phoff L) (word L) buf W1 ltac:(lia)) as [Epo _].
  destruct (header_int (e_phnum L) 2 buf W1 ltac:(lia)) as [Epn Hpn].
  destruct (header_int (e_shoff L) (word L) buf W1 ltac:(lia)) as [Eso _].
  destruct (header_int (e_shnum L) 2 buf W1 ltac:(lia)) as [Esn Hsn].
  fold (phoff buf) in Epo. fold (phnum buf) in Epn. fold (shoff buf) in Eso. fold (shnum buf) in Esn.
  unfold process_elf. destruct (Z.ltb_spec (Z.of_nat (length buf)) (Z.of_nat szs)); [lia|].
  rewrite (read_at e_machine (Z.of_nat e_machine)) by lia. cbn [mbind outcome_bind].
  rewrite (read_at (e_phoff L) (Z.of_nat (e_phoff L))), (read_at (e_phnum L) (Z.of_nat (e_phnum L))) by lia. cbn [mbind outcome_bind].
  rewrite Epo, Epn, Hm. unfold u64 at 1. rewrite Z.mod_small by lia.
  destruct (Z.ltb_spec (Z.of_nat (length buf)) (Z.of_nat (phoff buf) + Z.of_nat szp * Z.of_nat (phnum buf))); [lia|].
  destruct (tls_loop_ok (Z.to_nat (2 ^ 16)) (phoff buf) (phnum buf) 1 buf Epn) as (buf1 & E1 & F1 & S1);
    [unfold apart in *; lia|done|done|lia|].
  change (Z.of_nat 1) with 1 in E1. rewrite E1. cbn [mbind outcome_bind]. pose proof F1 as [L1 _].
  assert (Hhead : same_bytes 0 (sizeof_Ehdr L) buf buf1) by (by apply (frame_apart (phoff buf) (phnum buf * szp) buf buf1 0)).
  assert (Hint : forall o n, (o + n <= sizeof_Ehdr L)%nat -> int_member o n buf1 = int_member o n buf)
    by (intros o n Ho; unfold int_member; f_equal; apply member_same; intros i Hi; apply Hhead; lia).
  rewrite (read_at (e_shoff L) (Z.of_nat (e_shoff L))), (read_at (e_shnum L) (Z.of_nat (e_shnum L))) by lia. cbn [mbind outcome_bind].
  rewrite !Hint, Eso, Esn by lia. pose proof (ws_table _ _ _ W5) as Wt. unfold u64. rewrite Z.mod_small by lia.
  destruct (Z.ltb_spec (Z.of_nat (length buf)) (Z.of_nat (shoff buf) + Z.of_nat szs * Z.of_nat (shnum buf))); [lia|].
  destruct (section_loop_ok (shoff buf) (shnum buf) buf1) with (fuel := Z.to_nat (2 ^ 16)) (i := 1%nat) (b := buf1)
    as (buf' & E2 & P); [|by eapply programs_bytes|lia|lia|lia|apply processed_start|lia|].
  { eapply wf_sections_same; [exact L1|exact Hhead| |exact W5]. eapply frame_apart; [exact F1|exact W6]. }
  exists buf'. split; [exact E2|]. by eapply compose.
Qed.
End Process.

(** ** The program *)

Lemma layouts_ok L : L = Elf32 \/ L = Elf64 -> layout_ok L.
Proof. unfold e_machine. intros [-> | ->]; (split; cbn; unfold e_machine; auto; lia). Qed.

Section Main.
Context `{FC : FileCalls} `{P : Platform}.

(** A name that does not start with a dash is not an option. *)
Lemma argmatch_name argv name o minlen skip : argv !! S skip = Some name -> (0 < minlen)%nat -> head name <> Some "-"%char ->
  argmatch argv ("-"%char :: o) ("-"%char :: "-"%char :: o) minlen false skip = Ret (false, None, skip).
Proof.
  intros Hn Hm Hh. unfold argmatch. rewrite Hn. unfold str_eq. rewrite bool_decide_eq_false_2 by (by intros ->).
  destruct (Nat.ltb_spec (length name) minlen); [done|]. cbn [orb].
  destruct name as [|c name]; [cbn in *; lia|]. rewrite bool_decide_eq_false_2; [done|]. cbn. intros [= ->]. done.
Qed.

(** What [main] does with the level it is given. *)
Definition config_for (level : Z) : config :=
  {| api_level := level; dry_run := false;
     supported_dt_flags_1 := if 23 <=? level then Z.lor (Z.lor DF_1_NOW DF_1_GLOBAL) DF_1_NODELETE else Z.lor DF_1_NOW DF_1_GLOBAL |}.

Lemma main_files program level name fs : head name <> Some "-"%char ->
  main [program; str "--api-level"; level; name] fs = parse_files (config_for (WgQuick.atoi level)) fs [name].
Proof.
  intros Hh. unfold main. cbn [length Nat.eqb].
  set (argv := [program; str "--api-level"; level; name]).
  change (argmatch argv (str "-help") (str "--help") 3 false 0) with (Ret (false, @None Z, 0%nat)).
  cbn [mbind outcome_bind].
  change (argmatch argv (str "-version") (str "--version") 3 false 0) with (Ret (false, @None Z, 0%nat)).
  cbn [mbind outcome_bind].
  change (argmatch argv (str "-api-level") (str "--api-level") 3 true 0) with (Ret (true, Some (WgQuick.atoi level), 2%nat)).
  cbn [mbind outcome_bind default].
  rewrite (argmatch_name argv name _ 3 2 eq_refl ltac:(lia) Hh : argmatch argv (str "-dry-run") (str "--dry-run") 3 false 2 = _).
  cbn [mbind outcome_bind].
  rewrite (argmatch_name argv name _ 3 2 eq_refl ltac:(lia) Hh : argmatch argv (str "-quiet") (str "--quiet") 3 false 2 = _).
  reflexivity.
Qed.

End Main.

(** ** A sample file *)

(** A file of AArch64 with a TLS segment, a dynamic section and a version section. *)
Definition sample_phdr (type align : Z) : list Z := le_bytes 4 type ++ replicate 44 0 ++ le_bytes 8 align.
Definition sample_shdr (type offset size : Z) : list Z :=
  le_bytes 4 0 ++ le_bytes 4 type ++ replicate 16 0 ++ le_bytes 8 offset ++ le_bytes 8 size ++ replicate 24 0.
Definition sample_dyn (tag val : Z) : list Z := le_bytes 8 tag ++ le_bytes 8 val.
Definition sample_ehdr : list Z :=
  ELF_MAGIC ++ [2; 1] ++ replicate 12 0 ++ le_bytes 2 EM_AARCH64 ++ replicate 12 0 ++ le_bytes 8 64 ++ le_bytes 8 176
  ++ replicate 8 0 ++ le_bytes 2 2 ++ replicate 2 0 ++ le_bytes 2 3 ++ replicate 2 0.
Definition sample_elf (align version size : Z) (dyns : list (list Z)) : list Z :=
  sample_ehdr ++ sample_phdr 1 4096 ++ sample_phdr PT_TLS align ++ sample_shdr 0 0 0
  ++ sample_shdr SHT_DYNAMIC 368 size ++ sample_shdr version 0 0 ++ concat dyns.
Definition sample_before : list Z := sample_elf 8 SHT_GNU_versym 64
  [sample_dyn DT_RPATH 5; sample_dyn DT_FLAGS_1 9; sample_dyn 1 7; sample_dyn DT_NULL 0].
Definition sample_after : list Z := sample_elf 64 SHT_NULL 64
  [sample_dyn 1 7; sample_dyn DT_FLAGS_1 1; sample_dyn DT_NULL 5; sample_dyn DT_NULL 0].

Lemma sample_before_wf : wf_elf Elf64 sample_before.
Proof.
  assert (Ho : phoff Elf64 sample_before = 64%nat /\ phnum Elf64 sample_before = 2%nat /\
    shoff Elf64 sample_before = 176%nat /\ shnum Elf64 sample_before = 3%nat) by (vm_compute; done).
  destruct Ho as (E1 & E2 & E3 & E4).
  assert (Hd : forall k, (1 <= k < 3)%nat -> int_member sh_type 4 (slot 64 176 k sample_before) = SHT_DYNAMIC -> k = 1%nat).
  { intros [|[|[|k]]] Hk Ht; try lia. by vm_compute in Ht. }
  assert (Hs : sec_off Elf64 (slot 64 176 1 sample_before) = 368%nat /\ sec_size Elf64 (slot 64 176 1 sample_before) = 64%nat)
    by (vm_compute; done).
  assert (Hl : length sample_before = 432%nat) by (vm_compute; done). destruct Hs as [Hs1 Hs2].
  split; rewrite ?E1, ?E2, ?E3, ?E4, ?Hl; unfold apart; cbn [sizeof_Ehdr sizeof_Phdr sizeof_Shdr sizeof_Dyn word Elf64]; try lia.
  - apply (bool_decide_unpack (Forall (fun b => 0 <= b < 256) sample_before)). vm_compute. exact I.
  - split; cbn [sizeof_Ehdr sizeof_Phdr sizeof_Shdr sizeof_Dyn word Elf64]; rewrite ?Hl; unfold apart; try lia.
    + vm_compute. done.
    + intros k Hk Ht. cbv zeta. rewrite (Hd k Hk Ht), Hs1, Hs2. lia.
    + intros k k' Hk Hk' Hne Ht Ht'. rewrite (Hd k Hk Ht), (Hd k' Hk' Ht') in Hne. done.
  - intros k Hk Ht. cbv zeta. rewrite (Hd k Hk Ht), Hs1, Hs2. lia.
Qed.

(** A system on which every call succeeds. *)
#[export] Instance calls_succeed : FileCalls :=
  {| fstat_ok := fun _ => true; mmap_ok := fun _ => true; msync_ok := fun _ => true; close_ok := fun _ => true |}.


(** What it does with the sample. *)
Lemma sample_cleaned : process_elf (config_for 21) Elf64 sample_before = Ret (true, sample_after).
Proof. vm_compute. reflexivity. Qed.

(** The option [--dry-run], which is to print only, moves entries all the same: the
    swap is outside the test. *)
Lemma dry_run_writes : exists buf', buf' <> sample_before /\
  process_elf {| api_level := 21; dry_run := true; supported_dt_flags_1 := 3 |} Elf64 sample_before = Ret (true, buf').
Proof. eexists. split; [|vm_compute; reflexivity]. vm_compute. discriminate. Qed.

(** An empty dynamic section: the search for the last entry starts at the index
    2^32 - 1 and reads far outside the file. *)
Lemma empty_dynamic_reads_outside :
  process_elf (config_for 21) Elf64 (sample_elf 8 SHT_GNU_versym 0 []) = NullDeref.
Proof. vm_compute. reflexivity. Qed.

(** [-api-level] as the last argument: the value is read through [argv[argc]]. *)
Lemma api_level_null (P : Platform) fs : main [str "elf-cleaner"; str "-api-level"] fs = NullDeref.
Proof. reflexivity. Qed.
End ElfFacts.
